(* ===== verification/_CoqProject ===== *)
-Q . S2P
Prelude.v
Counters.v
Js.v
Errors.v
Deadline.v
Lifetime.v
Admission.v
Framing.v
Upload.v
Buffering.v
Validators.v
Schema.v
Types.v
Protocol.v
Service.v
Request.v
Stream.v
Sessions.v
Observation.v
Fetch.v
Exchange.v
Client.v
Ipc.v
Batch.v
Bridge.v
Remote.v
Script.v
Release.v
Fixtures.v
Package.v
Publish.v
Artifact.v
Prepare.v
