(* ===== verification/Prelude.v ===== *)
(** * ja3proxy: a verification library for the TypeScript SDK

    The SDK (packages/typescript) sends HTTP requests through the ja3proxy service and
    hands out their responses.  This library models its source in packages/typescript/src,
    file by file, and the scripts beside it, and proves what each part promises.  Paths
    below are relative to that directory, and those of scripts to packages/typescript.

    ** The parts of the program

    - A caller creates a client (client.ts).  The client owns a service object
      (service.ts), which knows the endpoint, the token and the capabilities of the
      service, and three objects of concurrency.ts: an admission queue that bounds the
      requests in flight, a lifetime that knows the operations to wait for at a close, and
      a budget for the memory of buffered responses.
    - A request is checked, waits for a permit, fetches the capabilities, and is sent as
      frames (protocol.ts).  Its response comes back as frames: metadata, data, and a
      trailer or an error.  Every document is decided by a guard of protocol.ts, which runs
      a validator compiled from the contracts (generated/compiled-validators.js).
    - Every call has a deadline (concurrency.ts), and every failure becomes one frozen error
      class (errors.ts) that carries diagnostics.  Observers (observation.ts) may watch.
    - Sessions (sessions.ts) own a context of the service and can exchange it for another.
      Fetch handles (fetch.ts) translate the fetch interface into exchanges.
    - The synchronous client (sync/index.ts) blocks its thread on a worker (sync/worker.ts)
      that runs the asynchronous client; sync/ipc.ts has the values that cross between them.
    - The scripts beside the source (scripts) generate the validators and release the package.

    ** The files, in the order of their dependencies

    - Prelude: results of code that may throw, and generic lemmas and tactics.  Counters:
      the per-key tallies of concurrency.ts.  Js: strings as UTF-16 code units, numbers,
      JavaScript values, property lookup and assignment.
    - Errors: errors.ts and the error types of types.ts.  Deadline: class Deadline; Lifetime:
      class Lifetime; Admission: class Admission, all of concurrency.ts.
    - Framing: frame and FrameReader of protocol.ts.  Upload: uploadFrames of protocol.ts.
      Buffering: BufferBudget of concurrency.ts and the method buffer of client.ts.
    - Validators: generated/compiled-validators.js.  Schema: contracts/schemas, their meaning
      and the narrowing of scripts/generate-contracts.mjs.  Types: generated/types and
      generated/wire-types.ts.  Fixtures: checkFixtures of scripts/generate-contracts.mjs and
      contracts/fixtures.  Protocol: the guards and copies of protocol.ts.
    - Service: service.ts.  Request: the checks and the metadata document of executeStream of
      client.ts.  Stream: executeStream as a whole.  Sessions: sessions.ts.  Observation:
      observation.ts.  Fetch: fetch.ts.  Exchange: what fetch.ts attaches to responses.  Client:
      the rest of client.ts.
    - Ipc: sync/ipc.ts.  Batch: the function batch of sync/worker.ts.  Bridge: the exchange
      between the threads, of sync/index.ts and sync/worker.ts.  Remote: the methods of the
      synchronous client and the dispatch of the worker.
    - Script: programs that ask a service one thing at a time, with their weakest
      preconditions.  Release: scripts/prepare-release.mjs and resolveIdentity of
      scripts/release-tools.mjs.  Package: package-tools.mjs and the checks of
      package-check.mjs.  Publish: the rest of release-tools.mjs, and publish-release.mjs,
      complete-release.mjs and resolve-release.mjs.  Artifact: release-artifact.mjs and the
      files between the jobs.  Prepare: scripts/prepare-release-pr.mjs.

    ** How code becomes definitions

    - A function that may throw is a function into [result exn].  A reader of untrusted data
      is a function of a [jsval], written with the notation [let?].
    - A class is a record and one definition per method.  An asynchronous function is a
      machine: a state with one constructor per await, and an event per thing that can
      happen there - an answer of the service, a timer, an abort, a read of the caller.  A
      run is a list of events, so a theorem about all runs covers all interleavings, and an
      event that the code does not await at that point changes nothing.  Promises and
      closures that live on are tokens, numbers or table entries.
    - Concurrency between threads (Bridge) interleaves at every access to what they share;
      concurrency in one thread (Batch, Sessions, Stream, Fetch, Client) at every await.
    - A script of the release workflow is a tree of its questions; a trace is any prefix of a
      run, so what holds of all traces holds wherever the script is killed.
    - Numbers that the code bounds are [Z] with the bounds as theorems; the shared counter of
      the bridge wraps around at 32 bits; lengths and times are whole numbers, a time being
      the clock in nanoseconds.
    - The host is a parameter: [URL], [Headers], [JSON.parse] and [JSON.stringify] where their
      results matter, observers, and the bodies that a caller gives.  What is assumed of it is a
      named hypothesis: that a normalised link reads as itself, that [JSON.stringify]
      gives a text, and that what Artifact.v writes to a file reads back.  The asynchronous client is an interface of Remote (class AsyncClient).

    ** What is shown

    - Responses: a stream that ends well has delivered the bytes that the service has
      completed; a call ends once, keeps its outcome and frees everything it holds; what an
      error says about the delivery of the request is true (Stream).  A buffered response is
      the delivered body, within the memory budget, and responses that are buffered at the
      same time share that budget and nothing else (Buffering).
    - The wire: frames are read back as they were written, however they are cut; truncated
      input is noticed; no frame exceeds its limit (Framing); an upload sends a prefix of the body,
      and all of it when it ends (Upload).  Compiled validators decide exactly their
      contracts (Schema), agree with the fixtures of the service (Fixtures), and accept only values
      of the declared types (Types); what a guard accepts is a typed value (Protocol).
    - Resources: permits and queues stay within the limits and no waiter is forgotten
      (Admission); a close waits for the operations it found and ends, also one that a listener
      starts while another aborts (Lifetime); deadlines
      latch their first cause (Deadline).
    - Ownership: a session forgets no context it must delete, and a rebind happens wholly
      or not at all (Sessions); a fetch handle opens one session (Fetch); a response and
      its clones keep their exchange (Exchange); a client closes everything it has opened (Client).
    - The service side: which requests are sent, and why others are refused (Request); which
      error documents are believed, control calls, connections and the capability cache
      (Service); observers see no credentials and
      only bounded references come back (Observation).
    - Threads: values cross the boundary unchanged (Ipc); a caller never sleeps past an answer,
      gets the answer of its own command, and loses the answer of a close exactly when it
      reads the stop flag too late (Bridge); batches answer every request once, as the
      request alone would be answered (Batch); a request through the synchronous client
      ends as in the asynchronous one, in the session it was made for (Remote).
    - Releases: a bump gives the next version, a plan loses no line of the changelog, and the
      commit of a release is the one that introduced its version (Release); the scripts change
      npm and GitHub only as far as their checks and the answers so far allow (Publish, Prepare); an archive
      that is unpacked stays in its folder (Package), and the bytes that one job has recorded are
      the ones a later job accepts (Artifact).

    ** Fuel and bounds

    Recursion is structural wherever the code loops over data, and runs are folds over lists
    of events.  The exceptions: [exact_loop] of Framing gets three rounds more than there are chunks
    left, and each round consumes a chunk, uses up the pending bytes or ends; [take_chunk] of
    Buffering gets [CHUNK_ROUNDS], four, because a chunk needs at most three rounds to fill the
    block and start the next; [digits] of Js prints numbers below 10^17 and is used below 2^53;
    the loops of Publish have the bounds of the code, and those of Prepare follow lists.  The lemmas of these files show that the
    fuel does not run out.  [drive] of Upload and [caller_returns] of Bridge (seven steps of the
    caller once the worker rests) run machines in statements about termination; batches
    terminate because [remaining] of Batch falls at each productive step.

    ** What is not modelled

    - The messages of errors, which nothing reads, and text, json and parseJson of a response,
      which are [TextDecoder] and [JSON.parse].
    - In Stream and in [buffer] of Buffering one call runs alone; what calls share is in
      Admission, Lifetime and the shared budget at the end of Buffering, as machines of their
      own.  A client whose close is called again by a listener while it aborts is modelled
      for class Lifetime only.
    - Creating and terminating threads, weak references and finalizers: their effects are
      events.
    - The six largest documents of the fixtures: the capabilities with all their headers.
    - The scripts that build and pack the package, compile the schemas and types and check
      consumers: they drive compilers, npm and bundlers over files and compute little.  Of
      the scripts that are modelled, log lines and the summaries of jobs.
    - The service itself, in Rust under src/src. *)

From stdpp Require Export prelude gmap list.
From Stdlib Require Export ZArith Lia.

Open Scope Z_scope.

(** ** Results of fallible code

    A TypeScript function that may throw is a function into [result]: [Ok] is a
    normal return, [Throw] a thrown exception. *)

Inductive result (E A : Type) : Type :=
| Ok (a : A)
| Throw (e : E).
Arguments Ok {E A} a.
Arguments Throw {E A} e.

#[export] Instance result_eq_dec {E A : Type} `{EqDecision E, EqDecision A} :
  EqDecision (result E A).
Proof. solve_decision. Defined.

Definition result_bind {E A B : Type} (m : result E A) (k : A -> result E B) : result E B :=
  match m with
  | Ok a => k a
  | Throw e => Throw e
  end.

Declare Scope ts_scope.
Delimit Scope ts_scope with ts.
Notation "'let?' x ':=' m 'in' k" := (result_bind m (fun x => k))
  (at level 10, x pattern, m at level 100, k at level 200) : ts_scope.
Open Scope ts_scope.

Lemma bind_Ok {E A B : Type} (m : result E A) (k : A -> result E B) b :
  result_bind m k = Ok b <-> exists a, m = Ok a /\ k a = Ok b.
Proof. destruct m; cbn; naive_solver. Qed.
(** Takes a successful sequence of calls apart. *)
Ltac read_apart H :=
  repeat (lazymatch type of H with
  | result_bind _ _ = Ok _ => let a := fresh "a" in let E := fresh "E" in apply bind_Ok in H as (a & E & H)
  | (if ?b then _ else _) = Ok _ => let E := fresh "E" in destruct b eqn:E; [discriminate H|]
  end).

(** ** Tactics *)

(** Case analysis on every test that a goal or hypothesis branches on. *)
Ltac branches :=
  repeat (match goal with
          | |- context [if decide ?P then _ else _] => destruct (decide P)
          | |- context [if ?b then _ else _] => destruct b eqn:?
          | H : context [if decide ?P then _ else _] |- _ => destruct (decide P)
          | H : context [if ?b then _ else _] |- _ => destruct b eqn:?
          end; simplify_eq/=).

(** Boolean tests as propositions. *)
Ltac reflect_bools :=
  repeat match goal with
  | H : andb _ _ = true |- _ => apply andb_prop in H as [? ?]
  | H : andb _ _ = false |- _ => apply andb_false_iff in H
  | H : orb _ _ = false |- _ => apply orb_false_elim in H as [? ?]
  | H : orb _ _ = true |- _ => apply orb_true_iff in H
  | H : negb _ = true |- _ => apply negb_true_iff in H
  | H : negb _ = false |- _ => apply negb_false_iff in H
  | H : bool_decide _ = true |- _ => apply bool_decide_eq_true in H
  | H : bool_decide _ = false |- _ => apply bool_decide_eq_false in H
  | H : (_ <? _) = true |- _ => apply Z.ltb_lt in H
  | H : (_ <? _) = false |- _ => apply Z.ltb_ge in H
  | H : (_ <=? _) = true |- _ => apply Z.leb_le in H
  | H : (_ <=? _) = false |- _ => apply Z.leb_gt in H
  | H : (_ >=? _) = true |- _ => rewrite Z.geb_leb in H
  | H : (_ >=? _) = false |- _ => rewrite Z.geb_leb in H
  | H : (_ =? _) = true |- _ => apply Z.eqb_eq in H
  | H : (_ =? _) = false |- _ => apply Z.eqb_neq in H
  end.

(** ** Boolean quantifiers over lists *)

Lemma forallb_elem {A : Type} (f : A -> bool) l x : forallb f l = true -> x ∈ l -> f x = true.
Proof. rewrite forallb_forall. intros H Hx. by apply H, list_elem_of_In. Qed.
Lemma existsb_elem {A : Type} (f : A -> bool) l : existsb f l = true -> exists x, x ∈ l /\ f x = true.
Proof. intros (x & Hx & Hf)%existsb_exists. exists x. by rewrite list_elem_of_In. Qed.

(** ** Lists and lengths in [Z] *)

Definition zlength {A : Type} (l : list A) : Z := Z.of_nat (length l).
Definition ztake {A : Type} (n : Z) (l : list A) : list A := take (Z.to_nat n) l.
Definition zdrop {A : Type} (n : Z) (l : list A) : list A := drop (Z.to_nat n) l.

Section zlists.
Context {A : Type}.
Implicit Types l : list A.

Lemma zlength_nil : zlength (@nil A) = 0.
Proof. done. Qed.
Lemma zlength_cons (x : A) l : zlength (x :: l) = 1 + zlength l.
Proof. unfold zlength. simpl. lia. Qed.
Lemma zlength_app l k : zlength (l ++ k) = zlength l + zlength k.
Proof. unfold zlength. rewrite length_app. lia. Qed.
Lemma zlength_nonneg l : 0 <= zlength l.
Proof. unfold zlength. lia. Qed.
Lemma zlength_zero l : zlength l = 0 -> l = [].
Proof. unfold zlength. destruct l; simpl; [done | lia]. Qed.
Lemma zlength_replicate n (x : A) : zlength (replicate n x) = Z.of_nat n.
Proof. unfold zlength. by rewrite length_replicate. Qed.
Lemma zlength_take n l : 0 <= n -> zlength (ztake n l) = Z.min n (zlength l).
Proof. intros. unfold zlength, ztake. rewrite length_take. lia. Qed.
Lemma zlength_drop n l : 0 <= n -> zlength (zdrop n l) = Z.max 0 (zlength l - n).
Proof. intros. unfold zlength, zdrop. rewrite length_drop. lia. Qed.
Lemma ztake_zdrop n l : ztake n l ++ zdrop n l = l.
Proof. apply take_drop. Qed.
Lemma ztake_all n l : zlength l <= n -> ztake n l = l.
Proof. intros. apply take_ge. unfold zlength in *. lia. Qed.
Lemma zdrop_all n l : zlength l <= n -> zdrop n l = [].
Proof. intros. apply drop_ge. unfold zlength in *. lia. Qed.
Lemma zdrop_0 l : zdrop 0 l = l.
Proof. done. Qed.
Lemma ztake_0 l : ztake 0 l = [].
Proof. done. Qed.
Lemma zdrop_zdrop n m l : 0 <= n -> 0 <= m -> zdrop n (zdrop m l) = zdrop (m + n) l.
Proof. intros. unfold zdrop. rewrite drop_drop. f_equal. lia. Qed.
Lemma ztake_app_le n l k : n <= zlength l -> ztake n (l ++ k) = ztake n l.
Proof. intros. unfold ztake. apply take_app_le. unfold zlength in *. lia. Qed.
Lemma ztake_app_ge n l k : zlength l <= n -> ztake n (l ++ k) = l ++ ztake (n - zlength l) k.
Proof.
  intros. unfold ztake, zlength in *. rewrite take_app_ge by lia.
  do 2 f_equal. lia.
Qed.
Lemma zdrop_app_le n l k : n <= zlength l -> zdrop n (l ++ k) = zdrop n l ++ k.
Proof. intros. unfold zdrop. apply drop_app_le. unfold zlength in *. lia. Qed.
Lemma zdrop_app_ge n l k : zlength l <= n -> zdrop n (l ++ k) = zdrop (n - zlength l) k.
Proof. intros. unfold zdrop, zlength in *. rewrite drop_app_ge by lia. f_equal. lia. Qed.
Lemma ztake_ztake_app n m l :
  0 <= n -> 0 <= m -> ztake n l ++ ztake m (zdrop n l) = ztake (n + m) l.
Proof.
  intros. unfold ztake, zdrop. rewrite take_take_drop. f_equal. lia.
Qed.
Lemma ztake_length_app l k : ztake (zlength l) (l ++ k) = l.
Proof. rewrite ztake_app_le by lia. by apply ztake_all. Qed.
Lemma zdrop_length_app l k : zdrop (zlength l) (l ++ k) = k.
Proof. rewrite zdrop_app_ge by lia. by rewrite Z.sub_diag, zdrop_0. Qed.
End zlists.

Create HintDb zlist.
#[export] Hint Rewrite @zlength_nil @zlength_cons @zlength_app @zdrop_0 @ztake_0
  @zlength_replicate : zlist.
#[export] Hint Resolve zlength_nonneg : zlist.

(** Linear arithmetic over list lengths. *)
Ltac zlen :=
  autorewrite with zlist in *;
  repeat match goal with
  | |- context [zlength ?l] =>
      lazymatch goal with
      | _ : 0 <= zlength l |- _ => fail
      | _ => pose proof (zlength_nonneg l)
      end
  | _ : context [zlength ?l] |- _ =>
      lazymatch goal with
      | _ : 0 <= zlength l |- _ => fail
      | _ => pose proof (zlength_nonneg l)
      end
  end; lia.

Lemma list_filter_all {A : Type} (P : A -> Prop) `{forall x, Decision (P x)} (l : list A) :
  Forall P l -> filter P l = l.
Proof. induction 1; [done|]. rewrite filter_cons_True by done. by f_equal. Qed.
