(* ===== verification/Counters.v ===== *)
(** * Per-key counters (the [Map<string, number>] tallies of concurrency.ts)

    The SDK counts permits, reservations and waiters per partition in maps that
    hold no zero entry.  [counts m f] says that the map [m] represents the tally
    [f]; the increment and decrement idioms of the source preserve it. *)

From S2P Require Import Prelude.

Section counters.
Context {K : Type} `{Countable K}.
Implicit Types (m : gmap K Z) (f : K -> Z) (k : K).

(** [m.get(k) ?? 0] *)
Definition count m k : Z := default 0 (m !! k).
(** [m.set(k, (m.get(k) ?? 0) + 1)] *)
Definition incr k m : gmap K Z := <[k := count m k + 1]> m.
(** [const remaining = m.get(k)! - 1; if (remaining === 0) m.delete(k); else m.set(k, remaining)] *)
Definition decr k m : gmap K Z :=
  let remaining := count m k - 1 in
  if remaining =? 0 then delete k m else <[k := remaining]> m.

(** [m] holds exactly the positive entries of the tally [f]. *)
Definition counts m f : Prop :=
  (forall k, 0 <= f k) /\ forall k, m !! k = if f k =? 0 then None else Some (f k).

Lemma counts_count m f k : counts m f -> count m k = f k.
Proof.
  intros [_ Hm]. unfold count. rewrite Hm.
  destruct (f k =? 0) eqn:E; simpl; reflect_bools; lia.
Qed.
Lemma counts_nonneg m f k : counts m f -> 0 <= f k.
Proof. by intros [Hf _]. Qed.
Lemma counts_absent m f k : counts m f -> m !! k = None <-> f k = 0.
Proof.
  intros [_ Hm]. rewrite Hm. destruct (f k =? 0) eqn:E; reflect_bools; split; intros; done.
Qed.
Lemma counts_empty : counts ∅ (fun _ => 0).
Proof. split; [lia|]. intros k. by rewrite lookup_empty. Qed.
Lemma counts_ext m f g : (forall k, f k = g k) -> counts m f -> counts m g.
Proof. intros Hfg [Hf Hm]. split; intros k; rewrite <- Hfg; auto. Qed.

Lemma counts_incr m f k :
  counts m f -> counts (incr k m) (fun k' => f k' + if decide (k' = k) then 1 else 0).
Proof.
  intros Hc. pose proof (counts_nonneg _ _ k Hc) as Hk. split.
  - intros k'. pose proof (counts_nonneg _ _ k' Hc). case_decide; lia.
  - intros k'. unfold incr. rewrite lookup_insert, (counts_count _ _ _ Hc).
    case_decide as Hd; subst.
    + rewrite decide_True by done. destruct (f k' + 1 =? 0) eqn:E; [reflect_bools; lia | done].
    + rewrite decide_False by congruence. rewrite Z.add_0_r. apply Hc.
Qed.
Lemma counts_decr m f k :
  counts m f -> 0 < f k ->
  counts (decr k m) (fun k' => f k' - if decide (k' = k) then 1 else 0).
Proof.
  intros Hc Hk. split.
  - intros k'. pose proof (counts_nonneg _ _ k' Hc). case_decide; subst; lia.
  - intros k'. unfold decr. rewrite (counts_count _ _ _ Hc). destruct (f k - 1 =? 0) eqn:E.
    + rewrite lookup_delete. reflect_bools. case_decide as Hd; subst.
      * rewrite decide_True by done. by replace (f k' - 1) with 0 by lia.
      * rewrite decide_False by congruence. rewrite Z.sub_0_r. apply Hc.
    + rewrite lookup_insert. case_decide as Hd; subst.
      * rewrite decide_True by done. by rewrite E.
      * rewrite decide_False by congruence. rewrite Z.sub_0_r. apply Hc.
Qed.
End counters.

(** ** Tallies of a table of owners: how many entries map to a key *)

Section tallies.
Context {K : Type} `{Countable K}.

Definition tally (m : gmap nat K) (k : K) : Z :=
  Z.of_nat (size (filter (fun kv : nat * K => kv.2 = k) m)).

Lemma tally_empty k : tally ∅ k = 0.
Proof. unfold tally. by rewrite map_filter_empty, map_size_empty. Qed.
Lemma tally_nonneg m k : 0 <= tally m k.
Proof. unfold tally. lia. Qed.
Lemma tally_insert m i k k' :
  m !! i = None -> tally (<[i := k]> m) k' = tally m k' + if decide (k' = k) then 1 else 0.
Proof.
  intros Hi. unfold tally. case_decide as Hd; subst.
  - rewrite map_filter_insert_True by done.
    rewrite map_size_insert_None; [lia|].
    apply map_lookup_filter_None. by left.
  - rewrite map_filter_insert_False by (simpl; congruence).
    rewrite delete_id by done. lia.
Qed.
Lemma tally_delete m i k k' :
  m !! i = Some k -> tally (delete i m) k' = tally m k' - if decide (k' = k) then 1 else 0.
Proof.
  intros Hi. rewrite <- (insert_delete_id m i k Hi) at 2.
  rewrite tally_insert by apply lookup_delete_eq. lia.
Qed.
Lemma tally_pos m i k : m !! i = Some k -> 0 < tally m k.
Proof.
  intros Hi. rewrite <- (insert_delete_id m i k Hi).
  rewrite tally_insert by apply lookup_delete_eq.
  rewrite decide_True by done. pose proof (tally_nonneg (delete i m) k). lia.
Qed.
Lemma size_insert_new (m : gmap nat K) i k :
  m !! i = None -> Z.of_nat (size (<[i := k]> m)) = Z.of_nat (size m) + 1.
Proof. intros. rewrite map_size_insert_None by done. lia. Qed.
Lemma size_delete_old (m : gmap nat K) i k :
  m !! i = Some k -> Z.of_nat (size (delete i m)) = Z.of_nat (size m) - 1.
Proof.
  intros Hi. rewrite map_size_delete_Some by eauto.
  assert (size m <> 0%nat); [|lia]. intros E%map_size_empty_inv. set_solver.
Qed.
Lemma tally_le_size (m : gmap nat K) k : tally m k <= Z.of_nat (size m).
Proof.
  unfold tally. apply inj_le. rewrite <- !size_dom. apply subseteq_size.
  apply dom_filter_subseteq.
Qed.
End tallies.
