(* ===== verification/Js.v ===== *)
(** * JavaScript values

    Strings as UTF-16 code units, numbers as double values, and the values that
    reach the SDK's guards.  This file models the part of the language and its
    standard library that every component uses. *)

From S2P Require Import Prelude.
From Stdlib Require Import Strings.Byte.

(** ** Strings

    A JavaScript string is a sequence of UTF-16 code units. *)

Record jsstr := JsStr { units : list N }.
Add Printing Constructor jsstr.

#[export] Instance jsstr_eq_dec : EqDecision jsstr.
Proof. solve_decision. Defined.
#[export] Instance jsstr_inhabited : Inhabited jsstr := populate (JsStr []).
#[export] Instance jsstr_countable : Countable jsstr.
Proof. apply (inj_countable' units JsStr). by intros []. Defined.

Definition js_of_bytes (l : list Byte.byte) : jsstr := JsStr (List.map Byte.to_N l).
Definition js_to_bytes (s : jsstr) : option (list Byte.byte) := mapM Byte.of_N (units s).

Declare Scope js_scope.
Delimit Scope js_scope with js.
Bind Scope js_scope with jsstr.
String Notation jsstr js_of_bytes js_to_bytes : js_scope.

(** [s.length] counts code units. *)
Definition js_length (s : jsstr) : Z := zlength (units s).
Definition js_eqb (s t : jsstr) : bool := bool_decide (s = t).
Definition js_includes (l : list jsstr) (s : jsstr) : bool := bool_decide (s ∈ l).

(** Character classes of the regular expressions in the source. *)
Definition between (lo hi c : N) : bool := (N.leb lo c && N.leb c hi)%bool.
Definition one_of (cs : jsstr) (c : N) : bool := bool_decide (c ∈ units cs).
Definition is_digit (c : N) : bool := between 48 57 c.
Definition is_upper (c : N) : bool := between 65 90 c.
Definition is_lower (c : N) : bool := between 97 122 c.
Definition is_alnum (c : N) : bool := is_digit c || is_upper c || is_lower c.

(** [/^[cls]{lo,hi}$/.test(s)]; without the [m] flag [$] only matches at the end. *)
Definition class_test (cls : N -> bool) (lo hi : Z) (s : jsstr) : bool :=
  (lo <=? js_length s) && (js_length s <=? hi) && forallb cls (units s).
(** [/^[cls]+$/.test(s)] *)
Definition class_plus (cls : N -> bool) (s : jsstr) : bool :=
  (1 <=? js_length s) && forallb cls (units s).
(** [/[cls]/.test(s)]: some code unit is in the class. *)
Definition class_any (cls : N -> bool) (s : jsstr) : bool := existsb cls (units s).

(** [s.toLowerCase()] on the ASCII range, the only one the callers pass. *)
Definition lower_unit (c : N) : N := if is_upper c then (c + 32)%N else c.
Definition to_lower (s : jsstr) : jsstr := JsStr (map lower_unit (units s)).
Definition upper_unit (c : N) : N := if is_lower c then (c - 32)%N else c.
Definition to_upper (s : jsstr) : jsstr := JsStr (map upper_unit (units s)).

(** ** UTF-8: [TextEncoder.encode], with U+FFFD for a lone surrogate *)

Definition is_high_surrogate (c : N) : bool := between 55296 56319 c.
Definition is_low_surrogate (c : N) : bool := between 56320 57343 c.

Definition utf8_scalar (c : Z) : list Z :=
  if c <? 128 then [c]
  else if c <? 2048 then [192 + Z.shiftr c 6; 128 + Z.land c 63]
  else if c <? 65536 then
    [224 + Z.shiftr c 12; 128 + Z.land (Z.shiftr c 6) 63; 128 + Z.land c 63]
  else
    [240 + Z.shiftr c 18; 128 + Z.land (Z.shiftr c 12) 63;
     128 + Z.land (Z.shiftr c 6) 63; 128 + Z.land c 63].

Definition surrogate_pair (hi lo : N) : Z :=
  65536 + Z.shiftl (Z.of_N hi - 55296) 10 + (Z.of_N lo - 56320).

Fixpoint utf8_units (l : list N) : list Z :=
  match l with
  | [] => []
  | c :: l' =>
      if is_high_surrogate c then
        match l' with
        | d :: l'' =>
            if is_low_surrogate d then utf8_scalar (surrogate_pair c d) ++ utf8_units l''
            else utf8_scalar 65533 ++ utf8_units l'
        | [] => utf8_scalar 65533
        end
      else if is_low_surrogate c then utf8_scalar 65533 ++ utf8_units l'
      else utf8_scalar (Z.of_N c) ++ utf8_units l'
  end.

Definition encode (s : jsstr) : list Z := utf8_units (units s).
Definition byte_length (s : jsstr) : Z := zlength (encode s).

(** ** Numbers

    A double is NaN, an infinity, an integer or a dyadic fraction; [NFrac m k]
    denotes [(2m+1)/2^k], so every finite value has one representation. *)

Inductive num :=
| NaN
| NInfinity (negative : bool)
| NInt (z : Z)
| NFrac (m : Z) (k : positive).

#[export] Instance num_eq_dec : EqDecision num.
Proof. solve_decision. Defined.

Definition MAX_SAFE_INTEGER : Z := 9007199254740991.

Definition isInteger (n : num) : bool := match n with NInt _ => true | _ => false end.
Definition isFinite (n : num) : bool :=
  match n with NaN | NInfinity _ => false | _ => true end.
Definition isNaN (n : num) : bool := match n with NaN => true | _ => false end.
Definition isSafeInteger (n : num) : bool :=
  match n with NInt z => Z.abs z <=? MAX_SAFE_INTEGER | _ => false end.

(** [n < z] and [n > z] against an integer constant. *)
Definition num_lt_Z (n : num) (z : Z) : bool :=
  match n with
  | NaN => false
  | NInfinity negative => negative
  | NInt m => m <? z
  | NFrac m k => 2 * m + 1 <? z * 2 ^ Z.pos k
  end.
Definition num_gt_Z (n : num) (z : Z) : bool :=
  match n with
  | NaN => false
  | NInfinity negative => negb negative
  | NInt m => z <? m
  | NFrac m k => z * 2 ^ Z.pos k <? 2 * m + 1
  end.
(** [n % 1] is falsy: zero, or NaN. *)
Definition num_mod1_falsy (n : num) : bool :=
  match n with NInt _ | NaN | NInfinity _ => true | NFrac _ _ => false end.

(** ** Values

    [JObject] is an ordinary object whose prototype is [Object.prototype] or null
    and whose own properties are enumerable data properties with string keys, in
    insertion order.  [JHost] is any other object or function. *)

Inductive host :=
| HUrl (href : jsstr)
| HHeaders (entries : list (jsstr * jsstr))
| HReadableStream
| HAsyncIterable
| HFunction
| HOther.

Inductive jsval :=
| JUndefined
| JNull
| JBool (b : bool)
| JNum (n : num)
| JStr (s : jsstr)
| JArray (l : list jsval)
| JObject (props : list (jsstr * jsval))
| JBytes (b : list Z)
| JHost (h : host).

Definition jint (z : Z) : jsval := JNum (NInt z).

(** Induction that reaches the elements of arrays and the fields of objects. *)
Section jsval_ind.
Context (P : jsval -> Prop).
Context (Hundef : P JUndefined) (Hnull : P JNull) (Hbool : forall b, P (JBool b))
  (Hnum : forall n, P (JNum n)) (Hstr : forall s, P (JStr s))
  (Harray : forall l, Forall P l -> P (JArray l))
  (Hobject : forall props, Forall (fun kv => P kv.2) props -> P (JObject props))
  (Hbytes : forall b, P (JBytes b)) (Hhost : forall h, P (JHost h)).

Fixpoint jsval_nested_ind (v : jsval) : P v :=
  match v with
  | JUndefined => Hundef
  | JNull => Hnull
  | JBool b => Hbool b
  | JNum n => Hnum n
  | JStr s => Hstr s
  | JArray l =>
      Harray l ((fix go (l : list jsval) : Forall P l :=
        match l with
        | [] => Forall_nil_2 _
        | x :: l' => Forall_cons_2 _ _ _ (jsval_nested_ind x) (go l')
        end) l)
  | JObject props =>
      Hobject props ((fix go (l : list (jsstr * jsval)) : Forall (fun kv => P kv.2) l :=
        match l with
        | [] => Forall_nil_2 _
        | (k, x) :: l' => Forall_cons_2 _ (k, x) _ (jsval_nested_ind x) (go l')
        end) props)
  | JBytes b => Hbytes b
  | JHost h => Hhost h
  end.
End jsval_ind.

(** ** Properties of objects *)

Fixpoint assoc {A : Type} (k : jsstr) (props : list (jsstr * A)) : option A :=
  match props with
  | [] => None
  | (k', v) :: props' => if js_eqb k k' then Some v else assoc k props'
  end.

(** [value.key]; absent properties and non-objects read as [undefined]. *)
Definition get (v : jsval) (k : jsstr) : jsval :=
  match v with
  | JObject props => default JUndefined (assoc k props)
  | _ => JUndefined
  end.
(** [key in value], for keys that [Object.prototype] does not define. *)
Definition has_key (v : jsval) (k : jsstr) : bool :=
  match v with
  | JObject props => bool_decide (k ∈ props.*1)
  | _ => false
  end.
(** [Object.keys(value)] *)
Definition object_keys (v : jsval) : list jsstr :=
  match v with JObject props => props.*1 | _ => [] end.

(** Assignment keeps the position of an existing key and appends a new one. *)
Fixpoint assoc_set {A : Type} (k : jsstr) (v : A) (props : list (jsstr * A)) : list (jsstr * A) :=
  match props with
  | [] => [(k, v)]
  | (k', w) :: props' => if js_eqb k k' then (k', v) :: props' else (k', w) :: assoc_set k v props'
  end.
(** [{ ...value, key: v }] *)
Definition spread_set (v : jsval) (k : jsstr) (w : jsval) : jsval :=
  match v with
  | JObject props => JObject (assoc_set k w props)
  | _ => JObject [(k, w)]
  end.

(** What counts as true in a condition, and the two boolean values. *)
Definition truthy (v : jsval) : bool :=
  match v with
  | JUndefined | JNull | JBool false => false
  | JNum n => negb (isNaN n || bool_decide (n = NInt 0))
  | JStr s => negb (Nat.eqb (length (units s)) 0)
  | _ => true
  end.
Definition is_true (v : jsval) : bool := match v with JBool true => true | _ => false end.
Definition is_false (v : jsval) : bool := match v with JBool false => true | _ => false end.
Definition is_undefined (v : jsval) : bool := match v with JUndefined => true | _ => false end.
Definition is_null (v : jsval) : bool := match v with JNull => true | _ => false end.
Definition is_string (v : jsval) : bool := match v with JStr _ => true | _ => false end.
Definition is_boolean (v : jsval) : bool := match v with JBool _ => true | _ => false end.
Definition is_array (v : jsval) : bool := match v with JArray _ => true | _ => false end.
(** [typeof value === 'object'] *)
Definition typeof_object (v : jsval) : bool :=
  match v with
  | JNull | JArray _ | JObject _ | JBytes _ => true
  | JHost HFunction => false
  | JHost _ => true
  | _ => false
  end.

(** [v === s] for a string constant. *)
Definition is_str (v : jsval) (s : jsstr) : bool :=
  match v with JStr t => js_eqb t s | _ => false end.
(** [v === z] for an integer constant. *)
Definition is_int (v : jsval) (z : Z) : bool :=
  match v with JNum (NInt n) => n =? z | _ => false end.

(** ** JSON documents: what [JSON.parse] returns *)

Fixpoint json (v : jsval) : bool :=
  match v with
  | JNull | JBool _ | JStr _ => true
  | JNum n => isFinite n
  | JArray l => forallb json l
  | JObject props => forallb (fun kv => json kv.2) props && bool_decide (NoDup props.*1)
  | _ => false
  end.

Lemma js_eqb_eq s t : js_eqb s t = true <-> s = t.
Proof. apply bool_decide_eq_true. Qed.
Lemma js_eqb_refl s : js_eqb s s = true.
Proof. by apply js_eqb_eq. Qed.

Lemma assoc_None {A : Type} k (props : list (jsstr * A)) : assoc k props = None <-> k ∉ props.*1.
Proof.
  induction props as [|[k' v] props IH]; simpl; [set_solver|].
  unfold js_eqb. case_bool_decide; set_solver.
Qed.
Lemma assoc_Some_in {A : Type} k (v : A) props : assoc k props = Some v -> (k, v) ∈ props.
Proof.
  induction props as [|[k' w] props IH]; simpl; [done|].
  unfold js_eqb. case_bool_decide; set_solver.
Qed.
Lemma assoc_NoDup {A : Type} k (v : A) props :
  NoDup props.*1 -> (k, v) ∈ props -> assoc k props = Some v.
Proof.
  induction props as [|[k' w] props IH]; simpl; [set_solver|].
  intros [Hk Hnd]%NoDup_cons Hin. unfold js_eqb. case_bool_decide as Heq; subst.
  - apply elem_of_cons in Hin as [|Hin]; [by simplify_eq|].
    destruct Hk. apply list_elem_of_fmap. by exists (k', v).
  - apply IH; [done|]. set_solver.
Qed.
Lemma assoc_set_eq {A : Type} k (v : A) props : assoc k (assoc_set k v props) = Some v.
Proof.
  induction props as [|[k' w] props IH]; simpl; [by rewrite js_eqb_refl|].
  destruct (js_eqb k k') eqn:E; simpl; by rewrite E.
Qed.
Lemma assoc_set_ne {A : Type} k k' (v : A) props :
  k <> k' -> assoc k' (assoc_set k v props) = assoc k' props.
Proof.
  intros Hne. induction props as [|[k'' w] props IH]; simpl.
  - unfold js_eqb. by rewrite bool_decide_eq_false_2.
  - destruct (js_eqb k k'') eqn:E; simpl; [|by rewrite IH].
    apply js_eqb_eq in E. subst. unfold js_eqb. by rewrite bool_decide_eq_false_2.
Qed.
Lemma get_spread_ne v k w k' : k <> k' -> get (spread_set v k w) k' = get v k'.
Proof.
  intros Hne. destruct v; simpl; try (unfold js_eqb; by rewrite bool_decide_eq_false_2).
  by rewrite assoc_set_ne.
Qed.
Lemma get_spread_eq v k w : get (spread_set v k w) k = w.
Proof. destruct v; simpl; rewrite ?js_eqb_refl; try done. by rewrite assoc_set_eq. Qed.
Lemma elem_of_assoc_set {A : Type} k (v : A) props k' :
  k' ∈ (assoc_set k v props).*1 <-> k' = k \/ k' ∈ props.*1.
Proof.
  induction props as [|[k'' w] props IH]; simpl; [set_solver|].
  unfold js_eqb. case_bool_decide; subst; set_solver.
Qed.
Lemma assoc_set_NoDup {A : Type} k (v : A) props : NoDup props.*1 -> NoDup (assoc_set k v props).*1.
Proof.
  induction props as [|[k' w] props IH]; cbn; [intros _; constructor; [apply not_elem_of_nil|constructor]|].
  intros [Hk Hp]%NoDup_cons. destruct (js_eqb k k') eqn:E; cbn; apply NoDup_cons; [done|].
  split; [|by apply IH]. rewrite elem_of_assoc_set. intros [->|?]; [|done].
  by rewrite js_eqb_refl in E.
Qed.
Lemma get_assoc props k v : assoc k props = Some v -> get (JObject props) k = v.
Proof. simpl. by intros ->. Qed.

(** ** Numbers as strings *)

(** [String(n)] of a natural number below 10^17. *)
Fixpoint digits (fuel : nat) (z : Z) (acc : list N) : list N :=
  match fuel with
  | O => acc
  | S fuel => let acc := Z.to_N (48 + z mod 10) :: acc in if z <? 10 then acc else digits fuel (z / 10) acc
  end.
Definition number_string (z : Z) : jsstr := JsStr (digits 17 z []).
Fixpoint number_value (l : list N) (acc : Z) : Z :=
  match l with [] => acc | c :: l => number_value l (10 * acc + (Z.of_N c - 48)) end.
Lemma number_value_app l k acc : number_value (l ++ k) acc = number_value k (number_value l acc).
Proof. revert acc. induction l as [|c l IH]; intros acc; [done|]. apply IH. Qed.
Lemma digits_app fuel z acc : digits fuel z acc = digits fuel z [] ++ acc.
Proof.
  revert z acc. induction fuel as [|fuel IH]; intros z acc; [done|]. cbn. destruct (z <? 10); [done|].
  rewrite IH, (IH _ [_]), <- app_assoc. done.
Qed.
Lemma digits_value fuel z : 0 <= z < 10 ^ Z.of_nat fuel -> number_value (digits fuel z []) 0 = z.
Proof.
  revert z. induction fuel as [|fuel IH]; intros z Hz; [cbn in *; lia|]. cbn [digits].
  assert (Z.of_N (Z.to_N (48 + z mod 10)) - 48 = z mod 10) as Hd by (pose proof (Z.mod_pos_bound z 10); lia).
  destruct (z <? 10) eqn:E.
  - apply Z.ltb_lt in E. cbn [number_value]. rewrite Hd, Z.mod_small; lia.
  - apply Z.ltb_ge in E. rewrite digits_app, number_value_app, IH.
    + cbn [number_value]. rewrite Hd. pose proof (Z.div_mod z 10). lia.
    + rewrite Nat2Z.inj_succ, Z.pow_succ_r in Hz by lia. split; [apply Z.div_pos; lia|]. apply Z.div_lt_upper_bound; lia.
Qed.
Lemma number_string_inj a b :
  0 <= a <= MAX_SAFE_INTEGER -> 0 <= b <= MAX_SAFE_INTEGER -> number_string a = number_string b -> a = b.
Proof.
  intros Ha Hb E. apply (f_equal (fun s => number_value (units s) 0)) in E. unfold number_string in E. cbn [units] in E.
  assert (MAX_SAFE_INTEGER < 10 ^ Z.of_nat 17) as Hmax by reflexivity.
  rewrite !digits_value in E by lia. done.
Qed.
Lemma digits_length fuel z : (0 < fuel -> 0 < length (digits fuel z []))%nat /\ (length (digits fuel z []) <= fuel)%nat.
Proof.
  revert z. induction fuel as [|fuel IH]; intros z; [cbn; lia|]. cbn [digits]. destruct (z <? 10); [cbn; lia|].
  rewrite digits_app, length_app. cbn. specialize (IH (z / 10)). lia.
Qed.
