(* ===== verification/Errors.v ===== *)
(** * Errors and diagnostics (packages/typescript/src/errors.ts, types.ts)

    The error codes and failure kinds, the diagnostics record that travels with
    every outcome, and the frozen [Ja3ProxyTransportError].  The localised message
    texts are not modelled: nothing branches on them. *)

From S2P Require Import Prelude Js.

(** ** Codes, kinds, phases *)

Inductive Ja3ErrorCode :=
| UNAUTHORIZED | INVALID_REQUEST | UNSUPPORTED_CAPABILITY | INVALID_PROFILE
| EGRESS_REQUIRED | SSRF_BLOCKED | BODY_TOO_LARGE | BUSY | TIMEOUT | CANCELLED
| DNS_ERROR | PROXY_ERROR | TLS_ERROR | CONNECT_ERROR | PROTOCOL_ERROR
| CONTEXT_NOT_FOUND | CONTEXT_CONFLICT | CONTEXT_LIMIT | COOKIE_LIMIT
| DUPLICATE_REQUEST | UNKNOWN.

#[export] Instance Ja3ErrorCode_eq_dec : EqDecision Ja3ErrorCode.
Proof. solve_decision. Defined.

Definition ERROR_CODES : list Ja3ErrorCode :=
  [UNAUTHORIZED; INVALID_REQUEST; UNSUPPORTED_CAPABILITY; INVALID_PROFILE;
   EGRESS_REQUIRED; SSRF_BLOCKED; BODY_TOO_LARGE; BUSY; TIMEOUT; CANCELLED;
   DNS_ERROR; PROXY_ERROR; TLS_ERROR; CONNECT_ERROR; PROTOCOL_ERROR;
   CONTEXT_NOT_FOUND; CONTEXT_CONFLICT; CONTEXT_LIMIT; COOKIE_LIMIT;
   DUPLICATE_REQUEST; UNKNOWN].

(** The string that stands for a code on the wire. *)
Definition code_string (c : Ja3ErrorCode) : jsstr :=
  match c with
  | UNAUTHORIZED => "UNAUTHORIZED"
  | INVALID_REQUEST => "INVALID_REQUEST"
  | UNSUPPORTED_CAPABILITY => "UNSUPPORTED_CAPABILITY"
  | INVALID_PROFILE => "INVALID_PROFILE"
  | EGRESS_REQUIRED => "EGRESS_REQUIRED"
  | SSRF_BLOCKED => "SSRF_BLOCKED"
  | BODY_TOO_LARGE => "BODY_TOO_LARGE"
  | BUSY => "BUSY"
  | TIMEOUT => "TIMEOUT"
  | CANCELLED => "CANCELLED"
  | DNS_ERROR => "DNS_ERROR"
  | PROXY_ERROR => "PROXY_ERROR"
  | TLS_ERROR => "TLS_ERROR"
  | CONNECT_ERROR => "CONNECT_ERROR"
  | PROTOCOL_ERROR => "PROTOCOL_ERROR"
  | CONTEXT_NOT_FOUND => "CONTEXT_NOT_FOUND"
  | CONTEXT_CONFLICT => "CONTEXT_CONFLICT"
  | CONTEXT_LIMIT => "CONTEXT_LIMIT"
  | COOKIE_LIMIT => "COOKIE_LIMIT"
  | DUPLICATE_REQUEST => "DUPLICATE_REQUEST"
  | UNKNOWN => "UNKNOWN"
  end%js.

(** [ERROR_CODES.find(code => code === value)] *)
Definition find_code (s : jsstr) : option Ja3ErrorCode :=
  List.find (fun c => js_eqb (code_string c) s) ERROR_CODES.

Inductive Ja3ProxyFailureKind :=
| proxy_unreachable | service_unavailable | connection_lost | unknown_kind
| client_closed | queue_full | buffer_limit | invalid_input | worker_unavailable.

#[export] Instance Ja3ProxyFailureKind_eq_dec : EqDecision Ja3ProxyFailureKind.
Proof. solve_decision. Defined.

Definition FAILURE_KINDS : list Ja3ProxyFailureKind :=
  [proxy_unreachable; service_unavailable; connection_lost; unknown_kind;
   client_closed; queue_full; buffer_limit; invalid_input; worker_unavailable].

Definition kind_string (k : Ja3ProxyFailureKind) : jsstr :=
  match k with
  | proxy_unreachable => "proxy_unreachable"
  | service_unavailable => "service_unavailable"
  | connection_lost => "connection_lost"
  | unknown_kind => "unknown"
  | client_closed => "client_closed"
  | queue_full => "queue_full"
  | buffer_limit => "buffer_limit"
  | invalid_input => "invalid_input"
  | worker_unavailable => "worker_unavailable"
  end%js.

(** [kinds.find(kind => kind === value)] *)
Definition find_kind (s : jsstr) : option Ja3ProxyFailureKind :=
  List.find (fun k => js_eqb (kind_string k) s) FAILURE_KINDS.

Inductive Phase := queued | preparing | upstream | body_phase | complete.
#[export] Instance Phase_eq_dec : EqDecision Phase.
Proof. solve_decision. Defined.
Definition PHASES : list Phase := [queued; preparing; upstream; body_phase; complete].
Definition phase_string (p : Phase) : jsstr :=
  match p with
  | queued => "queued" | preparing => "preparing" | upstream => "upstream"
  | body_phase => "body" | complete => "complete"
  end%js.

Inductive Ja3Delivery := not_started | possibly_sent | response_started.
#[export] Instance Ja3Delivery_eq_dec : EqDecision Ja3Delivery.
Proof. solve_decision. Defined.
Definition DELIVERIES : list Ja3Delivery := [not_started; possibly_sent; response_started].
Definition delivery_string (d : Ja3Delivery) : jsstr :=
  match d with
  | not_started => "not_started" | possibly_sent => "possibly_sent"
  | response_started => "response_started"
  end%js.

(** ** Diagnostics *)

Record Ja3Diagnostics := {
  requestId : jsstr;
  attempt : Z;
  phase : Phase;
  delivery : Ja3Delivery;
  queueMs : Z;
  headersMs : option Z;
  bodyMs : option Z;
  totalMs : Z;
  requestBytes : Z;
  responseBytes : Z;
  tlsProfile : jsstr;
  traceId : option jsstr;
  spanId : option jsstr;
  clientReused : option bool;
  contextId : option jsstr;
  cookieRevision : option Z;
}.

#[export] Instance Ja3Diagnostics_eq_dec : EqDecision Ja3Diagnostics.
Proof. solve_decision. Defined.

(** The object literal a typed diagnostics record is. *)
Definition nullable (o : option Z) : jsval := match o with Some z => jint z | None => JNull end.
(** [...(value === undefined ? {} : { key: value })] *)
Definition optional_field (k : jsstr) (v : jsval) : list (jsstr * jsval) :=
  if is_undefined v then [] else [(k, v)].
Definition opt_js {A : Type} (f : A -> jsval) (o : option A) : jsval :=
  match o with Some a => f a | None => JUndefined end.

Definition diagnostics_js (d : Ja3Diagnostics) : jsval :=
  JObject
    ([("requestId"%js, JStr (requestId d)); ("attempt"%js, jint (attempt d));
      ("phase"%js, JStr (phase_string (phase d)));
      ("delivery"%js, JStr (delivery_string (delivery d)));
      ("queueMs"%js, jint (queueMs d)); ("headersMs"%js, nullable (headersMs d));
      ("bodyMs"%js, nullable (bodyMs d)); ("totalMs"%js, jint (totalMs d));
      ("requestBytes"%js, jint (requestBytes d));
      ("responseBytes"%js, jint (responseBytes d)); ("tlsProfile"%js, JStr (tlsProfile d))]
     ++ optional_field "traceId" (opt_js JStr (traceId d))
     ++ optional_field "spanId" (opt_js JStr (spanId d))
     ++ optional_field "clientReused" (opt_js JBool (clientReused d))
     ++ optional_field "contextId" (opt_js JStr (contextId d))
     ++ optional_field "cookieRevision" (opt_js jint (cookieRevision d))).

(** [copyDiagnostics]: a fresh object that keeps the documented scalars only. *)
Definition copyDiagnostics (value : jsval) : jsval :=
  JObject
    ([("requestId"%js, get value "requestId"); ("attempt"%js, get value "attempt");
      ("phase"%js, get value "phase"); ("delivery"%js, get value "delivery");
      ("queueMs"%js, get value "queueMs"); ("headersMs"%js, get value "headersMs");
      ("bodyMs"%js, get value "bodyMs"); ("totalMs"%js, get value "totalMs");
      ("requestBytes"%js, get value "requestBytes");
      ("responseBytes"%js, get value "responseBytes");
      ("tlsProfile"%js, get value "tlsProfile")]
     ++ optional_field "traceId" (get value "traceId")
     ++ optional_field "spanId" (get value "spanId")
     ++ optional_field "clientReused" (get value "clientReused")
     ++ optional_field "contextId" (get value "contextId")
     ++ optional_field "cookieRevision" (get value "cookieRevision")).

Definition opaque_unit (c : N) : bool := is_alnum c || one_of "_.:-" c.
Definition profile_unit (c : N) : bool := is_digit c || is_lower c || one_of "_." c.
(** [/^[A-Za-z0-9_.:-]{1,128}$/] and [/^[a-z0-9_.]{1,64}$/] *)
Definition opaque_re (s : jsstr) : bool := class_test opaque_unit 1 128 s.
Definition profile_re (s : jsstr) : bool := class_test profile_unit 1 64 s.

Definition initialDiagnostics (requestId : jsstr) (attempt : num) (tlsProfile : jsstr) : Ja3Diagnostics := {|
  requestId := if opaque_re requestId then requestId else "local"%js;
  attempt := match attempt with
             | NInt z => if isSafeInteger attempt && (z >=? 0) then z else 0
             | _ => 0
             end;
  tlsProfile := if profile_re tlsProfile then tlsProfile else "unknown"%js;
  phase := preparing; delivery := not_started; queueMs := 0; headersMs := None; bodyMs := None;
  totalMs := 0; requestBytes := 0; responseBytes := 0;
  traceId := None; spanId := None; clientReused := None; contextId := None; cookieRevision := None;
|}.
(** [initialDiagnostics()] with its default arguments. *)
Definition localDiagnostics : Ja3Diagnostics := initialDiagnostics "local" (NInt 0) "unknown".

(** ** Transport errors *)

(** Observer-supplied references: a frozen string-to-string record. *)
Abbreviation ExchangeReferences := (list (jsstr * jsstr)).

Record Ja3ProxyTransportError := {
  code : Ja3ErrorCode;
  kind : Ja3ProxyFailureKind;
  diagnostics : Ja3Diagnostics;
  error_delivery : Ja3Delivery;
  usedProxy : bool;
  references : option ExchangeReferences;
}.

#[export] Instance Ja3ProxyTransportError_eq_dec : EqDecision Ja3ProxyTransportError.
Proof. solve_decision. Defined.

(** The constructor; [kind] defaults from the code and the delivery. *)
Definition newTransportError (code : Ja3ErrorCode) (diag : Ja3Diagnostics) (usedProxy : bool)
    (kind : option Ja3ProxyFailureKind) (references : option ExchangeReferences) :
    Ja3ProxyTransportError := {|
  code := code;
  diagnostics := diag;
  error_delivery := delivery diag;
  usedProxy := usedProxy;
  kind := match kind with
          | Some k => k
          | None =>
              if decide (code = PROXY_ERROR) then proxy_unreachable
              else if decide (delivery diag = response_started) then connection_lost
              else unknown_kind
          end;
  references := references;
|}.

(** A thrown value: one of the SDK's errors, or a host error. *)
Inductive exn :=
| ETransport (e : Ja3ProxyTransportError)
| ETypeError
| ERangeError
| EOther.

#[export] Instance exn_eq_dec : EqDecision exn.
Proof. solve_decision. Defined.

(** [withReferences]: an error is frozen, so references are attached to a copy. *)
Definition withReferences (error : Ja3ProxyTransportError) (refs : option ExchangeReferences) :
    Ja3ProxyTransportError :=
  match refs with
  | None => error
  | Some r =>
      if decide (references error = Some r) then error
      else newTransportError (code error) (diagnostics error) (usedProxy error)
             (Some (kind error)) (Some r)
  end.

Definition isJa3ProxyError (value : exn) : bool :=
  match value with ETransport _ => true | _ => false end.
Definition localError (code : Ja3ErrorCode) (kind : option Ja3ProxyFailureKind) :
    Ja3ProxyTransportError :=
  newTransportError code localDiagnostics false kind None.
Definition safeError (error : exn) (fallback : Ja3Diagnostics) (usedProxy : bool) :
    Ja3ProxyTransportError :=
  match error with
  | ETransport e => e
  | _ => newTransportError UNKNOWN fallback usedProxy None None
  end.

(** [throw localError('INVALID_REQUEST', 'invalid_input')] *)
Definition invalid_input_error : exn := ETransport (localError INVALID_REQUEST (Some invalid_input)).

(** ** Lemmas *)

Lemma find_code_string c : find_code (code_string c) = Some c.
Proof. by destruct c. Qed.
Lemma find_code_Some s c : find_code s = Some c -> s = code_string c.
Proof. intros [_ H%js_eqb_eq]%List.find_some. done. Qed.
Lemma find_kind_string k : find_kind (kind_string k) = Some k.
Proof. by destruct k. Qed.

Lemma withReferences_code e r : code (withReferences e r) = code e.
Proof. unfold withReferences. destruct r; [|done]. by case_decide. Qed.
Lemma withReferences_kind e r : kind (withReferences e r) = kind e.
Proof. unfold withReferences. destruct r; [|done]. by case_decide. Qed.
Lemma withReferences_diagnostics e r : diagnostics (withReferences e r) = diagnostics e.
Proof. unfold withReferences. destruct r; [|done]. by case_decide. Qed.

(** A typed record is a fixed point of the copy. *)
Lemma copyDiagnostics_typed d : copyDiagnostics (diagnostics_js d) = diagnostics_js d.
Proof.
  destruct d as [???????????[] [] [] [] []]; vm_compute; reflexivity.
Qed.
