(* ===== verification/Deadline.v ===== *)
(** * Deadlines (class Deadline of packages/typescript/src/concurrency.ts)

    One abort signal with a timer and an optional parent signal.  Time is the value
    of [performance.now()] in whole nanoseconds, so [ms] is 10^6 ticks and the
    source's [Math.floor] of a difference in milliseconds is an integer division. *)

From S2P Require Import Prelude Js Errors.

Definition ms : Z := 1000000.
Definition MAX_TIMEOUT_MS : Z := 2147483647.

(** [positive] and [nonnegativeInteger] of protocol.ts, as reading functions: the
    integer when the guard accepts the value. *)
Definition positive (value : jsval) : option Z :=
  match value with
  | JNum (NInt z) => if isSafeInteger (NInt z) && (0 <? z) then Some z else None
  | _ => None
  end.
Definition nonnegativeInteger (value : jsval) : option Z :=
  match value with
  | JNum (NInt z) => if isSafeInteger (NInt z) && (0 <=? z) then Some z else None
  | _ => None
  end.

Definition timeoutValue (value : jsval) : result exn Z :=
  match positive value with
  | Some z => if z >? MAX_TIMEOUT_MS then Throw invalid_input_error else Ok z
  | None => Throw invalid_input_error
  end.

(** The reason of an abort signal: a [TimeoutError] DOMException, one of the SDK's
    errors, the default [AbortError], or anything else a caller aborts with. *)
Inductive abort_reason :=
| TimeoutReason
| ErrorReason (e : Ja3ProxyTransportError)
| DefaultReason
| OtherReason.

#[export] Instance abort_reason_eq_dec : EqDecision abort_reason.
Proof. solve_decision. Defined.

Record Deadline := {
  timeoutMs : Z;
  started : Z;
  reason : option abort_reason;     (* [signal.reason]; aborted when present *)
  timedOut : bool;
  timer : bool;                     (* the timer is pending *)
  listening : bool;                 (* the parent listener is installed *)
}.

Definition aborted (d : Deadline) : bool := bool_decide (is_Some (reason d)).

(** [controller.abort(r)]: the first reason stays. *)
Definition controller_abort (r : abort_reason) (d : Deadline) : Deadline := {|
  timeoutMs := timeoutMs d; started := started d;
  reason := match reason d with Some r' => Some r' | None => Some r end;
  timedOut := timedOut d; timer := timer d; listening := listening d;
|}.
Definition set_timedOut (b : bool) (d : Deadline) : Deadline := {|
  timeoutMs := timeoutMs d; started := started d; reason := reason d;
  timedOut := b; timer := timer d; listening := listening d;
|}.

(** The parent's abort listener, with the parent's reason. *)
Definition onAbort (parent_reason : abort_reason) (d : Deadline) : Deadline :=
  let timed := bool_decide (parent_reason = TimeoutReason) in
  controller_abort
    (if timed then TimeoutReason
     else match parent_reason with ErrorReason e => ErrorReason e | _ => DefaultReason end)
    (set_timedOut timed d).

(** A parent signal: absent, or present and perhaps already aborted. *)
Definition parent_signal : Type := option (option abort_reason).

Definition newDeadline (timeout : jsval) (parent : parent_signal) (now : Z) : result exn Deadline :=
  let? timeoutMs := timeoutValue timeout in
  let d := {| timeoutMs := timeoutMs; started := now; reason := None; timedOut := false;
              timer := true; listening := false |} in
  Ok (match parent with
      | Some (Some r) => onAbort r d
      | Some None => {| timeoutMs := timeoutMs; started := now; reason := None; timedOut := false;
                        timer := true; listening := true |}
      | None => d
      end).

(** The timer callback. *)
Definition timer_fires (d : Deadline) : Deadline :=
  if timer d then
    controller_abort TimeoutReason
      {| timeoutMs := timeoutMs d; started := started d; reason := reason d;
         timedOut := true; timer := false; listening := listening d |}
  else d.
(** The parent aborts; its listener runs once. *)
Definition parent_aborts (r : abort_reason) (d : Deadline) : Deadline :=
  if listening d then
    onAbort r {| timeoutMs := timeoutMs d; started := started d; reason := reason d;
                 timedOut := timedOut d; timer := timer d; listening := false |}
  else d.
Definition dispose (d : Deadline) : Deadline := {|
  timeoutMs := timeoutMs d; started := started d; reason := reason d;
  timedOut := timedOut d; timer := false; listening := false;
|}.

Definition elapsedMs (d : Deadline) (now : Z) : Z := (now - started d) / ms.
Definition remaining (d : Deadline) (now : Z) : Z :=
  Z.max 1 ((timeoutMs d * ms - (now - started d)) / ms).

Definition set_totalMs (t : Z) (diag : Ja3Diagnostics) : Ja3Diagnostics := {|
  requestId := requestId diag; attempt := attempt diag; phase := phase diag;
  delivery := delivery diag; queueMs := queueMs diag; headersMs := headersMs diag;
  bodyMs := bodyMs diag; totalMs := t; requestBytes := requestBytes diag;
  responseBytes := responseBytes diag; tlsProfile := tlsProfile diag; traceId := traceId diag;
  spanId := spanId diag; clientReused := clientReused diag; contextId := contextId diag;
  cookieRevision := cookieRevision diag |}.

(** [Deadline.error]: the error that stands for this deadline's abort. *)
Definition error (d : Deadline) (now : Z) (diag : Ja3Diagnostics) (usedProxy : bool) :
    Ja3ProxyTransportError :=
  newTransportError (if timedOut d then TIMEOUT else CANCELLED)
    (set_totalMs (elapsedMs d now) diag) usedProxy
    (match reason d with Some (ErrorReason e) => Some (kind e) | _ => None end) None.

(** [Deadline.race]: the promise settles first, or the signal aborts first, with
    the deadline's state and the clock at that moment. *)
Inductive race_event (A : Type) :=
| Settled (r : result exn A)
| Aborted (d : Deadline) (now : Z).
Arguments Settled {A} r.
Arguments Aborted {A} d now.

Definition race {A : Type} (d : Deadline) (now : Z) (ev : race_event A)
    (diag : Ja3Diagnostics) (usedProxy : bool) : result exn A :=
  if aborted d then Throw (ETransport (error d now diag usedProxy))
  else match ev with
       | Settled r => r
       | Aborted d' now' => Throw (ETransport (error d' now' diag usedProxy))
       end.

(** ** The life of a deadline *)

Inductive deadline_event :=
| TimerFires
| ParentAborts (r : abort_reason)
| ControllerAborts (r : abort_reason)   (* the owner's [deadline.controller.abort(...)] *)
| Dispose.

Definition deadline_step (d : Deadline) (ev : deadline_event) : Deadline :=
  match ev with
  | TimerFires => timer_fires d
  | ParentAborts r => parent_aborts r d
  | ControllerAborts r => controller_abort r d
  | Dispose => dispose d
  end.
Definition deadline_run (d : Deadline) (evs : list deadline_event) : Deadline :=
  fold_left deadline_step evs d.

(** ** What a deadline promises to the components that wait on it

    A table of deadlines read at one instant: which are aborted, and the error
    each would report.  The error always carries a cancellation code. *)

Class DeadlineView (V : Type) := {
  view_aborted : V -> nat -> bool;
  view_error : V -> nat -> Ja3Diagnostics -> bool -> Ja3ProxyTransportError;
  view_error_code : forall v i diag p,
    code (view_error v i diag p) = TIMEOUT \/ code (view_error v i diag p) = CANCELLED;
}.

Record deadline_table := { table : gmap nat Deadline; clock : Z }.

Definition absent_deadline : Deadline := {|
  timeoutMs := 1; started := 0; reason := None; timedOut := false; timer := false;
  listening := false |}.
Definition table_get (t : deadline_table) (i : nat) : Deadline :=
  default absent_deadline (table t !! i).

Lemma error_code d now diag p : code (error d now diag p) = if timedOut d then TIMEOUT else CANCELLED.
Proof. done. Qed.

#[export] Program Instance deadline_table_view : DeadlineView deadline_table := {|
  view_aborted t i := aborted (table_get t i);
  view_error t i := error (table_get t i) (clock t);
|}.
Next Obligation. intros. simpl. destruct (timedOut _); auto. Qed.

(** ** Lemmas *)

Lemma positive_Some v z : positive v = Some z <-> v = jint z /\ 0 < z <= MAX_SAFE_INTEGER.
Proof.
  unfold positive, jint. split.
  - intros H. destruct v as [| | |[]| | | | |]; try done. branches; try done.
    unfold isSafeInteger in *. reflect_bools. split; [done | lia].
  - intros [-> H]. unfold isSafeInteger.
    rewrite (proj2 (Z.leb_le _ _)), (proj2 (Z.ltb_lt _ _)) by lia. done.
Qed.
Lemma nonnegativeInteger_Some v z :
  nonnegativeInteger v = Some z <-> v = jint z /\ 0 <= z <= MAX_SAFE_INTEGER.
Proof.
  unfold nonnegativeInteger, jint. split.
  - intros H. destruct v as [| | |[]| | | | |]; try done. branches; try done.
    unfold isSafeInteger in *. reflect_bools. split; [done | lia].
  - intros [-> H]. unfold isSafeInteger.
    rewrite !(proj2 (Z.leb_le _ _)) by lia. done.
Qed.
Lemma timeoutValue_Ok v z : timeoutValue v = Ok z <-> v = jint z /\ 0 < z <= MAX_TIMEOUT_MS.
Proof.
  unfold timeoutValue. destruct (positive v) as [z'|] eqn:Hp.
  - apply positive_Some in Hp as [-> Hz]. rewrite Z.gtb_ltb.
    destruct (MAX_TIMEOUT_MS <? z') eqn:E; reflect_bools; split.
    + done.
    + intros [[= ->] ?]. lia.
    + intros [= ->]. split; [done | lia].
    + by intros [[= ->] ?].
  - split; [done|]. intros [-> Hz].
    assert (positive (jint z) = Some z) as Hq; [|congruence].
    apply positive_Some. unfold MAX_SAFE_INTEGER, MAX_TIMEOUT_MS in *. split; [done | lia].
Qed.

Lemma reason_step d ev r : reason d = Some r -> reason (deadline_step d ev) = Some r.
Proof.
  intros Hr. destruct ev; simpl; unfold timer_fires, parent_aborts; branches; simpl; rewrite ?Hr; done.
Qed.
Lemma reason_run evs d r : reason d = Some r -> reason (deadline_run d evs) = Some r.
Proof.
  revert d. induction evs as [|ev evs IH]; intros d Hr; simpl; [done|].
  apply IH. by apply reason_step.
Qed.
Lemma timeoutMs_step d ev : timeoutMs (deadline_step d ev) = timeoutMs d.
Proof. destruct ev; simpl; unfold timer_fires, parent_aborts; branches; done. Qed.
Lemma started_step d ev : started (deadline_step d ev) = started d.
Proof. destruct ev; simpl; unfold timer_fires, parent_aborts; branches; done. Qed.
Lemma run_constants evs d :
  timeoutMs (deadline_run d evs) = timeoutMs d /\ started (deadline_run d evs) = started d.
Proof.
  revert d. induction evs as [|ev evs IH]; intros d; simpl; [done|].
  destruct (IH (deadline_step d ev)) as [-> ->].
  by rewrite timeoutMs_step, started_step.
Qed.

(** A quiet deadline: no timer and no parent, so only its owner can change it. *)
Definition quiet (d : Deadline) : Prop := timer d = false /\ listening d = false.
Lemma quiet_step d ev : quiet d -> quiet (deadline_step d ev).
Proof.
  intros [Ht Hl]. destruct ev; simpl; unfold timer_fires, parent_aborts;
    rewrite ?Ht, ?Hl; done.
Qed.

Lemma newDeadline_Ok timeout parent now d :
  newDeadline timeout parent now = Ok d ->
  timeout = jint (timeoutMs d) /\ 0 < timeoutMs d <= MAX_TIMEOUT_MS /\ started d = now.
Proof.
  unfold newDeadline. destruct (timeoutValue timeout) as [z|] eqn:Hz; simpl; [|done].
  apply timeoutValue_Ok in Hz as [-> Hz].
  destruct parent as [[r|]|]; intros [= <-]; done.
Qed.
Lemma error_kind d d' now diag p :
  reason d = reason d' -> kind (error d now diag p) = kind (error d' now diag p).
Proof.
  intros Hr. unfold error, newTransportError. simpl. rewrite Hr.
  destruct (reason d') as [[]|]; try done; by destruct (timedOut d), (timedOut d').
Qed.

(** ** Properties *)

(** The time budget a deadline hands on.  Whatever happened to it, at any
    instant after its creation [remaining()] is a valid timeout: at least 1 ms, at
    most the original timeout, and never later than the deadline itself unless less
    than a millisecond is left. *)
Theorem remaining_bounds timeout parent start d evs now :
  newDeadline timeout parent start = Ok d -> start <= now ->
  let left := remaining (deadline_run d evs) now in
  timeoutValue (jint left) = Ok left /\ left <= timeoutMs d /\
  (left = 1 \/ now + left * ms <= start + timeoutMs d * ms).
Proof.
  intros (_ & Hpos & Hstart)%newDeadline_Ok Hnow.
  unfold remaining. destruct (run_constants evs d) as [-> ->]. rewrite Hstart. cbv zeta.
  set (t := timeoutMs d) in *. clearbody t. unfold ms, MAX_TIMEOUT_MS in *.
  pose proof (Z.mul_div_le (t * 1000000 - (now - start)) 1000000 ltac:(lia)) as Hle.
  pose proof (Z.div_le_mono (t * 1000000 - (now - start)) (t * 1000000) 1000000 ltac:(lia) ltac:(lia)) as Hmono.
  rewrite Z.div_mul in Hmono by lia.
  set (q := (t * 1000000 - (now - start)) / 1000000) in *. clearbody q.
  split; [apply timeoutValue_Ok; unfold MAX_TIMEOUT_MS; split; [done|]|]; lia.
Qed.

Lemma remaining_bounds_witness :
  exists d, newDeadline (jint 1500) None 7 = Ok d /\
    let left := remaining (deadline_run d [TimerFires]) 900000007 in
    timeoutValue (jint left) = Ok left /\ left <= timeoutMs d /\
    (left = 1 \/ 900000007 + left * ms <= 7 + timeoutMs d * ms).
Proof.
  eexists. split; [reflexivity|].
  apply (remaining_bounds (jint 1500) None 7); [reflexivity | lia].
Defined.

(** The first abort decides.  Once a deadline has aborted, no later timer,
    parent abort, owner abort or disposal changes its abort reason or the failure
    kind it reports; and after disposal, timer and parent events have no effect. *)
Theorem deadline_latched d evs r :
  reason d = Some r ->
  reason (deadline_run d evs) = Some r /\
  (forall now diag p,
     kind (error (deadline_run d evs) now diag p) = kind (error d now diag p)) /\
  (forall r', deadline_run d [Dispose; TimerFires; ParentAborts r'] = dispose d).
Proof.
  intros Hr. pose proof (reason_run evs d r Hr) as Hrun. split; [done|].
  split; [|done]. intros. apply error_kind. congruence.
Qed.

Lemma deadline_latched_witness :
  let d := deadline_run absent_deadline [ControllerAborts (ErrorReason (localError CANCELLED (Some client_closed)))] in
  reason (deadline_run d [ControllerAborts TimeoutReason]) =
    Some (ErrorReason (localError CANCELLED (Some client_closed))) /\
  (forall now diag p,
     kind (error (deadline_run d [ControllerAborts TimeoutReason]) now diag p) =
     kind (error d now diag p)) /\
  (forall r', deadline_run d [Dispose; TimerFires; ParentAborts r'] = dispose d).
Proof.
  intros d. apply (deadline_latched d [ControllerAborts TimeoutReason]). reflexivity.
Defined.
