(* ===== verification/Lifetime.v ===== *)
(** * Lifetimes (class Lifetime of packages/typescript/src/concurrency.ts)

    The set of operations a client has accepted and not finished, and the close that
    drains or aborts them.  An abort runs its listeners at once and these finish
    operations, so the loop that aborts is a machine of single steps between which
    operations come and go.  [this.closing] is assigned when the closing function first
    waits; a listener that closes again while the loop of the first one runs starts one
    of its own. *)

From S2P Require Import Prelude Js Errors Deadline.

Record Operation := {
  id : nat;              (* its [settled] promise *)
  deadline : nat;
  ownsDeadline : bool;
}.

(** How far the closing function has come. *)
Inductive closing_phase :=
| Draining                        (* awaits [pending] or the timer *)
| Aborting (visited : list nat)   (* in the loop over [operations] *)
| Awaiting                        (* awaits [pending] *)
| Closed.                         (* resolved *)
#[export] Instance closing_phase_eq_dec : EqDecision closing_phase.
Proof. solve_decision. Defined.

Record Lifetime := {
  operations : list Operation;                       (* a Set, in insertion order *)
  closed : bool;
  closing : option (closing_phase * list nat);       (* and the promises of [pending] *)
  settled : list nat;                                (* resolved promises *)
  aborts : list nat;                                 (* deadlines aborted by [close] *)
  disposed : list nat;                               (* deadlines disposed by [done] *)
  assigned : bool;                                   (* [this.closing] is set *)
  inner : list (closing_phase * list nat);           (* closing functions that listeners started *)
}.

Definition newLifetime : Lifetime := {|
  operations := []; closed := false; closing := None; settled := []; aborts := []; disposed := [];
  assigned := false; inner := [] |}.

Definition client_closed_error : exn := ETransport (localError CANCELLED (Some client_closed)).

Definition assertOpen (l : Lifetime) : result exn unit :=
  if closed l then Throw client_closed_error else Ok tt.
Definition stopAccepting (l : Lifetime) : Lifetime := {|
  operations := operations l; closed := true; closing := closing l; settled := settled l;
  aborts := aborts l; disposed := disposed l; assigned := assigned l; inner := inner l |}.
Definition register (op : Operation) (l : Lifetime) : Lifetime := {|
  operations := operations l ++ [op]; closed := closed l; closing := closing l; settled := settled l;
  aborts := aborts l; disposed := disposed l; assigned := assigned l; inner := inner l |}.
(** [begin]: [timeoutMs] is refused by the new deadline when it is not a timeout. *)
Definition begin (i dl : nat) (timeoutMs : jsval) (l : Lifetime) : result exn Lifetime :=
  let? _ := assertOpen l in
  let? _ := timeoutValue timeoutMs in
  Ok (register {| id := i; deadline := dl; ownsDeadline := true |} l).
Definition track (i dl : nat) (alreadyAccepted : bool) (l : Lifetime) : result exn Lifetime :=
  let? _ := (if alreadyAccepted then Ok tt else assertOpen l) in
  Ok (register {| id := i; deadline := dl; ownsDeadline := false |} l).

(** [operation.done()] *)
Definition done_operation (i : nat) (l : Lifetime) : Lifetime :=
  match List.find (fun op => Nat.eqb (id op) i) (operations l) with
  | None => l
  | Some op => {|
      operations := filter (fun op => id op <> i) (operations l); closed := closed l;
      closing := closing l; settled := i :: settled l; aborts := aborts l;
      disposed := if ownsDeadline op then deadline op :: disposed l else disposed l;
      assigned := assigned l; inner := inner l |}
  end.

(** The first closing function goes on; where it waits, [this.closing] is its promise. *)
Definition set_closing (phase : closing_phase) (pending : list nat) (l : Lifetime) : Lifetime := {|
  operations := operations l; closed := closed l; closing := Some (phase, pending);
  settled := settled l; aborts := aborts l; disposed := disposed l;
  assigned := match phase with Aborting _ => assigned l | _ => true end; inner := inner l |}.
(** One that a listener starts. *)
Definition push_inner (phase : closing_phase) (pending : list nat) (l : Lifetime) : Lifetime := {|
  operations := operations l; closed := closed l; closing := closing l; settled := settled l;
  aborts := aborts l; disposed := disposed l;
  assigned := match phase with Aborting _ => assigned l | _ => true end; inner := inner l ++ [(phase, pending)] |}.

(** [close(options)] up to its first await, or to the loop. *)
Definition close (timeoutMs drain : jsval) (l : Lifetime) : result exn Lifetime :=
  if bool_decide (is_Some (closing l)) && assigned l then Ok l
  else
    let? _ := timeoutValue (if is_undefined timeoutMs || is_null timeoutMs then jint 10000 else timeoutMs) in
    if negb (is_undefined drain) && negb (is_boolean drain) then Throw invalid_input_error
    else
      Ok ((if bool_decide (is_Some (closing l)) then push_inner else set_closing)
            (match drain with JBool true => Draining | _ => Aborting [] end) (id <$> operations l) (stopAccepting l)).

Definition all_settled (pending : list nat) (l : Lifetime) : bool :=
  bool_decide (Forall (fun i => i ∈ settled l) pending).

(** The race of [pending] with the timer settles; [elapsed] when it was the timer. *)
Definition drained (elapsed : bool) (l : Lifetime) : Lifetime :=
  match closing l with
  | Some (Draining, pending) =>
      if elapsed || all_settled pending l then set_closing (Aborting []) pending l else l
  | _ => l
  end.
(** One round of the loop: the iterator of a Set also visits later insertions. *)
Definition abort_next (l : Lifetime) : Lifetime :=
  match closing l with
  | Some (Aborting visited, pending) =>
      match List.find (fun op => bool_decide (id op ∉ visited)) (operations l) with
      | None => set_closing Awaiting pending l
      | Some op => {|
          operations := operations l; closed := closed l;
          closing := Some (Aborting (id op :: visited), pending); settled := settled l;
          aborts := deadline op :: aborts l; disposed := disposed l; assigned := assigned l; inner := inner l |}
      end
  | _ => l
  end.
(** [await pending] returns. *)
Definition resolve_close (l : Lifetime) : Lifetime :=
  match closing l with
  | Some (Awaiting, pending) => if all_settled pending l then set_closing Closed pending l else l
  | _ => l
  end.

(** One step of a closing function that a listener started: its phase, and what it aborts. *)
Definition closer_next (elapsed : bool) (phase : closing_phase) (pending : list nat) (l : Lifetime) :
    closing_phase * list nat :=
  match phase with
  | Draining => (if elapsed || all_settled pending l then Aborting [] else Draining, [])
  | Aborting visited =>
      match List.find (fun op => bool_decide (id op ∉ visited)) (operations l) with
      | None => (Awaiting, [])
      | Some op => (Aborting (id op :: visited), [deadline op])
      end
  | Awaiting => (if all_settled pending l then Closed else Awaiting, [])
  | Closed => (Closed, [])
  end.
Definition inner_next (n : nat) (elapsed : bool) (l : Lifetime) : Lifetime :=
  match inner l !! n with
  | None => l
  | Some (phase, pending) =>
      let '(phase', more) := closer_next elapsed phase pending l in {|
      operations := operations l; closed := closed l; closing := closing l; settled := settled l;
      aborts := more ++ aborts l; disposed := disposed l;
      assigned := match phase' with Aborting _ => assigned l | _ => true end;
      inner := <[n := (phase', pending)]> (inner l) |}
  end.

Inductive lifetime_event :=
| LBegin (i dl : nat) (timeoutMs : jsval)
| LTrack (i dl : nat) (alreadyAccepted : bool)
| LDone (i : nat)
| LClose (timeoutMs drain : jsval)
| LDrained (elapsed : bool)
| LAbortNext
| LResolve
| LInner (n : nat) (elapsed : bool).

Definition or_same (l : Lifetime) (r : result exn Lifetime) : Lifetime :=
  match r with Ok l' => l' | Throw _ => l end.
Definition lifetime_step (l : Lifetime) (ev : lifetime_event) : Lifetime :=
  match ev with
  | LBegin i dl timeoutMs => or_same l (begin i dl timeoutMs l)
  | LTrack i dl accepted => or_same l (track i dl accepted l)
  | LDone i => done_operation i l
  | LClose timeoutMs drain => or_same l (close timeoutMs drain l)
  | LDrained elapsed => drained elapsed l
  | LAbortNext => abort_next l
  | LResolve => resolve_close l
  | LInner n elapsed => inner_next n elapsed l
  end.
Definition lifetime_run (l : Lifetime) (evs : list lifetime_event) : Lifetime :=
  fold_left lifetime_step evs l.

(** Every operation has a promise of its own. *)
Definition legal_lifetime (l : Lifetime) (ev : lifetime_event) : Prop :=
  match ev with
  | LBegin i _ _ | LTrack i _ _ => i ∉ (id <$> operations l) /\ i ∉ settled l
  | _ => True
  end.
Inductive lifetime_reachable : Lifetime -> Prop :=
| lifetime_new : lifetime_reachable newLifetime
| lifetime_reach l ev :
    lifetime_reachable l -> legal_lifetime l ev -> lifetime_reachable (lifetime_step l ev).

(** ** The invariant *)

Record lifetime_wf (l : Lifetime) : Prop := {
  lw_ids : NoDup (id <$> operations l);
  lw_settled : forall op, op ∈ operations l -> id op ∉ settled l;
  lw_closed : is_Some (closing l) -> closed l = true;
  lw_pending : forall phase pending i, closing l = Some (phase, pending) -> i ∈ pending ->
    i ∈ settled l \/ i ∈ id <$> operations l;
  lw_visited : forall visited pending op, closing l = Some (Aborting visited, pending) ->
    op ∈ operations l -> id op ∈ visited -> deadline op ∈ aborts l;
  lw_known : forall visited pending i, closing l = Some (Aborting visited, pending) ->
    i ∈ visited -> i ∈ settled l \/ i ∈ id <$> operations l;
  lw_awaiting : forall pending op, closing l = Some (Awaiting, pending) ->
    op ∈ operations l -> id op ∈ pending -> deadline op ∈ aborts l;
  lw_done : forall pending, closing l = Some (Closed, pending) -> Forall (fun i => i ∈ settled l) pending;
  lw_assigned : forall phase pending, closing l = Some (phase, pending) -> (forall visited, phase <> Aborting visited) ->
    assigned l = true;
  lw_inner : forall phase pending i, (phase, pending) ∈ inner l -> i ∈ pending ->
    i ∈ settled l \/ (phase <> Closed /\ i ∈ id <$> operations l);
}.

Lemma find_operation i ops :
  match List.find (fun op => Nat.eqb (id op) i) ops with
  | Some op => op ∈ ops /\ id op = i
  | None => i ∉ (id <$> ops)
  end.
Proof.
  destruct (List.find _ ops) as [op|] eqn:E.
  - apply List.find_some in E as [Hin E%Nat.eqb_eq]. by rewrite list_elem_of_In.
  - intros (op & -> & Hin%list_elem_of_In)%list_elem_of_fmap.
    pose proof (List.find_none _ _ E op Hin) as H. simpl in H. by rewrite Nat.eqb_refl in H.
Qed.
Lemma filter_ids i (ops : list Operation) j : j ∈ id <$> filter (fun op => id op <> i) ops <-> j <> i /\ j ∈ id <$> ops.
Proof.
  rewrite !list_elem_of_fmap. setoid_rewrite list_elem_of_filter. naive_solver.
Qed.

Lemma same_id (ops : list Operation) a b :
  NoDup (id <$> ops) -> a ∈ ops -> b ∈ ops -> id a = id b -> a = b.
Proof.
  induction ops as [|op ops IH]; [set_solver|]. rewrite fmap_cons, NoDup_cons, !elem_of_cons.
  intros [Hop Hnd] [->|Ha] [->|Hb] E; auto.
  - destruct Hop. rewrite E. by apply list_elem_of_fmap_2.
  - destruct Hop. rewrite <- E. by apply list_elem_of_fmap_2.
Qed.

Lemma register_wf op l :
  lifetime_wf l -> id op ∉ (id <$> operations l) -> id op ∉ settled l -> lifetime_wf (register op l).
Proof.
  intros [] Hnew Hfresh. constructor; cbn; auto.
  - rewrite fmap_app. apply NoDup_app. split_and!; [done| |apply NoDup_singleton].
    intros x Hx Hy%list_elem_of_singleton. by subst.
  - intros op' [?|E%list_elem_of_singleton]%elem_of_app; [auto|by subst].
  - intros. rewrite fmap_app. set_solver.
  - intros visited pending op' Hc [Hin|E%list_elem_of_singleton]%elem_of_app Hv; [by eapply lw_visited0|]. subst.
    destruct (lw_known0 _ _ _ Hc Hv); done.
  - intros. rewrite fmap_app. set_solver.
  - intros pending op' Hc [Hin|E%list_elem_of_singleton]%elem_of_app Hv; [by eapply lw_awaiting0|]. subst.
    destruct (lw_pending0 _ _ _ Hc Hv); done.
  - intros phase pending i Hin Hi. rewrite fmap_app, elem_of_app. destruct (lw_inner0 _ _ _ Hin Hi); tauto.
Qed.
Lemma done_wf i l : lifetime_wf l -> lifetime_wf (done_operation i l).
Proof.
  intros H. unfold done_operation. pose proof (find_operation i (operations l)) as Hf.
  destruct (List.find _ _) as [op|]; [|done]. destruct Hf as [Hop <-]. destruct H.
  constructor; cbn; auto.
  - eapply sublist_NoDup; [done|]. apply fmap_sublist, sublist_filter.
  - intros op' [Hne Hin]%list_elem_of_filter [?|?]%elem_of_cons; [done|]. by eapply lw_settled0.
  - intros phase pending j Hc Hj. rewrite filter_ids, elem_of_cons.
    destruct (decide (j = id op)); [tauto|]. destruct (lw_pending0 _ _ _ Hc Hj); tauto.
  - intros ? ? op' ? [_ ?]%list_elem_of_filter. by eapply lw_visited0.
  - intros visited pending j Hc Hj. rewrite filter_ids, elem_of_cons.
    destruct (decide (j = id op)); [tauto|]. destruct (lw_known0 _ _ _ Hc Hj); tauto.
  - intros ? op' ? [_ ?]%list_elem_of_filter. by eapply lw_awaiting0.
  - intros pending Hc. eapply Forall_impl; [by eapply lw_done0|]. cbn. intros j. rewrite elem_of_cons. tauto.
  - intros phase pending j Hin Hj. rewrite filter_ids, elem_of_cons.
    destruct (decide (j = id op)); [tauto|]. destruct (lw_inner0 _ _ _ Hin Hj); tauto.
Qed.
Definition first_phase (drain : jsval) : closing_phase := match drain with JBool true => Draining | _ => Aborting [] end.
Lemma first_phase_cases drain : first_phase drain = Draining \/ first_phase drain = Aborting [].
Proof. unfold first_phase. destruct drain as [| |[]| | | | | |]; auto. Qed.
Lemma close_Ok timeoutMs drain l l' :
  closing l = None -> close timeoutMs drain l = Ok l' ->
  l' = set_closing (first_phase drain) (id <$> operations l) (stopAccepting l).
Proof.
  unfold close. intros ->. rewrite bool_decide_false by by intros [? [=]]. cbn [andb]. destruct (timeoutValue _); cbn [result_bind]; [|done].
  destruct (_ && _); [done|]. by intros [= <-].
Qed.
Lemma close_again timeoutMs drain l l' :
  is_Some (closing l) -> close timeoutMs drain l = Ok l' ->
  l' = l \/ (assigned l = false /\ l' = push_inner (first_phase drain) (id <$> operations l) (stopAccepting l)).
Proof.
  unfold close. intros Hc. rewrite bool_decide_true by done. cbn [andb]. destruct (assigned l); [intros [= <-]; by left|].
  destruct (timeoutValue _); cbn [result_bind]; [|done]. destruct (_ && _); [done|]. intros [= <-]. by right.
Qed.
Lemma close_wf timeoutMs drain l l' : lifetime_wf l -> close timeoutMs drain l = Ok l' -> lifetime_wf l'.
Proof.
  intros H E. destruct (closing l) as [c|] eqn:Ec.
  - apply close_again in E as [->|[Ea ->]]; [done| |by rewrite Ec]. destruct H.
    constructor; cbn; auto.
    + intros phase pending Hc Hn. rewrite (lw_assigned0 _ _ Hc Hn) in Ea. done.
    + intros phase pending i [?|[= -> ->]%list_elem_of_singleton]%elem_of_app Hi; [by eapply lw_inner0|].
      right. split; [|done]. by destruct (first_phase_cases drain) as [-> | ->].
  - apply close_Ok in E as ->; [|done].
    destruct H, (first_phase_cases drain) as [-> | ->]; constructor; cbn; auto; intros; simplify_eq; auto; try set_solver.
Qed.
Lemma drained_wf elapsed l : lifetime_wf l -> lifetime_wf (drained elapsed l).
Proof.
  intros H. unfold drained. destruct (closing l) as [[[] pending]|] eqn:Ec; try done.
  destruct (_ || _); [|done]. destruct H.
  constructor; cbn; auto; intros; simplify_eq; eauto; set_solver.
Qed.
Lemma abort_next_wf l : lifetime_wf l -> lifetime_wf (abort_next l).
Proof.
  intros H. unfold abort_next. destruct (closing l) as [[[] pending]|] eqn:Ec; try done. destruct H.
  destruct (List.find _ _) as [op|] eqn:Ef.
  - apply List.find_some in Ef as [Hin%list_elem_of_In Hnew%bool_decide_eq_true].
    constructor; cbn; auto; try (intros; simplify_eq; eauto).
    + match goal with H : _ ∈ _ :: _ |- _ => apply elem_of_cons in H as [E|] end; [|set_solver].
      assert (op0 = op) as -> by by eapply same_id. left.
    + match goal with H : _ ∈ _ :: _ |- _ => apply elem_of_cons in H as [->|] end; [|eauto].
      right. by apply list_elem_of_fmap_2.
    + match goal with H : forall visited, _ <> _ |- _ => by edestruct H end.
  - constructor; cbn; auto; try (intros; simplify_eq; eauto).
    pose proof (List.find_none _ _ Ef op ltac:(by apply list_elem_of_In)) as Hv.
    apply bool_decide_eq_false in Hv. eapply lw_visited0; [done|done|]. by destruct (decide (id op ∈ visited)).
Qed.
Lemma resolve_wf l : lifetime_wf l -> lifetime_wf (resolve_close l).
Proof.
  intros H. unfold resolve_close. destruct (closing l) as [[[] pending]|] eqn:Ec; try done.
  unfold all_settled. case_bool_decide; [|done]. destruct H.
  constructor; cbn; auto; intros; simplify_eq; eauto.
Qed.
Lemma inner_wf n elapsed l : lifetime_wf l -> lifetime_wf (inner_next n elapsed l).
Proof.
  intros H. unfold inner_next. destruct (inner l !! n) as [[phase pending]|] eqn:En; [|done].
  apply list_elem_of_lookup_2 in En as Hin.
  assert (forall i, i ∈ pending -> (closer_next elapsed phase pending l).1 = Closed -> i ∈ settled l) as Hclosed.
  { intros i Hi. destruct (lw_inner l H _ _ i Hin Hi) as [|[Hne _]]; [done|]. unfold closer_next, all_settled.
    destruct phase; cbn; repeat case_match; try done. case_bool_decide as Hs; [|done]. intros _. by eapply Forall_forall in Hs. }
  destruct (closer_next elapsed phase pending l) as [phase' more]. cbn in Hclosed. destruct H.
  constructor; cbn; auto.
  - intros. apply elem_of_app. right. eauto.
  - intros. apply elem_of_app. right. eauto.
  - intros phase0 p Hc Hn. destruct phase'; eauto.
  - intros phase0 p i (m & Hm)%list_elem_of_lookup Hi.
    destruct (decide (m = n)) as [->|Hne].
    + rewrite list_lookup_insert_eq in Hm by by eapply lookup_lt_Some. injection Hm as <- <-.
      destruct (lw_inner0 _ _ i Hin Hi) as [|[? ?]]; [by left|].
      destruct (decide (phase' = Closed)) as [->|]; [left; auto|by right].
    + rewrite list_lookup_insert_ne in Hm by done. eapply lw_inner0; [by eapply list_elem_of_lookup_2|done].
Qed.
Lemma lifetime_step_wf l ev : lifetime_wf l -> legal_lifetime l ev -> lifetime_wf (lifetime_step l ev).
Proof.
  intros H Hl. destruct ev; cbn.
  - unfold begin. destruct (assertOpen l), (timeoutValue timeoutMs); cbn; try done. destruct Hl. by apply register_wf.
  - unfold track. destruct (if alreadyAccepted then _ else _); cbn; [|done]. destruct Hl. by apply register_wf.
  - by apply done_wf.
  - destruct (close timeoutMs drain l) eqn:E; cbn; [by eapply close_wf|done].
  - by apply drained_wf.
  - by apply abort_next_wf.
  - by apply resolve_wf.
  - by apply inner_wf.
Qed.
Lemma lifetime_reachable_wf l : lifetime_reachable l -> lifetime_wf l.
Proof.
  induction 1; [|by apply lifetime_step_wf].
  constructor; cbn; try done; [apply NoDup_nil_2|set_solver..].
Qed.

(** ** Runs *)

Fixpoint legal_run (l : Lifetime) (evs : list lifetime_event) : Prop :=
  match evs with
  | [] => True
  | ev :: evs => legal_lifetime l ev /\ legal_run (lifetime_step l ev) evs
  end.

Lemma run_wf evs l : lifetime_wf l -> legal_run l evs -> lifetime_wf (lifetime_run l evs).
Proof.
  revert l. induction evs as [|ev evs IH]; intros l H Hl; [done|]. destruct Hl as [Hev Hl].
  apply IH; [by apply lifetime_step_wf|done].
Qed.

(** An operation stays until it is done, and stays done. *)
Definition kept (op : Operation) (l : Lifetime) : Prop := op ∈ operations l \/ id op ∈ settled l.
Lemma kept_step op l ev : kept op l -> kept op (lifetime_step l ev).
Proof.
  unfold kept. destruct ev; cbn.
  - unfold begin. destruct (assertOpen l), (timeoutValue timeoutMs); cbn; try done. set_solver.
  - unfold track. destruct (if alreadyAccepted then _ else _); cbn; [|done]. set_solver.
  - unfold done_operation. pose proof (find_operation i (operations l)) as Hf.
    destruct (List.find _ _) as [op'|]; [|done]. destruct Hf as [_ <-]. cbn.
    rewrite list_elem_of_filter, elem_of_cons. destruct (decide (id op = id op')); tauto.
  - unfold close. destruct (_ && assigned l); [done|]. destruct (timeoutValue _); cbn; [|done].
    destruct (_ && _); [done|]. by case_bool_decide.
  - unfold drained. destruct (closing l) as [[[] ?]|]; try done. by destruct (_ || _).
  - unfold abort_next. destruct (closing l) as [[[] ?]|]; try done. by destruct (List.find _ _).
  - unfold resolve_close. destruct (closing l) as [[[] ?]|]; try done. by destruct (all_settled _ _).
  - unfold inner_next. destruct (inner l !! n) as [[]|]; [|done]. by destruct (closer_next _ _ _ _).
Qed.
Lemma kept_run op evs l : kept op l -> kept op (lifetime_run l evs).
Proof. revert l. induction evs as [|ev evs IH]; intros l H; [done|]. by apply IH, kept_step. Qed.

(** The snapshot that a close waits for never changes. *)
Definition pending_of (l : Lifetime) : option (list nat) := snd <$> closing l.
Lemma pending_step pending l ev :
  pending_of l = Some pending -> pending_of (lifetime_step l ev) = Some pending.
Proof.
  unfold pending_of. destruct (closing l) as [[phase p]|] eqn:Ec; [|done]. intros [= <-]. destruct ev; cbn.
  - unfold begin. destruct (assertOpen l), (timeoutValue timeoutMs); cbn; by rewrite Ec.
  - unfold track. destruct (if alreadyAccepted then _ else _); cbn; by rewrite Ec.
  - unfold done_operation. destruct (List.find _ _); cbn; by rewrite Ec.
  - destruct (close timeoutMs drain l) as [l'|] eqn:E; cbn; [|by rewrite Ec].
    apply close_again in E as [->|[_ ->]]; cbn; by rewrite Ec.
  - unfold drained. rewrite Ec. destruct phase; cbn; rewrite ?Ec; try done. destruct (_ || _); cbn; by rewrite ?Ec.
  - unfold abort_next. rewrite Ec. destruct phase; cbn; rewrite ?Ec; try done. by destruct (List.find _ _).
  - unfold resolve_close. rewrite Ec. destruct phase; cbn; rewrite ?Ec; try done. destruct (all_settled _ _); cbn; by rewrite ?Ec.
  - unfold inner_next. destruct (inner l !! n) as [[]|]; [|by rewrite Ec]. destruct (closer_next _ _ _ _). cbn. by rewrite Ec.
Qed.
Lemma pending_run pending evs l :
  pending_of l = Some pending -> pending_of (lifetime_run l evs) = Some pending.
Proof. revert l. induction evs as [|ev evs IH]; intros l H; [done|]. by apply IH, pending_step. Qed.

(** ** How a close ends *)

Definition runs_to (l l' : Lifetime) : Prop := exists evs, lifetime_run l evs = l' /\
  Forall (fun ev => match ev with LDrained true | LAbortNext | LDone _ | LResolve => True | _ => False end) evs.

Lemma runs_to_step ev l l' :
  match ev with LDrained true | LAbortNext | LDone _ | LResolve => True | _ => False end ->
  runs_to (lifetime_step l ev) l' -> runs_to l l'.
Proof. intros Hev (evs & <- & Hall). exists (ev :: evs). split; [done|]. by constructor. Qed.
Lemma runs_to_refl l : runs_to l l.
Proof. by exists []. Qed.

(** Operations that the loop has still to visit. *)
Definition unvisited (visited : list nat) (l : Lifetime) : nat :=
  length (filter (fun op => id op ∉ visited) (operations l)).

Lemma unvisited_less visited op l :
  op ∈ operations l -> id op ∉ visited -> (unvisited (id op :: visited) l < unvisited visited l)%nat.
Proof.
  unfold unvisited. induction (operations l) as [|op' ops IH]; [set_solver|].
  assert (length (filter (fun o => id o ∉ id op :: visited) ops) <= length (filter (fun o => id o ∉ visited) ops))%nat as Hle.
  { clear. induction ops as [|o ops IH]; [done|]. rewrite !filter_cons. repeat case_decide; cbn; set_solver by lia. }
  rewrite elem_of_cons. intros [<-|Hin] Hnew; rewrite !filter_cons.
  - rewrite decide_False, decide_True by set_solver. cbn. lia.
  - specialize (IH Hin Hnew). repeat case_decide; cbn; set_solver by lia.
Qed.

Lemma awaiting_closes l pending :
  lifetime_wf l -> closing l = Some (Awaiting, pending) ->
  exists l', runs_to l l' /\ closing l' = Some (Closed, pending).
Proof.
  remember (length (operations l)) as n eqn:En. revert l En.
  induction n as [|n IH]; intros l En H Hc.
  - exists (set_closing Closed pending l). split; [|done].
    apply (runs_to_step LResolve); [done|]. cbn. unfold resolve_close, all_settled. rewrite Hc.
    rewrite bool_decide_true; [apply runs_to_refl|]. apply Forall_forall. intros i Hi.
    destruct (lw_pending _ H _ _ _ Hc Hi) as [|Hin]; [done|]. apply symmetry, nil_length_inv in En.
    rewrite En in Hin. set_solver.
  - destruct (operations l) as [|op ops] eqn:Eops; [done|].
    destruct (IH (done_operation (id op) l)) as (l' & Hruns & Hl').
    + unfold done_operation. rewrite Eops. cbn [List.find]. rewrite Nat.eqb_refl. cbn [operations].
      rewrite filter_cons, decide_False by tauto. rewrite list_filter_all; [cbn in En; lia|].
      pose proof (lw_ids _ H) as Hnd. rewrite Eops in Hnd. apply NoDup_cons in Hnd as [Hop _].
      apply Forall_forall. intros op' Hin E. apply Hop. rewrite <- E. by apply list_elem_of_fmap_2.
    + by apply done_wf.
    + unfold done_operation. by destruct (List.find _ _).
    + exists l'. split; [|done]. by apply (runs_to_step (LDone (id op))).
Qed.
Lemma aborting_closes l visited pending :
  lifetime_wf l -> closing l = Some (Aborting visited, pending) ->
  exists l', runs_to l l' /\ closing l' = Some (Closed, pending).
Proof.
  remember (unvisited visited l) as n eqn:En. revert l visited En.
  induction n as [n IH] using lt_wf_ind. intros l visited En H Hc.
  pose proof (abort_next_wf l H) as Hwf. unfold abort_next in Hwf. rewrite Hc in Hwf.
  destruct (List.find _ _) as [op|] eqn:Ef.
  - apply List.find_some in Ef as Hop. destruct Hop as [Hin%list_elem_of_In Hnew%bool_decide_eq_true].
    pose proof (unvisited_less visited op l Hin Hnew) as Hless.
    match type of Hwf with lifetime_wf ?l1 =>
      destruct (IH (unvisited (id op :: visited) l1) ltac:(by subst n) l1 _ eq_refl Hwf eq_refl)
        as (l' & Hruns & Hl')
    end.
    exists l'. split; [|done]. apply (runs_to_step LAbortNext); [done|]. cbn. unfold abort_next. by rewrite Hc, Ef.
  - destruct (awaiting_closes _ pending Hwf) as (l' & Hruns & Hl'); [done|].
    exists l'. split; [|done]. apply (runs_to_step LAbortNext); [done|]. cbn. unfold abort_next. by rewrite Hc, Ef.
Qed.

(** ** Properties *)

(** C34: what a resolved close means.  From the call on nothing new begins.  Whatever
    runs in the meantime, once the close awaits its operations every operation it
    found is done or has had its deadline aborted, and when it resolves every one of
    them is done. *)
Theorem close_settles l timeoutMs drain l' evs i dl t :
  lifetime_reachable l -> closing l = None -> close timeoutMs drain l = Ok l' -> legal_run l' evs ->
  let l'' := lifetime_run l' evs in
  begin i dl t l'' = Throw client_closed_error /\
  track i dl false l'' = Throw client_closed_error /\
  (forall pending op, closing l'' = Some (Awaiting, pending) -> op ∈ operations l ->
     id op ∈ settled l'' \/ deadline op ∈ aborts l'') /\
  (forall pending op, closing l'' = Some (Closed, pending) -> op ∈ operations l ->
     id op ∈ settled l'' /\ op ∉ operations l'').
Proof.
  intros Hreach Hc Hclose Hrun. cbv zeta. apply lifetime_reachable_wf in Hreach as Hwf.
  pose proof (close_wf _ _ _ _ Hwf Hclose) as Hwf'. pose proof (run_wf evs l' Hwf' Hrun) as Hwf''.
  apply close_Ok in Hclose as El'; [|done].
  assert (pending_of (lifetime_run l' evs) = Some (id <$> operations l)) as Hpending
    by (apply pending_run; by subst l').
  assert (forall op, op ∈ operations l -> kept op (lifetime_run l' evs)) as Hkept
    by (intros; apply kept_run; left; by subst l').
  set (l'' := lifetime_run l' evs) in *. clearbody l''. unfold pending_of in Hpending.
  destruct (closing l'') as [[phase pending]|] eqn:Ec; [|done]. injection Hpending as ->.
  assert (closed l'' = true) as Hcl by (apply (lw_closed _ Hwf''); by rewrite Ec).
  unfold begin, track, assertOpen. rewrite Hcl. split_and!; try done.
  - intros ? op [= -> <-] Hop. destruct (Hkept op Hop) as [Hin|]; [|by left]. right.
    apply (lw_awaiting _ Hwf'' _ op Ec Hin). by apply list_elem_of_fmap_2.
  - intros ? op [= -> <-] Hop. pose proof (lw_done _ Hwf'' _ Ec) as Hdone. rewrite Forall_forall in Hdone.
    assert (id op ∈ settled l'') as Hset by (apply Hdone; by apply list_elem_of_fmap_2).
    split; [done|]. intros Hin. by apply (lw_settled _ Hwf'' op Hin).
Qed.

Definition demo_lifetime : Lifetime := lifetime_run newLifetime [LBegin 1 10 (jint 500); LTrack 2 20 false].
Lemma demo_reachable : lifetime_reachable demo_lifetime.
Proof.
  apply lifetime_reach; [apply lifetime_reach; [apply lifetime_new|]|]; cbn; set_solver.
Qed.

Lemma close_settles_witness :
  exists l', close JUndefined JUndefined demo_lifetime = Ok l' /\
  let l'' := lifetime_run l' [LAbortNext; LDone 1; LAbortNext; LAbortNext; LDone 2; LResolve] in
  closing l'' = Some (Closed, [1; 2]%nat) /\ disposed l'' = [10]%nat /\
  begin 3 30 (jint 1) l'' = Throw client_closed_error /\
  track 3 30 false l'' = Throw client_closed_error /\
  (forall pending op, closing l'' = Some (Awaiting, pending) -> op ∈ operations demo_lifetime ->
     id op ∈ settled l'' \/ deadline op ∈ aborts l'') /\
  (forall pending op, closing l'' = Some (Closed, pending) -> op ∈ operations demo_lifetime ->
     id op ∈ settled l'' /\ op ∉ operations l'').
Proof.
  eexists. split; [reflexivity|]. intros l''. split; [reflexivity|]. split; [reflexivity|].
  apply (close_settles demo_lifetime JUndefined JUndefined); [apply demo_reachable|reflexivity|reflexivity|].
  cbn. tauto.
Defined.

(** C35: a close always can end.  From every state that a close may be in, whatever
    operations are still running, the expiry of its timer, the rounds of its loop and
    the end of the aborted operations lead to its resolution; no other event, and no
    new caller, is needed. *)
Theorem close_terminates l pending phase :
  lifetime_reachable l -> closing l = Some (phase, pending) ->
  exists l', runs_to l l' /\ closing l' = Some (Closed, pending).
Proof.
  intros H%lifetime_reachable_wf Hc. destruct phase as [|visited| |].
  - destruct (aborting_closes (drained true l) [] pending) as (l' & Hruns & Hl').
    + by apply drained_wf.
    + unfold drained. by rewrite Hc.
    + exists l'. split; [|done]. by apply (runs_to_step (LDrained true)).
  - by eapply aborting_closes.
  - by eapply awaiting_closes.
  - exists l. split; [apply runs_to_refl|done].
Qed.

Lemma close_terminates_witness :
  exists l', runs_to (or_same demo_lifetime (close (jint 5) (JBool true) demo_lifetime)) l' /\
    closing l' = Some (Closed, [1; 2]%nat).
Proof.
  apply (close_terminates _ [1; 2]%nat Draining); [|reflexivity].
  apply (lifetime_reach demo_lifetime (LClose (jint 5) (JBool true))); [apply demo_reachable|done].
Defined.

(** A close that a listener starts while the loop of the first one runs has a promise of
    its own; that one, too, resolves only when all the operations it found are done. *)
Theorem inner_close_settles l pending i :
  lifetime_reachable l -> (Closed, pending) ∈ inner l -> i ∈ pending -> i ∈ settled l /\ i ∉ id <$> operations l.
Proof.
  intros H%lifetime_reachable_wf Hin Hi. destruct (lw_inner l H _ _ i Hin Hi) as [Hs|[? _]]; [|done].
  split; [done|]. intros (op & -> & Hop)%list_elem_of_fmap. by apply (lw_settled l H op Hop).
Qed.
Lemma inner_close_settles_witness :
  let l := lifetime_run demo_lifetime
    [LClose JUndefined JUndefined; LAbortNext; LClose JUndefined JUndefined; LInner 0 false; LInner 0 false; LInner 0 false;
     LClose JUndefined JUndefined; LDone 1; LDone 2; LInner 0 false] in
  inner l = [(Closed, [1; 2]%nat)] /\ 2%nat ∈ settled l /\ 2%nat ∉ id <$> operations l.
Proof.
  intros l. split; [reflexivity|]. apply (inner_close_settles l [1; 2]%nat 2).
  - unfold l, lifetime_run. cbn [fold_left]. do 10 (apply lifetime_reach; [|done]). apply demo_reachable.
  - left.
  - right. left.
Defined.
