(* ===== verification/Admission.v ===== *)
(** * Admission (class Admission of packages/typescript/src/concurrency.ts)

    A bounded queue of requests per partition.  [acquire] hands out a permit or
    queues the caller; releasing a permit, or the abort of a waiter, dispatches the
    waiters in arrival order, skipping partitions that are saturated.

    The closures of the source become tables: [permits] holds the release functions
    that were handed out and have not run ([released] is false), [reservations] the
    same for [reserve], and a waiter is known by the number of its promise. *)

From S2P Require Import Prelude Counters Js Errors Deadline.

Record AdmissionLimits := {
  maxConcurrent : Z;
  maxConcurrentPerPartition : Z;
  maxQueued : Z;
  maxQueuedPerPartition : Z;
}.

Record Waiting := {
  promise : nat;                   (* the promise that [resolve]/[reject] settle *)
  partition : jsstr;
  deadline : nat;                  (* the deadline the waiter listens to *)
  diag : Ja3Diagnostics;
  w_usedProxy : bool;
}.

#[export] Instance Waiting_eq_dec : EqDecision Waiting.
Proof. solve_decision. Defined.

Record Admission := {
  limits : AdmissionLimits;
  active : Z;
  byPartition : gmap jsstr Z;
  queuedByPartition : gmap jsstr Z;
  waiting : list Waiting;          (* a Set, in insertion order *)
  reserved : Z;
  reservedByPartition : gmap jsstr Z;
  permits : gmap nat jsstr;        (* outstanding release closures of [occupy] *)
  reservations : gmap nat jsstr;   (* outstanding release closures of [reserve] *)
}.

Definition no_limits : AdmissionLimits := {|
  maxConcurrent := 1; maxConcurrentPerPartition := 1; maxQueued := 0; maxQueuedPerPartition := 0 |}.
#[export] Instance Admission_inhabited : Inhabited Admission := populate {|
  limits := no_limits; active := 0; byPartition := ∅; queuedByPartition := ∅; waiting := [];
  reserved := 0; reservedByPartition := ∅; permits := ∅; reservations := ∅ |}.

(** What an operation does to the promises it settles. *)
Inductive settlement :=
| Granted (promise : nat)                               (* with the permit of that number *)
| Rejected (promise : nat) (e : Ja3ProxyTransportError).

Definition newAdmission (maxConcurrent maxConcurrentPerPartition maxQueued maxQueuedPerPartition : jsval) :
    result exn Admission :=
  match positive maxConcurrent, positive maxConcurrentPerPartition,
        nonnegativeInteger maxQueued, nonnegativeInteger maxQueuedPerPartition with
  | Some c, Some cp, Some q, Some qp =>
      Ok {| limits := {| maxConcurrent := c; maxConcurrentPerPartition := cp;
                         maxQueued := q; maxQueuedPerPartition := qp |};
            active := 0; byPartition := ∅; queuedByPartition := ∅; waiting := [];
            reserved := 0; reservedByPartition := ∅; permits := ∅; reservations := ∅ |}
  | _, _, _, _ => Throw invalid_input_error
  end.

Definition constrain_limits (l l' : AdmissionLimits) : AdmissionLimits := {|
  maxConcurrent := Z.min (maxConcurrent l) (maxConcurrent l');
  maxConcurrentPerPartition := Z.min (maxConcurrentPerPartition l) (maxConcurrentPerPartition l');
  maxQueued := Z.min (maxQueued l) (maxQueued l');
  maxQueuedPerPartition := Z.min (maxQueuedPerPartition l) (maxQueuedPerPartition l');
|}.

Definition constrain (l : AdmissionLimits) (a : Admission) : Admission := {|
  limits := constrain_limits (limits a) l;
  active := active a; byPartition := byPartition a; queuedByPartition := queuedByPartition a;
  waiting := waiting a; reserved := reserved a; reservedByPartition := reservedByPartition a;
  permits := permits a; reservations := reservations a;
|}.

Definition set_phase (ph : Phase) (diag : Ja3Diagnostics) : Ja3Diagnostics := {|
  requestId := requestId diag; attempt := attempt diag; phase := ph;
  delivery := delivery diag; queueMs := queueMs diag; headersMs := headersMs diag;
  bodyMs := bodyMs diag; totalMs := totalMs diag; requestBytes := requestBytes diag;
  responseBytes := responseBytes diag; tlsProfile := tlsProfile diag; traceId := traceId diag;
  spanId := spanId diag; clientReused := clientReused diag; contextId := contextId diag;
  cookieRevision := cookieRevision diag |}.

(** [new Ja3ProxyTransportError('BUSY', { ...diag, phase: 'queued' }, usedProxy, 'queue_full')] *)
Definition busy_error (diag : Ja3Diagnostics) (usedProxy : bool) : Ja3ProxyTransportError :=
  newTransportError BUSY (set_phase queued diag) usedProxy (Some queue_full) None.

(** [reserve]; [r] names the closure it returns. *)
Definition reserve (r : nat) (partition : jsstr) (diag : Ja3Diagnostics) (usedProxy : bool)
    (a : Admission) : result exn Admission :=
  let partitionCount := count (reservedByPartition a) partition in
  if (reserved a >=? maxConcurrent (limits a) + maxQueued (limits a)) ||
     (partitionCount >=? maxConcurrentPerPartition (limits a) + maxQueuedPerPartition (limits a))
  then Throw (ETransport (busy_error diag usedProxy))
  else Ok {|
    limits := limits a; active := active a; byPartition := byPartition a;
    queuedByPartition := queuedByPartition a; waiting := waiting a;
    reserved := reserved a + 1; reservedByPartition := incr partition (reservedByPartition a);
    permits := permits a; reservations := <[r := partition]> (reservations a) |}.

(** The closure that [reserve] returned. *)
Definition release_reservation (r : nat) (a : Admission) : Admission :=
  match reservations a !! r with
  | None => a     (* released *)
  | Some partition => {|
      limits := limits a; active := active a; byPartition := byPartition a;
      queuedByPartition := queuedByPartition a; waiting := waiting a;
      reserved := reserved a - 1; reservedByPartition := decr partition (reservedByPartition a);
      permits := permits a; reservations := delete r (reservations a) |}
  end.

Definition available (partition : jsstr) (a : Admission) : bool :=
  (active a <? maxConcurrent (limits a)) &&
  (count (byPartition a) partition <? maxConcurrentPerPartition (limits a)).

(** [occupy]; [p] names the release closure it returns. *)
Definition occupy (p : nat) (partition : jsstr) (a : Admission) : Admission := {|
  limits := limits a; active := active a + 1; byPartition := incr partition (byPartition a);
  queuedByPartition := queuedByPartition a; waiting := waiting a;
  reserved := reserved a; reservedByPartition := reservedByPartition a;
  permits := <[p := partition]> (permits a); reservations := reservations a |}.

(** [remove]: false when the item is no longer waiting. *)
Definition remove (item : Waiting) (a : Admission) : option Admission :=
  if bool_decide (promise item ∈ promise <$> waiting a) then
    Some {|
      limits := limits a; active := active a; byPartition := byPartition a;
      queuedByPartition := decr (partition item) (queuedByPartition a);
      waiting := filter (fun w => promise w <> promise item) (waiting a);
      reserved := reserved a; reservedByPartition := reservedByPartition a;
      permits := permits a; reservations := reservations a |}
  else None.

Section with_deadlines.
Context {V : Type} `{DeadlineView V}.
Implicit Types (v : V) (a : Admission).

(** [dispatch]: the body of the loop, for one waiter. *)
Definition dispatch_item v (a : Admission) (item : Waiting) : Admission * list settlement :=
  if negb (available (partition item) a) then (a, [])
  else match remove item a with
       | None => (a, [])     (* the Set iterator skips deleted items *)
       | Some a' =>
           if view_aborted v (deadline item) then
             (a', [Rejected (promise item)
                     (view_error v (deadline item) (diag item) (w_usedProxy item))])
           else (occupy (promise item) (partition item) a', [Granted (promise item)])
       end.
Fixpoint dispatch_loop v (items : list Waiting) a : Admission * list settlement :=
  match items with
  | [] => (a, [])
  | item :: items' =>
      let (a1, out1) := dispatch_item v a item in
      let (a2, out2) := dispatch_loop v items' a1 in
      (a2, out1 ++ out2)
  end.
Definition dispatch v a : Admission * list settlement := dispatch_loop v (waiting a) a.

(** [acquire]: the new state, and the settlement when the promise is settled at once;
    [p] numbers the promise, and the permit it will carry. *)
Definition acquire v (p : nat) (part : jsstr) (dl : nat) (dg : Ja3Diagnostics) (proxy : bool) a :
    Admission * list settlement :=
  if view_aborted v dl then (a, [Rejected p (view_error v dl dg proxy)])
  else if available part a && bool_decide (queuedByPartition a !! part = None) then
    (occupy p part a, [Granted p])
  else if (zlength (waiting a) >=? maxQueued (limits a)) ||
          (count (queuedByPartition a) part >=? maxQueuedPerPartition (limits a)) then
    (a, [Rejected p (busy_error dg proxy)])
  else
    ({| limits := limits a; active := active a; byPartition := byPartition a;
        queuedByPartition := incr part (queuedByPartition a);
        waiting := waiting a ++ [{| promise := p; partition := part; deadline := dl;
                                    diag := dg; w_usedProxy := proxy |}];
        reserved := reserved a; reservedByPartition := reservedByPartition a;
        permits := permits a; reservations := reservations a |}, []).

(** The release closure of permit [p]. *)
Definition release v (p : nat) a : Admission * list settlement :=
  match permits a !! p with
  | None => (a, [])          (* released *)
  | Some part =>
      dispatch v {|
        limits := limits a; active := active a - 1; byPartition := decr part (byPartition a);
        queuedByPartition := queuedByPartition a; waiting := waiting a;
        reserved := reserved a; reservedByPartition := reservedByPartition a;
        permits := delete p (permits a); reservations := reservations a |}
  end.

(** A waiter's abort listener. *)
Definition abort_item v (item : Waiting) a : Admission * list settlement :=
  match remove item a with
  | None => (a, [])
  | Some a' =>
      let e := view_error v (deadline item) (set_phase queued (diag item)) (w_usedProxy item) in
      let (a'', out) := dispatch v a' in
      (a'', Rejected (promise item) e :: out)
  end.
(** The abort event of deadline [dl] runs the listeners that wait on it, in order. *)
Fixpoint abort_items v (items : list Waiting) a : Admission * list settlement :=
  match items with
  | [] => (a, [])
  | item :: items' =>
      let (a1, out1) := abort_item v item a in
      let (a2, out2) := abort_items v items' a1 in
      (a2, out1 ++ out2)
  end.
Definition abort v (dl : nat) a : Admission * list settlement :=
  abort_items v (filter (fun w => deadline w = dl) (waiting a)) a.
End with_deadlines.

(** ** Histories of an admission object *)

Inductive admission_event :=
| EAcquire {V : Type} `{DeadlineView V} (v : V) (p : nat) (part : jsstr) (dl : nat)
    (dg : Ja3Diagnostics) (proxy : bool)
| ERelease {V : Type} `{DeadlineView V} (v : V) (p : nat)
| EAbort {V : Type} `{DeadlineView V} (v : V) (dl : nat)
| EConstrain (l : AdmissionLimits)
| EReserve (r : nat) (part : jsstr) (dg : Ja3Diagnostics) (proxy : bool)
| EReleaseReservation (r : nat).

Definition admission_step (a : Admission) (ev : admission_event) : Admission * list settlement :=
  match ev with
  | EAcquire v p part dl dg proxy => acquire v p part dl dg proxy a
  | ERelease v p => release v p a
  | EAbort v dl => abort v dl a
  | EConstrain l => (constrain l a, [])
  | EReserve r part dg proxy =>
      (match reserve r part dg proxy a with Ok a' => a' | Throw _ => a end, [])
  | EReleaseReservation r => (release_reservation r a, [])
  end.

(** Each call makes a new promise and a new closure, and negotiated limits are the
    validated capabilities of the service. *)
Definition positive_limits (l : AdmissionLimits) : Prop :=
  0 < maxConcurrent l /\ 0 < maxConcurrentPerPartition l /\
  0 <= maxQueued l /\ 0 <= maxQueuedPerPartition l.
Definition legal (a : Admission) (ev : admission_event) : Prop :=
  match ev with
  | EAcquire _ p _ _ _ _ => permits a !! p = None /\ p ∉ promise <$> waiting a
  | EConstrain l => positive_limits l
  | EReserve r _ _ _ => reservations a !! r = None
  | _ => True
  end.

(** States reachable from a new object with limits [L]. *)
Inductive reachable (L : AdmissionLimits) : Admission -> Prop :=
| reachable_new c cp q qp a :
    newAdmission c cp q qp = Ok a -> limits a = L -> reachable L a
| reachable_step a ev :
    reachable L a -> legal a ev -> reachable L (admission_step a ev).1.

(** ** The invariant *)

Definition wcount (ws : list Waiting) (part : jsstr) : Z :=
  zlength (filter (fun w => partition w = part) ws).

Definition limits_le (l L : AdmissionLimits) : Prop :=
  maxConcurrent l <= maxConcurrent L /\
  maxConcurrentPerPartition l <= maxConcurrentPerPartition L /\
  maxQueued l <= maxQueued L /\ maxQueuedPerPartition l <= maxQueuedPerPartition L.

(** The tables agree with each other and stay within the limits [L]. *)
Record wf (L : AdmissionLimits) (a : Admission) : Prop := {
  wf_positive : positive_limits (limits a);
  wf_limits : limits_le (limits a) L;
  wf_active : active a = Z.of_nat (size (permits a));
  wf_byPartition : counts (byPartition a) (tally (permits a));
  wf_queued : counts (queuedByPartition a) (wcount (waiting a));
  wf_promises : NoDup (promise <$> waiting a);
  wf_fresh : forall w, w ∈ waiting a -> permits a !! promise w = None;
  wf_reserved : reserved a = Z.of_nat (size (reservations a));
  wf_reservedByPartition : counts (reservedByPartition a) (tally (reservations a));
  wf_active_bound : active a <= maxConcurrent L;
  wf_partition_bound part : tally (permits a) part <= maxConcurrentPerPartition L;
  wf_waiting_bound : zlength (waiting a) <= maxQueued L;
  wf_wcount_bound part : wcount (waiting a) part <= maxQueuedPerPartition L;
  wf_reserved_bound : reserved a <= maxConcurrent L + maxQueued L;
}.

(** No waiter could run: its partition, or the whole client, is saturated. *)
Definition work_conserving (a : Admission) : Prop :=
  forall w, w ∈ waiting a -> available (partition w) a = false.

(** *** Counting waiters *)

Lemma wcount_nil part : wcount [] part = 0.
Proof. done. Qed.
Lemma wcount_cons w ws part :
  wcount (w :: ws) part = (if decide (part = partition w) then 1 else 0) + wcount ws part.
Proof.
  unfold wcount. rewrite filter_cons.
  destruct (decide (partition w = part)), (decide (part = partition w)); try congruence; zlen.
Qed.
Lemma wcount_snoc ws w part :
  wcount (ws ++ [w]) part = wcount ws part + if decide (part = partition w) then 1 else 0.
Proof.
  unfold wcount. rewrite filter_app, filter_cons, filter_nil.
  destruct (decide (partition w = part)), (decide (part = partition w)); try congruence; zlen.
Qed.
Lemma wcount_nonneg ws part : 0 <= wcount ws part.
Proof. unfold wcount. zlen. Qed.
Lemma wcount_le ws part : wcount ws part <= zlength ws.
Proof. unfold wcount, zlength. apply inj_le, length_filter. Qed.
Lemma wcount_pos ws w : w ∈ ws -> 0 < wcount ws (partition w).
Proof.
  induction ws as [|w' ws IH]; [set_solver|]. rewrite wcount_cons.
  pose proof (wcount_nonneg ws (partition w)).
  intros [->|Hin%IH]%elem_of_cons; case_decide; congruence || lia.
Qed.

Definition without (item : Waiting) (ws : list Waiting) : list Waiting :=
  filter (fun w => promise w <> promise item) ws.

Lemma without_absent item ws : promise item ∉ promise <$> ws -> without item ws = ws.
Proof.
  intros Hni. apply list_filter_all. apply Forall_forall. intros w Hw E. apply Hni.
  rewrite <- E. by apply list_elem_of_fmap_2.
Qed.
Lemma without_count item ws part :
  item ∈ ws -> NoDup (promise <$> ws) ->
  wcount (without item ws) part = wcount ws part - if decide (part = partition item) then 1 else 0.
Proof.
  induction ws as [|w ws IH]; [set_solver|]. intros Hin [Hw Hnd]%NoDup_cons.
  rewrite wcount_cons. unfold without. rewrite filter_cons.
  destruct (decide (promise w <> promise item)) as [Hne|He].
  - apply elem_of_cons in Hin as [->|Hin]; [done|].
    rewrite wcount_cons. fold (without item ws). rewrite (IH Hin Hnd). lia.
  - apply dec_stable in He. fold (without item ws).
    apply elem_of_cons in Hin as [->|Hin].
    + rewrite without_absent by done. lia.
    + destruct Hw. rewrite He. by apply list_elem_of_fmap_2.
Qed.
Lemma without_length item ws : zlength (without item ws) <= zlength ws.
Proof. unfold zlength. apply inj_le, length_filter. Qed.
Lemma without_length_lt item ws : item ∈ ws -> zlength (without item ws) < zlength ws.
Proof.
  intros Hin. unfold zlength, without.
  assert (length (filter (fun w => promise w <> promise item) ws) < length ws)%nat; [|lia].
  apply (length_filter_lt _ _ item); [done|]. intros Hne. by apply Hne.
Qed.
Lemma without_sublist item ws : without item ws `sublist_of` ws.
Proof. apply sublist_filter. Qed.
Lemma without_elem item w ws : w ∈ without item ws <-> promise w <> promise item /\ w ∈ ws.
Proof. unfold without. by rewrite list_elem_of_filter. Qed.
Lemma same_promise ws w item :
  NoDup (promise <$> ws) -> w ∈ ws -> item ∈ ws -> promise w = promise item -> w = item.
Proof.
  intros Hnd (i & Hi)%list_elem_of_lookup (j & Hj)%list_elem_of_lookup E.
  assert (i = j) as ->; [|congruence].
  eapply NoDup_lookup; [exact Hnd | by rewrite list_lookup_fmap, Hi | ].
  rewrite list_lookup_fmap, Hj. simpl. congruence.
Qed.

(** *** Preservation *)

Lemma new_wf c cp q qp a : newAdmission c cp q qp = Ok a -> wf (limits a) a.
Proof.
  unfold newAdmission. destruct (positive c) eqn:Hc; [|done].
  destruct (positive cp) eqn:Hcp; [|done].
  destruct (nonnegativeInteger q) eqn:Hq; [|done].
  destruct (nonnegativeInteger qp) eqn:Hqp; [|done]. intros [= <-].
  apply positive_Some in Hc as [_ ?], Hcp as [_ ?].
  apply nonnegativeInteger_Some in Hq as [_ ?], Hqp as [_ ?].
  assert (counts (∅ : gmap jsstr Z) (tally ∅)) as Hempty.
  { apply (counts_ext _ (fun _ => 0)); [intros; by rewrite tally_empty | apply counts_empty]. }
  split; simpl; unfold positive_limits, limits_le; simpl;
    try first [lia | exact Hempty | exact counts_empty | apply NoDup_nil_2 | set_solver].
  intros. rewrite tally_empty. lia.
Qed.

Lemma constrain_wf L l a : wf L a -> positive_limits l -> wf L (constrain l a).
Proof.
  intros Hwf Hl. pose proof (wf_positive _ _ Hwf) as Hp. pose proof (wf_limits _ _ Hwf) as Hle.
  destruct Hwf. split; simpl; try done; unfold positive_limits, limits_le in *; simpl; lia.
Qed.

Lemma reserve_wf L r part dg proxy a a' :
  wf L a -> reservations a !! r = None -> reserve r part dg proxy a = Ok a' -> wf L a'.
Proof.
  intros Hwf Hr. unfold reserve.
  destruct ((reserved a >=? _) || _) eqn:E; [done|]. intros [= <-]. reflect_bools.
  pose proof (wf_limits _ _ Hwf) as Hle. destruct Hwf. split; simpl; try done.
  - rewrite size_insert_new by done. lia.
  - eapply counts_ext; [|by apply counts_incr]. intros k. simpl. by rewrite tally_insert.
  - unfold limits_le in Hle. lia.
Qed.

Lemma release_reservation_wf L r a : wf L a -> wf L (release_reservation r a).
Proof.
  intros Hwf. unfold release_reservation. destruct (reservations a !! r) as [part|] eqn:Hr; [|done].
  destruct Hwf. split; simpl; try done.
  - rewrite (size_delete_old _ _ part) by done. lia.
  - eapply counts_ext; [|apply counts_decr; [done|by eapply tally_pos]].
    intros k. simpl. by rewrite (tally_delete _ r part).
  - lia.
Qed.

Lemma available_spec part a : available part a = true <->
  active a < maxConcurrent (limits a) /\
  count (byPartition a) part < maxConcurrentPerPartition (limits a).
Proof. unfold available. rewrite andb_true_iff, !Z.ltb_lt. done. Qed.

(** Handing out a permit under a fresh number. *)
Lemma occupy_wf L p part a :
  wf L a -> permits a !! p = None -> p ∉ promise <$> waiting a -> available part a = true ->
  wf L (occupy p part a).
Proof.
  intros Hwf Hp Hnw [Ha Hb]%available_spec.
  rewrite (counts_count _ _ _ (wf_byPartition _ _ Hwf)) in Hb.
  pose proof (wf_limits _ _ Hwf) as Hle. unfold limits_le in Hle.
  destruct Hwf. split; simpl; try done.
  - rewrite size_insert_new by done. lia.
  - eapply counts_ext; [|by apply counts_incr]. intros k. simpl. by rewrite tally_insert.
  - intros w Hw. rewrite lookup_insert_ne; [by apply wf_fresh0|].
    intros ->. apply Hnw. by apply list_elem_of_fmap_2.
  - lia.
  - intros part'. rewrite tally_insert by done. specialize (wf_partition_bound0 part').
    case_decide; subst; lia.
Qed.

(** Taking a waiter out of the queue. *)
Lemma remove_Some item a a' :
  item ∈ waiting a -> remove item a = Some a' ->
  a' = {| limits := limits a; active := active a; byPartition := byPartition a;
          queuedByPartition := decr (partition item) (queuedByPartition a);
          waiting := without item (waiting a);
          reserved := reserved a; reservedByPartition := reservedByPartition a;
          permits := permits a; reservations := reservations a |}.
Proof. intros Hin. unfold remove. case_bool_decide; [|done]. by intros [= <-]. Qed.
Lemma remove_in item a : item ∈ waiting a -> is_Some (remove item a).
Proof.
  intros Hin. unfold remove. rewrite bool_decide_eq_true_2; [by eexists|].
  by apply list_elem_of_fmap_2.
Qed.

Lemma remove_wf L item a a' :
  wf L a -> item ∈ waiting a -> remove item a = Some a' ->
  wf L a' /\ promise item ∉ promise <$> waiting a'.
Proof.
  intros Hwf Hin ->%remove_Some; [|done]. split.
  - pose proof (without_length item (waiting a)) as Hlen.
    pose proof (fun part => without_count item (waiting a) part Hin (wf_promises _ _ Hwf)) as Hc.
    destruct Hwf. split; simpl; try done.
    + eapply counts_ext; [|apply counts_decr; [done | by apply wcount_pos]].
      intros k. simpl. by rewrite Hc.
    + eapply sublist_NoDup; [exact wf_promises0 | apply fmap_sublist, without_sublist].
    + intros w [_ Hw]%without_elem. by apply wf_fresh0.
    + lia.
    + intros part. specialize (wf_wcount_bound0 part). rewrite Hc. case_decide; lia.
  - simpl. intros (w & E & [Hne _]%without_elem)%list_elem_of_fmap. congruence.
Qed.

(** *** Dispatching *)

(** Dispatch only removes waiters and only uses up capacity. *)
Record shrinks (a a' : Admission) : Prop := {
  shrinks_limits : limits a' = limits a;
  shrinks_active : active a <= active a';
  shrinks_count part : count (byPartition a) part <= count (byPartition a') part;
  shrinks_waiting : waiting a' `sublist_of` waiting a;
  shrinks_reservations : reservations a' = reservations a;
}.

#[export] Instance shrinks_preorder : PreOrder shrinks.
Proof.
  split; [by split | intros a b c [] []; split; try congruence; try lia].
  - intros part. etrans; eauto.
  - by etrans.
Qed.

Lemma shrinks_available a a' part :
  shrinks a a' -> available part a = false -> available part a' = false.
Proof.
  intros [Hl Ha Hc _ _]. rewrite <- !not_true_iff_false, !available_spec, Hl.
  specialize (Hc part). lia.
Qed.

(** A snapshot of waiters that an earlier step may have thinned out. *)
Definition consistent (items : list Waiting) (a : Admission) : Prop :=
  forall item, item ∈ items -> item ∈ waiting a \/ promise item ∉ promise <$> waiting a.

Lemma consistent_waiting a : consistent (waiting a) a.
Proof. intros item Hin. by left. Qed.
Lemma consistent_shrinks L items a a' :
  wf L a -> consistent items a -> shrinks a a' -> consistent items a'.
Proof.
  intros Hwf Hc Hs item Hin. destruct (decide (item ∈ waiting a')) as [|Hni]; [by left | right].
  intros (w & E & Hw)%list_elem_of_fmap. pose proof (shrinks_waiting _ _ Hs) as Hsub.
  assert (w ∈ waiting a) as Hwa by (by eapply elem_of_submseteq, sublist_submseteq).
  destruct (Hc item Hin) as [Hia|Hia].
  - apply Hni. by rewrite (same_promise (waiting a) item w (wf_promises _ _ Hwf) Hia Hwa E).
  - apply Hia. rewrite E. by apply list_elem_of_fmap_2.
Qed.

Definition settled_promise (s : settlement) : nat :=
  match s with Granted p => p | Rejected p _ => p end.
Definition granted (out : list settlement) : list nat :=
  omap (fun s => match s with Granted p => Some p | Rejected _ _ => None end) out.

(** Promises leave the queue exactly when they are settled. *)
Definition settles (a : Admission) (out : list settlement) (a' : Admission) : Prop :=
  (settled_promise <$> out) ++ (promise <$> waiting a') ≡ₚ promise <$> waiting a.

Lemma settles_nil a : settles a [] a.
Proof. unfold settles. reflexivity. Qed.
Lemma settles_trans a out1 a1 out2 a2 :
  settles a out1 a1 -> settles a1 out2 a2 -> settles a (out1 ++ out2) a2.
Proof.
  unfold settles. intros H1 H2. rewrite fmap_app, <- app_assoc, H2. done.
Qed.
Lemma without_settles item ws :
  item ∈ ws -> NoDup (promise <$> ws) ->
  promise item :: (promise <$> without item ws) ≡ₚ promise <$> ws.
Proof.
  induction ws as [|w ws IH]; [set_solver|]. intros Hin [Hw Hnd]%NoDup_cons.
  unfold without. rewrite filter_cons.
  destruct (decide (promise w <> promise item)) as [Hne|He]; fold (without item ws).
  - apply elem_of_cons in Hin as [->|Hin]; [done|]. simpl.
    rewrite <- (IH Hin Hnd). apply perm_swap.
  - apply dec_stable in He. rewrite without_absent by (by rewrite <- He). simpl. by rewrite He.
Qed.

Section dispatching.
Context {V : Type} `{DeadlineView V}.
Implicit Types (v : V) (a : Admission).

(** What the loop body does: it skips a blocked or deleted waiter, and settles an
    eligible one, with a permit exactly when its deadline is still running. *)
Lemma dispatch_item_cases L v a item a' out :
  wf L a -> consistent [item] a -> dispatch_item v a item = (a', out) ->
  (a' = a /\ out = [] /\
     (available (partition item) a = false \/ promise item ∉ promise <$> waiting a)) \/
  (item ∈ waiting a /\ available (partition item) a = true /\
     waiting a' = without item (waiting a) /\ wf L a' /\ shrinks a a' /\
     if view_aborted v (deadline item)
     then permits a' = permits a /\
          out = [Rejected (promise item) (view_error v (deadline item) (diag item) (w_usedProxy item))]
     else permits a' = <[promise item := partition item]> (permits a) /\
          out = [Granted (promise item)]).
Proof.
  intros Hwf Hc. unfold dispatch_item.
  destruct (available (partition item) a) eqn:Hav; simpl; [|intros [= <- <-]; auto].
  destruct (Hc item) as [Hin|Hni]; [set_solver| |].
  2:{ unfold remove. rewrite bool_decide_eq_false_2 by done. intros [= <- <-]. auto. }
  destruct (remove item a) as [a1|] eqn:Hr; [|by destruct (remove_in item a Hin); congruence].
  pose proof (remove_wf L item a a1 Hwf Hin Hr) as [Hwf1 Hni1].
  pose proof (remove_Some item a a1 Hin Hr) as Ha1. intros Hout. right.
  split; [done|]. split; [done|].
  assert (waiting a1 = without item (waiting a)) as Hw1 by (by rewrite Ha1).
  assert (shrinks a a1) as Hs1 by (rewrite Ha1; split; simpl; [done|lia|lia|apply without_sublist|done]).
  destruct (view_aborted v (deadline item)); injection Hout as <- <-.
  - split; [exact Hw1|]. split; [exact Hwf1|]. split; [exact Hs1|]. by rewrite Ha1.
  - assert (wf L (occupy (promise item) (partition item) a1)) as Hwf2.
    { apply occupy_wf; [done| |done|].
      - rewrite Ha1. simpl. by apply (wf_fresh _ _ Hwf).
      - rewrite Ha1. by rewrite available_spec in Hav |- *. }
    split; [exact Hw1|]. split; [exact Hwf2|]. split; [|by rewrite Ha1].
    etrans; [exact Hs1|]. split; simpl; [done|lia| |done|done].
    intros part. rewrite (counts_count _ _ _ (wf_byPartition _ _ Hwf1)).
    rewrite (counts_count _ _ _ (counts_incr _ _ (partition item) (wf_byPartition _ _ Hwf1))).
    case_decide; lia.
Qed.

Lemma dispatch_item_spec L v a item a' out :
  wf L a -> consistent [item] a -> dispatch_item v a item = (a', out) ->
  wf L a' /\ shrinks a a' /\ settles a out a' /\
  (item ∈ waiting a' -> available (partition item) a' = false).
Proof.
  intros Hwf Hc Hd.
  destruct (dispatch_item_cases L v a item a' out Hwf Hc Hd)
    as [(-> & -> & Hblocked)|(Hin & Hav & Hw & Hwf' & Hs & Hcase)].
  - split_and!; [done|reflexivity|apply settles_nil|]. intros Hin. destruct Hblocked as [|Hni]; [done|].
    destruct Hni. by apply list_elem_of_fmap_2.
  - split_and!; [done|done| |].
    + unfold settles. rewrite Hw, <- (without_settles item (waiting a)); [|done|by apply Hwf].
      destruct (view_aborted v (deadline item)); by destruct Hcase as [_ ->].
    + rewrite Hw. intros [Hne _]%without_elem. done.
Qed.

Lemma dispatch_loop_spec L v items a a' out :
  wf L a -> consistent items a -> dispatch_loop v items a = (a', out) ->
  wf L a' /\ shrinks a a' /\ settles a out a' /\
  (forall w, w ∈ items -> w ∈ waiting a' -> available (partition w) a' = false).
Proof.
  revert a a' out. induction items as [|item items IH]; intros a a' out Hwf Hc; simpl.
  { intros [= <- <-]. split_and!; [done|reflexivity|apply settles_nil|set_solver]. }
  destruct (dispatch_item v a item) as [a1 out1] eqn:H1.
  destruct (dispatch_loop v items a1) as [a2 out2] eqn:H2. intros [= <- <-].
  assert (consistent [item] a) as Hc1 by (intros x Hx; apply Hc; set_solver).
  destruct (dispatch_item_spec L v a item a1 out1 Hwf Hc1 H1) as (Hwf1 & Hs1 & Ht1 & Hb1).
  assert (consistent items a1) as Hc2.
  { eapply consistent_shrinks; [exact Hwf| |done]. intros x Hx. apply Hc. set_solver. }
  destruct (IH a1 a2 out2 Hwf1 Hc2 H2) as (Hwf2 & Hs2 & Ht2 & Hb2).
  split_and!; [done|by etrans|by eapply settles_trans|].
  intros w [->|Hw]%elem_of_cons Hin; [|by apply Hb2].
  eapply shrinks_available; [done|]. apply Hb1.
  eapply elem_of_submseteq; [done|]. apply sublist_submseteq, Hs2.
Qed.

Lemma dispatch_spec L v a a' out :
  wf L a -> dispatch v a = (a', out) ->
  wf L a' /\ shrinks a a' /\ settles a out a' /\ work_conserving a'.
Proof.
  intros Hwf Hd.
  destruct (dispatch_loop_spec L v (waiting a) a a' out Hwf (consistent_waiting a) Hd)
    as (Hwf' & Hs & Ht & Hb).
  split_and!; [done..|]. intros w Hw. apply Hb; [|done].
  eapply elem_of_submseteq; [done|]. apply sublist_submseteq, Hs.
Qed.
End dispatching.

(** *** Every operation preserves the invariant *)

Lemma remove_shrinks item a a' : item ∈ waiting a -> remove item a = Some a' -> shrinks a a'.
Proof. intros Hin ->%remove_Some; [|done]. split; simpl; [done|lia|lia|apply without_sublist|done]. Qed.
Lemma remove_settles L item a a' e :
  wf L a -> item ∈ waiting a -> remove item a = Some a' -> settles a [Rejected (promise item) e] a'.
Proof.
  intros Hwf Hin ->%remove_Some; [|done]. unfold settles. simpl.
  apply without_settles; [done | apply Hwf].
Qed.
Lemma remove_None_stale item a : consistent [item] a -> remove item a = None -> item ∉ waiting a.
Proof. intros Hc Hr Hin. by destruct (remove_in item a Hin); congruence. Qed.

Lemma freed_wf L p part a :
  wf L a -> permits a !! p = Some part ->
  wf L {| limits := limits a; active := active a - 1; byPartition := decr part (byPartition a);
          queuedByPartition := queuedByPartition a; waiting := waiting a;
          reserved := reserved a; reservedByPartition := reservedByPartition a;
          permits := delete p (permits a); reservations := reservations a |}.
Proof.
  intros Hwf Hp. destruct Hwf. split; simpl; try done.
  - rewrite (size_delete_old _ _ part) by done. lia.
  - eapply counts_ext; [|apply counts_decr; [done|by eapply tally_pos]].
    intros k. simpl. by rewrite (tally_delete _ p part).
  - intros w Hw. rewrite lookup_delete_None. right. by apply wf_fresh0.
  - lia.
  - intros part'. rewrite (tally_delete _ p part) by done. specialize (wf_partition_bound0 part').
    case_decide; lia.
Qed.

Lemma enqueue_wf L w a :
  wf L a -> permits a !! promise w = None -> promise w ∉ promise <$> waiting a ->
  zlength (waiting a) < maxQueued (limits a) ->
  count (queuedByPartition a) (partition w) < maxQueuedPerPartition (limits a) ->
  wf L {| limits := limits a; active := active a; byPartition := byPartition a;
          queuedByPartition := incr (partition w) (queuedByPartition a);
          waiting := waiting a ++ [w];
          reserved := reserved a; reservedByPartition := reservedByPartition a;
          permits := permits a; reservations := reservations a |}.
Proof.
  intros Hwf Hp Hni Hq Hqp. rewrite (counts_count _ _ _ (wf_queued _ _ Hwf)) in Hqp.
  pose proof (wf_limits _ _ Hwf) as Hle. unfold limits_le in Hle.
  destruct Hwf. split; simpl; try done.
  - eapply counts_ext; [|by apply counts_incr]. intros k. simpl. by rewrite wcount_snoc.
  - rewrite fmap_app. apply NoDup_app. split; [done|]. split; [|apply NoDup_singleton].
    intros x Hx Hx'%list_elem_of_singleton. subst. done.
  - intros w' [Hw'|Hw'%list_elem_of_singleton]%elem_of_app; subst; auto.
  - zlen.
  - intros part. rewrite wcount_snoc. specialize (wf_wcount_bound0 part).
    case_decide; subst; lia.
Qed.

Section steps.
Context {V : Type} `{DeadlineView V}.
Implicit Types (v : V) (a : Admission).

Lemma abort_item_spec L v item a a' out :
  wf L a -> consistent [item] a -> abort_item v item a = (a', out) ->
  wf L a' /\ shrinks a a' /\ settles a out a' /\ (work_conserving a -> work_conserving a').
Proof.
  intros Hwf Hc. unfold abort_item. destruct (remove item a) as [a1|] eqn:Hr.
  2:{ intros [= <- <-]. split_and!; [done|reflexivity|apply settles_nil|done]. }
  destruct (Hc item) as [Hin|Hni]; [set_solver| |].
  2:{ unfold remove in Hr. by rewrite bool_decide_eq_false_2 in Hr. }
  destruct (dispatch v a1) as [a2 out2] eqn:Hd. intros [= <- <-].
  destruct (remove_wf L item a a1 Hwf Hin Hr) as [Hwf1 _].
  destruct (dispatch_spec L v a1 a2 out2 Hwf1 Hd) as (Hwf2 & Hs2 & Ht2 & Hwc).
  split_and!; [done| | |done].
  - etrans; [by eapply remove_shrinks | done].
  - eapply (settles_trans _ [_]); [by eapply remove_settles | done].
Qed.

Lemma abort_items_spec L v items a a' out :
  wf L a -> consistent items a -> abort_items v items a = (a', out) ->
  wf L a' /\ shrinks a a' /\ settles a out a' /\ (work_conserving a -> work_conserving a').
Proof.
  revert a a' out. induction items as [|item items IH]; intros a a' out Hwf Hc; simpl.
  { intros [= <- <-]. split_and!; [done|reflexivity|apply settles_nil|done]. }
  destruct (abort_item v item a) as [a1 out1] eqn:H1.
  destruct (abort_items v items a1) as [a2 out2] eqn:H2. intros [= <- <-].
  assert (consistent [item] a) as Hc1 by (intros x Hx; apply Hc; set_solver).
  destruct (abort_item_spec L v item a a1 out1 Hwf Hc1 H1) as (Hwf1 & Hs1 & Ht1 & Hw1).
  assert (consistent items a1) as Hc2.
  { eapply consistent_shrinks; [exact Hwf| |done]. intros x Hx. apply Hc. set_solver. }
  destruct (IH a1 a2 out2 Hwf1 Hc2 H2) as (Hwf2 & Hs2 & Ht2 & Hw2).
  split_and!; [done|by etrans|by eapply settles_trans|auto].
Qed.

Lemma abort_spec L v dl a a' out :
  wf L a -> abort v dl a = (a', out) ->
  wf L a' /\ shrinks a a' /\ settles a out a' /\ (work_conserving a -> work_conserving a').
Proof.
  intros Hwf. unfold abort. apply abort_items_spec; [done|].
  intros item Hin. left. by apply list_elem_of_filter in Hin as [_ ?].
Qed.

Lemma release_spec L v p a a' out :
  wf L a -> release v p a = (a', out) ->
  wf L a' /\ settles a out a' /\ (work_conserving a -> work_conserving a').
Proof.
  intros Hwf. unfold release. destruct (permits a !! p) as [part|] eqn:Hp.
  2:{ intros [= <- <-]. split_and!; [done|apply settles_nil|done]. }
  intros Hd. destruct (dispatch_spec L v _ a' out (freed_wf L p part a Hwf Hp) Hd)
    as (Hwf' & _ & Ht & Hwc). split_and!; [done|exact Ht|done].
Qed.

(** An immediate grant only happens past an empty partition queue, and a queued
    caller is blocked: a queue is empty or its head is. *)
Lemma acquire_wf L v p part dl dg proxy a :
  wf L a -> permits a !! p = None -> p ∉ promise <$> waiting a ->
  wf L (acquire v p part dl dg proxy a).1.
Proof.
  intros Hwf Hp Hni. unfold acquire. destruct (view_aborted v dl); [done|].
  destruct (available part a && _) eqn:E1; simpl; reflect_bools; [by apply occupy_wf|].
  destruct ((zlength (waiting a) >=? _) || _) eqn:E2; [done|]; reflect_bools.
  apply (enqueue_wf L {| promise := p; partition := part; deadline := dl; diag := dg;
                         w_usedProxy := proxy |}); simpl; try done; lia.
Qed.
Lemma acquire_conserving L v p part dl dg proxy a :
  wf L a -> work_conserving a -> work_conserving (acquire v p part dl dg proxy a).1.
Proof.
  intros Hwf Hwc. unfold acquire. destruct (view_aborted v dl); [done|].
  destruct (available part a && _) eqn:E1; simpl; reflect_bools.
  - intros w Hw. specialize (Hwc w Hw). simpl in Hw.
    rewrite <- not_true_iff_false, available_spec in Hwc |- *. simpl.
    rewrite (counts_count _ _ _ (counts_incr _ _ part (wf_byPartition _ _ Hwf))).
    rewrite (counts_count _ _ _ (wf_byPartition _ _ Hwf)) in Hwc. case_decide; lia.
  - destruct ((zlength (waiting a) >=? _) || _); [done|].
    intros w Hw. simpl in Hw. apply elem_of_app in Hw as [Hw|Hw]; [by apply Hwc|].
    apply list_elem_of_singleton in Hw as ->. simpl.
    destruct E1 as [E1|E1]; [exact E1|].
    apply bool_decide_eq_false in E1.
    rewrite (counts_absent _ _ part (wf_queued _ _ Hwf)) in E1.
    pose proof (wcount_nonneg (waiting a) part).
    assert (exists w, w ∈ waiting a /\ partition w = part) as (w & Hw & <-); [|by apply Hwc].
    unfold wcount in *.
    destruct (filter (fun w => partition w = part) (waiting a)) as [|w ws] eqn:Hf; [done|].
    exists w. assert (w ∈ w :: ws) as Hin by set_solver. rewrite <- Hf in Hin.
    apply list_elem_of_filter in Hin. naive_solver.
Qed.
End steps.

Lemma step_wf L a ev : wf L a -> legal a ev -> wf L (admission_step a ev).1.
Proof.
  intros Hwf Hl. destruct ev; simpl in *.
  - destruct Hl. by apply acquire_wf.
  - destruct (release v p a) as [a' out] eqn:E. by destruct (release_spec L v p a a' out Hwf E).
  - destruct (abort v dl a) as [a' out] eqn:E. by destruct (abort_spec L v dl a a' out Hwf E).
  - by apply constrain_wf.
  - destruct (reserve r part dg proxy a) as [a'|] eqn:E; [|done]. by eapply reserve_wf.
  - by apply release_reservation_wf.
Qed.

Lemma step_conserving L a ev :
  wf L a -> legal a ev -> work_conserving a -> work_conserving (admission_step a ev).1.
Proof.
  intros Hwf Hl Hwc. destruct ev; simpl in *.
  - by eapply acquire_conserving.
  - destruct (release v p a) as [a' out] eqn:E. destruct (release_spec L v p a a' out Hwf E); naive_solver.
  - destruct (abort v dl a) as [a' out] eqn:E. destruct (abort_spec L v dl a a' out Hwf E); naive_solver.
  - intros w Hw. specialize (Hwc w Hw).
    rewrite <- not_true_iff_false, available_spec in Hwc |- *. simpl. lia.
  - unfold reserve. by destruct (_ || _).
  - unfold release_reservation. by destruct (reservations a !! r).
Qed.

Lemma reachable_invariant L a : reachable L a -> wf L a /\ work_conserving a.
Proof.
  induction 1 as [c cp q qp a Hnew <-|a ev _ [Hwf Hwc] Hl].
  - split; [by eapply new_wf|]. unfold newAdmission in Hnew.
    destruct (positive c), (positive cp), (nonnegativeInteger q), (nonnegativeInteger qp);
      simplify_eq. intros w Hw. by apply not_elem_of_nil in Hw.
  - split; [by apply step_wf | by eapply step_conserving].
Qed.

(** *** Order of dispatch *)

Section order.
Context {V : Type} `{DeadlineView V}.
Implicit Types (v : V) (a : Admission).

Lemma dispatch_loop_app v i1 i2 a :
  dispatch_loop v (i1 ++ i2) a =
  let (a1, o1) := dispatch_loop v i1 a in
  let (a2, o2) := dispatch_loop v i2 a1 in (a2, o1 ++ o2).
Proof.
  revert a. induction i1 as [|i i1 IH]; intros a; simpl; [by destruct (dispatch_loop v i2 a)|].
  destruct (dispatch_item v a i) as [a0 o0]. rewrite IH.
  destruct (dispatch_loop v i1 a0) as [a1 o1], (dispatch_loop v i2 a1) as [a2 o2].
  by rewrite app_assoc.
Qed.

Lemma dispatch_item_out L v item a a' out :
  wf L a -> consistent [item] a -> dispatch_item v a item = (a', out) ->
  settled_promise <$> out = [] \/
  (settled_promise <$> out = [promise item] /\ item ∈ waiting a /\
   available (partition item) a = true).
Proof.
  intros Hwf Hc Hd. destruct (dispatch_item_cases L v a item a' out Hwf Hc Hd)
    as [(_ & -> & _)|(Hin & Hav & _ & _ & _ & Hcase)]; [by left | right].
  destruct (view_aborted v (Admission.deadline item)); destruct Hcase as [_ ->]; done.
Qed.

(** Settlements follow the order of the snapshot, and only reach waiters whose
    partition had capacity when the loop started. *)
Lemma dispatch_loop_out L v items a a' out :
  wf L a -> consistent items a -> dispatch_loop v items a = (a', out) ->
  (settled_promise <$> out) `sublist_of` (promise <$> items) /\
  forall s, s ∈ out -> exists w, w ∈ items /\ promise w = settled_promise s /\
    w ∈ waiting a /\ available (partition w) a = true.
Proof.
  revert a a' out. induction items as [|item items IH]; intros a a' out Hwf Hc; simpl.
  { intros [= <- <-]. split; [done|set_solver]. }
  destruct (dispatch_item v a item) as [a1 out1] eqn:H1.
  destruct (dispatch_loop v items a1) as [a2 out2] eqn:H2. intros [= <- <-].
  assert (consistent [item] a) as Hc1 by (intros x Hx; apply Hc; set_solver).
  destruct (dispatch_item_spec L v a item a1 out1 Hwf Hc1 H1) as (Hwf1 & Hs1 & _ & _).
  pose proof (dispatch_item_out L v item a a1 out1 Hwf Hc1 H1) as Hout1.
  assert (consistent items a1) as Hc2.
  { eapply consistent_shrinks; [exact Hwf| |done]. intros x Hx. apply Hc. set_solver. }
  destruct (IH a1 a2 out2 Hwf1 Hc2 H2) as [Hsub Hel]. split.
  - rewrite fmap_app. destruct Hout1 as [->|(-> & _)]; simpl; [by constructor | by constructor].
  - intros s [Hs|Hs]%elem_of_app.
    + assert (settled_promise s ∈ settled_promise <$> out1) as Hin by (by apply list_elem_of_fmap_2).
      destruct Hout1 as [E|(E & Hin1 & Hav)]; rewrite E in Hin; [set_solver|].
      exists item. set_solver.
    + destruct (Hel s Hs) as (w & Hw & E & Hwa & Hav). exists w.
      split_and!; [set_solver|done| |].
      * eapply elem_of_submseteq; [done|]. apply sublist_submseteq, Hs1.
      * destruct (available (partition w) a) eqn:Eav; [done|].
        by rewrite (shrinks_available a a1 _ Hs1 Eav) in Hav.
Qed.

(** No overtaking inside a partition. *)
Lemma dispatch_fifo L v a a' out l1 w1 l2 w2 l3 :
  wf L a -> waiting a = l1 ++ w1 :: l2 ++ w2 :: l3 -> partition w1 = partition w2 ->
  dispatch v a = (a', out) -> promise w2 ∈ settled_promise <$> out -> w1 ∉ waiting a'.
Proof.
  intros Hwf Hws Hp Hd Hset Hw1. unfold dispatch in Hd. rewrite Hws in Hd at 1.
  pose proof (consistent_waiting a) as Hc. unfold consistent in Hc. rewrite Hws in Hc.
  rewrite dispatch_loop_app in Hd.
  destruct (dispatch_loop v l1 a) as [a1 o1] eqn:E1.
  destruct (dispatch_loop v (w1 :: l2 ++ w2 :: l3) a1) as [a2 o2] eqn:E2.
  injection Hd as <- <-.
  assert (consistent l1 a) as Hc1 by (intros x Hx; rewrite Hws; apply Hc; set_solver).
  destruct (dispatch_loop_spec L v l1 a a1 o1 Hwf Hc1 E1) as (Hwf1 & Hs1 & _ & _).
  destruct (dispatch_loop_out L v l1 a a1 o1 Hwf Hc1 E1) as [Hsub1 _].
  assert (consistent (w1 :: l2 ++ w2 :: l3) a1) as Hc2.
  { eapply consistent_shrinks; [exact Hwf| |done]. intros x Hx. rewrite Hws. apply Hc. set_solver. }
  pose proof (wf_promises _ _ Hwf) as Hnd. rewrite Hws, fmap_app in Hnd.
  apply NoDup_app in Hnd as (_ & Hdisj & Hnd). simpl in Hnd, Hdisj. rewrite fmap_app in Hnd, Hdisj.
  simpl in Hnd, Hdisj.
  apply NoDup_cons in Hnd as [Hne Hnd].
  rewrite fmap_app in Hset. apply elem_of_app in Hset as [Hset|Hset].
  { eapply elem_of_submseteq in Hset; [|by apply sublist_submseteq].
    apply (Hdisj _ Hset). set_solver. }
  simpl in E2.
  destruct (dispatch_item v a1 w1) as [b ob] eqn:Eb.
  destruct (dispatch_loop v (l2 ++ w2 :: l3) b) as [c oc] eqn:Ec. injection E2 as <- <-.
  assert (consistent [w1] a1) as Hcw by (intros x Hx; apply Hc2; set_solver).
  destruct (dispatch_item_spec L v a1 w1 b ob Hwf1 Hcw Eb) as (Hwfb & Hsb & _ & Hblocked).
  assert (consistent (l2 ++ w2 :: l3) b) as Hc3.
  { eapply consistent_shrinks; [exact Hwf1| |done]. intros x Hx. apply Hc2. set_solver. }
  destruct (dispatch_loop_spec L v _ b c oc Hwfb Hc3 Ec) as (_ & Hsc & _ & _).
  destruct (dispatch_loop_out L v _ b c oc Hwfb Hc3 Ec) as [_ Hel].
  rewrite fmap_app in Hset. apply elem_of_app in Hset as [Hset|Hset].
  { destruct (dispatch_item_out L v w1 a1 b ob Hwf1 Hcw Eb) as [E|[E _]]; rewrite E in Hset; set_solver. }
  apply list_elem_of_fmap in Hset as (s & Es & Hs).
  destruct (Hel s Hs) as (w & Hw & Ew & Hwb & Hav).
  assert (w = w2) as ->.
  { assert (w2 ∈ waiting a) by (rewrite Hws; set_solver).
    apply (same_promise (waiting a)); [by apply Hwf| |done|congruence].
    eapply elem_of_submseteq; [done|]. apply sublist_submseteq. etrans; [apply Hsb | apply Hs1]. }
  rewrite <- Hp, Hblocked in Hav; [done|].
  eapply elem_of_submseteq; [done|]. apply sublist_submseteq, Hsc.
Qed.
End order.

(** *** Permits move from the queue to their holders *)

Section transfer.
Context {V : Type} `{DeadlineView V}.
Implicit Types (v : V) (a : Admission).

Definition load (a : Admission) : Z := Z.of_nat (size (permits a)) + zlength (waiting a).

Lemma dispatch_loop_load L v items a a' out :
  wf L a -> consistent items a -> dispatch_loop v items a = (a', out) ->
  load a' <= load a /\
  forall q, q ∈ dom (permits a') -> q ∈ dom (permits a) \/ q ∈ promise <$> waiting a.
Proof.
  revert a a' out. induction items as [|item items IH]; intros a a' out Hwf Hc; simpl.
  { intros [= <- <-]. split; [done|auto]. }
  destruct (dispatch_item v a item) as [a1 out1] eqn:H1.
  destruct (dispatch_loop v items a1) as [a2 out2] eqn:H2. intros [= <- <-].
  assert (consistent [item] a) as Hc1 by (intros x Hx; apply Hc; set_solver).
  destruct (dispatch_item_spec L v a item a1 out1 Hwf Hc1 H1) as (Hwf1 & Hs1 & _ & _).
  assert (consistent items a1) as Hc2.
  { eapply consistent_shrinks; [exact Hwf| |done]. intros x Hx. apply Hc. set_solver. }
  destruct (IH a1 a2 out2 Hwf1 Hc2 H2) as [Hload Hdom].
  destruct (dispatch_item_cases L v a item a1 out1 Hwf Hc1 H1)
    as [(-> & _ & _)|(Hin & _ & Hw & _ & _ & Hcase)]; [done|].
  pose proof (without_length_lt item _ Hin) as Hlt.
  assert (load a1 <= load a /\
          forall q, q ∈ dom (permits a1) -> q ∈ dom (permits a) \/ q = promise item) as [Hl1 Hd1].
  { unfold load. rewrite Hw. destruct (view_aborted v (Admission.deadline item));
      destruct Hcase as [-> _]; [split; [lia|auto]|].
    rewrite size_insert_new by (by apply (wf_fresh _ _ Hwf)). split; [lia|].
    intros q. rewrite dom_insert. set_solver. }
  split; [lia|]. intros q [Hq|Hq]%Hdom.
  - apply Hd1 in Hq as [Hq| ->]; [by left | right; by apply list_elem_of_fmap_2].
  - right. eapply elem_of_submseteq; [exact Hq|].
    apply sublist_submseteq, fmap_sublist, Hs1.
Qed.
End transfer.

(** ** A concrete history for the witnesses

    One permit; partition [a] holds it, [b] waits, and a second [b] waits behind. *)

Module Demo.
Definition limits : AdmissionLimits := {|
  maxConcurrent := 1; maxConcurrentPerPartition := 1; maxQueued := 4; maxQueuedPerPartition := 4 |}.
Definition start : Admission :=
  match newAdmission (jint 1) (jint 1) (jint 4) (jint 4) with Ok a => a | Throw _ => inhabitant end.
Definition clock0 : deadline_table := {| table := ∅; clock := 0 |}.
Definition acq (p : nat) (part : jsstr) : admission_event :=
  EAcquire clock0 p part 0 localDiagnostics false.
Definition run (evs : list admission_event) (a : Admission) : Admission :=
  fold_left (fun a ev => (admission_step a ev).1) evs a.
Definition busy : Admission := run [acq 1 "a"; acq 2 "b"; acq 3 "b"]%js start.

Lemma reachable_start : reachable limits start.
Proof. by eapply (reachable_new limits (jint 1) (jint 1) (jint 4) (jint 4)). Qed.
Lemma reachable_busy : reachable limits busy.
Proof.
  unfold busy, run. cbn [fold_left].
  do 3 (apply reachable_step; [|split; [reflexivity | apply (bool_decide_unpack _); vm_compute; exact I]]).
  apply reachable_start.
Qed.
End Demo.

(** ** Properties *)

(** C4: admission never exceeds its limits.  In every reachable state the counters
    are exactly the outstanding permits, reservations and waiters, in total and per
    partition, and none of them exceeds the limits the object was created with. *)
Theorem admission_bounds L a :
  reachable L a ->
  active a = Z.of_nat (size (permits a)) /\ active a <= maxConcurrent L /\
  zlength (waiting a) <= maxQueued L /\
  reserved a = Z.of_nat (size (reservations a)) /\ reserved a <= maxConcurrent L + maxQueued L /\
  forall part,
    count (byPartition a) part = tally (permits a) part /\
    count (byPartition a) part <= maxConcurrentPerPartition L /\
    count (queuedByPartition a) part = wcount (waiting a) part /\
    count (queuedByPartition a) part <= maxQueuedPerPartition L /\
    count (reservedByPartition a) part = tally (reservations a) part.
Proof.
  intros [Hwf _]%reachable_invariant. pose proof Hwf as []. split_and!; try done.
  intros part. rewrite (counts_count _ _ part wf_byPartition0),
    (counts_count _ _ part wf_queued0), (counts_count _ _ part wf_reservedByPartition0). auto.
Qed.

Lemma admission_bounds_witness : active Demo.busy <= maxConcurrent Demo.limits.
Proof. destruct (admission_bounds Demo.limits Demo.busy Demo.reachable_busy) as (_ & H & _). exact H. Defined.

(** C5: no lost wake-up.  In every reachable state each waiter is blocked for a
    reason that only a release can remove: the whole client or its own partition is
    at its limit.  In particular nobody waits while no permit is outstanding. *)
Theorem admission_no_lost_wakeup L a :
  reachable L a ->
  (forall w, w ∈ waiting a ->
     maxConcurrent (limits a) <= active a \/
     maxConcurrentPerPartition (limits a) <= tally (permits a) (partition w)) /\
  (permits a = ∅ -> waiting a = []).
Proof.
  intros [Hwf Hwc]%reachable_invariant.
  assert (forall w, w ∈ waiting a ->
     maxConcurrent (limits a) <= active a \/
     maxConcurrentPerPartition (limits a) <= tally (permits a) (partition w)) as Hblock.
  { intros w Hw%Hwc. rewrite <- not_true_iff_false, available_spec in Hw.
    rewrite (counts_count _ _ _ (wf_byPartition _ _ Hwf)) in Hw. lia. }
  split; [done|]. intros Hnone. destruct (waiting a) as [|w ws] eqn:E; [done|].
  destruct (wf_positive _ _ Hwf) as (? & ? & _). pose proof (wf_active _ _ Hwf) as Ha.
  destruct (Hblock w ltac:(set_solver)) as [Hb|Hb]; rewrite Hnone in *;
    rewrite ?map_size_empty, ?tally_empty in *; lia.
Qed.

Lemma admission_no_lost_wakeup_witness :
  waiting Demo.busy <> [] /\
  (forall w, w ∈ waiting Demo.busy ->
     maxConcurrent (limits Demo.busy) <= active Demo.busy \/
     maxConcurrentPerPartition (limits Demo.busy) <= tally (permits Demo.busy) (partition w)) /\
  (permits Demo.busy = ∅ -> waiting Demo.busy = []).
Proof.
  split; [vm_compute; congruence|].
  apply (admission_no_lost_wakeup Demo.limits Demo.busy Demo.reachable_busy).
Defined.

(** A saturated partition cannot block another.  A caller whose partition and
    client are below their limits is admitted at once, however many callers of other
    partitions are queued before it. *)
Theorem admission_isolation {V : Type} `{DeadlineView V} L a (v : V) p part dl dg proxy :
  reachable L a ->
  active a < maxConcurrent (limits a) ->
  tally (permits a) part < maxConcurrentPerPartition (limits a) ->
  view_aborted v dl = false ->
  acquire v p part dl dg proxy a = (occupy p part a, [Granted p]).
Proof.
  intros [Hwf Hwc]%reachable_invariant Ha Hp Hlive.
  assert (available part a = true) as Hav.
  { apply available_spec. by rewrite (counts_count _ _ _ (wf_byPartition _ _ Hwf)). }
  unfold acquire. rewrite Hlive, Hav, bool_decide_eq_true_2; [done|].
  apply (counts_absent _ _ part (wf_queued _ _ Hwf)). unfold wcount.
  destruct (filter _ _) as [|w ws] eqn:E; [done|].
  assert (w ∈ filter (fun w => partition w = part) (waiting a)) as Hin by (rewrite E; set_solver).
  apply list_elem_of_filter in Hin as [<- Hin]. by rewrite (Hwc w Hin) in Hav.
Qed.

Lemma admission_isolation_witness :
  acquire Demo.clock0 7 "z"%js 0 localDiagnostics false Demo.start =
  (occupy 7 "z"%js Demo.start, [Granted 7]).
Proof.
  apply (admission_isolation Demo.limits); [exact Demo.reachable_start | reflexivity..].
Defined.

(** First come, first served inside a partition.  When a permit is released,
    settlements happen in arrival order, the queue keeps its order, and no waiter is
    settled while an earlier waiter of the same partition stays queued. *)
Theorem admission_fifo {V : Type} `{DeadlineView V} L a (v : V) p a' out l1 w1 l2 w2 l3 :
  reachable L a -> release v p a = (a', out) ->
  waiting a = l1 ++ w1 :: l2 ++ w2 :: l3 -> partition w1 = partition w2 ->
  (settled_promise <$> out) `sublist_of` (promise <$> waiting a) /\
  waiting a' `sublist_of` waiting a /\
  (promise w2 ∈ settled_promise <$> out -> w1 ∉ waiting a').
Proof.
  intros [Hwf _]%reachable_invariant. unfold release.
  destruct (permits a !! p) as [part|] eqn:Hp.
  2:{ intros [= <- <-] _ _. split; [apply sublist_nil_l|]. split; [done|set_solver]. }
  pose proof (freed_wf L p part a Hwf Hp) as Hwf'. intros Hd Hws Heq.
  destruct (dispatch_spec L v _ a' out Hwf' Hd) as (_ & Hs & _ & _).
  destruct (dispatch_loop_out L v _ _ a' out Hwf' (consistent_waiting _) Hd) as [Hsub _].
  split; [exact Hsub|]. split; [apply Hs|]. intros Hset.
  by apply (dispatch_fifo L v _ a' out l1 w1 l2 w2 l3 Hwf' Hws Heq Hd).
Qed.

Lemma admission_fifo_witness :
  let r := release Demo.clock0 1 Demo.busy in
  exists w1 w2, waiting Demo.busy = [] ++ w1 :: [] ++ w2 :: [] /\
    (settled_promise <$> r.2) `sublist_of` (promise <$> waiting Demo.busy) /\
    waiting r.1 `sublist_of` waiting Demo.busy /\
    (promise w2 ∈ settled_promise <$> r.2 -> w1 ∉ waiting r.1).
Proof.
  intros r. eexists _, _. split; [reflexivity|].
  apply (admission_fifo Demo.limits Demo.busy Demo.clock0 1 r.1 r.2 [] _ [] _ []);
    [exact Demo.reachable_busy | reflexivity..].
Defined.

(** Every waiter is settled exactly once, and releases always make progress.
    Releasing an outstanding permit settles exactly the waiters that leave the queue,
    each of them once; the permits and waiters together become fewer; and releasing
    the same permit again does nothing. *)
Theorem release_settles {V : Type} `{DeadlineView V} L a (v : V) p part a' out :
  reachable L a -> permits a !! p = Some part -> release v p a = (a', out) ->
  (settled_promise <$> out) ++ (promise <$> waiting a') ≡ₚ promise <$> waiting a /\
  NoDup (settled_promise <$> out) /\
  Z.of_nat (size (permits a')) + zlength (waiting a') <
    Z.of_nat (size (permits a)) + zlength (waiting a) /\
  release v p a' = (a', []).
Proof.
  intros [Hwf _]%reachable_invariant Hp Hr.
  destruct (release_spec L v p a a' out Hwf Hr) as (_ & Hset & _).
  split; [exact Hset|]. split.
  { pose proof (wf_promises _ _ Hwf) as Hnd. rewrite <- Hset in Hnd. by apply NoDup_app in Hnd as [? _]. }
  unfold release in Hr. rewrite Hp in Hr.
  destruct (dispatch_loop_load L v _ _ a' out (freed_wf L p part a Hwf Hp) (consistent_waiting _) Hr)
    as [Hload Hdom]. unfold load in Hload. simpl in Hload, Hdom.
  rewrite (size_delete_old _ _ part) in Hload by done. split; [lia|].
  unfold release. destruct (permits a' !! p) as [part'|] eqn:Hp'; [|done].
  apply elem_of_dom_2, Hdom in Hp' as [Hin|(w & -> & Hw)%list_elem_of_fmap].
  - by apply elem_of_dom in Hin as [? Hin%lookup_delete_Some]; naive_solver.
  - by rewrite (wf_fresh _ _ Hwf w Hw) in Hp.
Qed.

Lemma release_settles_witness :
  let r := release Demo.clock0 1 Demo.busy in
  (settled_promise <$> r.2) ++ (promise <$> waiting r.1) ≡ₚ promise <$> waiting Demo.busy /\
  NoDup (settled_promise <$> r.2) /\
  Z.of_nat (size (permits r.1)) + zlength (waiting r.1) <
    Z.of_nat (size (permits Demo.busy)) + zlength (waiting Demo.busy) /\
  release Demo.clock0 1 r.1 = (r.1, []).
Proof.
  intros r. apply (release_settles Demo.limits Demo.busy Demo.clock0 1 "a"%js r.1 r.2);
    [exact Demo.reachable_busy | reflexivity..].
Defined.
