(* ===== verification/Framing.v ===== *)
(** * Binary framing (frame and class FrameReader of packages/typescript/src/protocol.ts)

    A frame is a type byte, a 32-bit big-endian length and a payload.  [FrameReader]
    rebuilds frames from a body that arrives in arbitrary chunks. *)

From S2P Require Import Prelude.

Definition FRAME_LIMIT : Z := 65536.
Definition CONTROL_LIMIT : Z := 1024 * 1024.

(** ** Encoding *)

(** [DataView.setUint32(_, n, false)] and [getUint32(_, false)]. *)
Definition be32 (n : Z) : list Z :=
  [Z.land (Z.shiftr n 24) 255; Z.land (Z.shiftr n 16) 255; Z.land (Z.shiftr n 8) 255; Z.land n 255].
Definition un_be32 (l : list Z) : Z :=
  match l with
  | [a; b; c; d] =>
      Z.lor (Z.shiftl a 24) (Z.lor (Z.shiftl b 16) (Z.lor (Z.shiftl c 8) d))
  | _ => 0
  end.

Definition frame (type : Z) (payload : list Z) : list Z :=
  type :: be32 (zlength payload) ++ payload.

(** ** The reader *)

(** What one [reader.read()] of the body yields; after the last event it is done. *)
Inductive chunk_event :=
| Chunk (b : list Z)
| NotBytes             (* a value that is not a Uint8Array *)
| ReadFails.           (* the read rejects *)

Inductive frame_error :=
| Incomplete           (* the transfer ended inside a frame *)
| InvalidFrame
| ReadError.           (* the body's own error, or a read on a released reader *)

#[export] Instance frame_error_eq_dec : EqDecision frame_error.
Proof. solve_decision. Defined.

Record FrameReader := {
  source : list chunk_event;
  released : bool;               (* [reader.releaseLock()] was called *)
  chunk : list Z;
  offset : Z;
  metadataLimit : Z;
  dataLimit : Z;
}.

Definition newFrameReader (body : list chunk_event) (metadataLimit dataLimit : Z) : FrameReader := {|
  source := body; released := false; chunk := []; offset := 0;
  metadataLimit := metadataLimit; dataLimit := dataLimit |}.

Definition set_chunk (b : list Z) (o : Z) (src : list chunk_event) (r : FrameReader) : FrameReader := {|
  source := src; released := released r; chunk := b; offset := o;
  metadataLimit := metadataLimit r; dataLimit := dataLimit r |}.
Definition set_offset (o : Z) (r : FrameReader) : FrameReader := set_chunk (chunk r) o (source r) r.
Definition release_lock (r : FrameReader) : FrameReader := {|
  source := source r; released := true; chunk := chunk r; offset := offset r;
  metadataLimit := metadataLimit r; dataLimit := dataLimit r |}.

(** [cancel()]: the current chunk is dropped, and the cancelled body reads as done. *)
Definition cancel (r : FrameReader) : FrameReader := {|
  source := if released r then source r else []; released := released r;
  chunk := []; offset := offset r;
  metadataLimit := metadataLimit r; dataLimit := dataLimit r |}.

(** [l.subarray(b, e)] for non-negative bounds. *)
Definition subarray (b e : Z) (l : list Z) : list Z := ztake (e - b) (zdrop b l).

Inductive exact_result :=
| Bytes (b : list Z)
| Eof                          (* [null] *)
| ExactError (e : frame_error)
| OutOfFuel.

(** The loop of [exact(length, allowEof)]; [bytes] is what was written so far. *)
Fixpoint exact_loop (fuel : nat) (length : Z) (allowEof : bool) (written : Z) (bytes : list Z)
    (r : FrameReader) : FrameReader * exact_result :=
  match fuel with
  | O => (r, OutOfFuel)
  | S fuel =>
      if negb (written <? length) then (r, Bytes bytes) else
      let copy (r : FrameReader) :=
        let count := Z.min (length - written) (zlength (chunk r) - offset r) in
        exact_loop fuel length allowEof (written + count)
          (bytes ++ subarray (offset r) (offset r + count) (chunk r))
          (set_offset (offset r + count) r) in
      if offset r =? zlength (chunk r) then
        if released r then (r, ExactError ReadError) else
        match source r with
        | [] =>
            let r' := release_lock (set_chunk [] (offset r) [] r) in
            if allowEof && (written =? 0) then (r', Eof) else (r', ExactError Incomplete)
        | NotBytes :: src => (set_chunk (chunk r) (offset r) src r, ExactError InvalidFrame)
        | ReadFails :: src => (set_chunk (chunk r) (offset r) src r, ExactError ReadError)
        | Chunk b :: src =>
            let r' := set_chunk b 0 src r in
            if zlength b =? 0 then exact_loop fuel length allowEof written bytes r' else copy r'
        end
      else copy r
  end.

(** Every round but the first and the last takes a chunk from the body. *)
Definition exact (length : Z) (allowEof : bool) (r : FrameReader) : FrameReader * exact_result :=
  exact_loop (3 + List.length (source r)) length allowEof 0 [] r.

Inductive next_result :=
| Frame (type : Z) (payload : list Z)
| NoFrame                      (* [null]: the body ended between frames *)
| NextError (e : frame_error)
| NextOutOfFuel.

Definition frame_type_ok (type : Z) : bool := bool_decide (type ∈ [1; 2; 3; 4]).

Definition next (r : FrameReader) : FrameReader * next_result :=
  match exact 5 true r with
  | (r', Eof) => (r', NoFrame)
  | (r', ExactError e) => (r', NextError e)
  | (r', OutOfFuel) => (r', NextOutOfFuel)
  | (r', Bytes header) =>
      let type := default 0 (header !! 0%nat) in
      let length := un_be32 (drop 1 header) in
      if negb (frame_type_ok type) ||
         (length >? (if type =? 2 then dataLimit r' else metadataLimit r'))
      then (r', NextError InvalidFrame)
      else match exact length false r' with
           | (r'', Bytes payload) => (r'', Frame type payload)
           | (r'', Eof) => (r'', NextError Incomplete)
           | (r'', ExactError e) => (r'', NextError e)
           | (r'', OutOfFuel) => (r'', NextOutOfFuel)
           end
  end.

(** Reading frames until the body ends or fails. *)
Inductive read_end := EndOfBody | EndError (e : frame_error) | EndFuel.
Fixpoint read_frames (fuel : nat) (r : FrameReader) : list (Z * list Z) * read_end :=
  match fuel with
  | O => ([], EndFuel)
  | S fuel =>
      match next r with
      | (r', Frame t p) => let (fs, e) := read_frames fuel r' in ((t, p) :: fs, e)
      | (_, NoFrame) => ([], EndOfBody)
      | (_, NextError e) => ([], EndError e)
      | (_, NextOutOfFuel) => ([], EndFuel)
      end
  end.

(** ** The byte stream a body carries, whatever its chunks *)

(** How a stream of bytes ends: the body is done, or its next read goes wrong. *)
Inductive ending := Finished | Broken (e : frame_error).

Fixpoint flatten (src : list chunk_event) : list Z * ending :=
  match src with
  | [] => ([], Finished)
  | Chunk b :: src' => let (bs, e) := flatten src' in (b ++ bs, e)
  | NotBytes :: _ => ([], Broken InvalidFrame)
  | ReadFails :: _ => ([], Broken ReadError)
  end.

Definition stream (r : FrameReader) : list Z * ending :=
  (zdrop (offset r) (chunk r) ++ (flatten (source r)).1, (flatten (source r)).2).

#[global] Arguments stream : simpl never.

(** The state between two calls, while the reader holds its lock. *)
Definition healthy (r : FrameReader) : Prop :=
  released r = false /\ 0 <= offset r <= zlength (chunk r).
Definition same_limits (r r' : FrameReader) : Prop :=
  metadataLimit r' = metadataLimit r /\ dataLimit r' = dataLimit r.

(** *** Specification of [exact] over the stream *)

Definition exact_spec_result (length : Z) (allowEof : bool) (bs : list Z) (e : ending) : exact_result :=
  if length <=? zlength bs then Bytes (ztake length bs)
  else match e with
       | Broken err => ExactError err
       | Finished => if allowEof && (zlength bs =? 0) then Eof else ExactError Incomplete
       end.

Lemma subarray_spec b count l :
  0 <= b -> 0 <= count -> subarray b (b + count) l = ztake count (zdrop b l).
Proof. intros. unfold subarray. f_equal. lia. Qed.

Lemma stream_split r :
  (stream r).1 = zdrop (offset r) (chunk r) ++ (flatten (source r)).1.
Proof. done. Qed.

(** One copy step moves [count] bytes from the stream to the result. *)
Lemma copy_step r count :
  healthy r -> 0 <= count <= zlength (chunk r) - offset r ->
  let piece := subarray (offset r) (offset r + count) (chunk r) in
  let r' := set_offset (offset r + count) r in
  zlength piece = count /\ piece ++ (stream r').1 = (stream r).1 /\
  (stream r').2 = (stream r).2 /\ healthy r'.
Proof.
  intros [Hrel Ho] Hc. simpl. rewrite subarray_spec by lia.
  split_and!; [|unfold stream; simpl|done|split; simpl; [done | lia]].
  - rewrite zlength_take, zlength_drop by lia. lia.
  - rewrite app_assoc. f_equal. rewrite <- (zdrop_zdrop count (offset r)) by lia. apply ztake_zdrop.
Qed.

Lemma read_step r b src :
  healthy r -> offset r = zlength (chunk r) -> source r = Chunk b :: src ->
  stream (set_chunk b 0 src r) = stream r /\ healthy (set_chunk b 0 src r).
Proof.
  intros [Hrel Ho] Hend Hsrc. split; [|split; simpl; [done | zlen]].
  unfold stream. rewrite Hsrc. simpl. destruct (flatten src) as [bs e]. simpl.
  rewrite (zdrop_all (offset r)) by lia. by rewrite zdrop_0.
Qed.

(** What the loop returns when [bs] is the stream including the bytes already
    written, and the stream it leaves behind on success. *)
Definition exact_post (length : Z) (allowEof : bool) (r : FrameReader) (bs : list Z) (e : ending)
    (res : FrameReader * exact_result) : Prop :=
  same_limits r res.1 /\
  match res.2 with
  | Bytes out => length <= zlength bs /\ out = ztake length bs /\
                 stream res.1 = (zdrop length bs, e) /\ healthy res.1
  | other => zlength bs < length /\ other = exact_spec_result length allowEof bs e
  end.

Lemma exact_post_limits length allowEof r r' bs e res :
  same_limits r r' -> exact_post length allowEof r' bs e res -> exact_post length allowEof r bs e res.
Proof. intros [] [[] ?]. split; [split; congruence | done]. Qed.

(** Rounds still needed: one that leaves the loop, one per chunk to come, and one
    that copies what the current chunk holds. *)
Definition rounds (length written : Z) (r : FrameReader) : nat :=
  if decide (written = length) then 1%nat
  else (2 + List.length (source r) + if decide (offset r = zlength (chunk r)) then 0 else 1)%nat.

Section exact_loop.
Context (length : Z) (allowEof : bool) (fuel : nat).
Context (IH : forall bytes r, healthy r -> 0 <= zlength bytes <= length ->
  (fuel >= rounds length (zlength bytes) r)%nat ->
  exact_post length allowEof r (bytes ++ (stream r).1) (stream r).2
    (exact_loop fuel length allowEof (zlength bytes) bytes r)).

Lemma exact_loop_copy bytes r :
  healthy r -> 0 <= zlength bytes < length -> offset r <> zlength (chunk r) ->
  (fuel >= 2 + List.length (source r))%nat ->
  let count := Z.min (length - zlength bytes) (zlength (chunk r) - offset r) in
  exact_post length allowEof r (bytes ++ (stream r).1) (stream r).2
    (exact_loop fuel length allowEof (zlength bytes + count)
       (bytes ++ subarray (offset r) (offset r + count) (chunk r))
       (set_offset (offset r + count) r)).
Proof.
  intros Hh Hlen Hne Hfuel count. pose proof Hh as [_ Ho].
  destruct (copy_step r count Hh ltac:(lia)) as (Hl & <- & <- & Hh'). cbv zeta in *.
  set (piece := subarray _ _ _) in *. rewrite <- Hl, <- zlength_app, app_assoc. rewrite Hl.
  apply (exact_post_limits _ _ _ (set_offset (offset r + count) r)); [done|].
  apply IH; [done|zlen|]. unfold rounds. rewrite zlength_app, Hl. simpl.
  repeat case_decide; lia.
Qed.
End exact_loop.

Lemma exact_loop_spec fuel length allowEof bytes r :
  healthy r -> 0 <= zlength bytes <= length ->
    (fuel >= rounds length (zlength bytes) r)%nat ->
  exact_post length allowEof r (bytes ++ (stream r).1) (stream r).2
    (exact_loop fuel length allowEof (zlength bytes) bytes r).
Proof.
  revert bytes r. induction fuel as [|fuel IH]; intros bytes r Hh Hlen Hfuel.
  { unfold rounds in Hfuel. case_decide; lia. }
  cbn [exact_loop]. destruct (zlength bytes <? length) eqn:Hw; cbn [negb]; reflect_bools.
  2:{ assert (length = zlength bytes) as -> by lia. split; [done|]. cbn [fst snd].
      rewrite zlength_app, ztake_length_app, zdrop_length_app.
      split; [zlen|]. split; [done|]. split; [by destruct (stream r)|done]. }
  unfold rounds in Hfuel. rewrite decide_False in Hfuel by lia.
  destruct (offset r =? zlength (chunk r)) eqn:Hend; reflect_bools.
  2:{ rewrite decide_False in Hfuel by done. apply exact_loop_copy; [done|done|lia|done|lia]. }
  rewrite decide_True in Hfuel by done. pose proof Hh as [-> _].
  destruct (source r) as [|[b| |] src] eqn:Hsrc.
  - unfold stream. rewrite Hsrc, zdrop_all by lia. simpl. rewrite app_nil_r.
    assert (zlength bytes <? length = true) by (apply Z.ltb_lt; lia).
    destruct (allowEof && (zlength bytes =? 0)) eqn:E; (split; [done|]); simpl;
      unfold exact_spec_result; rewrite (proj2 (Z.leb_gt _ _)), E by lia; done.
  - destruct (read_step r b src Hh Hend Hsrc) as [Hst Hh']. rewrite <- Hst.
    apply (exact_post_limits _ _ _ (set_chunk b 0 src r)); [done|]. simpl in Hfuel.
    destruct (zlength b =? 0) eqn:Hb; reflect_bools.
    + apply IH; [done|lia|]. unfold rounds. simpl. repeat case_decide; lia.
    + apply (exact_loop_copy length allowEof fuel IH); simpl; [done|lia|lia|lia].
  - unfold stream. rewrite Hsrc, zdrop_all by lia. simpl. rewrite app_nil_r. split; [done|]. simpl.
    unfold exact_spec_result. by rewrite (proj2 (Z.leb_gt _ _)) by lia.
  - unfold stream. rewrite Hsrc, zdrop_all by lia. simpl. rewrite app_nil_r. split; [done|]. simpl.
    unfold exact_spec_result. by rewrite (proj2 (Z.leb_gt _ _)) by lia.
Qed.

Lemma exact_correct length allowEof r :
  healthy r -> 0 <= length ->
  exact_post length allowEof r (stream r).1 (stream r).2 (exact length allowEof r).
Proof.
  intros Hh Hlen. apply (exact_loop_spec _ _ _ [] r); [done|zlen|].
  unfold rounds. repeat case_decide; lia.
Qed.

(** ** The length field *)

Lemma testbit_255 i : 0 <= i -> Z.testbit 255 i = (i <? 8).
Proof. intros. change 255 with (Z.ones 8). rewrite Z.testbit_ones_nonneg by lia. done. Qed.

Lemma testbit_byte n k i : 0 <= k ->
  Z.testbit (Z.shiftl (Z.land (Z.shiftr n k) 255) k) i = (k <=? i) && (i <? k + 8) && Z.testbit n i.
Proof.
  intros Hk. destruct (Z.ltb_spec i 0) as [Hi|Hi].
  { rewrite !Z.testbit_neg_r by lia. by rewrite andb_false_r. }
  rewrite Z.shiftl_spec by lia. destruct (Z.leb_spec k i) as [Hki|Hki]; simpl.
  - rewrite Z.land_spec, Z.shiftr_spec, testbit_255 by lia.
    rewrite andb_comm. f_equal; [|f_equal; lia].
    destruct (Z.ltb_spec (i - k) 8), (Z.ltb_spec i (k + 8)); done || lia.
  - apply Z.testbit_neg_r. lia.
Qed.

Lemma un_be32_be32 n : 0 <= n < 2 ^ 32 -> un_be32 (be32 n) = n.
Proof.
  intros Hn. unfold be32, un_be32. apply Z.bits_inj'. intros i Hi.
  pose proof (testbit_byte n 0 i ltac:(lia)) as H0. rewrite Z.shiftl_0_r, Z.shiftr_0_r in H0.
  rewrite !Z.lor_spec, !testbit_byte, H0 by lia.
  destruct (Z.ltb_spec i 32) as [H32|H32].
  - destruct (Z.leb_spec 24 i), (Z.leb_spec 16 i), (Z.leb_spec 8 i), (Z.leb_spec 0 i); try lia;
      destruct (Z.ltb_spec i (24 + 8)), (Z.ltb_spec i (16 + 8)), (Z.ltb_spec i (8 + 8)),
        (Z.ltb_spec i (0 + 8)); try lia; simpl; by destruct (Z.testbit n i).
  - rewrite <- (Z.mod_small n (2 ^ 32)) by lia. rewrite Z.mod_pow2_bits_high by lia.
    by rewrite !andb_false_r.
Qed.

Definition is_byte (b : Z) : Prop := 0 <= b < 256.

Lemma be32_bytes n : Forall is_byte (be32 n).
Proof.
  assert (forall m, is_byte (Z.land m 255)) as H.
  { intros m. unfold is_byte. change 255 with (Z.ones 8). rewrite Z.land_ones by lia.
    apply Z.mod_pos_bound. lia. }
  unfold be32. repeat constructor; apply H.
Qed.
Lemma un_be32_nonneg l : Forall is_byte l -> 0 <= un_be32 l.
Proof.
  intros Hl. unfold un_be32. destruct l as [|a [|b [|c [|d [|]]]]]; try lia.
  unfold is_byte in *. rewrite !Forall_cons in Hl.
  rewrite !Z.lor_nonneg, !Z.shiftl_nonneg. lia.
Qed.
Lemma zlength_be32 n : zlength (be32 n) = 4.
Proof. done. Qed.

(** ** The reference parser, on a whole stream *)

Definition parse (metaLimit dataLimit : Z) (bs : list Z) (e : ending) : next_result * list Z :=
  if 5 <=? zlength bs then
    let type := default 0 (bs !! 0%nat) in
    let length := un_be32 (ztake 4 (zdrop 1 bs)) in
    if negb (frame_type_ok type) || (length >? (if type =? 2 then dataLimit else metaLimit))
    then (NextError InvalidFrame, [])
    else if length <=? zlength (zdrop 5 bs) then
      (Frame type (ztake length (zdrop 5 bs)), zdrop length (zdrop 5 bs))
    else (NextError (match e with Finished => Incomplete | Broken err => err end), [])
  else match e with
       | Broken err => (NextError err, [])
       | Finished => (if zlength bs =? 0 then NoFrame else NextError Incomplete, [])
       end.

(** Reader and parser agree, and a frame leaves the rest of the stream behind. *)
Definition next_agrees (r : FrameReader) : Prop :=
  let p := parse (metadataLimit r) (dataLimit r) (stream r).1 (stream r).2 in
  (next r).2 = p.1 /\
  match p.1 with
  | Frame _ _ => stream (next r).1 = (p.2, (stream r).2) /\ healthy (next r).1 /\
                 same_limits r (next r).1
  | _ => True
  end.

Lemma header_facts (bs : list Z) :
  5 <= zlength bs ->
  ztake 5 bs !! 0%nat = bs !! 0%nat /\ drop 1 (ztake 5 bs) = ztake 4 (zdrop 1 bs).
Proof.
  unfold zlength, ztake, zdrop. intros H. destruct bs as [|b bs]; [simpl in H; lia|].
  done.
Qed.

Lemma next_correct r :
  healthy r -> Forall is_byte (stream r).1 -> next_agrees r.
Proof.
  intros Hh Hbytes. unfold next_agrees, next, parse.
  destruct (exact_correct 5 true r Hh ltac:(lia)) as [Hlim Hpost].
  destruct (exact 5 true r) as [r1 res]. cbn [fst snd] in *.
  destruct res as [hd| |e|].
  2,3,4: destruct Hpost as [Hshort Heq]; rewrite (proj2 (Z.leb_gt _ _)) by lia;
    unfold exact_spec_result in Heq; rewrite (proj2 (Z.leb_gt _ _)) in Heq by lia;
    destruct (stream r).2; simpl in *; branches; simplify_eq; done.
  destruct Hpost as (Hlong & -> & Hst1 & Hh1). rewrite (proj2 (Z.leb_le _ _)) by lia.
  destruct (header_facts (stream r).1 Hlong) as [-> ->]. pose proof Hlim as [<- <-].
  set (len := un_be32 _). set (ty := default 0 _).
  destruct (negb (frame_type_ok ty) || _); [done|].
  assert (0 <= len) as Hlen.
  { apply un_be32_nonneg. by apply Forall_take, Forall_drop. }
  destruct (exact_correct len false r1 Hh1 Hlen) as [Hlim2 Hpost].
  destruct (exact len false r1) as [r2 res2]. cbn [fst snd] in *. rewrite Hst1 in Hpost.
  cbn [fst snd] in Hpost. destruct res2 as [pl| |e|].
  2,3,4: destruct Hpost as [Hshort Heq]; rewrite (proj2 (Z.leb_gt _ _)) by lia;
    unfold exact_spec_result in Heq; rewrite (proj2 (Z.leb_gt _ _)) in Heq by lia;
    destruct (stream r).2; simpl in *; branches; simplify_eq; done.
  destruct Hpost as (Hlong2 & -> & Hst2 & Hh2). rewrite (proj2 (Z.leb_le _ _)) by lia.
  split; [done|]. split; [done|]. split; [done|].
  destruct Hlim as [? ?], Hlim2 as [? ?]. split; simpl; congruence.
Qed.

Lemma parse_frame ml dl t p rest e :
  frame_type_ok t = true -> zlength p <= (if t =? 2 then dl else ml) -> zlength p < 2 ^ 32 ->
  parse ml dl (frame t p ++ rest) e = (Frame t p, rest).
Proof.
  intros Ht Hlim H32. unfold parse, frame.
  assert (zlength (be32 (zlength p)) = 4) as Hlen by apply zlength_be32.
  assert (un_be32 (be32 (zlength p)) = zlength p) as Hun by (apply un_be32_be32; zlen).
  generalize dependent (be32 (zlength p)). intros len Hlen Hun.
  replace ((t :: len ++ p) ++ rest) with ([t] ++ len ++ (p ++ rest)) by (simpl; by rewrite app_assoc).
  assert (zdrop 1 ([t] ++ len ++ p ++ rest) = len ++ p ++ rest) as -> by done.
  assert (zdrop 5 ([t] ++ len ++ p ++ rest) = p ++ rest) as ->.
  { rewrite zdrop_app_ge by zlen. rewrite zdrop_app_ge by zlen.
    replace (5 - zlength [t] - zlength len) with 0 by zlen. done. }
  rewrite <- Hlen, ztake_length_app, Hun. simpl. rewrite Ht. simpl.
  rewrite (proj2 (Z.leb_le 5 _)) by zlen.
  rewrite Z.gtb_ltb, (proj2 (Z.ltb_ge _ _)) by lia.
  rewrite (proj2 (Z.leb_le _ _)) by zlen. by rewrite ztake_length_app, zdrop_length_app.
Qed.

Lemma parse_truncated ml dl t p part :
  zlength p <= (if t =? 2 then dl else ml) -> frame_type_ok t = true -> zlength p < 2 ^ 32 ->
  part <> [] -> part `prefix_of` frame t p -> part <> frame t p ->
  (parse ml dl part Finished).1 = NextError Incomplete.
Proof.
  intros Hlim Ht H32 Hne [tail Hpre] Hneq. unfold parse.
  assert (tail <> []) as Htail by (intros ->; by rewrite app_nil_r in Hpre).
  destruct (Z.leb_spec 5 (zlength part)) as [H5|H5]; simpl.
  - assert (zlength (frame t p) = zlength part + zlength tail) as Hl by (rewrite Hpre; zlen).
    unfold frame in Hl. rewrite zlength_cons, zlength_app, zlength_be32 in Hl.
    assert (part !! 0%nat = Some t /\ ztake 4 (zdrop 1 part) = be32 (zlength p)) as [-> ->].
    { destruct part as [|x [|a [|b [|c [|d part]]]]]; try (unfold zlength in H5; simpl in H5; lia).
      unfold frame in Hpre. simpl in Hpre. injection Hpre as -> Ha Hb Hc Hd _.
      split; [done|]. cbn. by rewrite <- Ha, <- Hb, <- Hc, <- Hd. }
    rewrite un_be32_be32 by zlen. simpl. rewrite Ht. simpl.
    rewrite Z.gtb_ltb, (proj2 (Z.ltb_ge _ _)) by lia.
    rewrite (proj2 (Z.leb_gt _ _)); [done|]. rewrite zlength_drop by lia.
    assert (zlength tail <> 0) by (intros ?%zlength_zero; done). zlen.
  - rewrite (proj2 (Z.eqb_neq _ _)); [done|]. by intros ?%zlength_zero.
Qed.

(** ** Sequences of frames *)

Definition encode_frames (fs : list (Z * list Z)) : list Z :=
  concat ((fun tp : Z * list Z => frame tp.1 tp.2) <$> fs).

#[global] Arguments frame : simpl never.
#[global] Arguments encode_frames : simpl never.
Lemma encode_frames_cons tp fs : encode_frames (tp :: fs) = frame tp.1 tp.2 ++ encode_frames fs.
Proof. done. Qed.

(** A frame that the peer may send under the negotiated limits. *)
Definition sendable (ml dl : Z) (tp : Z * list Z) : Prop :=
  frame_type_ok tp.1 = true /\ zlength tp.2 <= (if tp.1 =? 2 then dl else ml) /\
  zlength tp.2 < 2 ^ 32 /\ Forall is_byte tp.2.

Lemma frame_bytes ml dl tp : sendable ml dl tp -> Forall is_byte (frame tp.1 tp.2).
Proof.
  intros (Ht & _ & _ & Hb). unfold frame. constructor.
  - unfold frame_type_ok in Ht. apply bool_decide_eq_true in Ht. unfold is_byte.
    repeat (apply elem_of_cons in Ht as [->|Ht]; [lia|]). by apply not_elem_of_nil in Ht.
  - apply Forall_app. split; [apply be32_bytes | done].
Qed.
Lemma encode_frames_bytes ml dl fs : Forall (sendable ml dl) fs -> Forall is_byte (encode_frames fs).
Proof.
  induction 1 as [|tp fs Htp _ IH]; [constructor|].
  rewrite encode_frames_cons. apply Forall_app. split; [by eapply frame_bytes | done].
Qed.

Lemma flatten_chunks chunks : flatten (Chunk <$> chunks) = (concat chunks, Finished).
Proof. induction chunks as [|c chunks IH]; [done|]. rewrite fmap_cons. cbn [flatten]. by rewrite IH. Qed.

(** What reading gives over a stream of frames followed by [rest]. *)
Lemma read_frames_stream ml dl fs rest r n :
  healthy r -> metadataLimit r = ml -> dataLimit r = dl -> Forall (sendable ml dl) fs ->
  Forall is_byte rest -> stream r = (encode_frames fs ++ rest, Finished) ->
  exists r', healthy r' /\ metadataLimit r' = ml /\ dataLimit r' = dl /\ stream r' = (rest, Finished) /\
    read_frames (List.length fs + n) r =
      (fs ++ (read_frames n r').1, (read_frames n r').2).
Proof.
  revert r. induction fs as [|[t p] fs IH]; intros r Hh Hml Hdl Hfs Hrest Hst.
  { exists r. split_and!; try done. cbn [List.length Nat.add app]. by destruct (read_frames n r). }
  apply Forall_cons in Hfs as [Htp Hfs]. pose proof Htp as (Hty & Hlim & H32 & Hb). cbn [fst snd] in *.
  destruct (next_correct r Hh) as [Hnext Hagree].
  { rewrite Hst. cbn [fst]. apply Forall_app. split; [|done].
    eapply encode_frames_bytes. by constructor. }
  rewrite encode_frames_cons, <- app_assoc in Hst.
  rewrite Hst, Hml, Hdl in Hnext, Hagree. cbn [fst snd] in Hnext, Hagree.
  rewrite parse_frame in Hnext, Hagree by done. cbn [fst snd] in Hnext, Hagree.
  cbn [List.length Nat.add read_frames].
  destruct (next r) as [r1 res]. cbn [fst snd] in *. subst res. destruct Hagree as (Hst1 & Hh1 & Hl1 & Hl2).
  destruct (IH r1 Hh1 ltac:(congruence) ltac:(congruence) Hfs Hrest Hst1)
    as (r' & Hh' & Hml' & Hdl' & Hst' & Hread).
  exists r'. split_and!; try done. by rewrite Hread.
Qed.

Lemma newFrameReader_stream chunks ml dl :
  healthy (newFrameReader (Chunk <$> chunks) ml dl) /\
  stream (newFrameReader (Chunk <$> chunks) ml dl) = (concat chunks, Finished).
Proof.
  split; [split; simpl; [done | zlen]|].
  unfold stream, newFrameReader. cbn [offset chunk source]. by rewrite flatten_chunks.
Qed.

(** Any cutting of encoded frames into chunks reads back as those frames. *)
Lemma read_encoded ml dl fs chunks :
  Forall (sendable ml dl) fs -> concat chunks = encode_frames fs ->
  read_frames (S (List.length fs)) (newFrameReader (Chunk <$> chunks) ml dl) = (fs, EndOfBody).
Proof.
  intros Hfs Hc. destruct (newFrameReader_stream chunks ml dl) as [Hh Hst].
  rewrite Hc in Hst. rewrite <- (app_nil_r (encode_frames fs)) in Hst.
  destruct (read_frames_stream ml dl fs [] _ 1 Hh eq_refl eq_refl Hfs ltac:(constructor) Hst)
    as (r' & Hh' & Hml & Hdl & Hst' & Hread).
  replace (S (List.length fs)) with (List.length fs + 1)%nat by lia. rewrite Hread. simpl.
  destruct (next_correct r' Hh') as [Hnext _]; [rewrite Hst'; by apply Forall_nil|].
  rewrite Hst', Hml, Hdl in Hnext. simpl in Hnext.
  destruct (next r') as [r'' res]. simpl in Hnext. subst res. simpl. by rewrite app_nil_r.
Qed.

(** ** Properties *)

(** C11: framing round trip, whatever the chunking.  However the bytes of a sequence
    of frames are cut into chunks, empty ones included, the reader returns exactly
    those frames and then the end of the body. *)
Theorem frames_roundtrip ml dl fs chunks :
  Forall (sendable ml dl) fs -> concat chunks = encode_frames fs ->
  read_frames (S (List.length fs)) (newFrameReader (Chunk <$> chunks) ml dl) = (fs, EndOfBody).
Proof. apply read_encoded. Qed.

Definition demo_frames : list (Z * list Z) := [(1, [123; 125]); (2, [7; 8; 9]); (3, [])].

(** Settles [sendable] for concrete frames. *)
Ltac show_sendable :=
  repeat (apply Forall_cons; split); try apply Forall_nil; try exact I;
  unfold sendable; split_and!; try reflexivity; try (vm_compute; congruence);
  repeat (apply Forall_cons; split); try apply Forall_nil; try exact I; unfold is_byte; cbn; lia.

Lemma demo_sendable : Forall (sendable 65536 65536) demo_frames.
Proof. unfold demo_frames. show_sendable. Qed.

Lemma frames_roundtrip_witness :
  read_frames 4 (newFrameReader
    (Chunk <$> [[1; 0; 0]; []; [0; 2; 123; 125; 2; 0; 0; 0; 3; 7]; [8; 9; 3; 0; 0; 0]; [0]]) 65536 65536)
  = (demo_frames, EndOfBody).
Proof. apply (frames_roundtrip 65536 65536 demo_frames); [exact demo_sendable | reflexivity]. Defined.

(** A truncated transfer is never a complete one.  A body that ends inside a
    frame, be it in the header or in the payload, gives the complete frames before
    that point and then the error of an incomplete transfer. *)
Theorem truncation_detected ml dl fs tp part chunks :
  Forall (sendable ml dl) (fs ++ [tp]) ->
  part <> [] -> part `prefix_of` frame tp.1 tp.2 -> part <> frame tp.1 tp.2 ->
  concat chunks = encode_frames fs ++ part ->
  read_frames (S (List.length fs)) (newFrameReader (Chunk <$> chunks) ml dl) =
    (fs, EndError Incomplete).
Proof.
  rewrite Forall_app, Forall_singleton. intros [Hfs Htp] Hne Hpre Hneq Hc.
  destruct (newFrameReader_stream chunks ml dl) as [Hh Hst]. rewrite Hc in Hst.
  assert (Forall is_byte part) as Hb.
  { destruct Hpre as [k E]. pose proof (frame_bytes ml dl tp Htp) as Hf. rewrite E in Hf.
    by apply Forall_app in Hf as [? _]. }
  destruct (read_frames_stream ml dl fs part _ 1 Hh eq_refl eq_refl Hfs Hb Hst)
    as (r' & Hh' & Hml & Hdl & Hst' & Hread).
  replace (S (List.length fs)) with (List.length fs + 1)%nat by lia. rewrite Hread. simpl.
  destruct (next_correct r' Hh') as [Hnext _]; [by rewrite Hst'|].
  destruct Htp as (Ht & Hlim & H32 & _).
  rewrite Hst', Hml, Hdl in Hnext. cbn [fst snd] in Hnext.
  rewrite (parse_truncated ml dl tp.1 tp.2) in Hnext by done.
  destruct (next r') as [r'' res]. simpl in Hnext. subst res. simpl. by rewrite app_nil_r.
Qed.

Lemma truncation_detected_witness :
  read_frames 2 (newFrameReader (Chunk <$> [[1; 0; 0; 0; 1]; [65; 2; 0; 0]; [0; 2; 9]]) 65536 65536)
  = ([(1, [65])], EndError Incomplete).
Proof.
  apply (truncation_detected 65536 65536 [(1, [65])] (2, [9; 9]) [2; 0; 0; 0; 2; 9]).
  - cbn [app]. show_sendable.
  - done.
  - by exists [9].
  - done.
  - reflexivity.
Defined.

(** C12: memory bound against a hostile peer.  For any bytes in any chunks, a frame
    the reader returns has a known type and a payload within the negotiated limit of
    its type; its bytes are the next bytes of the stream; and reading never exhausts
    the loop, so every call returns a frame, the end or an error. *)
Theorem frames_bounded r :
  healthy r -> Forall is_byte (stream r).1 ->
  match (next r).2 with
  | Frame t p =>
      frame_type_ok t = true /\ zlength p <= (if t =? 2 then dataLimit r else metadataLimit r) /\
      exists len, zlength len = 4 /\ (stream r).1 = [t] ++ len ++ p ++ (stream (next r).1).1
  | NextOutOfFuel => False
  | _ => True
  end.
Proof.
  intros Hh Hb. destruct (next_correct r Hh Hb) as [-> Hagree]. revert Hagree. unfold parse.
  destruct (Z.leb_spec 5 (zlength (stream r).1)) as [H5|H5];
    [|by destruct ((stream r).2), (zlength (stream r).1 =? 0)].
  destruct (header_facts (stream r).1 H5) as [Hh0 _].
  set (t := default 0 _). set (len := un_be32 _).
  destruct (negb (frame_type_ok t) || _) eqn:E; [done|]. rewrite Z.gtb_ltb in E. reflect_bools.
  destruct (Z.leb_spec len (zlength (zdrop 5 (stream r).1))) as [Hl|Hl]; [|by destruct (stream r).2].
  cbn [fst snd]. intros (Hst & _). split; [done|].
  assert (0 <= len) by (apply un_be32_nonneg; by apply Forall_take, Forall_drop).
  split; [rewrite zlength_take by lia; lia|].
  exists (ztake 4 (zdrop 1 (stream r).1)). split.
  - rewrite zlength_take, zlength_drop by lia. lia.
  - rewrite Hst. cbn [fst]. rewrite ztake_zdrop.
    assert (zdrop 5 (stream r).1 = zdrop 4 (zdrop 1 (stream r).1)) as -> by (by rewrite zdrop_zdrop).
    rewrite ztake_zdrop. subst t.
    destruct ((stream r).1) as [|b bs]; [by rewrite zlength_nil in H5 | done].
Qed.

Definition demo_reader : FrameReader :=
  newFrameReader (Chunk <$> [[2; 0; 0]; [0; 2; 7; 8]]) 65536 2.

Lemma frames_bounded_witness :
  (next demo_reader).2 = Frame 2 [7; 8] /\
  match (next demo_reader).2 with
  | Frame t p =>
      frame_type_ok t = true /\
      zlength p <= (if t =? 2 then dataLimit demo_reader else metadataLimit demo_reader) /\
      exists len, zlength len = 4 /\
        (stream demo_reader).1 = [t] ++ len ++ p ++ (stream (next demo_reader).1).1
  | NextOutOfFuel => False
  | _ => True
  end.
Proof.
  split; [reflexivity|]. apply (frames_bounded demo_reader).
  - apply newFrameReader_stream.
  - cbn. repeat (apply Forall_cons; split); try apply Forall_nil; try exact I; unfold is_byte; lia.
Defined.
