(* ===== verification/Upload.v ===== *)
(** * Request upload (uploadFrames of packages/typescript/src/protocol.ts)

    The request body is cut into frames one pull at a time.  A pull may wait for the
    caller's body, and a cancellation may come in between; the model is a machine
    whose events are the pulls of the transport, the reads of the caller's body and
    the cancellations, in any order the host allows. *)

From S2P Require Import Prelude Js Framing.

(** ** The request body *)

Inductive RequestBody :=
| BodyNone                                        (* [null] or [undefined] *)
| BodyString (s : jsstr)
| BodyBytes (b : list Z)                          (* a [Uint8Array] *)
| BodyStream                                      (* a [ReadableStream] *)
| BodyIterable (hasReturn : bool).                (* an [AsyncIterable] *)

(** What a read of the caller's stream or iterator gives. *)
Inductive body_read :=
| BodyChunk (b : list Z)
| BodyOther                                       (* a value that is not a [Uint8Array] *)
| BodyDone
| BodyFails.                                      (* the read rejects *)

Inductive upload_error :=
| NotABody                                        (* TypeError *)
| TooManyEmpty                                    (* RangeError *)
| BodyTooLarge                                    (* RangeError *)
| SourceError.                                    (* the source's own error *)

#[export] Instance upload_error_eq_dec : EqDecision upload_error.
Proof. solve_decision. Defined.

(** [error instanceof RangeError], the test of the client's [onError]. *)
Definition is_range_error (e : upload_error) : bool :=
  bool_decide (e = TooManyEmpty \/ e = BodyTooLarge).

(** ** The machine *)

Inductive controller := CtlOpen | CtlClosed | CtlErrored (e : upload_error).

#[export] Instance controller_eq_dec : EqDecision controller.
Proof. solve_decision. Defined.

Record Upload := {
  pending : list Z;
  offset : Z;
  stage : Z;
  ended : bool;
  sourceEnded : bool;
  frames : Z;
  emptyReads : Z;
  bytes : Z;
  waiting : bool;               (* a pull awaits the caller's body *)
  wire : list (list Z);         (* what was enqueued *)
  seen : list (list Z);         (* the chunks given to [onChunk] *)
  ctl : controller;             (* the stream's controller *)
  failed : option upload_error; (* the last call of [onError] *)
  sourceCancelled : bool;       (* [reader.cancel()] or [iterator.return()] ran *)
}.

Section upload.
Context (metadata : list Z) (body : RequestBody) (maxBytes maxData maxFrames : Z).

Definition initial_bytes : list Z :=
  match body with
  | BodyString s => encode s
  | BodyBytes b => b
  | _ => []
  end.
Definition asynchronous : bool :=
  match body with BodyStream | BodyIterable _ => true | _ => false end.

Definition newUpload : Upload := {|
  pending := initial_bytes; offset := 0; stage := 0; ended := false;
  sourceEnded := negb asynchronous; frames := 0; emptyReads := 0; bytes := 0;
  waiting := false; wire := []; seen := []; ctl := CtlOpen; failed := None;
  sourceCancelled := false |}.

(** The lock of a stream is released when it ends; an iterator has no lock. *)
Definition cancel_source (u : Upload) : bool :=
  match body with
  | BodyStream => negb (sourceEnded u)
  | BodyIterable hasReturn => hasReturn
  | _ => false
  end.

Definition cancelUpload (u : Upload) : Upload :=
  if ended u && sourceEnded u then u else {|
    pending := []; offset := offset u; stage := stage u; ended := true;
    sourceEnded := sourceEnded u; frames := frames u; emptyReads := emptyReads u;
    bytes := bytes u; waiting := waiting u; wire := wire u; seen := seen u;
    ctl := ctl u; failed := failed u;
    sourceCancelled := sourceCancelled u || cancel_source u |}.

Definition set_ctl (c : controller) (u : Upload) : Upload := {|
  pending := pending u; offset := offset u; stage := stage u; ended := ended u;
  sourceEnded := sourceEnded u; frames := frames u; emptyReads := emptyReads u;
  bytes := bytes u; waiting := waiting u; wire := wire u; seen := seen u;
  ctl := c; failed := failed u; sourceCancelled := sourceCancelled u |}.

(** The handler of the pull's [catch]. *)
Definition fail_upload (e : upload_error) (u : Upload) : Upload :=
  cancelUpload {|
    pending := pending u; offset := offset u; stage := stage u; ended := ended u;
    sourceEnded := sourceEnded u; frames := frames u; emptyReads := emptyReads u;
    bytes := bytes u; waiting := false; wire := wire u; seen := seen u;
    ctl := if decide (ctl u = CtlOpen) then CtlErrored e else ctl u; failed := Some e; sourceCancelled := sourceCancelled u |}.

(** The pull after its [while] loop: one data frame, or the end frame. *)
Definition emit (u : Upload) : Upload :=
  if offset u <? zlength (pending u) then
    let chunk := subarray (offset u) (Z.min (zlength (pending u)) (offset u + maxData)) (pending u) in
    if bytes u + zlength chunk >? maxBytes then fail_upload BodyTooLarge u else
    let frames' := frames u + 1 in
    let u' := {|
      pending := pending u; offset := offset u; stage := stage u; ended := ended u;
      sourceEnded := sourceEnded u; frames := frames'; emptyReads := emptyReads u;
      bytes := bytes u; waiting := false; wire := wire u; seen := seen u;
      ctl := ctl u; failed := failed u; sourceCancelled := sourceCancelled u |} in
    if frames' >=? maxFrames then fail_upload BodyTooLarge u' else {|
      pending := pending u; offset := offset u + zlength chunk; stage := stage u;
      ended := ended u; sourceEnded := sourceEnded u; frames := frames';
      emptyReads := emptyReads u; bytes := bytes u + zlength chunk; waiting := false;
      wire := wire u ++ [frame 2 chunk]; seen := seen u ++ [chunk]; ctl := ctl u;
      failed := failed u; sourceCancelled := sourceCancelled u |}
  else {|
    pending := []; offset := offset u; stage := stage u; ended := true;
    sourceEnded := sourceEnded u; frames := frames u; emptyReads := emptyReads u;
    bytes := bytes u; waiting := false; wire := wire u ++ [frame 3 []]; seen := seen u;
    ctl := CtlClosed; failed := failed u; sourceCancelled := sourceCancelled u |}.

(** The [while] condition: wait for the body, or go on. *)
Definition advance (u : Upload) : Upload :=
  if (offset u =? zlength (pending u)) && negb (sourceEnded u) then {|
    pending := pending u; offset := offset u; stage := stage u; ended := ended u;
    sourceEnded := sourceEnded u; frames := frames u; emptyReads := emptyReads u;
    bytes := bytes u; waiting := true; wire := wire u; seen := seen u;
    ctl := ctl u; failed := failed u; sourceCancelled := sourceCancelled u |}
  else emit u.

Definition pull (u : Upload) : Upload :=
  if ended u then set_ctl CtlClosed u
  else if stage u =? 0 then {|
    pending := pending u; offset := offset u; stage := 1; ended := ended u;
    sourceEnded := sourceEnded u; frames := frames u; emptyReads := emptyReads u;
    bytes := bytes u; waiting := false; wire := wire u ++ [frame 1 metadata];
    seen := seen u; ctl := ctl u; failed := failed u;
    sourceCancelled := sourceCancelled u |}
  else advance u.

(** The body of the [while] loop after its [await], then the loop's condition. *)
Definition resume (ev : body_read) (u : Upload) : Upload :=
  let settled := {|
    pending := pending u; offset := offset u; stage := stage u; ended := ended u;
    sourceEnded := sourceEnded u; frames := frames u; emptyReads := emptyReads u;
    bytes := bytes u; waiting := false; wire := wire u; seen := seen u;
    ctl := ctl u; failed := failed u; sourceCancelled := sourceCancelled u |} in
  match ev with
  | BodyFails => fail_upload SourceError settled
  | _ =>
    if ended u then settled else
    match ev with
    | BodyDone => emit {|
        pending := pending u; offset := offset u; stage := stage u; ended := ended u;
        sourceEnded := true; frames := frames u; emptyReads := emptyReads u;
        bytes := bytes u; waiting := false; wire := wire u; seen := seen u;
        ctl := ctl u; failed := failed u; sourceCancelled := sourceCancelled u |}
    | BodyChunk b =>
        let empty := if zlength b =? 0 then emptyReads u + 1 else 0 in
        if (zlength b =? 0) && (empty >=? maxFrames)
        then fail_upload TooManyEmpty {|
          pending := pending u; offset := offset u; stage := stage u; ended := ended u;
          sourceEnded := sourceEnded u; frames := frames u; emptyReads := empty;
          bytes := bytes u; waiting := false; wire := wire u; seen := seen u;
          ctl := ctl u; failed := failed u; sourceCancelled := sourceCancelled u |}
        else advance {|
          pending := b; offset := 0; stage := stage u; ended := ended u;
          sourceEnded := sourceEnded u; frames := frames u; emptyReads := empty;
          bytes := bytes u; waiting := false; wire := wire u; seen := seen u;
          ctl := ctl u; failed := failed u; sourceCancelled := sourceCancelled u |}
    | _ => fail_upload NotABody settled
    end
  end.

Inductive upload_event :=
| Pull                        (* the transport wants a frame *)
| Read (ev : body_read)       (* the read a pull waits for settles *)
| Cancel                      (* the client calls the returned [cancel] *)
| CancelStream.               (* the transport cancels the stream *)

Definition enabled (ev : upload_event) (u : Upload) : bool :=
  match ev with
  | Pull => negb (waiting u) && bool_decide (ctl u = CtlOpen)
  | Read _ => waiting u
  | Cancel => true
  | CancelStream => bool_decide (ctl u = CtlOpen)
  end.

Definition upload_step (ev : upload_event) (u : Upload) : Upload :=
  match ev with
  | Pull => pull u
  | Read ev => resume ev u
  | Cancel => cancelUpload u
  | CancelStream => cancelUpload (set_ctl CtlClosed u)
  end.

(** A run, with the bytes the caller's body has given so far. *)
Definition delivered (ev : upload_event) : list Z :=
  match ev with Read (BodyChunk b) => b | _ => [] end.

Inductive uploads : list Z -> Upload -> Prop :=
| uploads_new : uploads initial_bytes newUpload
| uploads_step got u ev :
    uploads got u -> enabled ev u = true -> uploads (got ++ delivered ev) (upload_step ev u).

(** ** The invariant of every run *)

(** The frames enqueued: metadata first, then data, then perhaps the end. *)
Definition wire_shape (finished : bool) (u : Upload) : list (list Z) :=
  (if stage u =? 0 then [] else [frame 1 metadata]) ++ (frame 2 <$> seen u) ++
  (if finished then [frame 3 []] else []).

Record upload_inv (got : list Z) (finished : bool) (u : Upload) : Prop := {
  inv_wire : wire u = wire_shape finished u;
  inv_stage : stage u = 1 \/ (stage u = 0 /\ seen u = [] /\ finished = false);
  inv_bytes : bytes u = zlength (concat (seen u));
  inv_max_bytes : bytes u <= Z.max 0 maxBytes;
  inv_frames : zlength (seen u) <= frames u;
  inv_max_frames : seen u = [] \/ zlength (seen u) < maxFrames;
  inv_chunks : Forall (fun c => 0 < zlength c <= maxData) (seen u);
  inv_prefix : concat (seen u) `prefix_of` got;
  inv_live : ended u = false ->
    concat (seen u) ++ zdrop (offset u) (pending u) = got /\
    0 <= offset u <= zlength (pending u) /\ ctl u = CtlOpen /\ failed u = None /\
    finished = false /\
    (waiting u = true -> offset u = zlength (pending u) /\ stage u = 1);
  inv_finished : finished = true ->
    ended u = true /\ sourceEnded u = true /\ waiting u = false /\ ctl u = CtlClosed /\
    failed u = None /\ concat (seen u) = got;
}.

Lemma new_inv : upload_inv initial_bytes false newUpload.
Proof.
  constructor; simpl; auto; try lia; try (by intros); [apply prefix_nil|].
  intros _. rewrite zdrop_0. split_and!; auto; zlen.
Qed.

(** A cancellation or failure keeps what was sent and stops the rest. *)
Lemma stopped_inv got u u' :
  upload_inv got false u ->
  stage u' = stage u -> wire u' = wire u -> seen u' = seen u -> bytes u' = bytes u ->
  frames u <= frames u' -> ended u' = true -> upload_inv got false u'.
Proof.
  intros [] Est Ew Es Eb Ef Ee. constructor; try congruence; try lia.
  all: rewrite ?Est, ?Es, ?Eb, ?Ew; auto; try lia.
  rewrite inv_wire0. unfold wire_shape. by rewrite Est, Es.
Qed.

Lemma cancel_inv got finished u :
  upload_inv got finished u -> upload_inv got finished (cancelUpload u).
Proof.
  intros H. unfold cancelUpload. destruct (ended u && sourceEnded u) eqn:E; [done|].
  destruct finished.
  - destruct (inv_finished _ _ _ H eq_refl) as (E1 & E2 & _). by rewrite E1, E2 in E.
  - by apply (stopped_inv got u).
Qed.
Lemma fail_inv e got u u' :
  upload_inv got false u ->
  stage u' = stage u -> wire u' = wire u -> seen u' = seen u -> bytes u' = bytes u ->
  frames u <= frames u' ->
  upload_inv got false (fail_upload e u').
Proof.
  intros H Est Ew Es Eb Ef. apply (stopped_inv got u); unfold fail_upload, cancelUpload; simpl;
    destruct (ended u' && sourceEnded u') eqn:E; simpl; auto. by reflect_bools.
Qed.

Lemma emit_inv got u :
  0 < maxData -> upload_inv got false u -> ended u = false -> stage u = 1 ->
  (offset u = zlength (pending u) -> sourceEnded u = true) ->
  exists finished, upload_inv got finished (emit u).
Proof.
  intros HmaxData H Hended Hstage Hsource.
  destruct (inv_live _ _ _ H Hended) as (Hgot & Hoff & Hctl & Hfail & _ & _).
  unfold emit. destruct (Z.ltb_spec (offset u) (zlength (pending u))) as [Hlt|Hge].
  - set (chunk := subarray _ _ _).
    assert (0 < zlength chunk <= maxData /\ offset u + zlength chunk <= zlength (pending u) /\
            chunk ++ zdrop (offset u + zlength chunk) (pending u) = zdrop (offset u) (pending u))
      as (Hchunk & Hoff' & Hcut).
    { assert (chunk = ztake (Z.min (zlength (pending u) - offset u) maxData) (zdrop (offset u) (pending u)))
        as Ec by (unfold chunk, subarray; f_equal; lia).
      assert (zlength chunk = Z.min (zlength (pending u) - offset u) maxData) as El
        by (rewrite Ec, zlength_take, zlength_drop by lia; lia).
      split_and!; try lia. rewrite El, <- zdrop_zdrop, Ec by lia. apply ztake_zdrop. }
    rewrite Z.gtb_ltb. destruct (Z.ltb_spec maxBytes (bytes u + zlength chunk)) as [_|Hmax];
      [exists false; by apply (fail_inv _ got u)|].
    rewrite Z.geb_leb. destruct (Z.leb_spec maxFrames (frames u + 1)) as [_|Hframes];
      [exists false; apply (fail_inv _ got u); simpl; done || lia|].
    exists false. destruct H. rewrite Hstage in *. constructor; simpl; auto; try lia; try congruence.
    + rewrite inv_wire0. unfold wire_shape. simpl. rewrite Hstage. simpl. rewrite fmap_app, !app_nil_r.
      done.
    + rewrite concat_app, inv_bytes0. simpl. rewrite app_nil_r. zlen.
    + zlen.
    + right. zlen.
    + apply Forall_app. auto.
    + rewrite concat_app. simpl. rewrite app_nil_r. exists (zdrop (offset u + zlength chunk) (pending u)).
      by rewrite <- app_assoc, Hcut.
    + intros _. split_and!; auto; try lia; try done.
      rewrite concat_app. simpl. by rewrite app_nil_r, <- app_assoc, Hcut.
  - exists true. assert (offset u = zlength (pending u)) as Heq by lia.
    rewrite zdrop_all, app_nil_r in Hgot by lia.
    destruct H. constructor; simpl; auto; try done.
    + rewrite inv_wire0. unfold wire_shape. simpl. rewrite Hstage. by rewrite !app_nil_r, <- app_assoc.
    + intros _. split_and!; auto.
Qed.

(** Changing only what the invariant does not speak of. *)
Lemma waiting_inv got0 got u u' :
  upload_inv got0 false u -> stage u' = stage u -> wire u' = wire u -> seen u' = seen u ->
  bytes u' = bytes u -> frames u' = frames u ->
  (ended u' = false -> concat (seen u') ++ zdrop (offset u') (pending u') = got /\
    0 <= offset u' <= zlength (pending u') /\ ctl u' = CtlOpen /\ failed u' = None /\
    (waiting u' = true -> offset u' = zlength (pending u') /\ stage u' = 1)) ->
  concat (seen u) `prefix_of` got -> upload_inv got false u'.
Proof.
  intros [] Est Ew Es Eb Ef Hlive Hpre. constructor; rewrite ?Est, ?Es, ?Eb, ?Ew, ?Ef; auto; try done.
  - rewrite inv_wire0. unfold wire_shape. by rewrite Est, Es.
  - intros E. destruct (Hlive E) as (H1 & H2 & H3 & H4 & H5).
    rewrite Es in H1. rewrite Est in H5. auto 10.
Qed.

Lemma advance_inv got u :
  0 < maxData -> upload_inv got false u -> ended u = false -> stage u = 1 ->
  exists finished, upload_inv got finished (advance u).
Proof.
  intros HmaxData H Hended Hstage. destruct (inv_live _ _ _ H Hended) as (Hgot & Hoff & Hctl & Hfail & _ & _).
  unfold advance. destruct ((offset u =? _) && _) eqn:E.
  - reflect_bools. exists false. apply (waiting_inv got got u); simpl; auto; [|by destruct H].
    intros _. split_and!; auto; lia.
  - apply emit_inv; auto. intros Eq. rewrite Eq, Z.eqb_refl in E. by destruct (sourceEnded u).
Qed.

Lemma pull_inv got finished u :
  0 < maxData -> upload_inv got finished u -> enabled Pull u = true ->
  exists finished, upload_inv got finished (pull u).
Proof.
  intros HmaxData H Hen. cbn in Hen. reflect_bools. unfold pull.
  destruct finished; [destruct (inv_finished _ _ _ H eq_refl) as (_ & _ & _ & Hctl & _); congruence|].
  destruct (ended u) eqn:Hended; [exists false; by apply (stopped_inv got u)|].
  destruct (Z.eqb_spec (stage u) 0) as [Hstage|Hstage].
  - exists false. destruct (inv_live _ _ _ H Hended) as (Hgot & Hoff & _ & Hfail & _).
    destruct H, inv_stage0 as [?|(_ & Es & _)]; [lia|].
    constructor; simpl; auto; rewrite ?Es in *; auto; try done.
    rewrite inv_wire0. unfold wire_shape. simpl. by rewrite Hstage, Es.
  - apply advance_inv; auto. destruct (inv_stage _ _ _ H) as [?|[? _]]; [done|lia].
Qed.

Lemma resume_inv got finished ev u :
  0 < maxData -> upload_inv got finished u -> enabled (Read ev) u = true ->
  exists finished, upload_inv (got ++ delivered (Read ev)) finished (resume ev u).
Proof.
  intros HmaxData H Hen. cbn in Hen.
  destruct finished; [destruct (inv_finished _ _ _ H eq_refl) as (_ & _ & ? & _); congruence|].
  assert (upload_inv (got ++ delivered (Read ev)) false (resume ev u) \/
          ended u = false /\ ev <> BodyFails) as [?|[Hended Hev]]; [|by exists false|].
  { destruct (ended u) eqn:Hended.
    - left. assert (upload_inv (got ++ delivered (Read ev)) false u) as H'.
      { destruct H. constructor; auto; try congruence. by apply prefix_app_r. }
      destruct ev; try (apply (stopped_inv _ u); auto; unfold resume; rewrite ?Hended; done).
      by apply (fail_inv _ _ u).
    - destruct ev; try by right. left. cbn [resume delivered]. rewrite app_nil_r.
      by apply (fail_inv _ got u). }
  destruct (inv_live _ _ _ H Hended) as (Hgot & Hoff & Hctl & Hfail & _ & Hwait).
  destruct (Hwait Hen) as [Heq Hstage].
  rewrite zdrop_all, app_nil_r in Hgot by lia.
  unfold resume. rewrite Hended. destruct ev as [b| | |]; [..|done]; cbn [delivered]; rewrite ?app_nil_r.
  - destruct ((zlength b =? 0) && _) eqn:Eempty; reflect_bools.
    + exists false. assert (b = []) as -> by (by apply zlength_zero). rewrite app_nil_r.
      by apply (fail_inv _ got u).
    + apply advance_inv; simpl; auto. apply (waiting_inv got _ u); simpl; auto.
      intros _. rewrite zdrop_0, Hgot. pose proof (zlength_nonneg b). split_and!; auto; try lia.
      * rewrite Hgot. by apply prefix_app_r.
  - exists false. by apply (fail_inv _ got u).
  - apply emit_inv; simpl; auto. apply (waiting_inv got got u); simpl; auto; [|by destruct H].
    intros _. rewrite zdrop_all, app_nil_r by lia. split_and!; auto; lia.
Qed.

Lemma uploads_inv got u :
  0 < maxData -> uploads got u -> exists finished, upload_inv got finished u.
Proof.
  intros HmaxData. induction 1 as [|got u ev _ [finished IH] Hen]; [exists false; apply new_inv|].
  destruct ev; cbn [upload_step].
  - cbn [delivered]. rewrite app_nil_r. by eapply pull_inv.
  - by eapply resume_inv.
  - exists finished. cbn [delivered]. rewrite app_nil_r. by apply cancel_inv.
  - exists false. cbn [delivered]. rewrite app_nil_r. cbn in Hen. reflect_bools.
    destruct finished; [destruct (inv_finished _ _ _ IH eq_refl) as (_ & _ & _ & ? & _); congruence|].
    apply (stopped_inv got u); auto; unfold cancelUpload; simpl; destruct (_ && _) eqn:E; auto; simpl; try lia.
    by reflect_bools.
Qed.

(** ** An undisturbed upload *)

(** The transport pulls whenever it may, and the body gives [src] and then ends. *)
Fixpoint drive (fuel : nat) (u : Upload) (src : list (list Z)) : Upload :=
  match fuel with
  | O => u
  | S fuel =>
      if waiting u then
        match src with
        | [] => drive fuel (resume BodyDone u) []
        | b :: src => drive fuel (resume (BodyChunk b) u) src
        end
      else if decide (ctl u = CtlOpen) then drive fuel (pull u) src
      else u
  end.

(** The data frames of one block of the body. *)
Fixpoint cut (fuel : nat) (b : list Z) : list (list Z) :=
  match fuel with
  | O => []
  | S fuel => if zlength b =? 0 then [] else ztake maxData b :: cut fuel (zdrop maxData b)
  end.
Definition pieces (b : list Z) : list (list Z) := cut (length b) b.

Lemma cut_nil fuel : cut fuel [] = [].
Proof. by destruct fuel. Qed.
Lemma cut_fuel f g b :
  0 < maxData -> (length b <= f)%nat -> (length b <= g)%nat -> cut f b = cut g b.
Proof.
  intros Hd. revert g b. induction f as [|f IH]; intros g b Hf Hg;
    (destruct b as [|x b]; [by rewrite !cut_nil|]); [simpl in Hf; lia|].
  destruct g as [|g]; [simpl in Hg; lia|]. cbn [cut]. destruct (_ =? 0); [done|].
  f_equal. simpl in *. apply IH; unfold zdrop; rewrite length_drop; simpl; lia.
Qed.
Lemma pieces_cons b :
  0 < maxData -> b <> [] -> pieces b = ztake maxData b :: pieces (zdrop maxData b).
Proof.
  intros Hd Hb. unfold pieces. destruct b as [|x b]; [done|]. cbn [cut length].
  destruct (Z.eqb_spec (zlength (x :: b)) 0) as [E%zlength_zero|_]; [done|]. f_equal.
  apply cut_fuel; [done| |lia]. unfold zdrop. rewrite length_drop. simpl. lia.
Qed.
Lemma pieces_concat b : 0 < maxData -> concat (pieces b) = b.
Proof.
  intros Hd. remember (length b) as n eqn:E. revert b E.
  induction n as [n IH] using lt_wf_ind. intros b E.
  destruct (decide (b = [])) as [->|Hb]; [done|]. rewrite pieces_cons by done. simpl.
  rewrite (IH (length (zdrop maxData b))); [apply ztake_zdrop| |done].
  subst n. unfold zdrop. rewrite length_drop. destruct b; [done|]. simpl. lia.
Qed.

Definition live (u : Upload) : Prop :=
  stage u = 1 /\ ended u = false /\ ctl u = CtlOpen /\ waiting u = false /\ failed u = None /\
  0 <= offset u <= zlength (pending u).
Definition rest (u : Upload) : list Z := zdrop (offset u) (pending u).

Lemma drive_live k u src : live u -> drive (S k) u src = drive k (advance u) src.
Proof.
  intros (Hs & He & Hc & Hw & _ & _). cbn [drive]. rewrite Hw. rewrite decide_True by done.
  unfold pull. by rewrite He, Hs.
Qed.

(** One data frame leaves. *)
Lemma advance_data u :
  0 < maxData -> live u -> rest u <> [] -> bytes u + zlength (rest u) <= maxBytes ->
  frames u + 1 < maxFrames ->
  let piece := ztake maxData (rest u) in
  live (advance u) /\ rest (advance u) = zdrop maxData (rest u) /\
  sourceEnded (advance u) = sourceEnded u /\ emptyReads (advance u) = emptyReads u /\
  frames (advance u) = frames u + 1 /\ bytes (advance u) = bytes u + zlength piece /\
  wire (advance u) = wire u ++ [frame 2 piece].
Proof.
  intros Hd (Hs & He & Hc & Hw & Hf & Ho) Hrest Hbytes Hframes piece.
  assert (offset u < zlength (pending u)) as Hlt.
  { apply Z.le_neq. split; [lia|]. intros E. apply Hrest. apply zdrop_all. lia. }
  unfold advance. rewrite (proj2 (Z.eqb_neq _ _)) by lia. cbn [andb]. unfold emit.
  rewrite (proj2 (Z.ltb_lt _ _)) by lia.
  assert (subarray (offset u) (Z.min (zlength (pending u)) (offset u + maxData)) (pending u) = piece /\
          zlength piece = Z.min maxData (zlength (rest u)) /\
          zlength (rest u) = zlength (pending u) - offset u) as (-> & Hlen & Hrl).
  { unfold piece, rest, subarray.
    assert (zlength (zdrop (offset u) (pending u)) = zlength (pending u) - offset u) as Hr
      by (rewrite zlength_drop by lia; lia).
    split_and!; [|rewrite zlength_take by lia; lia|done].
    destruct (Z.le_ge_cases (offset u + maxData) (zlength (pending u))); [f_equal; lia|].
    rewrite !ztake_all by lia. done. }
  rewrite Z.gtb_ltb, (proj2 (Z.ltb_ge _ _)) by lia.
  rewrite Z.geb_leb, (proj2 (Z.leb_gt _ _)) by lia.
  unfold live. cbn. split_and!; auto; try lia.
  unfold rest at 1. cbn. unfold rest. destruct (Z.le_ge_cases maxData (zlength (rest u))).
  - rewrite zdrop_zdrop by lia. f_equal. lia.
  - rewrite !zdrop_all; [done| |]; unfold rest in *; lia.
Qed.

(** What sending leaves unchanged or adds to, between two live states. *)
Definition sent (u v : Upload) (ps : list (list Z)) : Prop :=
  live v /\ sourceEnded v = sourceEnded u /\ emptyReads v = emptyReads u /\
  frames v = frames u + zlength ps /\ bytes v = bytes u + zlength (concat ps) /\
  wire v = wire u ++ (frame 2 <$> ps).

Lemma sent_cons u v w p ps : sent u v [p] -> sent v w ps -> sent u w (p :: ps).
Proof.
  intros (_ & E1 & E2 & E3 & E4 & E5) (? & F1 & F2 & F3 & F4 & F5). unfold sent.
  rewrite F1, F2, F3, F4, F5, E1, E2, E3, E4, E5. cbn [concat].
  rewrite fmap_cons, <- app_assoc, app_nil_r. split_and!; try done; zlen.
Qed.

Lemma drive_sends n u :
  0 < maxData -> (length (rest u) <= n)%nat -> live u ->
  bytes u + zlength (rest u) <= maxBytes -> frames u + zlength (pieces (rest u)) < maxFrames ->
  exists k v, (forall m src, drive (k + m) u src = drive m v src) /\ rest v = [] /\
    sent u v (pieces (rest u)).
Proof.
  intros Hd. revert u. induction n as [|n IH]; intros u Hn Hl Hb Hf.
  all: destruct (decide (rest u = [])) as [E|E];
    [exists 0%nat, u; rewrite E; unfold sent; cbn; rewrite app_nil_r, ?(zlength_nil (A:=Z)), ?(zlength_nil (A:=list Z)); split_and!; auto; lia|].
  - destruct (rest u); [done|simpl in Hn; lia].
  - rewrite pieces_cons in Hf |- * by done. rewrite zlength_cons in Hf.
    pose proof (zlength_nonneg (pieces (zdrop maxData (rest u)))).
    destruct (advance_data u Hd Hl E Hb ltac:(lia)) as (Hl1 & Hr1 & Hse & Hem & Hf1 & Hb1 & Hw1).
    assert (zlength (rest u) = zlength (ztake maxData (rest u)) + zlength (rest (advance u))) as Hsplit
      by (rewrite Hr1, <- zlength_app, ztake_zdrop; done).
    destruct (IH (advance u)) as (k & v & Hdr & Hrv & Hsent); auto.
    + rewrite Hr1. unfold zdrop. rewrite length_drop. destruct (rest u); [done|]. simpl in *. lia.
    + lia.
    + rewrite Hr1. lia.
    + exists (S k), v. split_and!; [|done|].
      * intros m src. simpl. rewrite <- Hdr. rewrite <- drive_live by done. done.
      * rewrite Hr1 in Hsent. eapply sent_cons; [|done].
        unfold sent. cbn. rewrite app_nil_r. by split_and!.
Qed.

Lemma rest_nil u : live u -> rest u = [] -> offset u = zlength (pending u).
Proof.
  intros (_ & _ & _ & _ & _ & Ho) Hr. assert (zlength (rest u) = 0) as H by by rewrite Hr.
  unfold rest in H. rewrite zlength_drop in H by lia. lia.
Qed.

Lemma drive_read u b src :
  live u -> rest u = [] -> sourceEnded u = false -> 0 <= emptyReads u -> emptyReads u + 1 < maxFrames ->
  exists v, (forall m, drive (2 + m) u (b :: src) = drive (1 + m) v src) /\
    live v /\ rest v = b /\ sourceEnded v = false /\ 0 <= emptyReads v <= emptyReads u + 1 /\
    frames v = frames u /\ bytes v = bytes u /\ wire v = wire u.
Proof.
  intros Hl Hr Hse He0 He. pose proof (rest_nil u Hl Hr) as Ho.
  set (v := {|
    pending := b; offset := 0; stage := stage u; ended := ended u; sourceEnded := sourceEnded u;
    frames := frames u; emptyReads := if zlength b =? 0 then emptyReads u + 1 else 0;
    bytes := bytes u; waiting := false; wire := wire u; seen := seen u;
    ctl := ctl u; failed := failed u; sourceCancelled := sourceCancelled u |}).
  assert (live v) as Hlv.
  { destruct Hl as (? & ? & ? & ? & ? & ?). unfold live, v. cbn. pose proof (zlength_nonneg b).
    split_and!; auto; lia. }
  exists v. split_and!; auto; cbn; try (destruct (_ =? 0); lia).
  intros m. change (drive (S (S m)) u (b :: src) = drive (S m) v src).
  rewrite (drive_live (S m) u), (drive_live m v) by done. unfold advance at 1. rewrite Ho, Z.eqb_refl, Hse. cbn.
  destruct Hl as (_ & Hend & _). rewrite Hend.
  destruct ((zlength b =? 0) && _) eqn:E; reflect_bools.
  - rewrite (proj2 (Z.eqb_eq _ _)) in H0 by done. lia.
  - unfold v. by rewrite Hend, Hse.
Qed.

Definition completed (u : Upload) (sent : list (list Z)) (v : Upload) : Prop :=
  ctl v = CtlClosed /\ failed v = None /\ bytes v = bytes u + zlength (concat sent) /\
  wire v = wire u ++ (frame 2 <$> sent) ++ [frame 3 []].

Lemma emit_end u :
  live u -> rest u = [] -> completed u [] (emit u) /\ waiting (emit u) = false.
Proof.
  intros Hl Hr. pose proof (rest_nil u Hl Hr) as Ho. unfold emit.
  rewrite (proj2 (Z.ltb_ge _ _)) by lia. destruct Hl as (_ & _ & _ & _ & ? & _).
  unfold completed. cbn. rewrite zlength_nil; split_and!; auto; lia.
Qed.
Lemma drive_closed m u src : ctl u = CtlClosed -> waiting u = false -> drive m u src = u.
Proof. intros Hc Hw. destruct m; [done|]. cbn [drive]. rewrite Hw, decide_False; congruence. Qed.

Lemma drive_end u :
  live u -> rest u = [] ->
  exists k v, (forall m, drive (k + m) u [] = v) /\ completed u [] v.
Proof.
  intros Hl Hr. pose proof (rest_nil u Hl Hr) as Ho. destruct (sourceEnded u) eqn:Hse.
  - destruct (emit_end u Hl Hr) as [Hc Hw]. exists 1%nat, (emit u). split; [|done].
    intros m. change (drive (S m) u [] = emit u). rewrite drive_live by done. unfold advance.
    rewrite Hse, andb_false_r. by apply drive_closed; [apply Hc|].
  - set (w := {|
      pending := pending u; offset := offset u; stage := stage u; ended := ended u;
      sourceEnded := true; frames := frames u; emptyReads := emptyReads u;
      bytes := bytes u; waiting := false; wire := wire u; seen := seen u;
      ctl := ctl u; failed := failed u; sourceCancelled := sourceCancelled u |}).
    destruct (emit_end w) as [Hc Hw]; [|exact Hr|].
    { destruct Hl as (? & ? & ? & ? & ? & ?). unfold live, w. cbn. tauto. }
    exists 2%nat, (emit w). split; [|exact Hc].
    intros m. change (drive (S (S m)) u [] = emit w). rewrite drive_live by done.
    unfold advance. rewrite Ho, Z.eqb_refl, Hse. cbn.
    destruct Hl as (_ & Hend & _). unfold w in *. rewrite Hend in *. rewrite <- Ho. by apply drive_closed; [apply Hc|].
Qed.

Definition all_pieces (blocks : list (list Z)) : list (list Z) := concat (pieces <$> blocks).

Lemma drive_body src u :
  0 < maxData -> live u -> sourceEnded u = false \/ src = [] -> 0 <= emptyReads u ->
  emptyReads u + zlength src < maxFrames ->
  bytes u + zlength (concat (rest u :: src)) <= maxBytes ->
  frames u + zlength (all_pieces (rest u :: src)) < maxFrames ->
  exists k v, (forall m, drive (k + m) u src = v) /\ completed u (all_pieces (rest u :: src)) v.
Proof.
  intros Hd. unfold all_pieces. revert u.
  induction src as [|b src IH]; intros u Hl Hse He0 He Hb Hf;
    rewrite fmap_cons in Hf |- *; cbn [concat] in Hb, Hf |- *;
    rewrite zlength_app in Hb; rewrite zlength_app in Hf;
    (destruct (drive_sends (length (rest u)) u) as (k & v & Hk & Hr & Hlv & Es & Ee & Ef & Eb & Ew);
      [done|lia|done|zlen|zlen|]);
    rewrite pieces_concat in Eb by done.
  - destruct (drive_end v Hlv Hr) as (k' & w & Hk' & Hc & Hfl & Hbw & Hw).
    exists (k + k')%nat, w. split; [intros m; rewrite <- Nat.add_assoc, Hk; apply Hk'|].
    unfold completed. cbn [fmap list_fmap concat]. rewrite app_nil_r, pieces_concat by done.
    rewrite Hw, Ew, Hbw, Eb, <- app_assoc. cbn [fmap list_fmap concat app].
    split_and!; auto. zlen.
  - destruct Hse as [Hse|]; [|done]. rewrite zlength_cons in He.
    pose proof (zlength_nonneg src).
    destruct (drive_read v b src) as (u' & Hu' & Hl' & Hr' & Hse' & He' & Hf' & Hb' & Hw');
      [done|done|congruence|lia|lia|].
    destruct (IH u') as (k' & w & Hk' & Hc & Hfl & Hbw & Hw); auto; try lia.
    { rewrite Hr'. cbn [concat]. lia. }
    { rewrite Hr'. lia. }
    exists (k + (2 + k'))%nat, w. split.
    + intros m. rewrite <- Nat.add_assoc, Hk. change (2 + k' + m)%nat with (2 + (k' + m))%nat.
      rewrite Hu'. replace (1 + (k' + m))%nat with (k' + (1 + m))%nat by lia. apply Hk'.
    + rewrite Hr' in *. unfold completed. rewrite Hbw, Hw, Hb', Hw', Eb, Ew.
      rewrite fmap_app, concat_app, zlength_app, pieces_concat, <- !app_assoc by done.
      split_and!; auto. lia.
Qed.
End upload.

(** ** Properties *)

(** C9: upload safety under every interleaving of pulls, reads and cancellations.
    What the service receives is the metadata frame, then non-empty data frames
    within the negotiated size and count whose payloads are the caller's bytes in
    order and within the byte limit, then perhaps one end frame; and the end frame is
    sent only after the whole body, never after a failure. *)
Theorem upload_safety metadata body maxBytes maxData maxFrames got u :
  0 < maxData -> uploads metadata body maxBytes maxData maxFrames got u ->
  exists finished : bool,
    wire u = (if stage u =? 0 then [] else [frame 1 metadata]) ++ (frame 2 <$> seen u) ++
             (if finished then [frame 3 []] else []) /\
    Forall (fun c => 0 < zlength c <= maxData) (seen u) /\
    (seen u = [] \/ zlength (seen u) < maxFrames) /\
    bytes u = zlength (concat (seen u)) /\ bytes u <= Z.max 0 maxBytes /\
    concat (seen u) `prefix_of` got /\
    (finished = true ->
      concat (seen u) = got /\ sourceEnded u = true /\ failed u = None /\ ctl u = CtlClosed).
Proof.
  intros Hd Hu. destruct (uploads_inv _ _ _ _ _ _ _ Hd Hu) as [finished []]. exists finished.
  split_and!; auto. intros E. destruct (inv_finished0 E) as (? & ? & ? & ? & ? & ?). auto.
Qed.

(** Bodies the limits admit: the blocks a caller gives and the frames they need. *)
Definition blocks (body : RequestBody) (src : list (list Z)) : list (list Z) :=
  initial_bytes body :: src.
Definition admitted (body : RequestBody) (src : list (list Z)) (maxBytes maxData maxFrames : Z) : Prop :=
  0 < maxData /\ (asynchronous body = false -> src = []) /\ zlength src < maxFrames /\
  zlength (concat (blocks body src)) <= maxBytes /\
  zlength (all_pieces maxData (blocks body src)) < maxFrames.

Lemma all_pieces_concat maxData bs : 0 < maxData -> concat (all_pieces maxData bs) = concat bs.
Proof.
  intros Hd. unfold all_pieces. induction bs as [|b bs IH]; [done|].
  rewrite fmap_cons. cbn [concat]. by rewrite concat_app, IH, pieces_concat.
Qed.

Lemma drive_new metadata body src maxBytes maxData maxFrames :
  admitted body src maxBytes maxData maxFrames ->
  exists k v, (forall m, drive metadata body maxBytes maxData maxFrames (k + m) (newUpload body) src = v) /\
    ctl v = CtlClosed /\ failed v = None /\ bytes v = zlength (concat (blocks body src)) /\
    wire v = [frame 1 metadata] ++ (frame 2 <$> all_pieces maxData (blocks body src)) ++ [frame 3 []].
Proof.
  intros (Hd & Hsync & Hn & Hbytes & Hframes).
  set (u := pull metadata body maxBytes maxData maxFrames (newUpload body)).
  assert (live u /\ rest u = initial_bytes body) as [Hl Hr].
  { split; [|apply zdrop_0]. unfold live. cbn -[initial_bytes].
    pose proof (zlength_nonneg (initial_bytes body)). split_and!; auto; lia. }
  destruct (drive_body metadata body maxBytes maxData maxFrames src u) as (k & v & Hk & Hc & Hf & Hb & Hw);
    auto;
    rewrite ?Hr; cbn -[all_pieces initial_bytes concat]; try lia; auto.
  { destruct (asynchronous body); auto. }
  exists (1 + k)%nat, v. rewrite Hr in *. split_and!; auto.
  - rewrite Hb. unfold u. cbn -[all_pieces]. change (concat _) with (concat (all_pieces maxData (blocks body src))) at 1.
    by rewrite all_pieces_concat.
Qed.

Lemma pieces_bounded maxData b :
  0 < maxData -> Forall (fun c => zlength c <= maxData) (pieces maxData b).
Proof.
  intros Hd. unfold pieces. generalize (length b). intros n. revert b.
  induction n as [|n IH]; intros b; cbn [cut]; [constructor|].
  destruct (_ =? 0); constructor; [|apply IH]. rewrite zlength_take by lia. lia.
Qed.

Lemma all_pieces_sendable ml maxData bs :
  0 < maxData < 2 ^ 32 -> Forall is_byte (concat bs) ->
  Forall (sendable ml maxData) (pair 2 <$> all_pieces maxData bs).
Proof.
  intros [Hd H32] Hb. apply Forall_fmap, Forall_forall. intros c Hc.
  assert (zlength c <= maxData).
  { apply list_elem_of_In, in_concat in Hc as (ps & Hps%list_elem_of_In & Hc%list_elem_of_In).
    apply list_elem_of_fmap in Hps as (b & -> & _).
    eapply Forall_forall in Hc; [|by apply pieces_bounded]. done. }
  assert (Forall is_byte c).
  { rewrite <- (all_pieces_concat maxData bs) in Hb by done. rewrite Forall_forall in Hb.
    apply Forall_forall. intros x Hx. apply Hb, list_elem_of_In, in_concat.
    exists c. split; by apply list_elem_of_In. }
  unfold sendable. cbn. split_and!; try done. lia.
Qed.

(** C10: an upload within the limits is complete.  Driven by the transport, with any
    sequence of blocks from the caller's body, empty ones included, it terminates with
    the stream closed, and a peer that reads the frames, however the bytes are cut on
    the way, sees the metadata, the body in blocks of the negotiated size, and the end. *)
Theorem upload_complete metadata body src maxBytes maxData maxFrames ml :
  admitted body src maxBytes maxData maxFrames ->
  zlength metadata <= ml -> ml < 2 ^ 32 -> maxData < 2 ^ 32 ->
  Forall is_byte (metadata ++ concat (blocks body src)) ->
  exists k v,
    (forall m, drive metadata body maxBytes maxData maxFrames (k + m) (newUpload body) src = v) /\
    ctl v = CtlClosed /\ failed v = None /\ bytes v = zlength (concat (blocks body src)) /\
    exists payloads, concat payloads = concat (blocks body src) /\
      forall chunks, concat chunks = concat (wire v) ->
        read_frames (3 + length payloads) (newFrameReader (Chunk <$> chunks) ml maxData) =
          ([(1, metadata)] ++ (pair 2 <$> payloads) ++ [(3, [])], EndOfBody).
Proof.
  intros Hadm Hml Hml32 Hd32 Hbytes. destruct Hadm as (Hd & Hadm). apply Forall_app in Hbytes as [Hm Hb].
  destruct (drive_new metadata body src maxBytes maxData maxFrames) as (k & v & Hk & Hc & Hf & Hbs & Hw);
    [by split|].
  exists k, v. split_and!; auto. exists (all_pieces maxData (blocks body src)).
  split; [by apply all_pieces_concat|]. intros chunks Hchunks.
  set (fs := [(1, metadata)] ++ (pair 2 <$> all_pieces maxData (blocks body src)) ++ [(3, [])]).
  assert (3 + length (all_pieces maxData (blocks body src)) = S (length fs))%nat as ->
    by (unfold fs; rewrite !length_app, length_fmap; simpl; lia).
  apply read_encoded.
  - unfold fs. rewrite !Forall_app, !Forall_singleton. split_and!.
    + unfold sendable. cbn. split_and!; auto; lia.
    + by apply all_pieces_sendable.
    + unfold sendable. cbn. rewrite zlength_nil. split_and!; auto; try lia. pose proof (zlength_nonneg metadata). lia.
  - rewrite Hchunks, Hw. unfold fs, encode_frames. rewrite !fmap_app, !concat_app. do 2 f_equal.
    rewrite <- list_fmap_compose. done.
Qed.

Lemma upload_safety_witness :
  exists finished : bool,
    let u := drive [123] BodyStream 9 2 9 5 (newUpload BodyStream) [[7; 8; 9]] in
    wire u = (if stage u =? 0 then [] else [frame 1 [123]]) ++ (frame 2 <$> seen u) ++
             (if finished then [frame 3 []] else []) /\
    Forall (fun c => 0 < zlength c <= 2) (seen u) /\ (seen u = [] \/ zlength (seen u) < 9) /\
    bytes u = zlength (concat (seen u)) /\ bytes u <= Z.max 0 9 /\
    concat (seen u) `prefix_of` [7; 8; 9] /\
    (finished = true ->
      concat (seen u) = [7; 8; 9] /\ sourceEnded u = true /\ failed u = None /\ ctl u = CtlClosed).
Proof.
  apply (upload_safety [123] BodyStream 9 2 9 [7; 8; 9]); [lia|].
  apply (uploads_step _ _ _ _ _ [7; 8; 9] _ Pull); [|reflexivity].
  apply (uploads_step _ _ _ _ _ [7; 8; 9] _ Pull); [|reflexivity].
  apply (uploads_step _ _ _ _ _ [] _ (Read (BodyChunk [7; 8; 9]))); [|reflexivity].
  apply (uploads_step _ _ _ _ _ [] _ Pull); [|reflexivity].
  apply (uploads_step _ _ _ _ _ [] _ Pull); [|reflexivity].
  apply uploads_new.
Defined.

Lemma upload_complete_witness :
  exists k v,
    (forall m, drive [123] BodyStream 9 2 9 (k + m) (newUpload BodyStream) [[7; 8; 9]; []; [1]] = v) /\
    ctl v = CtlClosed /\ failed v = None /\ bytes v = 4 /\
    exists payloads, concat payloads = [7; 8; 9; 1] /\
      forall chunks, concat chunks = concat (wire v) ->
        read_frames (3 + length payloads) (newFrameReader (Chunk <$> chunks) 64 2) =
          ([(1, [123])] ++ (pair 2 <$> payloads) ++ [(3, [])], EndOfBody).
Proof.
  apply (upload_complete [123] BodyStream [[7; 8; 9]; []; [1]] 9 2 9 64);
    [unfold admitted|vm_compute; congruence|lia|lia|].
  - split_and!; [lia|done|reflexivity|vm_compute; congruence|reflexivity].
  - cbn. repeat (apply Forall_cons; split); try apply Forall_nil; try exact I; unfold is_byte; lia.
Defined.
