(* ===== verification/Buffering.v ===== *)
(** * Buffered responses (class BufferBudget of packages/typescript/src/concurrency.ts
    and Ja3ProxyClient.buffer of packages/typescript/src/client.ts)

    A response body is collected into blocks of at most [BLOCK] bytes.  Memory is
    reserved from a budget shared by all responses before each block is kept, and
    given back when the call ends, whatever its outcome.  [buffer] is one call; the calls
    that interleave at their reads follow at the end. *)

From S2P Require Import Prelude Js Errors Deadline Framing.

(** ** BufferBudget *)

Record BufferBudget := { limit : Z; retained : Z }.

Definition newBufferBudget (limit : jsval) : result exn BufferBudget :=
  match positive limit with
  | Some z => Ok {| limit := z; retained := 0 |}
  | None => Throw invalid_input_error
  end.
Definition reserve (bytes : Z) (diag : Ja3Diagnostics) (usedProxy : bool) (b : BufferBudget) :
    result exn BufferBudget :=
  if retained b + bytes >? limit b
  then Throw (ETransport (newTransportError BODY_TOO_LARGE diag usedProxy (Some buffer_limit) None))
  else Ok {| limit := limit b; retained := retained b + bytes |}.
Definition release (bytes : Z) (b : BufferBudget) : BufferBudget :=
  {| limit := limit b; retained := retained b - bytes |}.

(** ** Arrays of bytes *)

(** [target.set(bytes, offset)]: out of range, it throws. *)
Definition set_bytes (offset : Z) (bytes target : list Z) : option (list Z) :=
  if (0 <=? offset) && (offset + zlength bytes <=? zlength target) then
    Some (ztake offset target ++ bytes ++ zdrop (offset + zlength bytes) target)
  else None.
(** [new Uint8Array(n)]; a negative length throws. *)
Definition new_bytes (n : Z) : option (list Z) :=
  if n <? 0 then None else Some (replicate (Z.to_nat n) 0).

Definition BLOCK : Z := 65536.

(** ** Collecting a body *)

Record Buffer := {
  blocks : list (list Z);
  current : list Z;
  owned : bool;                 (* [current] was allocated here, not given by the stream *)
  filled : Z;
  held : Z;                     (* the local [retained] *)
  size : Z;
}.
Definition newBuffer : Buffer := {|
  blocks := []; current := []; owned := false; filled := 0; held := 0; size := 0 |}.

Section buffer.
Context (diag : Ja3Diagnostics).

(** [if (filled === 65_536)]: a full block is set aside. *)
Definition set_aside (s : Buffer) : Buffer :=
  if filled s =? BLOCK then {|
    blocks := blocks s ++ [current s]; current := []; owned := false; filled := 0;
    held := held s; size := size s |}
  else s.

(** [if (filled === current.length)]: the block grows, at most to [BLOCK]. *)
Definition grow (remaining : Z) (b : BufferBudget) (s : Buffer) :
    BufferBudget * Buffer * option exn :=
  if filled s =? zlength (current s) then
    let capacity := Z.min BLOCK (Z.max (zlength (current s) * 2) (filled s + remaining)) in
    let reservation := (capacity - zlength (current s)) * 2 in
    match reserve reservation diag false b with
    | Throw e => (b, s, Some e)
    | Ok b' =>
        let s' := {| blocks := blocks s; current := current s; owned := owned s; filled := filled s;
                     held := held s + reservation; size := size s |} in
        match new_bytes capacity with
        | None => (b', s', Some ERangeError)
        | Some fresh =>
            match set_bytes 0 (current s) fresh with
            | None => (b', s', Some ERangeError)
            | Some grown =>
                (b', {| blocks := blocks s; current := grown; owned := true; filled := filled s;
                        held := held s + reservation; size := size s |}, None)
            end
        end
    end
  else (b, s, None).

(** One round of the inner loop; [None] when the chunk is taken whole ([break]),
    otherwise the next offset. *)
Definition take_some (value : list Z) (offset : Z) (b : BufferBudget) (s : Buffer) :
    BufferBudget * Buffer * (exn + option Z) :=
  let s := set_aside s in
  let rest := zdrop offset value in
  if zlength (current s) =? 0 then
    match reserve (zlength rest * 2) diag false b with
    | Throw e => (b, s, inl e)
    | Ok b' =>
        (b', {| blocks := blocks s; current := rest; owned := false; filled := zlength rest;
                held := held s + zlength rest * 2; size := size s + zlength rest |}, inr None)
    end
  else
    match grow (zlength value - offset) b s with
    | (b', s', Some e) => (b', s', inl e)
    | (b', s', None) =>
        let count := Z.min (zlength (current s') - filled s') (zlength value - offset) in
        match set_bytes (filled s') (subarray offset (offset + count) value) (current s') with
        | None => (b', s', inl ERangeError)
        | Some written =>
            (b', {| blocks := blocks s'; current := written; owned := owned s';
                    filled := filled s' + count; held := held s'; size := size s' + count |},
             inr (Some (offset + count)))
        end
    end.

Inductive chunk_outcome := Taken | Failed (e : exn) | NoFuel.

Fixpoint take_chunk (fuel : nat) (value : list Z) (offset : Z) (b : BufferBudget) (s : Buffer) :
    BufferBudget * Buffer * chunk_outcome :=
  match fuel with
  | O => (b, s, NoFuel)
  | S fuel =>
      if offset <? zlength value then
        match take_some value offset b s with
        | (b', s', inl e) => (b', s', Failed e)
        | (b', s', inr None) => (b', s', Taken)
        | (b', s', inr (Some offset')) => take_chunk fuel value offset' b' s'
        end
      else (b, s, Taken)
  end.

(** A chunk needs at most three rounds: fill the block, then start the next one. *)
Definition CHUNK_ROUNDS : nat := 4.

(** The outer loop over what the body's reader gives; it may fail midway. *)
Inductive body_event := BodyChunk (value : list Z) | BodyFails (e : exn).

Fixpoint collect (events : list body_event) (b : BufferBudget) (s : Buffer) :
    BufferBudget * Buffer * chunk_outcome :=
  match events with
  | [] => (b, s, Taken)
  | BodyFails e :: _ => (b, s, Failed e)
  | BodyChunk value :: events =>
      match take_chunk CHUNK_ROUNDS value 0 b s with
      | (b', s', Taken) => collect events b' s'
      | r => r
      end
  end.

(** [new Uint8Array(size)] and the copies of the blocks into it. *)
Fixpoint copy_blocks (bs : list (list Z)) (offset : Z) (body : list Z) : option (Z * list Z) :=
  match bs with
  | [] => Some (offset, body)
  | block :: bs =>
      match set_bytes offset block body with
      | None => None
      | Some body => copy_blocks bs (offset + zlength block) body
      end
  end.
Definition assemble (s : Buffer) : option (list Z) :=
  match new_bytes (size s) with
  | None => None
  | Some body =>
      match copy_blocks (blocks s) 0 body with
      | None => None
      | Some (offset, body) => set_bytes offset (subarray 0 (filled s) (current s)) body
      end
  end.

End buffer.

(** ** Headers: [(headers[name.toLowerCase()] ??= []).push(value)] *)

Fixpoint push_header (name value : jsstr) (headers : list (jsstr * list jsstr)) :
    list (jsstr * list jsstr) :=
  match headers with
  | [] => [(name, [value])]
  | (k, vs) :: headers =>
      if js_eqb name k then (k, vs ++ [value]) :: headers else (k, vs) :: push_header name value headers
  end.
Definition group_headers (pairs : list (jsstr * jsstr)) : list (jsstr * list jsstr) :=
  fold_left (fun headers '(name, value) => push_header (to_lower name) value headers) pairs [].

(** ** The whole call *)

(** The exchange whose body is read: the diagnostics and references of its metadata,
    and what its stream would report of itself if it failed now ([updateLocal]). *)
Record Exchange := {
  metadata_status : Z;
  metadata_diagnostics : Ja3Diagnostics;
  metadata_headers : list (jsstr * jsstr);
  exchange_references : option ExchangeReferences;
  exchange_usedProxy : bool;
  updateLocal : Ja3Diagnostics;
}.
Abbreviation Completion := (result Ja3ProxyTransportError Ja3Diagnostics).

(** [this.failStreams.get(exchange)?.(error)]: a stream that has not finished
    finishes with the error, a finished one keeps its outcome. *)
Definition failStream (ex : Exchange) (error : Ja3ProxyTransportError) (settled : option Completion) :
    Completion :=
  match settled with
  | Some completion => completion
  | None =>
      Throw (withReferences
        (newTransportError (code error) (updateLocal ex) (exchange_usedProxy ex) (Some (kind error)) None)
        (exchange_references ex))
  end.

(** The [catch] clause: [settled] is the exchange's completion at that moment. *)
Definition buffer_error (ex : Exchange) (error : exn) (settled : option Completion) :
    Ja3ProxyTransportError :=
  withReferences
    (match failStream ex (safeError error (metadata_diagnostics ex) false) settled with
     | Ok diag => safeError error diag false
     | Throw error => error
     end) (exchange_references ex).

Record BufferedResponse := {
  status : Z;
  response_headers : list (jsstr * list jsstr);
  response_body : list Z;
  elapsed : Z;
  response_diagnostics : Ja3Diagnostics;
  response_references : option ExchangeReferences;
}.

(** [events] is what the reader yields until it is done or fails, [settled] the
    completion when the [try] block fails, [completion] the one awaited at the end. *)
Definition buffer (ex : Exchange) (events : list body_event) (completion : Completion)
    (settled : option Completion) (b : BufferBudget) :
    BufferBudget * result exn BufferedResponse :=
  match collect (metadata_diagnostics ex) events b newBuffer with
  | (b', s, Failed e) => (release (held s) b', Throw (ETransport (buffer_error ex e settled)))
  | (b', s, NoFuel) => (release (held s) b', Throw EOther)
  | (b', s, Taken) =>
      (release (held s) b',
       match completion with
       | Throw e => Throw (ETransport (buffer_error ex (ETransport e) (Some completion)))
       | Ok diag =>
           match assemble s with
           | Some body => Ok {|
               status := metadata_status ex; response_headers := group_headers (metadata_headers ex);
               response_body := body; elapsed := totalMs diag; response_diagnostics := diag;
               response_references := exchange_references ex |}
           | None => Throw (ETransport (buffer_error ex ERangeError (Some completion)))
           end
       end)
  end.

(** ** The invariant of a collection *)

Record buffer_inv (got : list Z) (s : Buffer) : Prop := {
  bi_blocks : Forall (fun b => zlength b = BLOCK) (blocks s);
  bi_filled : 0 <= filled s <= zlength (current s);
  bi_block : zlength (current s) <= BLOCK;
  bi_some : current s = [] \/ 0 < filled s;
  bi_content : concat (blocks s) ++ ztake (filled s) (current s) = got;
  bi_size : size s = zlength got;
  bi_held : held s = 2 * (BLOCK * zlength (blocks s) + zlength (current s));
  bi_waste : zlength (current s) <= 2 * filled s;
  bi_owned : filled s < zlength (current s) -> owned s = true;
}.

Lemma newBuffer_inv : buffer_inv [] newBuffer.
Proof. by constructor; try done; left. Qed.

Lemma set_aside_inv got s :
  buffer_inv got s -> buffer_inv got (set_aside s) /\ held (set_aside s) = held s /\
    (filled (set_aside s) = BLOCK -> False).
Proof.
  intros [] . unfold set_aside. destruct (Z.eqb_spec (filled s) BLOCK) as [E|E]; [|done].
  split_and!; [|done|cbn; unfold BLOCK; lia].
  constructor; cbn; try done; try lia.
  - apply Forall_app. split; [done|]. constructor; [lia|done].
  - by left.
  - rewrite concat_app, <- bi_content0, app_nil_r. cbn. rewrite app_nil_r. f_equal.
    symmetry. apply ztake_all. lia.
  - rewrite bi_held0. rewrite zlength_app, zlength_cons, (zlength_nil (A:=Z)), (zlength_nil (A:=list Z)). unfold BLOCK in *. lia.
Qed.

(** The content determines the size of the blocks and the held bytes. *)
Lemma concat_blocks (bs : list (list Z)) : Forall (fun b => zlength b = BLOCK) bs -> zlength (concat bs) = BLOCK * zlength bs.
Proof.
  induction 1 as [|b bs Hb _ IH]; [done|]. cbn [concat]. rewrite zlength_app, zlength_cons.
  unfold BLOCK in *. lia.
Qed.
Lemma buffer_size got s : buffer_inv got s -> zlength got = BLOCK * zlength (blocks s) + filled s.
Proof.
  intros []. rewrite <- bi_content0, zlength_app, concat_blocks by done.
  rewrite zlength_take by lia. lia.
Qed.
Lemma held_bounds got s : buffer_inv got s -> 2 * zlength got <= held s <= 4 * zlength got.
Proof.
  intros H. pose proof (buffer_size got s H). destruct H. pose proof (zlength_nonneg (blocks s)).
  unfold BLOCK in *. lia.
Qed.

Lemma set_bytes_ok offset bytes target :
  0 <= offset -> offset + zlength bytes <= zlength target ->
  set_bytes offset bytes target =
    Some (ztake offset target ++ bytes ++ zdrop (offset + zlength bytes) target).
Proof.
  intros. unfold set_bytes. by rewrite (proj2 (Z.leb_le _ _)), (proj2 (Z.leb_le _ _)) by lia.
Qed.
Lemma new_bytes_ok n : 0 <= n -> exists l, new_bytes n = Some l /\ zlength l = n.
Proof.
  intros. unfold new_bytes. rewrite (proj2 (Z.ltb_ge _ _)) by lia. eexists. split; [done|].
  rewrite zlength_replicate. lia.
Qed.

(** What a step keeps of the shared budget, and when it may fail. *)
Definition accounted (b : BufferBudget) (s : Buffer) (b' : BufferBudget) (s' : Buffer) : Prop :=
  limit b' = limit b /\ retained b' - held s' = retained b - held s /\
  (retained b <= limit b -> retained b' <= limit b').
Definition too_large (diag : Ja3Diagnostics) : exn :=
  ETransport (newTransportError BODY_TOO_LARGE diag false (Some buffer_limit) None).
(** The others' share, with four bytes for each byte collected, is above the limit. *)
Definition exhausted (b : BufferBudget) (s : Buffer) (total : Z) : Prop :=
  limit b < retained b - held s + 4 * total.

Lemma accounted_refl b s s' : held s' = held s -> accounted b s b s'.
Proof. intros E. unfold accounted. rewrite E. auto. Qed.
Lemma accounted_trans b s b1 s1 b2 s2 :
  accounted b s b1 s1 -> accounted b1 s1 b2 s2 -> accounted b s b2 s2.
Proof. unfold accounted. intros (? & ? & ?) (? & ? & ?). split_and!; [congruence|lia|auto]. Qed.
Lemma reserve_spec bytes diag b :
  match reserve bytes diag false b with
  | Ok b' => limit b' = limit b /\ retained b' = retained b + bytes /\ retained b' <= limit b'
  | Throw e => e = too_large diag /\ limit b < retained b + bytes
  end.
Proof.
  unfold reserve. rewrite Z.gtb_ltb. destruct (Z.ltb_spec (limit b) (retained b + bytes)); [done|].
  cbn. lia.
Qed.

(** Rounds the inner loop still needs, but for its last test. *)
Definition need (s : Buffer) : nat :=
  if decide (current s = [] \/ filled s = BLOCK) then 1
  else if decide (filled s = zlength (current s)) then 2 else 3.

Definition grown (s s' : Buffer) (remaining : Z) : Prop :=
  blocks s' = blocks s /\ filled s' = filled s /\ size s' = size s /\
  ztake (filled s') (current s') = ztake (filled s) (current s) /\
  held s' = 2 * (BLOCK * zlength (blocks s') + zlength (current s')) /\
  filled s' < zlength (current s') <= BLOCK /\ owned s' = true /\
  zlength (current s') <= 2 * Z.min (zlength (current s')) (filled s' + remaining) /\
  (zlength (current s') < filled s' + remaining ->
     zlength (current s') = BLOCK \/ filled s < zlength (current s)).

Lemma grow_spec diag got remaining b s :
  buffer_inv got s -> current s <> [] -> filled s < BLOCK -> 0 < remaining ->
  match grow diag remaining b s with
  | (b', s', None) => accounted b s b' s' /\ grown s s' remaining
  | (b', s', Some e) => e = too_large diag /\ b' = b /\ s' = s /\ exhausted b s (zlength got + remaining)
  end.
Proof.
  intros H Hne Hlt Hrem. pose proof (buffer_size got s H) as Hsize. destruct H.
  unfold grow. destruct (Z.eqb_spec (filled s) (zlength (current s))) as [E|E].
  2:{ split; [by apply accounted_refl|]. unfold grown. split_and!; auto; try lia; apply bi_owned0; lia. }
  set (capacity := Z.min BLOCK _).
  assert (zlength (current s) < capacity <= BLOCK) as Hcap by (unfold capacity; lia).
  assert (capacity <= 2 * Z.min capacity (filled s + remaining)) as Hwaste by (unfold capacity; lia).
  assert (capacity < filled s + remaining -> capacity = BLOCK) as Hfull by (unfold capacity; lia).
  pose proof (reserve_spec ((capacity - zlength (current s)) * 2) diag b) as Hres.
  destruct (reserve _ _ _ _) as [b'|e].
  - destruct Hres as (Hl & Hr & Hle). destruct (new_bytes_ok capacity) as (fresh & -> & Hfresh); [lia|].
    rewrite set_bytes_ok by lia. split.
    + unfold accounted. cbn. split_and!; [done|lia|done].
    + unfold grown. cbn.
      assert (zlength (ztake 0 fresh ++ current s ++ zdrop (0 + zlength (current s)) fresh) = capacity) as Hlen.
      { rewrite ztake_0, !zlength_app, zlength_drop, zlength_nil by lia. lia. }
      rewrite Hlen. split_and!; auto; try lia.
      rewrite ztake_0. cbn. rewrite E, ztake_length_app, ztake_all by lia. done.
  - destruct Hres as [-> Hlim]. split_and!; try done. unfold exhausted.
    rewrite bi_held0. unfold capacity in *. unfold BLOCK in *. pose proof (zlength_nonneg (blocks s)). lia.
Qed.

Lemma need_bounds s : (1 <= need s <= 3)%nat.
Proof. unfold need. repeat case_decide; lia. Qed.

(** The piece of the chunk a round takes, and what it leaves to do. *)
Definition progressed (got value : list Z) (offset : Z) (s : Buffer) (next : option Z) (s' : Buffer) : Prop :=
  match next with
  | None => buffer_inv (got ++ zdrop offset value) s'
  | Some offset' =>
      offset < offset' <= zlength value /\
      buffer_inv (got ++ ztake (offset' - offset) (zdrop offset value)) s' /\
      (offset' < zlength value -> (need s' < need s)%nat)
  end.

Lemma take_fresh diag got value offset b s :
  buffer_inv got s -> current s = [] -> 0 <= offset < zlength value -> zlength value <= BLOCK ->
  match reserve (zlength (zdrop offset value) * 2) diag false b with
  | Ok b' =>
      let s' := {| blocks := blocks s; current := zdrop offset value; owned := false;
                   filled := zlength (zdrop offset value);
                   held := held s + zlength (zdrop offset value) * 2;
                   size := size s + zlength (zdrop offset value) |} in
      accounted b s b' s' /\ buffer_inv (got ++ zdrop offset value) s'
  | Throw e => e = too_large diag /\ exhausted b s (zlength got + (zlength value - offset))
  end.
Proof.
  intros H Hc Ho Hv. pose proof (held_bounds got s H) as Hheld. destruct H.
  assert (zlength (zdrop offset value) = zlength value - offset) as Hrest by (rewrite zlength_drop by lia; lia).
  pose proof (reserve_spec (zlength (zdrop offset value) * 2) diag b) as Hres.
  destruct (reserve _ _ _ _) as [b'|e].
  - destruct Hres as (? & ? & ?). split; [unfold accounted; cbn; split_and!; [done|lia|done]|].
    rewrite Hc in *. assert (filled s = 0) as Hf by (change (zlength (@nil Z)) with 0 in *; lia).
    constructor; cbn; auto; try lia.
    + rewrite <- bi_content0, Hf. change (ztake 0 []) with (@nil Z). rewrite app_nil_r. f_equal.
      by apply ztake_all.
    + rewrite zlength_app. lia.
  - destruct Hres as [-> ?]. split; [done|]. unfold exhausted. lia.
Qed.

Lemma take_written got value offset s s' :
  buffer_inv got s -> grown s s' (zlength value - offset) -> 0 <= offset < zlength value ->
  filled s < BLOCK -> current s <> [] ->
  let count := Z.min (zlength (current s') - filled s') (zlength value - offset) in
  exists written,
    set_bytes (filled s') (subarray offset (offset + count) value) (current s') = Some written /\
    progressed got value offset s (Some (offset + count)) {|
      blocks := blocks s'; current := written; owned := owned s'; filled := filled s' + count;
      held := held s'; size := size s' + count |}.
Proof.
  intros H (Eb & Ef & Es & Et & Eh & Hcap & Eo & Hw & Hfull) Ho Hlt Hne count. destruct H.
  assert (0 < count <= zlength (current s') - filled s') as Hcount by (unfold count; lia).
  rewrite subarray_spec by lia.
  assert (zlength (ztake count (zdrop offset value)) = count) as Hpiece
    by (rewrite zlength_take, zlength_drop by lia; lia).
  rewrite set_bytes_ok by lia. eexists. split; [done|].
  set (written := ztake (filled s') (current s') ++ _ ++ _).
  assert (zlength written = zlength (current s')) as Hwlen.
  { unfold written. rewrite !zlength_app, zlength_take, zlength_drop, Hpiece by lia. lia. }
  assert (ztake (filled s' + count) written =
          ztake (filled s) (current s) ++ ztake count (zdrop offset value)) as Hcontent.
  { rewrite <- Et. unfold written. rewrite app_assoc.
    replace (filled s' + count) with
      (zlength (ztake (filled s') (current s') ++ ztake count (zdrop offset value))).
    - apply ztake_length_app.
    - rewrite zlength_app, zlength_take, Hpiece by lia. lia. }
  unfold progressed. replace (offset + count - offset) with count by lia.
  split; [lia|]. split.
  - constructor; cbn; auto; try (rewrite ?Hwlen; lia).
    + by rewrite Eb.
    + rewrite Eb, Hcontent, app_assoc. by f_equal.
    + rewrite zlength_app, Hpiece. lia.
  - intros Hmore. assert (count = zlength (current s') - filled s') as Ecount by (unfold count; lia).
    unfold need. cbn. rewrite Hwlen.
    rewrite (decide_False (P := current s = [] \/ filled s = BLOCK)) by (intros [?|?]; [done|lia]).
    destruct Hfull as [Hfull|Hfull]; [lia| |].
    + rewrite decide_True by (right; lia). repeat case_decide; lia.
    + rewrite (decide_False (P := filled s = zlength (current s))) by lia. repeat case_decide; lia.
Qed.

Lemma set_aside_need s : current s <> [] -> filled s <> BLOCK -> set_aside s = s.
Proof. intros _ H. unfold set_aside. by rewrite (proj2 (Z.eqb_neq _ _)). Qed.

Lemma take_some_spec diag got value offset b s :
  buffer_inv got s -> 0 <= offset < zlength value -> zlength value <= BLOCK ->
  match take_some diag value offset b s with
  | (b', s', inr next) => accounted b s b' s' /\ progressed got value offset s next s'
  | (b', s', inl e) =>
      e = too_large diag /\ accounted b s b' s' /\ buffer_inv got s' /\
      exhausted b s (zlength got + (zlength value - offset))
  end.
Proof.
  intros H Ho Hv. unfold take_some. destruct (set_aside_inv got s H) as (H1 & Eheld & Hnot).
  destruct (Z.eqb_spec (zlength (current (set_aside s))) 0) as [E|E].
  - apply zlength_zero in E. pose proof (take_fresh diag got value offset b _ H1 E Ho Hv) as Hf.
    destruct (reserve _ _ _ _) as [b'|e].
    + destruct Hf as [Hacc Hinv]. split; [|done]. unfold accounted in *. rewrite <- Eheld. exact Hacc.
    + destruct Hf as [-> Hex]. split_and!; try done; [by apply accounted_refl|].
      unfold exhausted in *. by rewrite Eheld in Hex.
  - assert (current (set_aside s) <> []) as Hne by (intros E'; by rewrite E' in E).
    assert (filled (set_aside s) < BLOCK) as Hlt by (pose proof (bi_filled _ _ H1); pose proof (bi_block _ _ H1); lia).
    assert (set_aside s = s) as Es.
    { unfold set_aside in *. destruct (Z.eqb_spec (filled s) BLOCK); [|done]. by cbn in Hne. }
    rewrite Es in *.
    pose proof (grow_spec diag got (zlength value - offset) b s H Hne Hlt ltac:(lia)) as Hg.
    destruct (grow _ _ _ _) as [[b' s'] [e|]].
    + by destruct Hg as (-> & -> & -> & Hex).
    + destruct Hg as [Hacc Hgrown].
      destruct (take_written got value offset s s' H Hgrown Ho Hlt Hne) as (written & -> & Hp).
      split; [|exact Hp]. exact Hacc.
Qed.

Lemma take_chunk_spec diag fuel got value offset b s :
  buffer_inv got s -> 0 <= offset <= zlength value -> zlength value <= BLOCK ->
  (1 <= fuel)%nat -> (offset < zlength value -> (need s + 1 <= fuel)%nat) ->
  match take_chunk diag fuel value offset b s with
  | (b', s', Taken) => accounted b s b' s' /\ buffer_inv (got ++ zdrop offset value) s'
  | (b', s', Failed e) =>
      e = too_large diag /\ accounted b s b' s' /\ (exists kept, buffer_inv kept s') /\
      exhausted b s (zlength got + (zlength value - offset))
  | (_, _, NoFuel) => False
  end.
Proof.
  intros H Ho Hv Hfuel1. revert got offset b s H Ho Hfuel1.
  induction fuel as [|fuel IH]; intros got offset b s H Ho Hfuel1 Hfuel; [lia|]. cbn [take_chunk].
  destruct (Z.ltb_spec offset (zlength value)) as [Hlt|Hge].
  2:{ split; [by apply accounted_refl|]. rewrite zdrop_all, app_nil_r by lia. done. }
  specialize (Hfuel Hlt). pose proof (need_bounds s).
  pose proof (take_some_spec diag got value offset b s H ltac:(lia) Hv) as Hs.
  destruct (take_some _ _ _ _ _) as [[b' s'] [e|[offset'|]]].
  - destruct Hs as (? & ? & ? & ?). by eauto.
  - destruct Hs as (Hacc & (Ho' & Hinv & Hneed)).
    assert (zlength (got ++ ztake (offset' - offset) (zdrop offset value)) + (zlength value - offset') =
            zlength got + (zlength value - offset)) as Hlen
      by (rewrite zlength_app, zlength_take, zlength_drop by lia; lia).
    specialize (IH _ offset' b' s' Hinv ltac:(lia) ltac:(lia)).
    assert (offset' < zlength value -> (need s' + 1 <= fuel)%nat) as Hfuel' by (intros Hm; specialize (Hneed Hm); lia).
    specialize (IH Hfuel'). destruct (take_chunk _ _ _ _ _ _) as [[b2 s2] []]; [| |done].
    + destruct IH as [Hacc2 Hinv2]. split; [by eapply accounted_trans|].
      rewrite <- app_assoc in Hinv2. replace (zdrop offset value) with
        (ztake (offset' - offset) (zdrop offset value) ++ zdrop offset' value); [done|].
      replace (zdrop offset' value) with (zdrop (offset' - offset) (zdrop offset value));
        [apply ztake_zdrop|]. rewrite zdrop_zdrop by lia. f_equal. lia.
    + destruct IH as (-> & Hacc2 & Hkept & Hex). split; [done|]. split; [by eapply accounted_trans|]. split; [done|].
      unfold exhausted in *. rewrite Hlen in Hex. destruct Hacc as (El & Er & _). rewrite El, Er in Hex. done.
  - destruct Hs as [Hacc Hp]. done.
Qed.

Definition chunk_bytes (ev : body_event) : list Z :=
  match ev with BodyChunk value => value | BodyFails _ => [] end.
Definition bounded_chunk (ev : body_event) : Prop := zlength (chunk_bytes ev) <= BLOCK.
Definition fails (ev : body_event) : option exn :=
  match ev with BodyFails e => Some e | _ => None end.
Definition body_of (events : list body_event) : list Z := concat (map chunk_bytes events).

Lemma collect_spec diag events got b s :
  buffer_inv got s -> Forall bounded_chunk events ->
  match collect diag events b s with
  | (b', s', Taken) =>
      accounted b s b' s' /\ buffer_inv (got ++ body_of events) s' /\ Forall (fun ev => fails ev = None) events
  | (b', s', Failed e) =>
      accounted b s b' s' /\
      (Some e ∈ map fails events \/ (e = too_large diag /\ exhausted b s (zlength got + zlength (body_of events))))
  | (_, _, NoFuel) => False
  end.
Proof.
  intros H Hb. revert got b s H. induction Hb as [|ev events Hev _ IH]; intros got b s H.
  { cbn. rewrite app_nil_r. split_and!; [by apply accounted_refl|done|done]. }
  unfold body_of. cbn [collect map concat]. destruct ev as [value|e].
  2:{ split; [by apply accounted_refl|]. left. set_solver. }
  pose proof (zlength_nonneg value).
  pose proof (take_chunk_spec diag CHUNK_ROUNDS got value 0 b s H ltac:(lia) Hev
    ltac:(unfold CHUNK_ROUNDS; lia) ltac:(pose proof (need_bounds s); unfold CHUNK_ROUNDS; lia)) as Hc.
  destruct (take_chunk _ _ _ _ _ _) as [[b1 s1] []]; [| |done].
  - destruct Hc as [Hacc Hinv]. rewrite zdrop_0 in Hinv. specialize (IH _ b1 s1 Hinv).
    destruct (collect _ _ _ _) as [[b2 s2] []]; [| |done].
    + destruct IH as (Hacc2 & Hinv2 & Hok). split_and!.
      * by eapply accounted_trans.
      * by rewrite <- app_assoc in Hinv2.
      * by constructor.
    + destruct IH as (Hacc2 & Hwhy). split; [by eapply accounted_trans|].
      destruct Hwhy as [Hin|[-> Hex]]; [left; set_solver|right]. split; [done|].
      unfold exhausted in *. destruct Hacc as (El & Er & _). rewrite El, Er, zlength_app in Hex.
      cbn [chunk_bytes]. rewrite zlength_app. unfold body_of in Hex. lia.
  - destruct Hc as (-> & Hacc & _ & Hex). split; [done|]. right. split; [done|].
    unfold exhausted in *. cbn [chunk_bytes]. rewrite zlength_app.
    pose proof (zlength_nonneg (concat (map chunk_bytes events))). lia.
Qed.

(** ** Final assembly *)

Lemma set_bytes_middle pre bytes post fill :
  zlength fill = zlength bytes ->
  set_bytes (zlength pre) bytes (pre ++ fill ++ post) = Some (pre ++ bytes ++ post).
Proof.
  intros E. pose proof (zlength_nonneg pre). pose proof (zlength_nonneg post).
  pose proof (zlength_nonneg bytes).
  rewrite set_bytes_ok; [|lia|rewrite ?zlength_app; lia].
  rewrite ztake_length_app, zdrop_app_ge by lia.
  replace (zlength pre + zlength bytes - zlength pre) with (zlength fill) by lia.
  by rewrite zdrop_length_app.
Qed.
Lemma copy_blocks_spec bs pre fill post :
  zlength fill = zlength (concat bs) ->
  copy_blocks bs (zlength pre) (pre ++ fill ++ post) =
    Some (zlength (pre ++ concat bs), pre ++ concat bs ++ post).
Proof.
  revert pre fill. induction bs as [|block bs IH]; intros pre fill E.
  - cbn in *. apply zlength_zero in E as ->. by rewrite app_nil_r.
  - cbn [copy_blocks concat] in *. rewrite zlength_app in E. pose proof (zlength_nonneg block).
    pose proof (zlength_nonneg (concat bs)).
    rewrite <- (ztake_zdrop (zlength block) fill), <- (app_assoc (ztake _ _)).
    rewrite (set_bytes_middle pre block) by (rewrite zlength_take by lia; lia).
    rewrite <- zlength_app, (app_assoc pre), (IH (pre ++ block)) by (rewrite zlength_drop by lia; lia).
    by rewrite <- !app_assoc.
Qed.
Lemma assemble_spec got s : buffer_inv got s -> assemble s = Some got.
Proof.
  intros H. pose proof (buffer_size got s H) as Hsize. pose proof (concat_blocks _ (bi_blocks _ _ H)) as Hcat.
  destruct H. unfold assemble. pose proof (zlength_nonneg (concat (blocks s))).
  destruct (new_bytes_ok (size s)) as (body & -> & Hbody); [lia|].
  rewrite <- (ztake_zdrop (zlength (concat (blocks s))) body).
  assert (zlength (ztake (zlength (concat (blocks s))) body) = zlength (concat (blocks s))) as E1
    by (rewrite zlength_take by lia; lia).
  assert (zlength (zdrop (zlength (concat (blocks s))) body) = filled s) as E2
    by (rewrite zlength_drop by lia; lia).
  rewrite <- (app_nil_l (ztake _ _ ++ _)).
  change 0 with (zlength (@nil Z)) at 1. rewrite copy_blocks_spec by done.
  rewrite !app_nil_l. rewrite <- (app_nil_r (zdrop _ _)).
  assert (subarray 0 (filled s) (current s) = ztake (filled s) (current s)) as Esub.
  { replace (filled s) with (0 + filled s) at 1 by lia. rewrite subarray_spec by lia. by rewrite zdrop_0. }
  rewrite Esub, set_bytes_middle by (rewrite zlength_take by lia; lia).
  by rewrite app_nil_r, bi_content0.
Qed.

(** Giving back what is held leaves the budget as it was. *)
Lemma accounted_release b b' s : accounted b newBuffer b' s -> release (held s) b' = b.
Proof. destruct b, b'. unfold accounted, release. cbn. intros (-> & E & _). f_equal. lia. Qed.

(** *** Grouping headers *)

Lemma push_header_keys name value headers k :
  k ∈ (push_header name value headers).*1 <-> k = name \/ k ∈ headers.*1.
Proof.
  induction headers as [|[k' vs] headers IH]; cbn; [set_solver|].
  unfold js_eqb. case_bool_decide; subst; set_solver.
Qed.
Lemma push_header_NoDup name value headers :
  NoDup headers.*1 -> NoDup (push_header name value headers).*1.
Proof.
  induction headers as [|[k' vs] headers IH]; cbn; [intros; by apply NoDup_singleton|].
  intros [Hk Hnd]%NoDup_cons. unfold js_eqb. case_bool_decide; cbn; apply NoDup_cons; split; auto.
  rewrite push_header_keys. naive_solver.
Qed.
Lemma push_header_assoc name value headers k :
  assoc k (push_header name value headers) =
    if decide (k = name) then Some (default [] (assoc k headers) ++ [value]) else assoc k headers.
Proof.
  induction headers as [|[k' vs] headers IH]; cbn.
  - unfold js_eqb. case_bool_decide; case_decide; done.
  - unfold js_eqb in *. destruct (decide (name = k')) as [<-|Hne].
    + rewrite bool_decide_true by done. cbn. unfold js_eqb. destruct (decide (k = name)) as [->|Hk].
      * rewrite bool_decide_true by done. done.
      * rewrite bool_decide_false by done. done.
    + rewrite bool_decide_false by done. cbn. unfold js_eqb. rewrite IH.
      destruct (decide (k = k')) as [->|Hk].
      * rewrite bool_decide_true, decide_False by done. done.
      * rewrite bool_decide_false by done. done.
Qed.
Lemma group_spec pairs headers :
  NoDup headers.*1 ->
  let grouped := fold_left (fun headers '(name, value) => push_header (to_lower name) value headers) pairs headers in
  NoDup grouped.*1 /\ forall name, assoc name grouped =
    let values := (filter (fun kv => to_lower kv.1 = name) pairs).*2 in
    if decide (values = []) then assoc name headers
    else Some (default [] (assoc name headers) ++ values).
Proof.
  revert headers. induction pairs as [|[n v] pairs IH]; intros headers Hnd; [done|]. cbn [fold_left].
  destruct (IH _ (push_header_NoDup (to_lower n) v _ Hnd)) as [Hnd' Hval]. split; [done|].
  intros name. rewrite Hval, push_header_assoc, filter_cons. cbn [fst].
  destruct (decide (to_lower n = name)) as [->|Hne].
  - rewrite (decide_True (P := name = name)) by done. rewrite fmap_cons. cbn [snd].
    rewrite (decide_False (P := v :: (filter _ pairs).*2 = [])) by (intros ?; discriminate).
    case_decide as E; [by rewrite E|]. cbn. by rewrite <- app_assoc.
  - by rewrite (decide_False (P := name = to_lower n)) by congruence.
Qed.

(** ** Properties *)

(** C13: a buffered response is the body the stream delivered.  For every sequence of
    chunks (the frame reader gives at most [BLOCK] bytes each), every outcome of the
    stream and every load of the shared budget: the budget is what it was before the
    call; a success carries exactly the concatenated chunks, needs a stream that did
    not fail and a completion that is [ok], and reports that completion's
    diagnostics; the only failures are the stream's own error, the completion's own
    error, and BODY_TOO_LARGE when the others' share plus four bytes per body byte
    exceeds the limit. *)
Theorem buffer_correct ex events completion settled b :
  Forall bounded_chunk events -> retained b <= limit b ->
  let '(b', r) := buffer ex events completion settled b in
  b' = b /\
  match r with
  | Ok response =>
      response_body response = body_of events /\ Forall (fun ev => fails ev = None) events /\
      completion = Ok (response_diagnostics response)
  | Throw e =>
      (exists why, Some why ∈ map fails events /\ e = ETransport (buffer_error ex why settled)) \/
      (limit b < retained b + 4 * zlength (body_of events) /\
       e = ETransport (buffer_error ex (too_large (metadata_diagnostics ex)) settled)) \/
      (exists why, completion = Throw why /\ e = ETransport (withReferences why (exchange_references ex)))
  end.
Proof.
  intros Hb Hle. pose proof (collect_spec (metadata_diagnostics ex) events [] b newBuffer newBuffer_inv Hb) as Hc.
  unfold buffer. destruct (collect _ _ _ _) as [[b' s] []]; [| |done].
  - destruct Hc as (Hacc & Hinv & Hok). split; [by eapply accounted_release|].
    rewrite (assemble_spec _ _ Hinv). destruct completion as [d|why]; cbn; [done|].
    right; right. by exists why.
  - destruct Hc as (Hacc & Hwhy). split; [by eapply accounted_release|].
    destruct Hwhy as [Hin|[-> Hex]]; [left; by eexists|right; left; split; [|done]].
    unfold exhausted in Hex. cbn [held newBuffer] in Hex. change (zlength (@nil Z)) with 0 in Hex. lia.
Qed.

Definition demo_exchange : Exchange := {|
  metadata_status := 200; metadata_diagnostics := localDiagnostics; metadata_headers := [];
  exchange_references := None; exchange_usedProxy := false; updateLocal := localDiagnostics |}.

Lemma buffer_correct_witness :
  buffer demo_exchange [BodyChunk [1; 2]; BodyChunk [3]] (Ok localDiagnostics) None {| limit := 12; retained := 0 |} =
    ({| limit := 12; retained := 0 |},
     Ok {| status := 200; response_headers := []; response_body := [1; 2; 3]; elapsed := 0;
           response_diagnostics := localDiagnostics; response_references := None |}) /\
  let '(b', r) := buffer demo_exchange [BodyChunk [1; 2]; BodyChunk [3]] (Ok localDiagnostics) None
                    {| limit := 7; retained := 0 |} in
  b' = {| limit := 7; retained := 0 |} /\
  match r with
  | Ok response =>
      response_body response = body_of [BodyChunk [1; 2]; BodyChunk [3]] /\
      Forall (fun ev => fails ev = None) [BodyChunk [1; 2]; BodyChunk [3]] /\
      Ok localDiagnostics = Ok (E := Ja3ProxyTransportError) (response_diagnostics response)
  | Throw e =>
      (exists why, Some why ∈ map fails [BodyChunk [1; 2]; BodyChunk [3]] /\
        e = ETransport (buffer_error demo_exchange why None)) \/
      (7 < 0 + 4 * zlength (body_of [BodyChunk [1; 2]; BodyChunk [3]]) /\
       e = ETransport (buffer_error demo_exchange (too_large localDiagnostics) None)) \/
      (exists why, Ok localDiagnostics = Throw why /\ e = ETransport (withReferences why None))
  end.
Proof.
  split; [reflexivity|].
  apply (buffer_correct demo_exchange [BodyChunk [1; 2]; BodyChunk [3]] (Ok localDiagnostics) None
    {| limit := 7; retained := 0 |}); [|done].
  repeat constructor; done.
Defined.

(** C14: the budget bounds the memory.  After any number of chunks the budget counts
    exactly what this response reserved on top of the others, never above the limit;
    the reservation covers every block allocated so far together with the final
    assembly of the body, and is at most four bytes per body byte. *)
Theorem buffer_memory diag events b b' s :
  Forall bounded_chunk events -> retained b <= limit b ->
  collect diag events b newBuffer = (b', s, Taken) ->
  limit b' = limit b /\ retained b' = retained b + held s /\ retained b' <= limit b' /\
  zlength (concat (blocks s)) + zlength (current s) + size s <= held s <= 4 * size s.
Proof.
  intros Hb Hle Hrun. pose proof (collect_spec diag events [] b newBuffer newBuffer_inv Hb) as Hc.
  rewrite Hrun in Hc. destruct Hc as ((El & Er & Hr) & Hinv & _). cbn in Er.
  pose proof (held_bounds _ _ Hinv). pose proof (buffer_size _ _ Hinv).
  rewrite concat_blocks by apply Hinv. pose proof (bi_size _ _ Hinv). pose proof (bi_held _ _ Hinv).
  pose proof (bi_filled _ _ Hinv). split_and!; [done|lia|auto| |lia]. lia.
Qed.

Lemma buffer_memory_witness :
  exists b s, collect localDiagnostics [BodyChunk [1; 2]; BodyChunk [3]] {| limit := 100; retained := 40 |} newBuffer =
    (b, s, Taken) /\
  limit b = 100 /\ retained b = 40 + held s /\ retained b <= limit b /\
  zlength (concat (blocks s)) + zlength (current s) + size s <= held s <= 4 * size s.
Proof.
  eexists _, _. split; [reflexivity|].
  apply (buffer_memory localDiagnostics [BodyChunk [1; 2]; BodyChunk [3]] {| limit := 100; retained := 40 |});
    [repeat constructor; done|done|reflexivity].
Defined.

(** The headers of a buffered response.  Every name is listed once, in lower
    case, with exactly the values that the exchange's headers give it under any
    spelling, in their order. *)
Theorem group_headers_spec pairs name :
  NoDup (group_headers pairs).*1 /\
  assoc name (group_headers pairs) =
    (let values := (filter (fun kv => to_lower kv.1 = name) pairs).*2 in
     if decide (values = []) then None else Some values).
Proof.
  cbv zeta. unfold group_headers.
  destruct (group_spec pairs []) as [Hnd Hval]; [by apply NoDup_nil_2|]. split; [done|].
  rewrite Hval. cbn. by case_decide.
Qed.

(** ** Responses buffered at the same time

    A call gives way to others at each read of its body; between two reads it runs
    alone.  All of them use one budget; what a call has received is kept for the proofs. *)

Record Sharer := { b_buffer : Buffer; b_failed : bool; b_received : list Z }.
Record Shared := { shared_buffers : BufferBudget; sharers : gmap nat Sharer }.
Inductive shared_event :=
| SharedBegins (id : nat)
| SharedReads (id : nat) (diag : Ja3Diagnostics) (value : list Z)
| SharedEnds (id : nat).             (* [finally]: after the assembly, or after the failed stream is closed *)

Definition held_by (sharers : gmap nat Sharer) : Z := map_fold (fun _ c total => held (b_buffer c) + total) 0 sharers.
Definition shared_step (s : Shared) (ev : shared_event) : Shared :=
  match ev with
  | SharedBegins id =>
      match sharers s !! id with
      | None => {| shared_buffers := shared_buffers s;
                   sharers := <[id := {| b_buffer := newBuffer; b_failed := false; b_received := [] |}]> (sharers s) |}
      | Some _ => s
      end
  | SharedReads id diag value =>
      match sharers s !! id with
      | Some {| b_buffer := buffer; b_failed := false; b_received := received |} =>
          let '(b, buffer', outcome) := take_chunk diag CHUNK_ROUNDS value 0 (shared_buffers s) buffer in
          {| shared_buffers := b;
             sharers := <[id := {| b_buffer := buffer';
                                 b_failed := match outcome with Taken => false | _ => true end;
                                 b_received := received ++ value |}]> (sharers s) |}
      | _ => s
      end
  | SharedEnds id =>
      match sharers s !! id with
      | Some c => {| shared_buffers := release (held (b_buffer c)) (shared_buffers s); sharers := delete id (sharers s) |}
      | None => s
      end
  end.
Definition run_shared (b : BufferBudget) (events : list shared_event) : Shared :=
  fold_left shared_step events {| shared_buffers := b; sharers := ∅ |}.
Definition bounded_read (ev : shared_event) : Prop :=
  match ev with SharedReads _ _ value => zlength value <= BLOCK | _ => True end.

Lemma held_insert sharers id c :
  sharers !! id = None -> held_by (<[id := c]> sharers) = held (b_buffer c) + held_by sharers.
Proof. intros H. unfold held_by. apply (map_fold_insert_L (fun (_ : nat) c total => held (b_buffer c) + total)); [intros; lia|done]. Qed.
Lemma held_delete sharers id c :
  sharers !! id = Some c -> held_by sharers = held (b_buffer c) + held_by (delete id sharers).
Proof. intros H. unfold held_by. apply (map_fold_delete_L (fun (_ : nat) c total => held (b_buffer c) + total)); [intros; lia|done]. Qed.
Lemma held_update sharers id c c' :
  sharers !! id = Some c -> held_by (<[id := c']> sharers) = held_by sharers - held (b_buffer c) + held (b_buffer c').
Proof.
  intros H. rewrite (held_delete sharers id c H), <- insert_delete_eq, held_insert by apply lookup_delete_eq. lia.
Qed.

Record shared_ok (b : BufferBudget) (s : Shared) : Prop := {
  so_limit : limit (shared_buffers s) = limit b;
  so_retained : retained (shared_buffers s) = retained b + held_by (sharers s);
  so_bound : retained (shared_buffers s) <= limit (shared_buffers s);
  so_calls : forall id c, sharers s !! id = Some c ->
    exists kept, buffer_inv kept (b_buffer c) /\ (b_failed c = false -> kept = b_received c);
}.
Lemma map_insert_lookup (sharers : gmap nat Sharer) id c (P : Sharer -> Prop) :
  P c -> (forall i c', sharers !! i = Some c' -> P c') -> forall i c', <[id := c]> sharers !! i = Some c' -> P c'.
Proof. intros Hc Hall i c' [[_ <-]|[_ ?]]%lookup_insert_Some; [done|by eapply Hall]. Qed.

(** A chunk of one call against the budget that the others have left. *)
Lemma reads_shared b s id diag value buffer received :
  shared_ok b s -> sharers s !! id = Some {| b_buffer := buffer; b_failed := false; b_received := received |} ->
  zlength value <= BLOCK ->
  match take_chunk diag CHUNK_ROUNDS value 0 (shared_buffers s) buffer with
  | (b', buffer', Taken) => accounted (shared_buffers s) buffer b' buffer' /\ buffer_inv (received ++ value) buffer'
  | (b', buffer', Failed e) =>
      e = too_large diag /\ accounted (shared_buffers s) buffer b' buffer' /\ (exists kept, buffer_inv kept buffer') /\
      limit b < retained b + held_by (delete id (sharers s)) + 4 * (zlength received + zlength value)
  | (_, _, NoFuel) => False
  end.
Proof.
  intros H Hid Hv. destruct (so_calls b s H id _ Hid) as (kept & Hinv & Ekept).
  cbn in Hinv, Ekept. rewrite (Ekept eq_refl) in Hinv. pose proof (zlength_nonneg value).
  pose proof (take_chunk_spec diag CHUNK_ROUNDS received value 0 (shared_buffers s) buffer Hinv ltac:(lia) Hv
    ltac:(unfold CHUNK_ROUNDS; lia) ltac:(pose proof (need_bounds buffer); unfold CHUNK_ROUNDS; lia)) as Hc.
  destruct (take_chunk _ _ _ _ _ _) as [[b' buffer'] []]; [by rewrite zdrop_0 in Hc| |done].
  destruct Hc as (He & Hacc & Hkept & Hex). split; [done|]. split; [done|]. split; [done|]. unfold exhausted in Hex.
  pose proof (held_delete _ _ _ Hid) as Hh. cbn in Hh. rewrite (so_limit b s H), (so_retained b s H) in Hex. lia.
Qed.
Lemma shared_step_ok b s ev : shared_ok b s -> bounded_read ev -> shared_ok b (shared_step s ev).
Proof.
  intros H Hev. destruct ev as [id|id diag value|id]; cbn [shared_step].
  - destruct (sharers s !! id) eqn:Eid; [done|]. destruct H. split; cbn; try done.
    + by rewrite held_insert.
    + apply map_insert_lookup; [|done]. exists []. split; [apply newBuffer_inv|done].
  - destruct (sharers s !! id) as [[buffer [] received]|] eqn:Eid; [done| |done].
    pose proof (reads_shared b s id diag value buffer received H Eid Hev) as Hc.
    destruct (take_chunk _ _ _ _ _ _) as [[b' buffer'] outcome].
    assert (accounted (shared_buffers s) buffer b' buffer' /\ exists kept, buffer_inv kept buffer' /\
      (match outcome with Taken => false | _ => true end = false -> kept = received ++ value)) as [(El & Er & Hb) Hi].
    { destruct outcome; [|split; [apply Hc|]; destruct Hc as (_ & _ & [kept ?] & _); by exists kept|done].
      destruct Hc. split; [done|]. by exists (received ++ value). }
    destruct H. split; cbn.
    + congruence.
    + rewrite (held_update _ _ _ _ Eid). cbn. lia.
    + auto.
    + by apply map_insert_lookup.
  - destruct (sharers s !! id) as [c|] eqn:Eid; [|done].
    destruct H. pose proof (held_delete _ _ _ Eid). destruct (so_calls0 id c Eid) as (kept & Hinv & _).
    pose proof (held_bounds _ _ Hinv). pose proof (zlength_nonneg kept). split; cbn; try done; try lia.
    intros i c' [_ ?]%lookup_delete_Some. by eapply so_calls0.
Qed.
Lemma run_shared_ok b events : retained b <= limit b -> Forall bounded_read events -> shared_ok b (run_shared b events).
Proof.
  intros Hb Hall. unfold run_shared.
  assert (shared_ok b {| shared_buffers := b; sharers := ∅ |}) as H.
  { split; cbn; try done. unfold held_by. rewrite map_fold_empty. lia. }
  revert H. generalize {| shared_buffers := b; sharers := ∅ |}. induction Hall as [|ev events Hev _ IH]; intros s H; [done|].
  by apply IH, shared_step_ok.
Qed.

(** Concurrent responses share the budget and nothing else.  However the reads of any
    number of calls interleave, the budget counts exactly what the calls hold, never
    above its limit, and is what it was when none is left; a call that has not failed
    assembles what it has itself received; and a chunk is refused only when what the
    others hold, with four bytes for each byte of this call, exceeds the limit. *)
Theorem shared_budget b events :
  retained b <= limit b -> Forall bounded_read events ->
  let s := run_shared b events in
  limit (shared_buffers s) = limit b /\ retained (shared_buffers s) = retained b + held_by (sharers s) /\
  retained (shared_buffers s) <= limit (shared_buffers s) /\ (sharers s = ∅ -> shared_buffers s = b) /\
  (forall id c, sharers s !! id = Some c -> b_failed c = false ->
     assemble (b_buffer c) = Some (b_received c) /\ held (b_buffer c) <= 4 * zlength (b_received c)) /\
  (forall id diag value c, zlength value <= BLOCK -> sharers s !! id = Some c -> b_failed c = false ->
     match take_chunk diag CHUNK_ROUNDS value 0 (shared_buffers s) (b_buffer c) with
     | (_, _, Taken) => True
     | (_, _, Failed e) =>
         e = too_large diag /\
         limit b < retained b + held_by (delete id (sharers s)) + 4 * (zlength (b_received c) + zlength value)
     | (_, _, NoFuel) => False
     end).
Proof.
  intros Hb Hall s. pose proof (run_shared_ok b events Hb Hall) as H. fold s in H. destruct H as [Hl Hr Hle Hc].
  split_and!; try done.
  - intros E. rewrite E in Hr. unfold held_by in Hr. rewrite map_fold_empty in Hr.
    destruct (shared_buffers s), b. cbn in *. f_equal; lia.
  - intros id c Hid Hf. destruct (Hc id c Hid) as (kept & Hinv & E). rewrite (E Hf) in Hinv.
    split; [by apply assemble_spec|by apply held_bounds].
  - intros id diag value [buffer failed received] Hv Hid Hf. cbn [b_failed b_buffer b_received] in *. subst failed.
    pose proof (reads_shared b s id diag value buffer received ltac:(by split) Hid Hv) as Hread.
    destruct (take_chunk _ _ _ _ _ _) as [[b' buffer'] []]; [done| |done]. by destruct Hread as (? & _ & _ & ?).
Qed.
Lemma shared_budget_witness :
  let events := [SharedBegins 0; SharedBegins 1; SharedReads 0 localDiagnostics [1; 2]; SharedReads 1 localDiagnostics [3]; SharedReads 0 localDiagnostics [4]; SharedEnds 1] in
  let s := run_shared {| limit := 30; retained := 0 |} events in
  sharers s !! 1%nat = None /\ retained (shared_buffers s) <= limit (shared_buffers s) /\ retained (shared_buffers s) = 0 + held_by (sharers s).
Proof.
  intros events s. split; [reflexivity|].
  destruct (shared_budget {| limit := 30; retained := 0 |} events) as (_ & H1 & H2 & _);
    [done|by repeat constructor|by split].
Defined.
