(* ===== verification/Validators.v ===== *)
(** * The compiled wire validators (packages/typescript/src/generated/compiled-validators.js)

    Every [validateN] returns whether it counted no error; its [errors] property is
    read by nothing else and left out.  The compiled code repeats a few blocks, one
    per keyword; each block is a definition, and a validator lists the blocks of its
    properties in the order of the code. *)

From S2P Require Import Prelude Js.

Definition check : Type := jsval -> bool.

(** ** The blocks *)

(** [data && typeof data == "object" && !Array.isArray(data)] *)
Definition is_object (data : jsval) : bool :=
  negb (is_null data) && typeof_object data && negb (is_array data).

(** [typeof data == "number" && (!(data % 1) && !isNaN(data)) && isFinite(data)] *)
Definition integer_test (data : jsval) : bool :=
  match data with
  | JNum n => num_mod1_falsy n && negb (isNaN n) && isFinite n
  | _ => false
  end.
(** [if (typeof data == "number" && isFinite(data))] with its two comparisons. *)
Definition bounds_block (limit : Z) (data : jsval) : bool :=
  match data with
  | JNum n =>
      if isFinite n then
        if num_gt_Z n limit || isNaN n then false
        else if num_lt_Z n 0 || isNaN n then false else true
      else true
  | _ => true
  end.
Definition integer_block (limit : Z) : check := fun data =>
  if negb (integer_test data) then false else bounds_block limit data.
Definition nullable_integer_block (limit : Z) : check := fun data =>
  if negb (integer_test data) && negb (is_null data) then false else bounds_block limit data.
Definition uint : check := integer_block MAX_SAFE_INTEGER.
Definition nullable_uint : check := nullable_integer_block MAX_SAFE_INTEGER.

Definition string_block : check := is_string.
Definition nullable_string_block : check := fun data => is_string data || is_null data.
Definition boolean_block : check := is_boolean.
Definition nullable_boolean_block : check := fun data => is_boolean data || is_null data.
Definition enum_block (values : list jsstr) : check := fun data =>
  if negb (is_string data) then false else existsb (is_str data) values.
(** Both tests run, and each may count an error. *)
Definition const_block (value : jsstr) : check := fun data => is_string data && is_str data value.

Definition array_block (item : check) : check := fun data =>
  match data with JArray l => forallb item l | _ => false end.
(** The header pair: [maxItems], [minItems], then the items that are there. *)
Definition pair_block : check := fun data =>
  match data with
  | JArray l =>
      if 2 <? zlength l then false
      else if zlength l <? 2 then false
      else
        match l with
        | [] => true
        | d0 :: l' => if negb (is_string d0) then false
                      else match l' with [] => true | d1 :: _ => is_string d1 end
        end
  | _ => false
  end.
Definition headers_block : check := array_block pair_block.

(** [anyOf] with a null alternative, tried second. *)
Definition or_null (c : check) : check := fun data => if c data then true else is_null data.

(** [oneOf]: a second match stops the search with [valid = false]. *)
Fixpoint one_of_from (valid : bool) (cs : list check) (data : jsval) : bool :=
  match cs with
  | [] => valid
  | c :: cs => if c data && valid then false else one_of_from (c data || valid) cs data
  end.
Definition one_of_block (cs : list check) : check := one_of_from false cs.

(** [data.a === void 0 || ...] for the required properties. *)
Definition missing (keys : list jsstr) (data : jsval) : bool :=
  existsb (fun k => is_undefined (get data k)) keys.
(** The [if (valid0)] chain over the properties that are there. *)
Fixpoint properties_block (ps : list (jsstr * check)) (data : jsval) : bool :=
  match ps with
  | [] => true
  | (k, c) :: ps =>
      let valid0 := if negb (is_undefined (get data k)) then c (get data k) else true in
      if valid0 then properties_block ps data else false
  end.
Definition object_block (required : list jsstr) (ps : list (jsstr * check)) : check := fun data =>
  if is_object data then
    if missing required data then false else properties_block ps data
  else false.
(** The same with [additionalProperties: false]: every key is a listed property. *)
Definition closed_object_block (required : list jsstr) (ps : list (jsstr * check)) : check := fun data =>
  if is_object data then
    if missing required data then false
    else if negb (forallb (js_includes ps.*1) (object_keys data)) then false
    else properties_block ps data
  else false.

Local Open Scope js_scope.

(** ** Diagnostics: validate14, validate16, validate18 and validate41 are the same code *)

Definition diagnostics_required : list jsstr :=
  ["requestId"; "attempt"; "traceId"; "spanId"; "phase"; "delivery"; "queueMs"; "headersMs";
   "bodyMs"; "totalMs"; "requestBytes"; "responseBytes"; "tlsProfile"].
Definition diagnostics_head : list (jsstr * check) :=
  [("attempt", uint); ("bodyMs", nullable_uint); ("clientReused", nullable_boolean_block);
   ("contextId", nullable_string_block); ("cookieRevision", nullable_uint)].
Definition diagnostics_middle : list (jsstr * check) :=
  [("delivery", enum_block ["not_started"; "possibly_sent"; "response_started"]);
   ("headersMs", nullable_uint);
   ("phase", enum_block ["queued"; "preparing"; "upstream"; "body"; "complete"]);
   ("queueMs", uint); ("requestBytes", uint)].
Definition diagnostics_tail : list (jsstr * check) :=
  [("requestId", string_block); ("responseBytes", uint); ("spanId", string_block);
   ("tlsProfile", string_block); ("totalMs", uint); ("traceId", string_block)].

Definition validate16 : check :=
  object_block diagnostics_required (diagnostics_head ++ diagnostics_middle ++ diagnostics_tail).
Definition validate14 : check :=
  object_block diagnostics_required (diagnostics_head ++ diagnostics_middle ++ diagnostics_tail).
Definition validate18 : check :=
  object_block diagnostics_required (diagnostics_head ++ diagnostics_middle ++ diagnostics_tail).
Definition validate41 : check :=
  object_block diagnostics_required (diagnostics_head ++ diagnostics_middle ++ diagnostics_tail).

(** ** Connection specifications: validate11 and validate27 *)

Definition egress_direct : check := closed_object_block ["mode"] [("mode", const_block "direct")].
Definition egress_proxy : check :=
  closed_object_block ["mode"; "url"] [("mode", const_block "proxy"); ("url", string_block)].
Definition egress_block : check := one_of_block [egress_direct; egress_proxy].
Definition identity_block : check :=
  closed_object_block ["tlsProfile"; "emulateHeaders"]
    [("emulateHeaders", boolean_block); ("tlsProfile", string_block);
     ("userAgent", nullable_string_block)].
Definition validate11 : check :=
  closed_object_block ["egress"; "identity"] [("egress", egress_block); ("identity", identity_block)].
Definition validate27 : check :=
  closed_object_block ["egress"; "identity"] [("egress", egress_block); ("identity", identity_block)].

(** ** Requests and responses *)

Definition request_head : list (jsstr * check) :=
  [("attempt", uint); ("bodyLength", nullable_uint); ("connection", or_null validate11);
   ("contextId", nullable_string_block); ("hasBody", boolean_block)].
Definition request_middle : list (jsstr * check) :=
  [("headerOrder", one_of_block [const_block "caller"; const_block "browser"]);
   ("headers", headers_block)].
Definition request_tail : list (jsstr * check) :=
  [("maxResponseBytes", uint); ("method", string_block); ("partition", string_block);
   ("requestId", string_block); ("timeoutMs", uint); ("url", string_block)].
Definition validate10 : check :=
  closed_object_block
    ["requestId"; "partition"; "url"; "method"; "headers"; "hasBody"; "timeoutMs";
     "maxResponseBytes"; "attempt"]
    (request_head ++ request_middle ++ request_tail).

Definition validate13 : check :=
  object_block ["requestId"; "status"; "headers"; "diagnostics"]
    [("cookieRevision", nullable_uint); ("diagnostics", validate14); ("headers", headers_block);
     ("requestId", string_block); ("status", integer_block 65535)].

Definition error_codes : list jsstr :=
  ["UNAUTHORIZED"; "INVALID_REQUEST"; "UNSUPPORTED_CAPABILITY"; "INVALID_PROFILE"; "EGRESS_REQUIRED";
   "SSRF_BLOCKED"; "BODY_TOO_LARGE"; "BUSY"; "TIMEOUT"; "CANCELLED"; "DNS_ERROR"; "PROXY_ERROR";
   "TLS_ERROR"; "CONNECT_ERROR"; "PROTOCOL_ERROR"; "CONTEXT_NOT_FOUND"; "CONTEXT_CONFLICT";
   "CONTEXT_LIMIT"; "COOKIE_LIMIT"; "DUPLICATE_REQUEST"; "UNKNOWN"].
Definition validate17 : check :=
  object_block ["code"; "message"]
    [("code", enum_block error_codes); ("diagnostics", or_null validate18); ("message", string_block)].
Definition validate43 : check :=
  object_block ["code"; "message"]
    [("code", enum_block error_codes); ("diagnostics", or_null validate41); ("message", string_block)].
Definition validate40 : check :=
  object_block ["state"; "diagnostics"]
    [("diagnostics", validate41); ("error", or_null validate43);
     ("state", enum_block ["queued"; "active"; "complete"; "failed"])].

(** ** Contexts and cookies *)

Definition validate20 : check :=
  object_block ["contextId"; "partition"; "expiresAtMs"; "revision"; "cookieMode"; "identity"]
    [("contextId", string_block); ("cookieMode", enum_block ["external"; "managed"]);
     ("expiresAtMs", uint); ("identity", identity_block); ("partition", string_block);
     ("revision", uint)].

(** validate21, validate23, validate31 and validate35 are the same code. *)
Definition cookie_required : list jsstr :=
  ["name"; "value"; "domain"; "path"; "secure"; "httpOnly"; "hostOnly"; "partitioned"].
Definition cookie_properties : list (jsstr * check) :=
  [("domain", string_block); ("expiresAtMs", nullable_uint); ("hostOnly", boolean_block);
   ("httpOnly", boolean_block); ("name", string_block); ("partitioned", boolean_block);
   ("path", string_block); ("sameSite", or_null (enum_block ["Strict"; "Lax"; "None"]));
   ("secure", boolean_block); ("value", string_block)].
Definition validate21 : check := closed_object_block cookie_required cookie_properties.
Definition validate23 : check := closed_object_block cookie_required cookie_properties.
Definition validate31 : check := closed_object_block cookie_required cookie_properties.
Definition validate35 : check := closed_object_block cookie_required cookie_properties.

Definition validate22 : check :=
  closed_object_block ["partitionKey"; "cookies"]
    [("cookies", array_block validate23); ("partitionKey", string_block)].
Definition validate30 : check :=
  closed_object_block ["partitionKey"; "cookies"]
    [("cookies", array_block validate31); ("partitionKey", string_block)].
Definition validate37 : check :=
  closed_object_block ["partitionKey"; "cookies"]
    [("cookies", array_block validate35); ("partitionKey", string_block)].

Definition validate26 : check :=
  closed_object_block ["partition"; "connection"; "cookieMode"; "allowedOrigins"]
    [("allowedOrigins", array_block string_block); ("connection", validate27);
     ("cookieMode", enum_block ["external"; "managed"]); ("partition", string_block);
     ("ttlMs", nullable_uint)].

Definition operation_select : check :=
  closed_object_block ["operation"; "partition"; "url"]
    [("operation", const_block "select"); ("partition", string_block); ("url", string_block)].
Definition operation_set : check :=
  closed_object_block ["operation"; "partition"; "url"; "cookies"; "expectedRevision"]
    [("cookies", array_block string_block); ("expectedRevision", uint);
     ("operation", const_block "set"); ("partition", string_block); ("url", string_block)].
Definition operation_export : check :=
  closed_object_block ["operation"; "partition"]
    [("operation", const_block "export"); ("partition", string_block)].
Definition operation_import : check :=
  closed_object_block ["operation"; "partition"; "snapshot"; "expectedRevision"]
    [("expectedRevision", uint); ("operation", const_block "import"); ("partition", string_block);
     ("snapshot", validate30)].
Definition validate29 : check :=
  one_of_block [operation_select; operation_set; operation_export; operation_import].

Definition validate34 : check :=
  object_block ["revision"]
    [("cookies", fun data => if negb (is_array data) && negb (is_null data) then false
                             else match data with JArray l => forallb validate35 l | _ => true end);
     ("revision", uint); ("snapshot", or_null validate37)].

(** ** Capabilities *)

Definition framing_block : check :=
  object_block ["contentType"; "maxMetadataBytes"; "maxDataBytes"; "maxUploadFrames"]
    [("contentType", string_block); ("maxDataBytes", uint); ("maxMetadataBytes", uint);
     ("maxUploadFrames", uint)].
Definition descriptor_block : check :=
  object_block ["tlsProfile"; "headers"] [("headers", headers_block); ("tlsProfile", string_block)].

Definition limits_required : list jsstr :=
  ["maxRequestBytes"; "maxResponseBytes"; "maxTimeoutMs"; "maxConcurrent"; "maxConcurrentPerPartition";
   "maxQueued"; "maxQueuedPerPartition"; "maxEnvelopes"; "envelopeTimeoutMs"; "maxControlBytes";
   "maxHeaderBytes"; "maxHeaders"; "maxContexts"; "maxContextsPerPartition"; "contextIdleTtlMs";
   "contextMaxIdleTtlMs"; "contextMaxAgeMs"; "maxCookies"; "maxCookieBytes"; "maxCookieSize";
   "maxAllowedOrigins"; "registryCapacity"; "registryTtlMs"].
Definition limits_contexts : list (jsstr * check) :=
  [("contextIdleTtlMs", uint); ("contextMaxAgeMs", uint); ("contextMaxIdleTtlMs", uint);
   ("envelopeTimeoutMs", uint); ("maxAllowedOrigins", uint)].
Definition limits_concurrency : list (jsstr * check) :=
  [("maxConcurrent", uint); ("maxConcurrentPerPartition", uint); ("maxContexts", uint);
   ("maxContextsPerPartition", uint); ("maxControlBytes", uint)].
Definition limits_cookies : list (jsstr * check) :=
  [("maxCookieBytes", uint); ("maxCookieSize", uint); ("maxCookies", uint); ("maxEnvelopes", uint)].
Definition limits_headers : list (jsstr * check) :=
  [("maxHeaderBytes", uint); ("maxHeaders", uint); ("maxQueued", uint); ("maxQueuedPerPartition", uint)].
Definition limits_bodies : list (jsstr * check) :=
  [("maxRequestBytes", uint); ("maxResponseBytes", uint); ("maxTimeoutMs", uint);
   ("registryCapacity", uint); ("registryTtlMs", uint)].
Definition limits_block : check :=
  object_block limits_required
    (limits_contexts ++ limits_concurrency ++ limits_cookies ++ limits_headers ++ limits_bodies).

Definition modes_block : check :=
  object_block ["egress"; "cookies"; "stream"; "cancel"]
    [("cancel", array_block string_block); ("cookies", array_block string_block);
     ("egress", array_block string_block); ("stream", array_block string_block)].
(** [for (const key0 in data46)]: every value is a string. *)
Definition aliases_block : check := fun data =>
  if is_object data then
    forallb (fun k => is_string (get data k)) (object_keys data)
  else false.

Definition validate25 : check :=
  object_block
    ["service"; "build"; "profiles"; "headerDescriptors"; "profileAliases"; "framing"; "limits"; "modes"]
    [("build", string_block); ("framing", framing_block); ("headerDescriptors", array_block descriptor_block);
     ("limits", limits_block); ("modes", modes_block); ("profileAliases", aliases_block);
     ("profiles", array_block string_block); ("service", enum_block ["ja3proxy"])].

(** ** validateWire *)

Inductive WireContractName :=
| requestMetadata | responseMetadata | diagnostics | transportError | contextInfo | cookieRecord
| cookieSnapshot | capabilities | createContext | cookieOperation | cookieReply | requestStatus.

Definition validateWire (name : WireContractName) (value : jsval) : bool :=
  match name with
  | requestMetadata => validate10 value
  | responseMetadata => validate13 value
  | diagnostics => validate16 value
  | transportError => validate17 value
  | contextInfo => validate20 value
  | cookieRecord => validate21 value
  | cookieSnapshot => validate22 value
  | capabilities => validate25 value
  | createContext => validate26 value
  | cookieOperation => validate29 value
  | cookieReply => validate34 value
  | requestStatus => validate40 value
  end.
