(* ===== verification/Schema.v ===== *)
(** * The wire contracts (contracts/schemas) and what the compiled validators decide

    The JSON schemas of the service, the meaning of the draft-07 keywords they use,
    the narrowing of integers that packages/typescript/scripts/generate-contracts.mjs
    applies before it compiles them, and the equivalence of the compiled validators
    with the narrowed schemas on every JSON document. *)

From S2P Require Import Prelude Js Validators.

(** ** Schemas *)

Inductive jtype := TyObject | TyArray | TyString | TyBoolean | TyInteger | TyNull.

#[export] Instance jtype_eq_dec : EqDecision jtype.
Proof. solve_decision. Defined.

(** The keyword combinations of the contracts; a [$ref] is the definition it names. *)
Inductive schema :=
| SType (types : list jtype) (minimum maximum : option Z)
| SEnum (values : list jsstr)                         (* "type": "string" *)
| SConst (value : jsstr)                              (* "type": "string" *)
| SObject (closed : bool) (properties : list (jsstr * schema)) (required : list jsstr)
| SMap (values : schema)                              (* "additionalProperties": values *)
| SArray (nullable : bool) (items : schema)
| STuple (items : list schema)                        (* with minItems and maxItems *)
| SAnyOf (alternatives : list schema)
| SOneOf (alternatives : list schema)
| SAllOf (alternatives : list schema).

(** ** Their meaning *)

Definition is_json_object (v : jsval) : bool := match v with JObject _ => true | _ => false end.
Definition has_type (v : jsval) (t : jtype) : bool :=
  match t, v with
  | TyObject, JObject _ | TyArray, JArray _ | TyString, JStr _ | TyBoolean, JBool _
  | TyNull, JNull => true
  | TyInteger, JNum n => isInteger n
  | _, _ => false
  end.
Definition in_bounds (minimum maximum : option Z) (v : jsval) : bool :=
  match v with
  | JNum n =>
      match minimum with Some lo => negb (num_lt_Z n lo) | None => true end &&
      match maximum with Some hi => negb (num_gt_Z n hi) | None => true end
  | _ => true
  end.

Fixpoint valid (s : schema) (v : jsval) : bool :=
  match s with
  | SType types minimum maximum => existsb (has_type v) types && in_bounds minimum maximum v
  | SEnum values => match v with JStr t => bool_decide (t ∈ values) | _ => false end
  | SConst value => match v with JStr t => bool_decide (t = value) | _ => false end
  | SObject closed properties required =>
      is_json_object v && forallb (has_key v) required &&
      (negb closed || forallb (fun k => bool_decide (k ∈ properties.*1)) (object_keys v)) &&
      forallb (fun '(k, s) => negb (has_key v k) || valid s (get v k)) properties
  | SMap values =>
      is_json_object v && forallb (fun k => valid values (get v k)) (object_keys v)
  | SArray nullable items =>
      match v with JArray l => forallb (valid items) l | JNull => nullable | _ => false end
  | STuple items =>
      match v with
      | JArray l => (zlength l =? zlength items) &&
          (fix each (items : list schema) (l : list jsval) : bool :=
             match items, l with
             | s :: items, x :: l => valid s x && each items l
             | _, _ => true
             end) items l
      | _ => false
      end
  | SAnyOf alternatives => existsb (fun s => valid s v) alternatives
  | SOneOf alternatives => (length (List.filter (fun s => valid s v) alternatives) =? 1)%nat
  | SAllOf alternatives => forallb (fun s => valid s v) alternatives
  end.

(** ** Safe integers

    [constrainIntegers] narrows each integer type to what a double represents. *)
Fixpoint constrainIntegers (s : schema) : schema :=
  match s with
  | SType types minimum maximum =>
      if decide (TyInteger ∈ types) then
        SType types
          (Some (Z.max (default (- MAX_SAFE_INTEGER) minimum) (- MAX_SAFE_INTEGER)))
          (Some (Z.min (default MAX_SAFE_INTEGER maximum) MAX_SAFE_INTEGER))
      else s
  | SEnum _ | SConst _ => s
  | SObject closed properties required =>
      SObject closed (map (fun '(k, s) => (k, constrainIntegers s)) properties) required
  | SMap values => SMap (constrainIntegers values)
  | SArray nullable items => SArray nullable (constrainIntegers items)
  | STuple items => STuple (map constrainIntegers items)
  | SAnyOf alternatives => SAnyOf (map constrainIntegers alternatives)
  | SOneOf alternatives => SOneOf (map constrainIntegers alternatives)
  | SAllOf alternatives => SAllOf (map constrainIntegers alternatives)
  end.

(** ** The contracts *)

Local Open Scope js_scope.

(** *** requestMetadata.schema.json *)

Definition requestMetadata_BrowserIdentity : schema :=
  SObject true
    [("emulateHeaders", SType [TyBoolean] None None);
     ("tlsProfile", SType [TyString] None None);
     ("userAgent", SType [TyString; TyNull] None None)]
    ["tlsProfile"; "emulateHeaders"].
Definition requestMetadata_Egress : schema :=
  SOneOf
    [SObject true
      [("mode", SConst "direct")]
      ["mode"];
     SObject true
      [("mode", SConst "proxy");
       ("url", SType [TyString] None None)]
      ["mode"; "url"]].
Definition requestMetadata_ConnectionSpec : schema :=
  SObject true
    [("egress", requestMetadata_Egress);
     ("identity", requestMetadata_BrowserIdentity)]
    ["egress"; "identity"].
Definition requestMetadata_HeaderOrder : schema :=
  SOneOf
    [SConst "caller";
     SConst "browser"].
Definition requestMetadata_schema : schema :=
  SObject true
    [("attempt", SType [TyInteger] (Some 0) None);
     ("bodyLength", SType [TyInteger; TyNull] (Some 0) None);
     ("connection", SAnyOf [requestMetadata_ConnectionSpec; SType [TyNull] None None]);
     ("contextId", SType [TyString; TyNull] None None);
     ("hasBody", SType [TyBoolean] None None);
     ("headerOrder", SAllOf [requestMetadata_HeaderOrder]);
     ("headers", SArray false (STuple [SType [TyString] None None; SType [TyString] None None]));
     ("maxResponseBytes", SType [TyInteger] (Some 0) None);
     ("method", SType [TyString] None None);
     ("partition", SType [TyString] None None);
     ("requestId", SType [TyString] None None);
     ("timeoutMs", SType [TyInteger] (Some 0) None);
     ("url", SType [TyString] None None)]
    ["requestId"; "partition"; "url"; "method"; "headers"; "hasBody"; "timeoutMs"; "maxResponseBytes"; "attempt"].

(** *** responseMetadata.schema.json *)

Definition responseMetadata_Delivery : schema :=
  SEnum ["not_started"; "possibly_sent"; "response_started"].
Definition responseMetadata_Phase : schema :=
  SEnum ["queued"; "preparing"; "upstream"; "body"; "complete"].
Definition responseMetadata_Diagnostics : schema :=
  SObject false
    [("attempt", SType [TyInteger] (Some 0) None);
     ("bodyMs", SType [TyInteger; TyNull] (Some 0) None);
     ("clientReused", SType [TyBoolean; TyNull] None None);
     ("contextId", SType [TyString; TyNull] None None);
     ("cookieRevision", SType [TyInteger; TyNull] (Some 0) None);
     ("delivery", responseMetadata_Delivery);
     ("headersMs", SType [TyInteger; TyNull] (Some 0) None);
     ("phase", responseMetadata_Phase);
     ("queueMs", SType [TyInteger] (Some 0) None);
     ("requestBytes", SType [TyInteger] (Some 0) None);
     ("requestId", SType [TyString] None None);
     ("responseBytes", SType [TyInteger] (Some 0) None);
     ("spanId", SType [TyString] None None);
     ("tlsProfile", SType [TyString] None None);
     ("totalMs", SType [TyInteger] (Some 0) None);
     ("traceId", SType [TyString] None None)]
    ["requestId"; "attempt"; "traceId"; "spanId"; "phase"; "delivery"; "queueMs"; "headersMs"; "bodyMs"; "totalMs"; "requestBytes"; "responseBytes"; "tlsProfile"].
Definition responseMetadata_schema : schema :=
  SObject false
    [("cookieRevision", SType [TyInteger; TyNull] (Some 0) None);
     ("diagnostics", responseMetadata_Diagnostics);
     ("headers", SArray false (STuple [SType [TyString] None None; SType [TyString] None None]));
     ("requestId", SType [TyString] None None);
     ("status", SType [TyInteger] (Some 0) (Some 65535))]
    ["requestId"; "status"; "headers"; "diagnostics"].

(** *** diagnostics.schema.json *)

Definition diagnostics_Delivery : schema :=
  SEnum ["not_started"; "possibly_sent"; "response_started"].
Definition diagnostics_Phase : schema :=
  SEnum ["queued"; "preparing"; "upstream"; "body"; "complete"].
Definition diagnostics_schema : schema :=
  SObject false
    [("attempt", SType [TyInteger] (Some 0) None);
     ("bodyMs", SType [TyInteger; TyNull] (Some 0) None);
     ("clientReused", SType [TyBoolean; TyNull] None None);
     ("contextId", SType [TyString; TyNull] None None);
     ("cookieRevision", SType [TyInteger; TyNull] (Some 0) None);
     ("delivery", diagnostics_Delivery);
     ("headersMs", SType [TyInteger; TyNull] (Some 0) None);
     ("phase", diagnostics_Phase);
     ("queueMs", SType [TyInteger] (Some 0) None);
     ("requestBytes", SType [TyInteger] (Some 0) None);
     ("requestId", SType [TyString] None None);
     ("responseBytes", SType [TyInteger] (Some 0) None);
     ("spanId", SType [TyString] None None);
     ("tlsProfile", SType [TyString] None None);
     ("totalMs", SType [TyInteger] (Some 0) None);
     ("traceId", SType [TyString] None None)]
    ["requestId"; "attempt"; "traceId"; "spanId"; "phase"; "delivery"; "queueMs"; "headersMs"; "bodyMs"; "totalMs"; "requestBytes"; "responseBytes"; "tlsProfile"].

(** *** transportError.schema.json *)

Definition transportError_Delivery : schema :=
  SEnum ["not_started"; "possibly_sent"; "response_started"].
Definition transportError_Phase : schema :=
  SEnum ["queued"; "preparing"; "upstream"; "body"; "complete"].
Definition transportError_Diagnostics : schema :=
  SObject false
    [("attempt", SType [TyInteger] (Some 0) None);
     ("bodyMs", SType [TyInteger; TyNull] (Some 0) None);
     ("clientReused", SType [TyBoolean; TyNull] None None);
     ("contextId", SType [TyString; TyNull] None None);
     ("cookieRevision", SType [TyInteger; TyNull] (Some 0) None);
     ("delivery", transportError_Delivery);
     ("headersMs", SType [TyInteger; TyNull] (Some 0) None);
     ("phase", transportError_Phase);
     ("queueMs", SType [TyInteger] (Some 0) None);
     ("requestBytes", SType [TyInteger] (Some 0) None);
     ("requestId", SType [TyString] None None);
     ("responseBytes", SType [TyInteger] (Some 0) None);
     ("spanId", SType [TyString] None None);
     ("tlsProfile", SType [TyString] None None);
     ("totalMs", SType [TyInteger] (Some 0) None);
     ("traceId", SType [TyString] None None)]
    ["requestId"; "attempt"; "traceId"; "spanId"; "phase"; "delivery"; "queueMs"; "headersMs"; "bodyMs"; "totalMs"; "requestBytes"; "responseBytes"; "tlsProfile"].
Definition transportError_ErrorCode : schema :=
  SEnum ["UNAUTHORIZED"; "INVALID_REQUEST"; "UNSUPPORTED_CAPABILITY"; "INVALID_PROFILE"; "EGRESS_REQUIRED"; "SSRF_BLOCKED"; "BODY_TOO_LARGE"; "BUSY"; "TIMEOUT"; "CANCELLED"; "DNS_ERROR"; "PROXY_ERROR"; "TLS_ERROR"; "CONNECT_ERROR"; "PROTOCOL_ERROR"; "CONTEXT_NOT_FOUND"; "CONTEXT_CONFLICT"; "CONTEXT_LIMIT"; "COOKIE_LIMIT"; "DUPLICATE_REQUEST"; "UNKNOWN"].
Definition transportError_schema : schema :=
  SObject false
    [("code", transportError_ErrorCode);
     ("diagnostics", SAnyOf [transportError_Diagnostics; SType [TyNull] None None]);
     ("message", SType [TyString] None None)]
    ["code"; "message"].

(** *** contextInfo.schema.json *)

Definition contextInfo_BrowserIdentity : schema :=
  SObject true
    [("emulateHeaders", SType [TyBoolean] None None);
     ("tlsProfile", SType [TyString] None None);
     ("userAgent", SType [TyString; TyNull] None None)]
    ["tlsProfile"; "emulateHeaders"].
Definition contextInfo_CookieMode : schema :=
  SEnum ["external"; "managed"].
Definition contextInfo_schema : schema :=
  SObject false
    [("contextId", SType [TyString] None None);
     ("cookieMode", contextInfo_CookieMode);
     ("expiresAtMs", SType [TyInteger] (Some 0) None);
     ("identity", contextInfo_BrowserIdentity);
     ("partition", SType [TyString] None None);
     ("revision", SType [TyInteger] (Some 0) None)]
    ["contextId"; "partition"; "expiresAtMs"; "revision"; "cookieMode"; "identity"].

(** *** cookieRecord.schema.json *)

Definition cookieRecord_CookieSameSite : schema :=
  SEnum ["Strict"; "Lax"; "None"].
Definition cookieRecord_schema : schema :=
  SObject true
    [("domain", SType [TyString] None None);
     ("expiresAtMs", SType [TyInteger; TyNull] (Some 0) None);
     ("hostOnly", SType [TyBoolean] None None);
     ("httpOnly", SType [TyBoolean] None None);
     ("name", SType [TyString] None None);
     ("partitioned", SType [TyBoolean] None None);
     ("path", SType [TyString] None None);
     ("sameSite", SAnyOf [cookieRecord_CookieSameSite; SType [TyNull] None None]);
     ("secure", SType [TyBoolean] None None);
     ("value", SType [TyString] None None)]
    ["name"; "value"; "domain"; "path"; "secure"; "httpOnly"; "hostOnly"; "partitioned"].

(** *** cookieSnapshot.schema.json *)

Definition cookieSnapshot_CookieSameSite : schema :=
  SEnum ["Strict"; "Lax"; "None"].
Definition cookieSnapshot_CookieRecord : schema :=
  SObject true
    [("domain", SType [TyString] None None);
     ("expiresAtMs", SType [TyInteger; TyNull] (Some 0) None);
     ("hostOnly", SType [TyBoolean] None None);
     ("httpOnly", SType [TyBoolean] None None);
     ("name", SType [TyString] None None);
     ("partitioned", SType [TyBoolean] None None);
     ("path", SType [TyString] None None);
     ("sameSite", SAnyOf [cookieSnapshot_CookieSameSite; SType [TyNull] None None]);
     ("secure", SType [TyBoolean] None None);
     ("value", SType [TyString] None None)]
    ["name"; "value"; "domain"; "path"; "secure"; "httpOnly"; "hostOnly"; "partitioned"].
Definition cookieSnapshot_schema : schema :=
  SObject true
    [("cookies", SArray false (cookieSnapshot_CookieRecord));
     ("partitionKey", SType [TyString] None None)]
    ["partitionKey"; "cookies"].

(** *** capabilities.schema.json *)

Definition capabilities_CapabilityLimits : schema :=
  SObject false
    [("contextIdleTtlMs", SType [TyInteger] (Some 0) None);
     ("contextMaxAgeMs", SType [TyInteger] (Some 0) None);
     ("contextMaxIdleTtlMs", SType [TyInteger] (Some 0) None);
     ("envelopeTimeoutMs", SType [TyInteger] (Some 0) None);
     ("maxAllowedOrigins", SType [TyInteger] (Some 0) None);
     ("maxConcurrent", SType [TyInteger] (Some 0) None);
     ("maxConcurrentPerPartition", SType [TyInteger] (Some 0) None);
     ("maxContexts", SType [TyInteger] (Some 0) None);
     ("maxContextsPerPartition", SType [TyInteger] (Some 0) None);
     ("maxControlBytes", SType [TyInteger] (Some 0) None);
     ("maxCookieBytes", SType [TyInteger] (Some 0) None);
     ("maxCookieSize", SType [TyInteger] (Some 0) None);
     ("maxCookies", SType [TyInteger] (Some 0) None);
     ("maxEnvelopes", SType [TyInteger] (Some 0) None);
     ("maxHeaderBytes", SType [TyInteger] (Some 0) None);
     ("maxHeaders", SType [TyInteger] (Some 0) None);
     ("maxQueued", SType [TyInteger] (Some 0) None);
     ("maxQueuedPerPartition", SType [TyInteger] (Some 0) None);
     ("maxRequestBytes", SType [TyInteger] (Some 0) None);
     ("maxResponseBytes", SType [TyInteger] (Some 0) None);
     ("maxTimeoutMs", SType [TyInteger] (Some 0) None);
     ("registryCapacity", SType [TyInteger] (Some 0) None);
     ("registryTtlMs", SType [TyInteger] (Some 0) None)]
    ["maxRequestBytes"; "maxResponseBytes"; "maxTimeoutMs"; "maxConcurrent"; "maxConcurrentPerPartition"; "maxQueued"; "maxQueuedPerPartition"; "maxEnvelopes"; "envelopeTimeoutMs"; "maxControlBytes"; "maxHeaderBytes"; "maxHeaders"; "maxContexts"; "maxContextsPerPartition"; "contextIdleTtlMs"; "contextMaxIdleTtlMs"; "contextMaxAgeMs"; "maxCookies"; "maxCookieBytes"; "maxCookieSize"; "maxAllowedOrigins"; "registryCapacity"; "registryTtlMs"].
Definition capabilities_CapabilityModes : schema :=
  SObject false
    [("cancel", SArray false (SType [TyString] None None));
     ("cookies", SArray false (SType [TyString] None None));
     ("egress", SArray false (SType [TyString] None None));
     ("stream", SArray false (SType [TyString] None None))]
    ["egress"; "cookies"; "stream"; "cancel"].
Definition capabilities_FramingCapabilities : schema :=
  SObject false
    [("contentType", SType [TyString] None None);
     ("maxDataBytes", SType [TyInteger] (Some 0) None);
     ("maxMetadataBytes", SType [TyInteger] (Some 0) None);
     ("maxUploadFrames", SType [TyInteger] (Some 0) None)]
    ["contentType"; "maxMetadataBytes"; "maxDataBytes"; "maxUploadFrames"].
Definition capabilities_HeaderDescriptor : schema :=
  SObject false
    [("headers", SArray false (STuple [SType [TyString] None None; SType [TyString] None None]));
     ("tlsProfile", SType [TyString] None None)]
    ["tlsProfile"; "headers"].
Definition capabilities_ServiceName : schema :=
  SEnum ["ja3proxy"].
Definition capabilities_schema : schema :=
  SObject false
    [("build", SType [TyString] None None);
     ("framing", capabilities_FramingCapabilities);
     ("headerDescriptors", SArray false (capabilities_HeaderDescriptor));
     ("limits", capabilities_CapabilityLimits);
     ("modes", capabilities_CapabilityModes);
     ("profileAliases", SMap (SType [TyString] None None));
     ("profiles", SArray false (SType [TyString] None None));
     ("service", capabilities_ServiceName)]
    ["service"; "build"; "profiles"; "headerDescriptors"; "profileAliases"; "framing"; "limits"; "modes"].

(** *** createContext.schema.json *)

Definition createContext_BrowserIdentity : schema :=
  SObject true
    [("emulateHeaders", SType [TyBoolean] None None);
     ("tlsProfile", SType [TyString] None None);
     ("userAgent", SType [TyString; TyNull] None None)]
    ["tlsProfile"; "emulateHeaders"].
Definition createContext_Egress : schema :=
  SOneOf
    [SObject true
      [("mode", SConst "direct")]
      ["mode"];
     SObject true
      [("mode", SConst "proxy");
       ("url", SType [TyString] None None)]
      ["mode"; "url"]].
Definition createContext_ConnectionSpec : schema :=
  SObject true
    [("egress", createContext_Egress);
     ("identity", createContext_BrowserIdentity)]
    ["egress"; "identity"].
Definition createContext_CookieMode : schema :=
  SEnum ["external"; "managed"].
Definition createContext_schema : schema :=
  SObject true
    [("allowedOrigins", SArray false (SType [TyString] None None));
     ("connection", createContext_ConnectionSpec);
     ("cookieMode", createContext_CookieMode);
     ("partition", SType [TyString] None None);
     ("ttlMs", SType [TyInteger; TyNull] (Some 0) None)]
    ["partition"; "connection"; "cookieMode"; "allowedOrigins"].

(** *** cookieOperation.schema.json *)

Definition cookieOperation_CookieSameSite : schema :=
  SEnum ["Strict"; "Lax"; "None"].
Definition cookieOperation_CookieRecord : schema :=
  SObject true
    [("domain", SType [TyString] None None);
     ("expiresAtMs", SType [TyInteger; TyNull] (Some 0) None);
     ("hostOnly", SType [TyBoolean] None None);
     ("httpOnly", SType [TyBoolean] None None);
     ("name", SType [TyString] None None);
     ("partitioned", SType [TyBoolean] None None);
     ("path", SType [TyString] None None);
     ("sameSite", SAnyOf [cookieOperation_CookieSameSite; SType [TyNull] None None]);
     ("secure", SType [TyBoolean] None None);
     ("value", SType [TyString] None None)]
    ["name"; "value"; "domain"; "path"; "secure"; "httpOnly"; "hostOnly"; "partitioned"].
Definition cookieOperation_CookieSnapshot : schema :=
  SObject true
    [("cookies", SArray false (cookieOperation_CookieRecord));
     ("partitionKey", SType [TyString] None None)]
    ["partitionKey"; "cookies"].
Definition cookieOperation_schema : schema :=
  SOneOf
    [SObject true
      [("operation", SConst "select");
       ("partition", SType [TyString] None None);
       ("url", SType [TyString] None None)]
      ["operation"; "partition"; "url"];
     SObject true
      [("cookies", SArray false (SType [TyString] None None));
       ("expectedRevision", SType [TyInteger] (Some 0) None);
       ("operation", SConst "set");
       ("partition", SType [TyString] None None);
       ("url", SType [TyString] None None)]
      ["operation"; "partition"; "url"; "cookies"; "expectedRevision"];
     SObject true
      [("operation", SConst "export");
       ("partition", SType [TyString] None None)]
      ["operation"; "partition"];
     SObject true
      [("expectedRevision", SType [TyInteger] (Some 0) None);
       ("operation", SConst "import");
       ("partition", SType [TyString] None None);
       ("snapshot", cookieOperation_CookieSnapshot)]
      ["operation"; "partition"; "snapshot"; "expectedRevision"]].

(** *** cookieReply.schema.json *)

Definition cookieReply_CookieSameSite : schema :=
  SEnum ["Strict"; "Lax"; "None"].
Definition cookieReply_CookieRecord : schema :=
  SObject true
    [("domain", SType [TyString] None None);
     ("expiresAtMs", SType [TyInteger; TyNull] (Some 0) None);
     ("hostOnly", SType [TyBoolean] None None);
     ("httpOnly", SType [TyBoolean] None None);
     ("name", SType [TyString] None None);
     ("partitioned", SType [TyBoolean] None None);
     ("path", SType [TyString] None None);
     ("sameSite", SAnyOf [cookieReply_CookieSameSite; SType [TyNull] None None]);
     ("secure", SType [TyBoolean] None None);
     ("value", SType [TyString] None None)]
    ["name"; "value"; "domain"; "path"; "secure"; "httpOnly"; "hostOnly"; "partitioned"].
Definition cookieReply_CookieSnapshot : schema :=
  SObject true
    [("cookies", SArray false (cookieReply_CookieRecord));
     ("partitionKey", SType [TyString] None None)]
    ["partitionKey"; "cookies"].
Definition cookieReply_schema : schema :=
  SObject false
    [("cookies", SArray true (cookieReply_CookieRecord));
     ("revision", SType [TyInteger] (Some 0) None);
     ("snapshot", SAnyOf [cookieReply_CookieSnapshot; SType [TyNull] None None])]
    ["revision"].

(** *** requestStatus.schema.json *)

Definition requestStatus_Delivery : schema :=
  SEnum ["not_started"; "possibly_sent"; "response_started"].
Definition requestStatus_Phase : schema :=
  SEnum ["queued"; "preparing"; "upstream"; "body"; "complete"].
Definition requestStatus_Diagnostics : schema :=
  SObject false
    [("attempt", SType [TyInteger] (Some 0) None);
     ("bodyMs", SType [TyInteger; TyNull] (Some 0) None);
     ("clientReused", SType [TyBoolean; TyNull] None None);
     ("contextId", SType [TyString; TyNull] None None);
     ("cookieRevision", SType [TyInteger; TyNull] (Some 0) None);
     ("delivery", requestStatus_Delivery);
     ("headersMs", SType [TyInteger; TyNull] (Some 0) None);
     ("phase", requestStatus_Phase);
     ("queueMs", SType [TyInteger] (Some 0) None);
     ("requestBytes", SType [TyInteger] (Some 0) None);
     ("requestId", SType [TyString] None None);
     ("responseBytes", SType [TyInteger] (Some 0) None);
     ("spanId", SType [TyString] None None);
     ("tlsProfile", SType [TyString] None None);
     ("totalMs", SType [TyInteger] (Some 0) None);
     ("traceId", SType [TyString] None None)]
    ["requestId"; "attempt"; "traceId"; "spanId"; "phase"; "delivery"; "queueMs"; "headersMs"; "bodyMs"; "totalMs"; "requestBytes"; "responseBytes"; "tlsProfile"].
Definition requestStatus_ErrorCode : schema :=
  SEnum ["UNAUTHORIZED"; "INVALID_REQUEST"; "UNSUPPORTED_CAPABILITY"; "INVALID_PROFILE"; "EGRESS_REQUIRED"; "SSRF_BLOCKED"; "BODY_TOO_LARGE"; "BUSY"; "TIMEOUT"; "CANCELLED"; "DNS_ERROR"; "PROXY_ERROR"; "TLS_ERROR"; "CONNECT_ERROR"; "PROTOCOL_ERROR"; "CONTEXT_NOT_FOUND"; "CONTEXT_CONFLICT"; "CONTEXT_LIMIT"; "COOKIE_LIMIT"; "DUPLICATE_REQUEST"; "UNKNOWN"].
Definition requestStatus_RequestState : schema :=
  SEnum ["queued"; "active"; "complete"; "failed"].
Definition requestStatus_TransportError : schema :=
  SObject false
    [("code", requestStatus_ErrorCode);
     ("diagnostics", SAnyOf [requestStatus_Diagnostics; SType [TyNull] None None]);
     ("message", SType [TyString] None None)]
    ["code"; "message"].
Definition requestStatus_schema : schema :=
  SObject false
    [("diagnostics", requestStatus_Diagnostics);
     ("error", SAnyOf [requestStatus_TransportError; SType [TyNull] None None]);
     ("state", requestStatus_RequestState)]
    ["state"; "diagnostics"].
Definition contract (name : WireContractName) : schema :=
  match name with
  | requestMetadata => requestMetadata_schema
  | responseMetadata => responseMetadata_schema
  | diagnostics => diagnostics_schema
  | transportError => transportError_schema
  | contextInfo => contextInfo_schema
  | cookieRecord => cookieRecord_schema
  | cookieSnapshot => cookieSnapshot_schema
  | capabilities => capabilities_schema
  | createContext => createContext_schema
  | cookieOperation => cookieOperation_schema
  | cookieReply => cookieReply_schema
  | requestStatus => requestStatus_schema
  end.

(** ** Agreement of a compiled block with a schema *)

Definition agrees (c : check) (s : schema) : Prop := forall v, json v = true -> c v = valid s v.

Lemma json_get v k : json v = true -> is_undefined (get v k) = false -> json (get v k) = true.
Proof.
  destruct v; simpl; try done. intros [Hall _]%andb_prop.
  destruct (assoc k props) as [w|] eqn:E; simpl; [|done]. intros _.
  rewrite forallb_forall in Hall. apply assoc_Some_in in E.
  apply (Hall (k, w)). by apply list_elem_of_In.
Qed.
Lemma json_has_key v k : json v = true -> has_key v k = negb (is_undefined (get v k)).
Proof.
  destruct v; simpl; try done. intros [Hall _]%andb_prop.
  destruct (assoc k props) as [w|] eqn:E; simpl.
  - apply assoc_Some_in in E. rewrite bool_decide_eq_true_2.
    + rewrite forallb_forall in Hall. apply list_elem_of_In, Hall in E. by destruct w.
    + apply list_elem_of_fmap. by exists (k, w).
  - apply assoc_None in E. by rewrite bool_decide_eq_false_2.
Qed.
Lemma json_object v : json v = true -> is_object v = is_json_object v.
Proof. by destruct v. Qed.

Lemma missing_spec v ks : json v = true -> negb (missing ks v) = forallb (has_key v) ks.
Proof.
  intros Hj. induction ks as [|k ks IH]; [done|]. unfold missing in *. simpl.
  by rewrite negb_orb, IH, json_has_key.
Qed.

Definition agree_properties : list (jsstr * check) -> list (jsstr * schema) -> Prop :=
  Forall2 (fun p q => p.1 = q.1 /\ agrees p.2 q.2).

Lemma properties_spec ps qs v :
  agree_properties ps qs -> json v = true ->
  properties_block ps v = forallb (fun '(k, s) => negb (has_key v k) || valid s (get v k)) qs.
Proof.
  intros H Hj. induction H as [|[k c] [k' s] ps qs [Hk Hc] _ IH]; [done|]. simpl in *. subst k'.
  rewrite json_has_key by done. destruct (is_undefined (get v k)) eqn:E; simpl; [done|].
  rewrite <- Hc by (by apply json_get). rewrite <- IH. by destruct (c (get v k)).
Qed.
Lemma properties_keys ps qs : agree_properties ps qs -> ps.*1 = qs.*1.
Proof. induction 1 as [|p q ps qs [Hk _] _ IH]; [done|]. rewrite !fmap_cons. by f_equal. Qed.

Lemma agrees_object required ps qs :
  agree_properties ps qs -> agrees (object_block required ps) (SObject false qs required).
Proof.
  intros H v Hj. unfold object_block. simpl. rewrite json_object by done.
  rewrite <- missing_spec, <- (properties_spec ps) by done.
  by destruct (is_json_object v), (missing required v).
Qed.
Lemma agrees_closed_object required ps qs :
  agree_properties ps qs -> agrees (closed_object_block required ps) (SObject true qs required).
Proof.
  intros H v Hj. unfold closed_object_block. simpl. rewrite json_object by done.
  rewrite <- missing_spec, <- (properties_spec ps), <- (properties_keys ps) by done.
  unfold js_includes.
  by destruct (is_json_object v), (missing required v), (forallb _ (object_keys v)).
Qed.

Lemma agrees_integer limit :
  agrees (integer_block limit) (SType [TyInteger] (Some 0) (Some limit)).
Proof.
  intros v Hj. destruct v; try done. unfold integer_block. simpl in *.
  destruct n; simpl in *; try done. destruct (z <? 0), (limit <? z); done.
Qed.
Lemma agrees_nullable_integer limit :
  agrees (nullable_integer_block limit) (SType [TyInteger; TyNull] (Some 0) (Some limit)).
Proof.
  intros v Hj. destruct v; try done. unfold nullable_integer_block. simpl in *.
  destruct n; simpl in *; try done. destruct (z <? 0), (limit <? z); done.
Qed.
Lemma agrees_string : agrees string_block (SType [TyString] None None).
Proof. intros []; done. Qed.
Lemma agrees_nullable_string : agrees nullable_string_block (SType [TyString; TyNull] None None).
Proof. intros []; done. Qed.
Lemma agrees_boolean : agrees boolean_block (SType [TyBoolean] None None).
Proof. intros []; done. Qed.
Lemma agrees_nullable_boolean : agrees nullable_boolean_block (SType [TyBoolean; TyNull] None None).
Proof. intros []; done. Qed.

Lemma agrees_enum values : agrees (enum_block values) (SEnum values).
Proof.
  intros v _. destruct v; try done. unfold enum_block. simpl.
  induction values as [|w ws IH]; simpl; [done|]. rewrite IH. unfold js_eqb.
  repeat case_bool_decide; set_solver.
Qed.
Lemma agrees_const value : agrees (const_block value) (SConst value).
Proof. intros v _. by destruct v. Qed.

Lemma json_item x l : json (JArray l) = true -> x ∈ l -> json x = true.
Proof. simpl. rewrite forallb_forall. intros H Hx. by apply H, list_elem_of_In. Qed.
Lemma agrees_items c s l :
  agrees c s -> json (JArray l) = true -> forallb c l = forallb (valid s) l.
Proof.
  intros H. induction l as [|x l IH]; [done|]. simpl. intros [Hx Hl]%andb_prop.
  by rewrite H, IH.
Qed.
Lemma agrees_array c s : agrees c s -> agrees (array_block c) (SArray false s).
Proof. intros H v Hj. destruct v; try done. by apply agrees_items. Qed.
Lemma agrees_nullable_array c s :
  agrees c s ->
  agrees (fun data => if negb (is_array data) && negb (is_null data) then false
                      else match data with JArray l => forallb c l | _ => true end)
         (SArray true s).
Proof. intros H v Hj. destruct v; try done. by apply agrees_items. Qed.
Lemma agrees_pair : agrees pair_block (STuple [SType [TyString] None None; SType [TyString] None None]).
Proof.
  intros v _. destruct v; try done. destruct l as [|x [|y [|z l]]]; try done.
  - unfold pair_block, zlength. simpl. by destruct x, y.
  - unfold pair_block. cbn [valid]. rewrite !zlength_cons, zlength_nil. pose proof (zlength_nonneg l).
    destruct (Z.ltb_spec 2 (1 + (1 + (1 + zlength l)))); [|lia].
    by destruct (Z.eqb_spec (1 + (1 + (1 + zlength l))) (1 + (1 + 0))); [lia|].
Qed.
Lemma agrees_map : agrees aliases_block (SMap (SType [TyString] None None)).
Proof.
  intros v Hj. unfold aliases_block. rewrite json_object by done. simpl.
  destruct (is_json_object v); [|done]. simpl. induction (object_keys v) as [|k ks IH]; [done|].
  simpl. rewrite IH. by destruct (get v k).
Qed.

Lemma agrees_or_null c s : agrees c s -> agrees (or_null c) (SAnyOf [s; SType [TyNull] None None]).
Proof.
  intros H v Hj. unfold or_null. simpl. rewrite H by done. destruct (valid s v); [done|].
  by destruct v.
Qed.
Lemma agrees_all_of c s : agrees c s -> agrees c (SAllOf [s]).
Proof. intros H v Hj. simpl. by rewrite andb_true_r, H. Qed.

Lemma agrees_one_of cs ss : Forall2 agrees cs ss -> agrees (one_of_block cs) (SOneOf ss).
Proof.
  intros H v Hj. unfold one_of_block.
  assert (forall b : bool, one_of_from b cs v =
    (length (List.filter (fun s => valid s v) ss) + (if b then 1 else 0) =? 1)%nat) as Hfrom.
  { induction H as [|c s cs ss Hc _ IH]; intros b; [by destruct b|].
    simpl. rewrite !(Hc v Hj). destruct (valid s v); simpl; [|apply IH].
    destruct b; [|by rewrite IH, <- plus_n_Sm, <- plus_n_O].
    symmetry. apply Nat.eqb_neq. lia. }
  rewrite Hfrom. by rewrite <- plus_n_O.
Qed.

(** Follows the structure of a schema down to its leaves. *)
Ltac agree_leaf :=
  first [ apply agrees_string | apply agrees_boolean | apply agrees_nullable_string
        | apply agrees_nullable_boolean | apply agrees_integer | apply agrees_nullable_integer ].
Ltac agree :=
  lazymatch goal with
  | |- Forall2 _ _ _ => first [apply Forall2_nil_2 | apply Forall2_cons_2; agree]
  | |- agree_properties _ _ => unfold agree_properties; simpl; agree
  | |- _ /\ _ => split; [reflexivity|cbn [fst snd]; agree]
  | |- agrees ?c ?s =>
      let s' := eval hnf in s in
      lazymatch s' with
      | SObject true _ _ => eapply agrees_closed_object; agree
      | SObject false _ _ => eapply agrees_object; agree
      | SMap _ => apply agrees_map
      | SEnum _ => apply agrees_enum
      | SConst _ => apply agrees_const
      | STuple _ => apply agrees_pair
      | SArray false _ => apply agrees_array; agree
      | SArray true _ => apply agrees_nullable_array; agree
      | SAnyOf _ => apply agrees_or_null; agree
      | SAllOf _ => apply agrees_all_of; agree
      | SOneOf _ => apply agrees_one_of; agree
      | SType _ _ _ => agree_leaf
      end
  end.


Lemma validateWire_agrees name : agrees (validateWire name) (constrainIntegers (contract name)).
Proof.
  destruct name; cbn [contract].
  - change (agrees validate10 (constrainIntegers requestMetadata_schema)). agree.
  - change (agrees validate13 (constrainIntegers responseMetadata_schema)). agree.
  - change (agrees validate16 (constrainIntegers diagnostics_schema)). agree.
  - change (agrees validate17 (constrainIntegers transportError_schema)). agree.
  - change (agrees validate20 (constrainIntegers contextInfo_schema)). agree.
  - change (agrees validate21 (constrainIntegers cookieRecord_schema)). agree.
  - change (agrees validate22 (constrainIntegers cookieSnapshot_schema)). agree.
  - change (agrees validate25 (constrainIntegers capabilities_schema)). agree.
  - change (agrees validate26 (constrainIntegers createContext_schema)). agree.
  - change (agrees validate29 (constrainIntegers cookieOperation_schema)). agree.
  - change (agrees validate34 (constrainIntegers cookieReply_schema)). agree.
  - change (agrees validate40 (constrainIntegers requestStatus_schema)). agree.
Qed.

(** ** Properties *)

(** C15: the compiled validators implement the contracts.  On every JSON document,
    each compiled validator decides exactly validity against the service's schema
    with its integers narrowed to the safe ones. *)
Theorem validators_implement_contracts name v :
  json v = true -> validateWire name v = valid (constrainIntegers (contract name)) v.
Proof. apply validateWire_agrees. Qed.

Lemma validators_implement_contracts_witness :
  validateWire cookieOperation
    (JObject [("operation", JStr "set"); ("partition", JStr "p"); ("url", JStr "https://a");
              ("cookies", JArray [JStr "a=b"]); ("expectedRevision", jint 9007199254740992)])
  = valid (constrainIntegers cookieOperation_schema)
    (JObject [("operation", JStr "set"); ("partition", JStr "p"); ("url", JStr "https://a");
              ("cookies", JArray [JStr "a=b"]); ("expectedRevision", jint 9007199254740992)]).
Proof. apply (validators_implement_contracts cookieOperation). vm_compute. reflexivity. Defined.
