(* ===== verification/Types.v ===== *)
(** * The generated types (packages/typescript/src/generated/types, wire-types.ts)

    The TypeScript types of the wire documents, what values they describe, and that every
    document which a compiled validator accepts has the type that the SDK gives it from
    then on.  The types come from a generator, so they are compared with the schemas by a
    checker, [describes], which is proved to be sound. *)

From S2P Require Import Prelude Js Validators Schema.

(** ** Types *)

Inductive tstype :=
| TUnknown
| TString
| TNumber
| TBoolean
| TNull
| TLiteral (s : jsstr)
| TUnion (types : list tstype)
| TArray (element : tstype)
| TTuple (elements : list tstype)
| TObject (members : list (jsstr * bool * tstype)) (index : option tstype).
(** [key: t] and [key?: t]; the index is [[k: string]: t]. *)
Definition member (key : jsstr) (t : tstype) : jsstr * bool * tstype := (key, false, t).
Definition optional (key : jsstr) (t : tstype) : jsstr * bool * tstype := (key, true, t).

(** The values of a type: those that a program may treat as such. *)
Fixpoint inhabits (t : tstype) (v : jsval) : bool :=
  match t with
  | TUnknown => true
  | TString => is_string v
  | TNumber => match v with JNum _ => true | _ => false end
  | TBoolean => is_boolean v
  | TNull => is_null v
  | TLiteral s => is_str v s
  | TUnion types => existsb (fun t => inhabits t v) types
  | TArray element => match v with JArray l => forallb (inhabits element) l | _ => false end
  | TTuple elements =>
      match v with
      | JArray l =>
          (fix each (elements : list tstype) (l : list jsval) : bool :=
             match elements, l with
             | [], [] => true
             | t :: elements, x :: l => inhabits t x && each elements l
             | _, _ => false
             end) elements l
      | _ => false
      end
  | TObject members index =>
      is_json_object v &&
      forallb (fun '(k, optional, t) => if is_undefined (get v k) then optional else inhabits t (get v k)) members &&
      match index with Some t => forallb (fun k => inhabits t (get v k)) (object_keys v) | None => true end
  end.

(** ** The declarations *)

Local Open Scope js_scope.

(** *** types/requestMetadata.ts *)

Definition RequestMetadata_Egress : tstype :=
  TUnion [
    TObject [member "mode" (TLiteral "direct")] None;
    TObject [member "mode" (TLiteral "proxy"); member "url" TString] None].
Definition RequestMetadata_HeaderOrder : tstype :=
  TUnion [TLiteral "caller"; TLiteral "browser"].
Definition RequestMetadata_BrowserIdentity : tstype :=
  TObject
    [member "emulateHeaders" TBoolean;
     member "tlsProfile" TString;
     optional "userAgent" (TUnion [TString; TNull])] None.
Definition RequestMetadata_ConnectionSpec : tstype :=
  TObject
    [member "egress" RequestMetadata_Egress;
     member "identity" RequestMetadata_BrowserIdentity] None.
Definition RequestMetadata : tstype :=
  TObject
    [member "attempt" TNumber;
     optional "bodyLength" (TUnion [TNumber; TNull]);
     optional "connection" (TUnion [RequestMetadata_ConnectionSpec; TNull]);
     optional "contextId" (TUnion [TString; TNull]);
     member "hasBody" TBoolean;
     optional "headerOrder" RequestMetadata_HeaderOrder;
     member "headers" (TArray (TTuple [TString; TString]));
     member "maxResponseBytes" TNumber;
     member "method" TString;
     member "partition" TString;
     member "requestId" TString;
     member "timeoutMs" TNumber;
     member "url" TString] None.

(** *** types/responseMetadata.ts *)

Definition ResponseMetadata_Delivery : tstype :=
  TUnion [TLiteral "not_started"; TLiteral "possibly_sent"; TLiteral "response_started"].
Definition ResponseMetadata_Phase : tstype :=
  TUnion [TLiteral "queued"; TLiteral "preparing"; TLiteral "upstream"; TLiteral "body"; TLiteral "complete"].
Definition ResponseMetadata_Diagnostics : tstype :=
  TObject
    [member "attempt" TNumber;
     member "bodyMs" (TUnion [TNumber; TNull]);
     optional "clientReused" (TUnion [TBoolean; TNull]);
     optional "contextId" (TUnion [TString; TNull]);
     optional "cookieRevision" (TUnion [TNumber; TNull]);
     member "delivery" ResponseMetadata_Delivery;
     member "headersMs" (TUnion [TNumber; TNull]);
     member "phase" ResponseMetadata_Phase;
     member "queueMs" TNumber;
     member "requestBytes" TNumber;
     member "requestId" TString;
     member "responseBytes" TNumber;
     member "spanId" TString;
     member "tlsProfile" TString;
     member "totalMs" TNumber;
     member "traceId" TString] (Some TUnknown).
Definition ResponseMetadata : tstype :=
  TObject
    [optional "cookieRevision" (TUnion [TNumber; TNull]);
     member "diagnostics" ResponseMetadata_Diagnostics;
     member "headers" (TArray (TTuple [TString; TString]));
     member "requestId" TString;
     member "status" TNumber] (Some TUnknown).

(** *** types/diagnostics.ts *)

Definition Diagnostics_Delivery : tstype :=
  TUnion [TLiteral "not_started"; TLiteral "possibly_sent"; TLiteral "response_started"].
Definition Diagnostics_Phase : tstype :=
  TUnion [TLiteral "queued"; TLiteral "preparing"; TLiteral "upstream"; TLiteral "body"; TLiteral "complete"].
Definition Diagnostics : tstype :=
  TObject
    [member "attempt" TNumber;
     member "bodyMs" (TUnion [TNumber; TNull]);
     optional "clientReused" (TUnion [TBoolean; TNull]);
     optional "contextId" (TUnion [TString; TNull]);
     optional "cookieRevision" (TUnion [TNumber; TNull]);
     member "delivery" Diagnostics_Delivery;
     member "headersMs" (TUnion [TNumber; TNull]);
     member "phase" Diagnostics_Phase;
     member "queueMs" TNumber;
     member "requestBytes" TNumber;
     member "requestId" TString;
     member "responseBytes" TNumber;
     member "spanId" TString;
     member "tlsProfile" TString;
     member "totalMs" TNumber;
     member "traceId" TString] (Some TUnknown).

(** *** types/transportError.ts *)

Definition TransportError_ErrorCode : tstype :=
  TUnion [TLiteral "UNAUTHORIZED"; TLiteral "INVALID_REQUEST"; TLiteral "UNSUPPORTED_CAPABILITY";
    TLiteral "INVALID_PROFILE"; TLiteral "EGRESS_REQUIRED"; TLiteral "SSRF_BLOCKED";
    TLiteral "BODY_TOO_LARGE"; TLiteral "BUSY"; TLiteral "TIMEOUT"; TLiteral "CANCELLED";
    TLiteral "DNS_ERROR"; TLiteral "PROXY_ERROR"; TLiteral "TLS_ERROR"; TLiteral "CONNECT_ERROR";
    TLiteral "PROTOCOL_ERROR"; TLiteral "CONTEXT_NOT_FOUND"; TLiteral "CONTEXT_CONFLICT";
    TLiteral "CONTEXT_LIMIT"; TLiteral "COOKIE_LIMIT"; TLiteral "DUPLICATE_REQUEST"; TLiteral "UNKNOWN"].
Definition TransportError_Delivery : tstype :=
  TUnion [TLiteral "not_started"; TLiteral "possibly_sent"; TLiteral "response_started"].
Definition TransportError_Phase : tstype :=
  TUnion [TLiteral "queued"; TLiteral "preparing"; TLiteral "upstream"; TLiteral "body"; TLiteral "complete"].
Definition TransportError_Diagnostics : tstype :=
  TObject
    [member "attempt" TNumber;
     member "bodyMs" (TUnion [TNumber; TNull]);
     optional "clientReused" (TUnion [TBoolean; TNull]);
     optional "contextId" (TUnion [TString; TNull]);
     optional "cookieRevision" (TUnion [TNumber; TNull]);
     member "delivery" TransportError_Delivery;
     member "headersMs" (TUnion [TNumber; TNull]);
     member "phase" TransportError_Phase;
     member "queueMs" TNumber;
     member "requestBytes" TNumber;
     member "requestId" TString;
     member "responseBytes" TNumber;
     member "spanId" TString;
     member "tlsProfile" TString;
     member "totalMs" TNumber;
     member "traceId" TString] (Some TUnknown).
Definition TransportError : tstype :=
  TObject
    [member "code" TransportError_ErrorCode;
     optional "diagnostics" (TUnion [TransportError_Diagnostics; TNull]);
     member "message" TString] (Some TUnknown).

(** *** types/contextInfo.ts *)

Definition ContextInfo_CookieMode : tstype :=
  TUnion [TLiteral "external"; TLiteral "managed"].
Definition ContextInfo_BrowserIdentity : tstype :=
  TObject
    [member "emulateHeaders" TBoolean;
     member "tlsProfile" TString;
     optional "userAgent" (TUnion [TString; TNull])] None.
Definition ContextInfo : tstype :=
  TObject
    [member "contextId" TString;
     member "cookieMode" ContextInfo_CookieMode;
     member "expiresAtMs" TNumber;
     member "identity" ContextInfo_BrowserIdentity;
     member "partition" TString;
     member "revision" TNumber] (Some TUnknown).

(** *** types/cookieRecord.ts *)

Definition CookieRecord_CookieSameSite : tstype :=
  TUnion [TLiteral "Strict"; TLiteral "Lax"; TLiteral "None"].
Definition CookieRecord : tstype :=
  TObject
    [member "domain" TString;
     optional "expiresAtMs" (TUnion [TNumber; TNull]);
     member "hostOnly" TBoolean;
     member "httpOnly" TBoolean;
     member "name" TString;
     member "partitioned" TBoolean;
     member "path" TString;
     optional "sameSite" (TUnion [CookieRecord_CookieSameSite; TNull]);
     member "secure" TBoolean;
     member "value" TString] None.

(** *** types/cookieSnapshot.ts *)

Definition CookieSnapshot_CookieSameSite : tstype :=
  TUnion [TLiteral "Strict"; TLiteral "Lax"; TLiteral "None"].
Definition CookieSnapshot_CookieRecord : tstype :=
  TObject
    [member "domain" TString;
     optional "expiresAtMs" (TUnion [TNumber; TNull]);
     member "hostOnly" TBoolean;
     member "httpOnly" TBoolean;
     member "name" TString;
     member "partitioned" TBoolean;
     member "path" TString;
     optional "sameSite" (TUnion [CookieSnapshot_CookieSameSite; TNull]);
     member "secure" TBoolean;
     member "value" TString] None.
Definition CookieSnapshot : tstype :=
  TObject
    [member "cookies" (TArray CookieSnapshot_CookieRecord);
     member "partitionKey" TString] None.

(** *** types/capabilities.ts *)

Definition Capabilities_ServiceName : tstype :=
  TLiteral "ja3proxy".
Definition Capabilities_FramingCapabilities : tstype :=
  TObject
    [member "contentType" TString;
     member "maxDataBytes" TNumber;
     member "maxMetadataBytes" TNumber;
     member "maxUploadFrames" TNumber] (Some TUnknown).
Definition Capabilities_HeaderDescriptor : tstype :=
  TObject
    [member "headers" (TArray (TTuple [TString; TString]));
     member "tlsProfile" TString] (Some TUnknown).
Definition Capabilities_CapabilityLimits : tstype :=
  TObject
    [member "contextIdleTtlMs" TNumber;
     member "contextMaxAgeMs" TNumber;
     member "contextMaxIdleTtlMs" TNumber;
     member "envelopeTimeoutMs" TNumber;
     member "maxAllowedOrigins" TNumber;
     member "maxConcurrent" TNumber;
     member "maxConcurrentPerPartition" TNumber;
     member "maxContexts" TNumber;
     member "maxContextsPerPartition" TNumber;
     member "maxControlBytes" TNumber;
     member "maxCookieBytes" TNumber;
     member "maxCookieSize" TNumber;
     member "maxCookies" TNumber;
     member "maxEnvelopes" TNumber;
     member "maxHeaderBytes" TNumber;
     member "maxHeaders" TNumber;
     member "maxQueued" TNumber;
     member "maxQueuedPerPartition" TNumber;
     member "maxRequestBytes" TNumber;
     member "maxResponseBytes" TNumber;
     member "maxTimeoutMs" TNumber;
     member "registryCapacity" TNumber;
     member "registryTtlMs" TNumber] (Some TUnknown).
Definition Capabilities_CapabilityModes : tstype :=
  TObject
    [member "cancel" (TArray TString);
     member "cookies" (TArray TString);
     member "egress" (TArray TString);
     member "stream" (TArray TString)] (Some TUnknown).
Definition Capabilities : tstype :=
  TObject
    [member "build" TString;
     member "framing" Capabilities_FramingCapabilities;
     member "headerDescriptors" (TArray Capabilities_HeaderDescriptor);
     member "limits" Capabilities_CapabilityLimits;
     member "modes" Capabilities_CapabilityModes;
     member "profileAliases" (TObject [] (Some TString));
     member "profiles" (TArray TString);
     member "service" Capabilities_ServiceName] (Some TUnknown).

(** *** types/createContext.ts *)

Definition CreateContext_Egress : tstype :=
  TUnion [
    TObject [member "mode" (TLiteral "direct")] None;
    TObject [member "mode" (TLiteral "proxy"); member "url" TString] None].
Definition CreateContext_CookieMode : tstype :=
  TUnion [TLiteral "external"; TLiteral "managed"].
Definition CreateContext_BrowserIdentity : tstype :=
  TObject
    [member "emulateHeaders" TBoolean;
     member "tlsProfile" TString;
     optional "userAgent" (TUnion [TString; TNull])] None.
Definition CreateContext_ConnectionSpec : tstype :=
  TObject
    [member "egress" CreateContext_Egress;
     member "identity" CreateContext_BrowserIdentity] None.
Definition CreateContext : tstype :=
  TObject
    [member "allowedOrigins" (TArray TString);
     member "connection" CreateContext_ConnectionSpec;
     member "cookieMode" CreateContext_CookieMode;
     member "partition" TString;
     optional "ttlMs" (TUnion [TNumber; TNull])] None.

(** *** types/cookieOperation.ts *)

Definition CookieOperation_CookieSameSite : tstype :=
  TUnion [TLiteral "Strict"; TLiteral "Lax"; TLiteral "None"].
Definition CookieOperation_CookieRecord : tstype :=
  TObject
    [member "domain" TString;
     optional "expiresAtMs" (TUnion [TNumber; TNull]);
     member "hostOnly" TBoolean;
     member "httpOnly" TBoolean;
     member "name" TString;
     member "partitioned" TBoolean;
     member "path" TString;
     optional "sameSite" (TUnion [CookieOperation_CookieSameSite; TNull]);
     member "secure" TBoolean;
     member "value" TString] None.
Definition CookieOperation_CookieSnapshot : tstype :=
  TObject
    [member "cookies" (TArray CookieOperation_CookieRecord);
     member "partitionKey" TString] None.
Definition CookieOperation : tstype :=
  TUnion [
    TObject
      [member "operation" (TLiteral "select");
       member "partition" TString;
       member "url" TString] None;
    TObject
      [member "cookies" (TArray TString);
       member "expectedRevision" TNumber;
       member "operation" (TLiteral "set");
       member "partition" TString;
       member "url" TString] None;
    TObject [member "operation" (TLiteral "export"); member "partition" TString] None;
    TObject
      [member "expectedRevision" TNumber;
       member "operation" (TLiteral "import");
       member "partition" TString;
       member "snapshot" CookieOperation_CookieSnapshot] None].

(** *** types/cookieReply.ts *)

Definition CookieReply_CookieSameSite : tstype :=
  TUnion [TLiteral "Strict"; TLiteral "Lax"; TLiteral "None"].
Definition CookieReply_CookieRecord : tstype :=
  TObject
    [member "domain" TString;
     optional "expiresAtMs" (TUnion [TNumber; TNull]);
     member "hostOnly" TBoolean;
     member "httpOnly" TBoolean;
     member "name" TString;
     member "partitioned" TBoolean;
     member "path" TString;
     optional "sameSite" (TUnion [CookieReply_CookieSameSite; TNull]);
     member "secure" TBoolean;
     member "value" TString] None.
Definition CookieReply_CookieSnapshot : tstype :=
  TObject
    [member "cookies" (TArray CookieReply_CookieRecord);
     member "partitionKey" TString] None.
Definition CookieReply : tstype :=
  TObject
    [optional "cookies" (TUnion [TArray CookieReply_CookieRecord; TNull]);
     member "revision" TNumber;
     optional "snapshot" (TUnion [CookieReply_CookieSnapshot; TNull])] (Some TUnknown).

(** *** types/requestStatus.ts *)

Definition RequestStatus_Delivery : tstype :=
  TUnion [TLiteral "not_started"; TLiteral "possibly_sent"; TLiteral "response_started"].
Definition RequestStatus_Phase : tstype :=
  TUnion [TLiteral "queued"; TLiteral "preparing"; TLiteral "upstream"; TLiteral "body"; TLiteral "complete"].
Definition RequestStatus_ErrorCode : tstype :=
  TUnion [TLiteral "UNAUTHORIZED"; TLiteral "INVALID_REQUEST"; TLiteral "UNSUPPORTED_CAPABILITY";
    TLiteral "INVALID_PROFILE"; TLiteral "EGRESS_REQUIRED"; TLiteral "SSRF_BLOCKED";
    TLiteral "BODY_TOO_LARGE"; TLiteral "BUSY"; TLiteral "TIMEOUT"; TLiteral "CANCELLED";
    TLiteral "DNS_ERROR"; TLiteral "PROXY_ERROR"; TLiteral "TLS_ERROR"; TLiteral "CONNECT_ERROR";
    TLiteral "PROTOCOL_ERROR"; TLiteral "CONTEXT_NOT_FOUND"; TLiteral "CONTEXT_CONFLICT";
    TLiteral "CONTEXT_LIMIT"; TLiteral "COOKIE_LIMIT"; TLiteral "DUPLICATE_REQUEST"; TLiteral "UNKNOWN"].
Definition RequestStatus_RequestState : tstype :=
  TUnion [TLiteral "queued"; TLiteral "active"; TLiteral "complete"; TLiteral "failed"].
Definition RequestStatus_Diagnostics : tstype :=
  TObject
    [member "attempt" TNumber;
     member "bodyMs" (TUnion [TNumber; TNull]);
     optional "clientReused" (TUnion [TBoolean; TNull]);
     optional "contextId" (TUnion [TString; TNull]);
     optional "cookieRevision" (TUnion [TNumber; TNull]);
     member "delivery" RequestStatus_Delivery;
     member "headersMs" (TUnion [TNumber; TNull]);
     member "phase" RequestStatus_Phase;
     member "queueMs" TNumber;
     member "requestBytes" TNumber;
     member "requestId" TString;
     member "responseBytes" TNumber;
     member "spanId" TString;
     member "tlsProfile" TString;
     member "totalMs" TNumber;
     member "traceId" TString] (Some TUnknown).
Definition RequestStatus_TransportError : tstype :=
  TObject
    [member "code" RequestStatus_ErrorCode;
     optional "diagnostics" (TUnion [RequestStatus_Diagnostics; TNull]);
     member "message" TString] (Some TUnknown).
Definition RequestStatus : tstype :=
  TObject
    [member "diagnostics" RequestStatus_Diagnostics;
     optional "error" (TUnion [RequestStatus_TransportError; TNull]);
     member "state" RequestStatus_RequestState] (Some TUnknown).
(** *** wire-types.ts *)

Definition WireContracts (name : WireContractName) : tstype :=
  match name with
  | requestMetadata => RequestMetadata
  | responseMetadata => ResponseMetadata
  | diagnostics => Diagnostics
  | transportError => TransportError
  | contextInfo => ContextInfo
  | cookieRecord => CookieRecord
  | cookieSnapshot => CookieSnapshot
  | capabilities => Capabilities
  | createContext => CreateContext
  | cookieOperation => CookieOperation
  | cookieReply => CookieReply
  | requestStatus => RequestStatus
  end.

(** ** A checker that a type describes a schema *)

(** Some alternative of a type, through unions in unions. *)
Fixpoint alternative (p : tstype -> bool) (t : tstype) : bool :=
  match t with TUnion types => existsb (alternative p) types | _ => p t end.
Definition describes_type (j : jtype) (t : tstype) : bool :=
  match j, t with
  | TyString, TString | TyBoolean, TBoolean | TyInteger, TNumber | TyNull, TNull | _, TUnknown => true
  | _, _ => false
  end.
Definition describes_text (s : jsstr) (t : tstype) : bool :=
  match t with TString | TUnknown => true | TLiteral s' => js_eqb s s' | _ => false end.
Definition open_index (index : option tstype) : bool := match index with None | Some TUnknown => true | _ => false end.
Fixpoint describes (s : schema) (t : tstype) : bool :=
  match s with
  | SType types _ _ => forallb (fun j => alternative (describes_type j) t) types
  | SEnum values => forallb (fun x => alternative (describes_text x) t) values
  | SConst x => alternative (describes_text x) t
  | SObject _ properties required =>
      alternative (fun t =>
        match t with
        | TUnknown => true
        | TObject members index =>
            open_index index &&
            forallb (fun '(k, optional, t) =>
              (optional || js_includes required k) &&
              existsb (fun '(k', s) => js_eqb k k' && describes s t) properties) members
        | _ => false
        end) t
  | SMap values => alternative (fun t => match t with TObject [] (Some t) => describes values t | _ => false end) t
  | SArray nullable items =>
      alternative (fun t => match t with TArray t => describes items t | _ => false end) t &&
      (negb nullable || alternative (describes_type TyNull) t)
  | STuple items =>
      alternative (fun t =>
        match t with
        | TTuple elements =>
            (fix each (items : list schema) (elements : list tstype) : bool :=
               match items, elements with
               | [], [] => true
               | s :: items, t :: elements => describes s t && each items elements
               | _, _ => false
               end) items elements
        | _ => false
        end) t
  | SAnyOf alternatives | SOneOf alternatives => forallb (fun s => describes s t) alternatives
  | SAllOf alternatives => existsb (fun s => describes s t) alternatives
  end.

(** ** It is sound *)

Section schema_ind.
Context (P : schema -> Prop).
Context (Htype : forall types lo hi, P (SType types lo hi)) (Henum : forall values, P (SEnum values)) (Hconst : forall x, P (SConst x)).
Context (Hobject : forall closed properties required, Forall (fun p => P p.2) properties -> P (SObject closed properties required)).
Context (Hmap : forall s, P s -> P (SMap s)) (Harray : forall nullable s, P s -> P (SArray nullable s)).
Context (Htuple : forall l, Forall P l -> P (STuple l)) (Hany : forall l, Forall P l -> P (SAnyOf l)).
Context (Hone : forall l, Forall P l -> P (SOneOf l)) (Hall : forall l, Forall P l -> P (SAllOf l)).
(** Induction that reaches the schemas in lists. *)
Fixpoint schema_nested_ind (s : schema) : P s :=
  let each := fix each (l : list schema) : Forall P l :=
    match l with [] => Forall_nil_2 _ | s :: l => Forall_cons_2 _ _ _ (schema_nested_ind s) (each l) end in
  match s with
  | SType types lo hi => Htype types lo hi
  | SEnum values => Henum values
  | SConst x => Hconst x
  | SObject closed properties required =>
      Hobject closed properties required
        ((fix each (l : list (jsstr * schema)) : Forall (fun p => P p.2) l :=
            match l with [] => Forall_nil_2 _ | p :: l => Forall_cons_2 _ _ _ (schema_nested_ind p.2) (each l) end) properties)
  | SMap s => Hmap s (schema_nested_ind s)
  | SArray nullable s => Harray nullable s (schema_nested_ind s)
  | STuple l => Htuple l (each l)
  | SAnyOf l => Hany l (each l)
  | SOneOf l => Hone l (each l)
  | SAllOf l => Hall l (each l)
  end.
End schema_ind.

(** A value of an alternative is a value of the union. *)
Lemma alternative_inhabits p v t :
  (forall t, p t = true -> inhabits t v = true) -> alternative p t = true -> inhabits t v = true.
Proof.
  intros Hp. revert t. fix IH 1. intros [| | | | | |types| | |]; try apply Hp.
  cbn [alternative inhabits]. induction types as [|t types IHl]; [done|]. cbn [existsb].
  intros [H|H]%orb_prop; apply orb_true_iff; [left; by apply IH|right; by apply IHl].
Qed.
Lemma describes_type_sound j t v : has_type v j = true -> describes_type j t = true -> inhabits t v = true.
Proof. by destruct j, t, v. Qed.
Lemma describes_text_sound s t : describes_text s t = true -> inhabits t (JStr s) = true.
Proof. by destruct t. Qed.
Definition sound (s : schema) : Prop := forall t v, json v = true -> valid s v = true -> describes s t = true -> inhabits t v = true.

Lemma sound_object closed properties required :
  Forall (fun p => sound p.2) properties -> sound (SObject closed properties required).
Proof.
  intros IH t v Hj Hv. cbn [valid describes] in *. rewrite !andb_true_iff in Hv. destruct Hv as [[[Ho Hreq] _] Hprops].
  apply alternative_inhabits. intros [| | | | | | | | |members index]; try done. intros [Hi Hm]%andb_prop.
  cbn [inhabits]. rewrite Ho. cbn [andb]. apply andb_true_iff. split; [|destruct index as [[]|]; try done; by apply forallb_forall].
  apply forallb_forall. intros [[k optional] t'] Hk%list_elem_of_In. specialize (forallb_elem _ _ _ Hm Hk) as [Hopt Hs]%andb_prop.
  apply existsb_elem in Hs as ([k' s] & Hs & [->%js_eqb_eq Hd]%andb_prop).
  destruct (is_undefined (get v k')) eqn:Eu.
  - destruct optional; [done|]. apply bool_decide_eq_true in Hopt. pose proof (forallb_elem _ _ _ Hreq Hopt) as Hh.
    rewrite json_has_key in Hh by done. by rewrite Eu in Hh.
  - assert (has_key v k' = true) as Hh by (rewrite json_has_key by done; by rewrite Eu).
    rewrite Forall_forall in IH. apply (IH _ Hs t' (get v k')); [by apply json_get| |done].
    specialize (forallb_elem _ _ _ Hprops Hs). cbn. by rewrite Hh.
Qed.
Lemma sound_map s : sound s -> sound (SMap s).
Proof.
  intros IH t v Hj Hv. cbn [valid describes] in *. apply andb_prop in Hv as [Ho Hv].
  apply alternative_inhabits. intros [| | | | | | | | |[] [t'|]]; try done. intros Hd. cbn [inhabits forallb]. rewrite Ho. cbn [andb].
  apply forallb_forall. intros k Hk. apply (IH t'); [|by apply (proj1 (forallb_forall _ _) Hv)|done].
  apply json_get; [done|]. apply list_elem_of_In in Hk. pose proof (json_has_key v k Hj) as E.
  destruct (is_undefined _); [|done]. destruct v; try done. cbn in *. by apply bool_decide_eq_false in E.
Qed.
Lemma sound_array nullable s : sound s -> sound (SArray nullable s).
Proof.
  intros IH t v Hj Hv. cbn [valid describes] in *. intros [Ht Hn]%andb_prop. destruct v as [| | | | |l| | |]; try done.
  - destruct nullable; [|done]. revert Hn. apply alternative_inhabits. intros t'. by apply (describes_type_sound TyNull).
  - revert Ht. apply alternative_inhabits. intros [| | | | | | |t'| |]; try done. intros Hd. cbn [inhabits].
    apply forallb_forall. intros x Hx. apply (IH t'); [by apply (proj1 (forallb_forall _ _) Hj)|by apply (proj1 (forallb_forall _ _) Hv)|done].
Qed.
Lemma sound_tuple items : Forall sound items -> sound (STuple items).
Proof.
  intros IH t v Hj Hv. cbn [valid describes] in *. destruct v as [| | | | |l| | |]; try done. apply andb_prop in Hv as [Hl Hv].
  apply Z.eqb_eq in Hl. apply alternative_inhabits. intros [| | | | | | | |elements|]; try done. cbn [inhabits json] in *.
  revert l elements Hj Hl Hv. induction IH as [|s items Hs _ IH]; intros [|x l] [|t' elements] Hj Hl Hv; try done.
  intros [Hd He]%andb_prop. cbn in Hj. apply andb_prop in Hj as [Hx Hj]. apply andb_prop in Hv as [Hv1 Hv2].
  rewrite !zlength_cons in Hl. rewrite (Hs t' x) by done. apply IH; [done|lia|done|done].
Qed.
(** A type that describes a schema has all its JSON documents. *)
Lemma describes_sound s : sound s.
Proof.
  induction s as [types lo hi|values|x|closed properties required IH|s IH|nullable s IH|l IH|l IH|l IH|l IH] using schema_nested_ind.
  - intros t v _ Hv Hd. cbn in *. apply andb_prop in Hv as [(j & Hj & Hv)%existsb_elem _]. pose proof (forallb_elem _ _ _ Hd Hj) as Hd'.
    revert Hd'. apply alternative_inhabits. intros t'. by apply describes_type_sound.
  - intros t v _ Hv Hd. cbn in *. destruct v as [| | | |s| | | |]; try done. apply bool_decide_eq_true in Hv.
    pose proof (forallb_elem _ _ _ Hd Hv) as Hd'. revert Hd'. apply alternative_inhabits, describes_text_sound.
  - intros t v _ Hv Hd. cbn in *. destruct v as [| | | |s| | | |]; try done. apply bool_decide_eq_true in Hv as ->.
    revert Hd. apply alternative_inhabits, describes_text_sound.
  - by apply sound_object.
  - by apply sound_map.
  - by apply sound_array.
  - by apply sound_tuple.
  - intros t v Hj Hv Hd. cbn in *. apply existsb_elem in Hv as (s & Hs & Hv). rewrite Forall_forall in IH.
    apply (IH s Hs); [done..|]. by apply (forallb_elem _ _ _ Hd).
  - intros t v Hj Hv Hd. cbn in *. rewrite Forall_forall in IH.
    destruct (List.filter _ l) as [|s l'] eqn:E; [done|]. assert (In s (s :: l')) as Hs by (by left).
    rewrite <- E in Hs. apply filter_In in Hs as [Hs%list_elem_of_In Hvs].
    apply (IH s Hs); [done..|]. by apply (forallb_elem _ _ _ Hd).
  - intros t v Hj Hv Hd. cbn in *. apply existsb_elem in Hd as (s & Hs & Hd). rewrite Forall_forall in IH.
    apply (IH s Hs); [done| |done]. by apply (forallb_elem _ _ _ Hv).
Qed.

(** Every generated type describes its contract. *)
Lemma generated_types name : describes (constrainIntegers (contract name)) (WireContracts name) = true.
Proof. by destruct name; vm_compute. Qed.

(** C16: the generated types are right.  A JSON document that a compiled validator accepts has the
    type that [WireContracts] declares for the contract, which is the type that the SDK gives the
    document from then on: every member that the type promises is there with its type,
    optional members are absent or have theirs, and texts are among the literals of their unions. *)
Theorem validated_has_type name v : json v = true -> validateWire name v = true -> inhabits (WireContracts name) v = true.
Proof.
  intros Hj Hv. rewrite (validateWire_agrees name v Hj) in Hv. eapply describes_sound, generated_types; done.
Qed.
Definition demo_reply : jsval := JObject
  [("revision", jint 3); ("cookies", JNull);
   ("snapshot", JObject [("partitionKey", JStr "p");
      ("cookies", JArray [JObject [("domain", JStr "a"); ("hostOnly", JBool true); ("httpOnly", JBool false); ("name", JStr "n");
        ("partitioned", JBool false); ("path", JStr "/"); ("sameSite", JStr "Lax"); ("secure", JBool true); ("value", JStr "v")]])])].
Lemma validated_has_type_witness : inhabits CookieReply demo_reply = true /\ inhabits CookieReply (JObject []) = false.
Proof. split; [|reflexivity]. apply (validated_has_type cookieReply); vm_compute; reflexivity. Defined.
