(* ===== verification/Protocol.v ===== *)
(** * Wire values (packages/typescript/src/protocol.ts)

    The guards that decide whether a parsed document is what the service promised,
    and the copies that keep only the documented fields of an accepted one. *)

From S2P Require Import Prelude Js Errors Deadline Framing Validators.

Local Open Scope js_scope.

Definition CONTENT_TYPE : jsstr := "application/vnd.ja3proxy".

(** ** Small guards *)

(** [value !== null && typeof value === 'object' && !Array.isArray(value)] *)
Definition record (value : jsval) : bool :=
  negb (is_null value) && typeof_object value && negb (is_array value).
Definition str_test (re : jsstr -> bool) (value : jsval) : bool :=
  match value with JStr s => re s | _ => false end.
Definition opaque : jsval -> bool := str_test opaque_re.
Definition is_some_int (value : option Z) : bool := bool_decide (is_Some value).

(** [/^[!#$%&'*+.^_`|~0-9A-Za-z-]+$/] and [/[\r\n\0]/] *)
Definition token_unit (c : N) : bool := is_alnum c || one_of "!#$%&'*+.^_`|~-" c.
Definition token_re (s : jsstr) : bool := class_plus token_unit s.
Definition line_unit (c : N) : bool := N.eqb c 13 || N.eqb c 10 || N.eqb c 0.
Definition line_re (s : jsstr) : bool := class_any line_unit s.

Definition header_pair (pair : jsval) : bool :=
  match pair with
  | JArray [name; content] => str_test token_re name && str_test (fun s => negb (line_re s)) content
  | _ => false
  end.
Definition headerPairs (value : jsval) : bool :=
  match value with JArray l => forallb header_pair l | _ => false end.

(** The pairs of an accepted value. *)
Definition read_pair (pair : jsval) : option (jsstr * jsstr) :=
  match pair with JArray [JStr name; JStr content] => Some (name, content) | _ => None end.
Definition read_pairs (value : jsval) : list (jsstr * jsstr) :=
  match value with JArray l => omap read_pair l | _ => [] end.
Definition pair_js (pair : jsstr * jsstr) : jsval := JArray [JStr pair.1; JStr pair.2].
Definition pairs_js (pairs : list (jsstr * jsstr)) : jsval := JArray (map pair_js pairs).

(** The values of type [HeadersInput | undefined]; the elements of an array and the
    properties of a record are whatever the caller put there. *)
Inductive HeadersInput :=
| NoHeaders
| HeadersObject (entries : list (jsstr * jsstr))      (* a [Headers] *)
| HeaderArray (pairs : list jsval)
| HeaderRecord (props : list (jsstr * jsval)).

(** The code points of a string, which is what iterating over it gives. *)
Fixpoint code_points (l : list N) : list jsstr :=
  match l with
  | [] => []
  | hi :: (lo :: rest) as l' =>
      if is_high_surrogate hi && is_low_surrogate lo then JsStr [hi; lo] :: code_points rest
      else JsStr [hi] :: code_points l'
  | [c] => [JsStr [c]]
  end.
(** [[...pair]]; [None] when the value is not iterable. *)
Definition spread_pair (pair : jsval) : option jsval :=
  match pair with
  | JArray l => Some (JArray l)
  | JStr s => Some (JArray (map JStr (code_points (units s))))
  | JBytes b => Some (JArray (map jint b))
  | _ => None
  end.
Definition header_entries (value : HeadersInput) : option jsval :=
  match value with
  | NoHeaders => Some (JArray [])
  | HeadersObject entries => Some (pairs_js entries)
  | HeaderArray pairs => JArray <$> mapM spread_pair pairs
  | HeaderRecord props => Some (JArray (map (fun '(k, v) => JArray [JStr k; v]) props))
  end.
Definition propagation_headers : list jsstr := ["traceparent"; "tracestate"; "baggage"].
Definition forwarded (pair : jsstr * jsstr) : bool :=
  negb (js_includes propagation_headers (to_lower pair.1)).
Definition headersFrom (value : HeadersInput) : result exn (list (jsstr * jsstr)) :=
  match header_entries value with
  | None => Throw ETypeError
  | Some pairs =>
      if negb (headerPairs pairs) then Throw ETypeError
      else Ok (List.filter forwarded (read_pairs pairs))
  end.

(** ** Diagnostics, with the services that sent no span *)

Definition legacyTraceId : jsstr := "11111111111111111111111111111111".
Definition legacySpanId : jsstr := "1111111111111111".
Definition schemaDiagnostics (value : jsval) : jsval :=
  if negb (record value) || has_key value "spanId" then value
  else
    let value := if negb (has_key value "traceId")
                 then spread_set value "traceId" (JStr legacyTraceId) else value in
    spread_set value "spanId" (JStr legacySpanId).

Definition validateDiagnosticEnvelope (name : WireContractName) (value : jsval) : bool :=
  if validateWire name value then true
  else if negb (record value) || negb (record (get value "diagnostics")) then false
  else
    let normalized := spread_set value "diagnostics" (schemaDiagnostics (get value "diagnostics")) in
    let normalized :=
      match name with
      | requestStatus =>
          if record (get value "error") then
            spread_set normalized "error"
              (spread_set (get value "error") "diagnostics"
                 (schemaDiagnostics (get (get value "error") "diagnostics")))
          else normalized
      | _ => normalized
      end in
    validateWire name normalized.

(** [/^(?!0{n}$)[a-f0-9]{n}$/] *)
Definition hex_unit (c : N) : bool := is_digit c || between 97 102 c.
Definition hex_id (n : Z) (s : jsstr) : bool :=
  class_test hex_unit n n s && negb (forallb (N.eqb 48) (units s)).

Definition diagnostics (value : jsval) (requestId : option jsstr) (attempt : option Z) : bool :=
  if negb (record value) || negb (validateWire Validators.diagnostics (schemaDiagnostics value)) then false
  else
    opaque (get value "requestId") &&
    match requestId with Some s => is_str (get value "requestId") s | None => true end &&
    match attempt with Some z => is_int (get value "attempt") z | None => true end &&
    match get value "tlsProfile" with
    | JStr profile => if js_eqb profile "" then is_str (get value "delivery") "not_started"
                      else profile_re profile
    | _ => false
    end &&
    (if is_undefined (get value "traceId") then is_undefined (get value "spanId")
     else str_test (hex_id 32) (get value "traceId") &&
          (is_undefined (get value "spanId") || str_test (hex_id 16) (get value "spanId"))) &&
    (is_undefined (get value "contextId") || opaque (get value "contextId")) &&
    (is_undefined (get value "clientReused") || is_boolean (get value "clientReused")) &&
    (is_undefined (get value "cookieRevision") ||
     is_some_int (nonnegativeInteger (get value "cookieRevision"))).

(** [typeof value === 'number' && lo <= value && value <= hi] *)
Definition number_between (lo hi : Z) (value : jsval) : bool :=
  match value with JNum n => negb (isNaN n) && negb (num_lt_Z n lo) && negb (num_gt_Z n hi) | _ => false end.

Definition responseMetadata (value : jsval) (requestId : jsstr) (attempt : Z) : bool :=
  validateDiagnosticEnvelope Validators.responseMetadata value && record value &&
  is_str (get value "requestId") requestId &&
  number_between 200 599 (get value "status") && headerPairs (get value "headers") &&
  diagnostics (get value "diagnostics") (Some requestId) (Some attempt) &&
  is_str (get (get value "diagnostics") "delivery") "response_started" &&
  (is_undefined (get value "cookieRevision") ||
   is_some_int (nonnegativeInteger (get value "cookieRevision"))).

Definition errorCode (value : jsval) : bool :=
  str_test (fun s => js_includes (map code_string ERROR_CODES) s) value.

(** ** Contexts and cookies *)

Definition contextInfo (value : jsval) : bool :=
  validateWire Validators.contextInfo value && record value &&
  opaque (get value "contextId") && opaque (get value "partition") &&
  record (get value "identity") &&
  str_test profile_re (get (get value "identity") "tlsProfile") &&
  (is_undefined (get (get value "identity") "userAgent") ||
   str_test (fun s => negb (line_re s)) (get (get value "identity") "userAgent")).

Definition cookie_record (cookie : jsval) : bool :=
  validateWire Validators.cookieRecord cookie && record cookie &&
  negb (is_null (get cookie "sameSite")) && negb (is_null (get cookie "expiresAtMs")).
Definition cookieRecords (value : jsval) : bool :=
  match value with JArray l => forallb cookie_record l | _ => false end.
Definition cookieSnapshot (value : jsval) : bool :=
  validateWire Validators.cookieSnapshot value && record value &&
  str_test (fun s => (0 <? js_length s) && (js_length s <=? 2048)) (get value "partitionKey") &&
  cookieRecords (get value "cookies").

(** ** Capabilities *)

Definition strings (value : jsval) : list jsstr :=
  match value with
  | JArray l => omap (fun v => match v with JStr s => Some s | _ => None end) l
  | _ => []
  end.
Definition includes (value : jsval) (s : jsstr) : bool := js_includes (strings value) s.
(** [value.length > 0] for a string or an array. *)
Definition nonempty (value : jsval) : bool :=
  match value with JStr s => 0 <? js_length s | JArray l => 0 <? zlength l | _ => false end.
Definition elements (value : jsval) : list jsval := match value with JArray l => l | _ => [] end.
Definition entries (value : jsval) : list (jsstr * jsval) :=
  match value with JObject props => props | _ => [] end.
Definition positive_at_most (limit : Z) (value : jsval) : bool :=
  match positive value with Some z => z <=? limit | None => false end.

Definition capabilities_descriptors (raw : jsval) : bool :=
  forallb (fun item => match get item "tlsProfile" with
                       | JStr s => includes (get raw "profiles") s
                       | _ => false
                       end && headerPairs (get item "headers"))
    (elements (get raw "headerDescriptors")).
Definition capabilities_aliases (raw : jsval) : bool :=
  forallb (fun '(alias, target) =>
      profile_re alias && negb (includes (get raw "profiles") alias) &&
      str_test (includes (get raw "profiles")) target)
    (entries (get raw "profileAliases")).
Definition capabilities_framing (raw : jsval) : bool :=
  let framing := get raw "framing" in
  is_str (get framing "contentType") CONTENT_TYPE &&
  positive_at_most FRAME_LIMIT (get framing "maxMetadataBytes") &&
  positive_at_most FRAME_LIMIT (get framing "maxDataBytes") &&
  is_some_int (positive (get framing "maxUploadFrames")).
Definition capabilities_limits (raw : jsval) : bool :=
  forallb (fun '(key, limit) =>
      if js_eqb key "maxQueued" || js_eqb key "maxQueuedPerPartition"
      then is_some_int (nonnegativeInteger limit) else is_some_int (positive limit))
    (entries (get raw "limits")).
Definition capabilities_modes (raw : jsval) : bool :=
  let modes := get raw "modes" in
  includes (get modes "stream") "upload" && includes (get modes "stream") "download" &&
  includes (get modes "cancel") "request" && includes (get modes "cancel") "stream-drop".

Definition capabilities (value : jsval) : bool :=
  if negb (validateWire Validators.capabilities value) || negb (record value) then false
  else
    is_str (get value "service") "ja3proxy" && nonempty (get value "build") &&
    nonempty (get value "profiles") && forallb profile_re (strings (get value "profiles")) &&
    capabilities_descriptors value && capabilities_aliases value &&
    capabilities_framing value && capabilities_limits value && capabilities_modes value.

(** [caps.profiles.includes(name)], then [Object.hasOwn(caps.profileAliases, name)] *)
Definition resolveProfile (caps : jsval) (name : jsstr) : option jsval :=
  if includes (get caps "profiles") name then Some (JStr name)
  else assoc name (entries (get caps "profileAliases")).

(** ** Copies *)

Definition copy_pair (pair : jsval) : jsval :=
  match pair with JArray (name :: content :: _) => JArray [name; content] | _ => JArray [JUndefined; JUndefined] end.
Definition copyResponseMetadata (value : jsval) : jsval :=
  JObject
    ([("requestId", get value "requestId"); ("status", get value "status");
      ("headers", JArray (map copy_pair (elements (get value "headers"))));
      ("diagnostics", copyDiagnostics (get value "diagnostics"))]
     ++ optional_field "cookieRevision" (get value "cookieRevision")).

Definition copyContextInfo (value : jsval) : jsval :=
  let identity := get value "identity" in
  JObject
    [("contextId", get value "contextId"); ("partition", get value "partition");
     ("expiresAtMs", get value "expiresAtMs"); ("revision", get value "revision");
     ("cookieMode", get value "cookieMode");
     ("identity", JObject
        ([("tlsProfile", get identity "tlsProfile"); ("emulateHeaders", get identity "emulateHeaders")]
         ++ optional_field "userAgent" (get identity "userAgent")))].

Definition copy_limits (limits : jsval) : jsval :=
  JObject (map (fun k => (k, get limits k))
    ["maxRequestBytes"; "maxResponseBytes"; "maxTimeoutMs"; "maxControlBytes"; "maxHeaders";
     "maxHeaderBytes"; "maxConcurrent"; "maxConcurrentPerPartition"; "maxQueued";
     "maxQueuedPerPartition"; "maxContexts"; "maxContextsPerPartition"; "contextIdleTtlMs";
     "contextMaxIdleTtlMs"; "contextMaxAgeMs"; "maxCookies"; "maxCookieBytes"; "maxEnvelopes";
     "envelopeTimeoutMs"; "maxCookieSize"; "maxAllowedOrigins"; "registryCapacity"; "registryTtlMs"]).
Definition copyCapabilities (value : jsval) : jsval :=
  let framing := get value "framing" in
  let modes := get value "modes" in
  JObject
    [("service", get value "service"); ("build", get value "build");
     ("profiles", JArray (elements (get value "profiles")));
     ("headerDescriptors", JArray (map (fun item =>
        JObject [("tlsProfile", get item "tlsProfile");
                 ("headers", JArray (map copy_pair (elements (get item "headers"))))])
        (elements (get value "headerDescriptors"))));
     ("profileAliases", JObject (entries (get value "profileAliases")));
     ("framing", JObject
        [("contentType", get framing "contentType"); ("maxMetadataBytes", get framing "maxMetadataBytes");
         ("maxDataBytes", get framing "maxDataBytes"); ("maxUploadFrames", get framing "maxUploadFrames")]);
     ("modes", JObject
        [("egress", JArray (elements (get modes "egress"))); ("cookies", JArray (elements (get modes "cookies")));
         ("stream", JArray (elements (get modes "stream"))); ("cancel", JArray (elements (get modes "cancel")))]);
     ("limits", copy_limits (get value "limits"))].

(** ** Metadata frames

    The text of a document is the host's [JSON.stringify], a parameter. *)
Definition jsonBytes (stringify : jsval -> jsstr) (value : jsval) (limit : Z) : result exn (list Z) :=
  let bytes := encode (stringify value) in
  if zlength bytes >? limit then Throw ERangeError else Ok bytes.

(** ** Reading a block of a validator *)

Lemma properties_elem ps v k c :
  properties_block ps v = true -> (k, c) ∈ ps -> is_undefined (get v k) = false ->
  c (get v k) = true.
Proof.
  induction ps as [|[k' c'] ps IH]; simpl; [set_solver|].
  destruct (if negb _ then _ else true) eqn:E; [|done]. intros Hps [H|H]%elem_of_cons Hu; [|by apply IH].
  simplify_eq. by rewrite Hu in E.
Qed.
Lemma missing_elem req v k : missing req v = false -> k ∈ req -> is_undefined (get v k) = false.
Proof.
  unfold missing. intros H Hk. destruct (is_undefined (get v k)) eqn:E; [|done].
  assert (existsb (fun k => is_undefined (get v k)) req = true); [|congruence].
  apply existsb_exists. exists k. split; [by apply list_elem_of_In | done].
Qed.
Lemma object_block_inv req ps v :
  object_block req ps v = true ->
  is_object v = true /\ missing req v = false /\ properties_block ps v = true.
Proof. unfold object_block. by destruct (is_object v), (missing req v). Qed.

Lemma uint_inv v : uint v = true -> exists z, v = jint z /\ 0 <= z <= MAX_SAFE_INTEGER.
Proof.
  unfold uint, integer_block. destruct v as [| | |[]| | | | |]; simpl; try done.
  intros H. exists z. split; [done|].
  destruct (Z.ltb_spec MAX_SAFE_INTEGER z); [done|]. destruct (Z.ltb_spec z 0); [done|]. lia.
Qed.
Lemma nullable_uint_inv v :
  nullable_uint v = true -> exists o, v = nullable o /\ (forall z, o = Some z -> 0 <= z <= MAX_SAFE_INTEGER).
Proof.
  intros H. destruct (is_null v) eqn:E.
  - destruct v; try done. by exists None.
  - assert (uint v = true) as Hu.
    { unfold nullable_uint, nullable_integer_block in H. rewrite E, andb_true_r in H. exact H. }
    apply uint_inv in Hu as (z & -> & Hz). exists (Some z). split; [done|]. by intros ? [= ->].
Qed.
Lemma enum_inv {A} (f : A -> jsstr) (all : list A) v :
  enum_block (map f all) v = true -> exists a, v = JStr (f a) /\ a ∈ all.
Proof.
  unfold enum_block. destruct v; try done. simpl. intros H. apply existsb_exists in H as (w & Hw & E).
  simpl in E. apply js_eqb_eq in E as ->. apply in_map_iff in Hw as (a & <- & Ha).
  exists a. split; [done|]. by apply list_elem_of_In.
Qed.
Lemma str_test_inv re v : str_test re v = true -> exists s, v = JStr s /\ re s = true.
Proof. destruct v; try done. simpl. eauto. Qed.
Lemma is_str_inv v s : is_str v s = true -> v = JStr s.
Proof. destruct v; try done. simpl. by intros ->%js_eqb_eq. Qed.
Lemma is_int_inv v z : is_int v z = true -> v = jint z.
Proof. destruct v as [| | |[]| | | | |]; try done. simpl. by intros ->%Z.eqb_eq. Qed.
Lemma nonnegative_inv v :
  is_some_int (nonnegativeInteger v) = true -> exists z, v = jint z /\ 0 <= z <= MAX_SAFE_INTEGER.
Proof.
  unfold is_some_int. intros [w Hw]%bool_decide_eq_true. destruct v as [| | |[]| | | | |]; try done.
  unfold nonnegativeInteger in Hw. destruct (isSafeInteger _ && _) eqn:E; [|done].
  apply andb_prop in E as [E1 E2]. cbn in E1. exists z. split; [done|]. lia.
Qed.
Lemma undefined_inv v : is_undefined v = true -> v = JUndefined.
Proof. by destruct v. Qed.

Lemma get_schemaDiagnostics v k :
  k <> "traceId" -> k <> "spanId" -> get (schemaDiagnostics v) k = get v k.
Proof.
  intros Ht Hs. unfold schemaDiagnostics. destruct (negb (record v) || _); [done|].
  rewrite get_spread_ne by done. destruct (negb _); [by rewrite get_spread_ne|done].
Qed.

(** ** Diagnostics a guard accepts are a typed record *)

Definition safe (z : Z) : Prop := 0 <= z <= MAX_SAFE_INTEGER.
Definition if_some {A : Type} (P : A -> Prop) (o : option A) : Prop := forall a, o = Some a -> P a.
Record well_formed (d : Ja3Diagnostics) : Prop := {
  wf_requestId : opaque_re (requestId d) = true;
  wf_attempt : safe (attempt d);
  wf_queueMs : safe (queueMs d);
  wf_headersMs : if_some safe (headersMs d);
  wf_bodyMs : if_some safe (bodyMs d);
  wf_totalMs : safe (totalMs d);
  wf_requestBytes : safe (requestBytes d);
  wf_responseBytes : safe (responseBytes d);
  wf_tlsProfile : (tlsProfile d = "" /\ delivery d = not_started) \/ profile_re (tlsProfile d) = true;
  wf_traceId : if_some (fun s => hex_id 32 s = true) (traceId d);
  wf_spanId : if_some (fun s => hex_id 16 s = true /\ is_Some (traceId d)) (spanId d);
  wf_contextId : if_some (fun s => opaque_re s = true) (contextId d);
  wf_cookieRevision : if_some safe (cookieRevision d);
}.

Lemma diagnostics_field v k c :
  validate16 (schemaDiagnostics v) = true ->
  In (k, c) (diagnostics_head ++ diagnostics_middle ++ diagnostics_tail) ->
  In k diagnostics_required -> k <> "traceId" -> k <> "spanId" -> c (get v k) = true.
Proof.
  intros (_ & Hm & Hp)%object_block_inv Hkc Hk Ht Hs.
  rewrite <- get_schemaDiagnostics by done.
  apply (properties_elem _ _ _ _ Hp); [by apply list_elem_of_In|].
  apply (missing_elem _ _ _ Hm). by apply list_elem_of_In.
Qed.

(** The typed value of a field of accepted diagnostics. *)
Tactic Notation "field" constr(H) constr(k) "by" uconstr(inv) "as" simple_intropattern(pat) :=
  let F := fresh in
  pose proof (diagnostics_field _ k _ H ltac:(simpl; tauto) ltac:(simpl; tauto)
    ltac:(discriminate) ltac:(discriminate)) as F;
  apply inv in F; destruct F as pat.

Lemma optional_inv {A} (f : A -> jsval) (P : A -> Prop) (b : bool) v :
  is_undefined v || b = true ->
  (b = true -> exists a, v = f a /\ P a) -> exists o, v = opt_js f o /\ if_some P o.
Proof.
  destruct (is_undefined v) eqn:E; simpl; intros Hb H.
  - exists None. split; [by apply undefined_inv | done].
  - destruct (H Hb) as (a & -> & Ha). exists (Some a). split; [done|]. by intros ? [= <-].
Qed.

Lemma trace_inv trace span :
  (if is_undefined trace then is_undefined span
   else str_test (hex_id 32) trace && (is_undefined span || str_test (hex_id 16) span)) = true ->
  exists tr sp, trace = opt_js JStr tr /\ span = opt_js JStr sp /\
    if_some (fun s => hex_id 32 s = true) tr /\
    if_some (fun s => hex_id 16 s = true /\ is_Some tr) sp.
Proof.
  destruct (is_undefined trace) eqn:E.
  - intros Es. exists None, None. split_and!; [by apply undefined_inv|by apply undefined_inv|done|done].
  - intros [(tr & -> & Htr)%str_test_inv Hs]%andb_prop.
    destruct (optional_inv JStr (fun s => hex_id 16 s = true) _ _ Hs) as (sp & -> & Hsp);
      [by intros (s & ? & ?)%str_test_inv; exists s|].
    exists (Some tr), sp. split_and!; try done.
    + by intros ? [= <-].
    + intros s Es. split; [by apply Hsp | by exists tr].
Qed.

Lemma diagnostics_sound value rid att :
  diagnostics value rid att = true ->
  exists d, well_formed d /\ copyDiagnostics value = diagnostics_js d /\
    if_some (eq (requestId d)) rid /\ if_some (eq (attempt d)) att.
Proof.
  unfold diagnostics. destruct (negb (record value) || _) eqn:E; [done|].
  apply orb_false_elim in E as [_ Hv%negb_false_iff]. cbn [validateWire] in Hv.
  rewrite !andb_true_iff.
  intros [[[[[[[Hid Hrid] Hatt] Hprofile] Htrace] Hctx] Hreused] Hrev].
  apply str_test_inv in Hid as (id & Eid & Hid).
  field Hv "attempt" by uint_inv as (att' & Eatt & Hatt').
  field Hv "queueMs" by uint_inv as (queue & Equeue & Hqueue).
  field Hv "headersMs" by nullable_uint_inv as (hms & Ehms & Hhms).
  field Hv "bodyMs" by nullable_uint_inv as (bms & Ebms & Hbms).
  field Hv "totalMs" by uint_inv as (total & Etotal & Htotal).
  field Hv "requestBytes" by uint_inv as (reqb & Ereqb & Hreqb).
  field Hv "responseBytes" by uint_inv as (resb & Eresb & Hresb).
  field Hv "phase" by (enum_inv phase_string PHASES) as (ph & Eph & _).
  field Hv "delivery" by (enum_inv delivery_string DELIVERIES) as (del & Edel & _).
  destruct (optional_inv JStr (fun s => opaque_re s = true) _ _ Hctx) as (ctx & Ectx & Hctx');
    [by intros (s & ? & ?)%str_test_inv; exists s|].
  destruct (optional_inv JBool (fun _ => True) _ _ Hreused) as (reused & Ereused & _);
    [intros; destruct (get value "clientReused"); try done; by exists b|].
  destruct (optional_inv jint safe _ _ Hrev) as (rev & Erev & Hrev'); [by intros ?%nonnegative_inv|].
  destruct (trace_inv _ _ Htrace) as (tr & sp & Etr & Esp & Htr & Hsp).
  assert (exists profile, get value "tlsProfile" = JStr profile /\
    ((profile = "" /\ del = not_started) \/ profile_re profile = true)) as (profile & Eprofile & Hprof).
  { destruct (get value "tlsProfile"); try done. exists s. split; [done|].
    destruct (js_eqb s "") eqn:Es; [left | by right]. apply js_eqb_eq in Es as ->.
    rewrite Edel in Hprofile. split; [done|]. by destruct del. }
  exists {| requestId := id; attempt := att'; phase := ph; delivery := del; queueMs := queue;
    headersMs := hms; bodyMs := bms; totalMs := total; requestBytes := reqb; responseBytes := resb;
    tlsProfile := profile; traceId := tr; spanId := sp; clientReused := reused; contextId := ctx;
    cookieRevision := rev |}.
  split; [by constructor|]. split.
  - unfold copyDiagnostics, diagnostics_js. cbn -[optional_field].
    by rewrite Eid, Eatt, Eph, Edel, Equeue, Ehms, Ebms, Etotal, Ereqb, Eresb, Eprofile, Etr, Esp,
      Ereused, Ectx, Erev.
  - split; intros ? ->; cbn.
    + apply is_str_inv in Hrid. congruence.
    + apply is_int_inv in Hatt. unfold jint in *. congruence.
Qed.

(** ** Conversely, a well-formed record passes the guard *)

Lemma properties_intro ps v :
  (forall k c, In (k, c) ps -> is_undefined (get v k) = false -> c (get v k) = true) ->
  properties_block ps v = true.
Proof.
  induction ps as [|[k c] ps IH]; [done|]. intros H. simpl.
  destruct (is_undefined (get v k)) eqn:E; simpl.
  - apply IH. intros k' c' Hin. apply H. by right.
  - rewrite (H k c) by (simpl; auto). apply IH. intros k' c' Hin. apply H. by right.
Qed.
Lemma uint_safe z : safe z -> uint (jint z) = true.
Proof.
  intros [H1 H2]. unfold uint, integer_block. cbn -[MAX_SAFE_INTEGER].
  rewrite (proj2 (Z.ltb_ge _ _)), (proj2 (Z.ltb_ge _ _)) by done. done.
Qed.
Lemma nullable_uint_safe o : if_some safe o -> nullable_uint (nullable o) = true.
Proof. destruct o as [z|]; [|done]. intros H. apply (uint_safe z (H z eq_refl)). Qed.
Lemma nonnegative_safe z : safe z -> is_some_int (nonnegativeInteger (jint z)) = true.
Proof.
  intros [H1 H2]. unfold nonnegativeInteger, jint. cbn -[MAX_SAFE_INTEGER].
  rewrite (proj2 (Z.leb_le _ _)), (proj2 (Z.leb_le _ _)) by lia. done.
Qed.
(** An element of a list that is written out. *)
Ltac in_list := repeat first [left; reflexivity | right].
Lemma enum_ok {A} (f : A -> jsstr) (all : list A) a :
  a ∈ all -> enum_block (map f all) (JStr (f a)) = true.
Proof.
  intros Ha. unfold enum_block. simpl. apply existsb_exists. exists (f a).
  split; [by apply in_map, list_elem_of_In | apply js_eqb_refl].
Qed.

(** The fields of a typed record. *)
Definition field_value (d : Ja3Diagnostics) (k : jsstr) : jsval :=
  if decide (k = "requestId") then JStr (requestId d)
  else if decide (k = "attempt") then jint (attempt d)
  else if decide (k = "phase") then JStr (phase_string (phase d))
  else if decide (k = "delivery") then JStr (delivery_string (delivery d))
  else if decide (k = "queueMs") then jint (queueMs d)
  else if decide (k = "headersMs") then nullable (headersMs d)
  else if decide (k = "bodyMs") then nullable (bodyMs d)
  else if decide (k = "totalMs") then jint (totalMs d)
  else if decide (k = "requestBytes") then jint (requestBytes d)
  else if decide (k = "responseBytes") then jint (responseBytes d)
  else if decide (k = "tlsProfile") then JStr (tlsProfile d)
  else if decide (k = "traceId") then opt_js JStr (traceId d)
  else if decide (k = "spanId") then opt_js JStr (spanId d)
  else if decide (k = "clientReused") then opt_js JBool (clientReused d)
  else if decide (k = "contextId") then opt_js JStr (contextId d)
  else if decide (k = "cookieRevision") then opt_js jint (cookieRevision d)
  else JUndefined.

Lemma get_diagnostics_js d k :
  In k (map fst (diagnostics_head ++ diagnostics_middle ++ diagnostics_tail)) ->
  get (diagnostics_js d) k = field_value d k.
Proof.
  destruct d as [???????????[] [] [] [] []]; simpl;
    intros Hk; repeat destruct Hk as [<-|Hk]; try done; reflexivity.
Qed.

Lemma schema_references d :
  if_some (fun _ => is_Some (traceId d)) (spanId d) ->
  is_string (get (schemaDiagnostics (diagnostics_js d)) "traceId") = true /\
  is_string (get (schemaDiagnostics (diagnostics_js d)) "spanId") = true.
Proof.
  intros H. destruct d as [???????????[] [] [] [] []]; try (split; reflexivity);
    destruct (H _ eq_refl); done.
Qed.
Lemma schema_is_object v : is_object v = true -> is_object (schemaDiagnostics v) = true.
Proof.
  intros H. unfold schemaDiagnostics. destruct (negb (record v) || _); [done|].
  by destruct v, (negb (has_key _ "traceId")).
Qed.

Lemma string_defined v : is_string v = true -> is_undefined v = false.
Proof. by destruct v. Qed.

Lemma defined_field d k :
  In k ["requestId"; "attempt"; "phase"; "delivery"; "queueMs"; "headersMs"; "bodyMs"; "totalMs";
        "requestBytes"; "responseBytes"; "tlsProfile"] ->
  is_undefined (field_value d k) = false.
Proof.
  simpl. intros Hk. repeat destruct Hk as [<-|Hk]; try reflexivity; try done.
  - change (is_undefined (nullable (headersMs d)) = false). by destruct (headersMs d).
  - change (is_undefined (nullable (bodyMs d)) = false). by destruct (bodyMs d).
Qed.

Lemma validate16_typed d :
  well_formed d -> validate16 (schemaDiagnostics (diagnostics_js d)) = true.
Proof.
  intros []. destruct (schema_references d) as [Htr Hsp]; [by intros s [_ ?]%wf_spanId0|].
  assert (forall k, In k (map fst (diagnostics_head ++ diagnostics_middle ++ diagnostics_tail)) ->
    k <> "traceId" -> k <> "spanId" ->
    get (schemaDiagnostics (diagnostics_js d)) k = field_value d k) as Hget.
  { intros k Hin H1 H2. rewrite get_schemaDiagnostics by done. by apply get_diagnostics_js. }
  unfold validate16, object_block. rewrite schema_is_object by done.
  assert (missing diagnostics_required (schemaDiagnostics (diagnostics_js d)) = false) as ->.
  { unfold missing. apply not_true_is_false. intros (k & Hk & Hu)%existsb_exists.
    simpl in Hk. repeat destruct Hk as [<-|Hk]; try done;
      try (rewrite Hget, defined_field in Hu by (simpl; tauto || discriminate); done).
    - by rewrite (string_defined _ Htr) in Hu.
    - by rewrite (string_defined _ Hsp) in Hu. }
  apply properties_intro. intros k c Hkc. simpl in Hkc.
  repeat destruct Hkc as [[= <- <-]|Hkc]; try done;
    try (rewrite Hget by (simpl; tauto || discriminate)); intros Hu.
  - by apply (uint_safe (attempt d)).
  - by apply (nullable_uint_safe (bodyMs d)).
  - change (nullable_boolean_block (opt_js JBool (clientReused d)) = true).
    change (is_undefined (opt_js JBool (clientReused d)) = false) in Hu. by destruct (clientReused d).
  - change (nullable_string_block (opt_js JStr (contextId d)) = true).
    change (is_undefined (opt_js JStr (contextId d)) = false) in Hu. by destruct (contextId d).
  - change (nullable_uint (opt_js jint (cookieRevision d)) = true).
    change (is_undefined (opt_js jint (cookieRevision d)) = false) in Hu.
    destruct (cookieRevision d) as [z|]; [|done]. apply (nullable_uint_safe (Some z)).
    by intros ? [= <-]; apply wf_cookieRevision0.
  - apply (enum_ok delivery_string DELIVERIES (delivery d)). apply list_elem_of_In. destruct (delivery d); in_list.
  - by apply (nullable_uint_safe (headersMs d)).
  - apply (enum_ok phase_string PHASES (phase d)). apply list_elem_of_In. destruct (phase d); in_list.
  - by apply (uint_safe (queueMs d)).
  - by apply (uint_safe (requestBytes d)).
  - reflexivity.
  - by apply (uint_safe (responseBytes d)).
  - reflexivity.
  - by apply (uint_safe (totalMs d)).
Qed.

Lemma str_eq_refl s : is_str (JStr s) s = true.
Proof. apply js_eqb_refl. Qed.

Lemma diagnostics_complete d :
  well_formed d -> diagnostics (diagnostics_js d) (Some (requestId d)) (Some (attempt d)) = true.
Proof.
  intros Hd. pose proof (validate16_typed d Hd) as Hv. destruct Hd. unfold diagnostics.
  cbn [validateWire]. rewrite Hv. change (record (diagnostics_js d)) with true. cbn [negb orb].
  rewrite !get_diagnostics_js by (simpl; tauto).
  rewrite !andb_true_iff. split_and!.
  - exact wf_requestId0.
  - apply str_eq_refl.
  - apply Z.eqb_refl.
  - change (match JStr (tlsProfile d) with
            | JStr profile => if js_eqb profile "" then is_str (JStr (delivery_string (delivery d))) "not_started"
                              else profile_re profile
            | _ => false end = true).
    destruct wf_tlsProfile0 as [[-> ->]|Hp]; [done|].
    destruct (js_eqb (tlsProfile d) "") eqn:E; [|done]. apply js_eqb_eq in E. by rewrite E in Hp.
  - change ((if is_undefined (opt_js JStr (traceId d)) then is_undefined (opt_js JStr (spanId d))
      else str_test (hex_id 32) (opt_js JStr (traceId d)) &&
        (is_undefined (opt_js JStr (spanId d)) || str_test (hex_id 16) (opt_js JStr (spanId d)))) = true).
    destruct (traceId d) as [tr|]; cbn [opt_js is_undefined str_test].
    + rewrite (wf_traceId0 _ eq_refl). destruct (spanId d) as [sp|]; [|done].
      destruct (wf_spanId0 sp eq_refl) as [Hs _]. exact Hs.
    + destruct (spanId d) as [sp|]; [|done]. by destruct (wf_spanId0 sp eq_refl) as [_ [? ?]].
  - change (is_undefined (opt_js JStr (contextId d)) || opaque (opt_js JStr (contextId d)) = true).
    destruct (contextId d) as [c|]; [|done]. apply (wf_contextId0 c eq_refl).
  - change (is_undefined (opt_js JBool (clientReused d)) || is_boolean (opt_js JBool (clientReused d)) = true).
    by destruct (clientReused d).
  - change (is_undefined (opt_js jint (cookieRevision d)) ||
            is_some_int (nonnegativeInteger (opt_js jint (cookieRevision d))) = true).
    destruct (cookieRevision d) as [z|]; [|done]. apply (nonnegative_safe z), wf_cookieRevision0. done.
Qed.

(** ** Headers *)

Definition header_ok (pair : jsstr * jsstr) : Prop :=
  token_re pair.1 = true /\ line_re pair.2 = false.

Lemma header_pair_inv v : header_pair v = true -> exists p, v = pair_js p /\ header_ok p.
Proof.
  destruct v as [| | | | |[|n [|c [|? ?]]]| | |]; try done. cbn [header_pair].
  intros [(s & -> & Hs)%str_test_inv (t & -> & Ht%negb_true_iff)%str_test_inv]%andb_prop.
  by exists (s, t).
Qed.
Lemma header_pair_ok p : header_ok p -> header_pair (pair_js p) = true.
Proof. intros [H1 H2]. unfold pair_js, header_pair, str_test. by rewrite H1, H2. Qed.
Lemma read_pairs_js ps : read_pairs (pairs_js ps) = ps.
Proof.
  induction ps as [|[n c] ps IH]; [done|].
  change ((n, c) :: read_pairs (pairs_js ps) = (n, c) :: ps). by rewrite IH.
Qed.

(** An accepted list of pairs is the list of its readings. *)
Lemma headerPairs_inv v :
  headerPairs v = true -> v = pairs_js (read_pairs v) /\ Forall header_ok (read_pairs v).
Proof.
  destruct v; try done. cbn [headerPairs]. induction l as [|x l IH]; [by split|].
  cbn [forallb]. intros [([n c] & -> & Hp)%header_pair_inv Hl]%andb_prop. destruct (IH Hl) as [E Hall].
  change (read_pairs (JArray (pair_js (n, c) :: l))) with ((n, c) :: read_pairs (JArray l)).
  split; [|by constructor]. unfold pairs_js. cbn [map]. unfold pairs_js in E. congruence.
Qed.
Lemma headerPairs_ok ps : Forall header_ok ps -> headerPairs (pairs_js ps) = true.
Proof.
  unfold headerPairs, pairs_js. induction 1 as [|p ps Hp _ IH]; [done|]. cbn [map forallb].
  by rewrite header_pair_ok, IH.
Qed.

Lemma spread_pairs_js ps : mapM spread_pair (map pair_js ps) = Some (map pair_js ps).
Proof. induction ps as [|p ps IH]; [done|]. cbn [map mapM]. simpl. simpl in IH. by rewrite IH. Qed.

Lemma Forall_filter_keep {A} (P : A -> Prop) f l : Forall P l -> Forall P (List.filter f l).
Proof. induction 1; simpl; [constructor|]. destruct (f x); [by constructor | done]. Qed.
Lemma filter_filter_same {A} (f : A -> bool) l : List.filter f (List.filter f l) = List.filter f l.
Proof. induction l as [|x l IH]; simpl; [done|]. destruct (f x) eqn:E; simpl; by rewrite ?E, IH. Qed.

(** C17: diagnostics a guard accepts are exactly the typed records.  Whatever document
    arrives, if the guard accepts it then the copy the SDK keeps is the object of a
    well-formed record for the expected request and attempt: every count is a safe
    integer and every optional field is absent or well formed, never null. *)
Theorem diagnostics_guard_sound value rid att :
  diagnostics value rid att = true ->
  exists d, well_formed d /\ copyDiagnostics value = diagnostics_js d /\
    if_some (eq (requestId d)) rid /\ if_some (eq (attempt d)) att.
Proof. apply diagnostics_sound. Qed.

Definition demo_diagnostics : Ja3Diagnostics := {|
  requestId := "r-1"; attempt := 0; phase := complete; delivery := response_started; queueMs := 1;
  headersMs := Some 2; bodyMs := None; totalMs := 9; requestBytes := 0; responseBytes := 4;
  tlsProfile := "chrome_131"; traceId := None; spanId := None; clientReused := Some true;
  contextId := None; cookieRevision := Some 3 |}.
Lemma demo_well_formed : well_formed demo_diagnostics.
Proof.
  constructor; unfold safe, if_some, demo_diagnostics; cbn; intros; simplify_eq;
    try (vm_compute; split; congruence); try done. by right.
Qed.

Lemma diagnostics_guard_sound_witness :
  exists d, well_formed d /\ copyDiagnostics (diagnostics_js demo_diagnostics) = diagnostics_js d /\
    if_some (eq (requestId d)) (Some "r-1") /\ if_some (eq (attempt d)) (Some 0).
Proof. apply (diagnostics_guard_sound (diagnostics_js demo_diagnostics)). vm_compute. reflexivity. Defined.

(** Compatibility with services that send no trace or span.  Every well-formed
    record passes the guard for its own request and attempt, also when it has no trace
    identifier, or one but no span, which the generated schema alone rejects. *)
Theorem diagnostics_guard_complete d :
  well_formed d ->
  diagnostics (diagnostics_js d) (Some (requestId d)) (Some (attempt d)) = true /\
  (traceId d = None -> validateWire Validators.diagnostics (diagnostics_js d) = false).
Proof.
  intros Hd. split; [by apply diagnostics_complete|]. intros Ht. cbn [validateWire].
  destruct (validate16 (diagnostics_js d)) eqn:E; [|done].
  apply object_block_inv in E as (_ & Hm & _).
  assert (is_undefined (get (diagnostics_js d) "traceId") = false) as Hu
    by (apply (missing_elem _ _ _ Hm), list_elem_of_In; simpl; tauto).
  rewrite get_diagnostics_js in Hu by (simpl; tauto).
  change (is_undefined (opt_js JStr (traceId d)) = false) in Hu. by rewrite Ht in Hu.
Qed.

Lemma diagnostics_guard_complete_witness :
  diagnostics (diagnostics_js demo_diagnostics) (Some "r-1") (Some 0) = true /\
  (traceId demo_diagnostics = None ->
    validateWire Validators.diagnostics (diagnostics_js demo_diagnostics) = false).
Proof. apply (diagnostics_guard_complete demo_diagnostics), demo_well_formed. Defined.

(** What [headersFrom] lets through is well formed and free of tracing headers. *)
Lemma headersFrom_clean value pairs :
  headersFrom value = Ok pairs -> Forall header_ok pairs /\ Forall (fun p => forwarded p = true) pairs.
Proof.
  unfold headersFrom. destruct (header_entries value) as [v|]; [|done].
  destruct (headerPairs v) eqn:E; [|done]. intros [= <-].
  destruct (headerPairs_inv v E) as [_ Hall]. split; [by apply Forall_filter_keep|].
  apply Forall_forall. intros p Hp%list_elem_of_In%filter_In. by destruct Hp.
Qed.

(** Request headers.  Accepted headers are tokens with values free of line breaks,
    the tracing headers of the caller's own process are dropped whatever their case, no
    other header is, their order is kept, and normalizing twice changes nothing. *)
Theorem headersFrom_sound value pairs :
  headersFrom value = Ok pairs ->
  Forall header_ok pairs /\ Forall (fun p => forwarded p = true) pairs /\
  (exists all, header_entries value = Some (pairs_js all) /\ pairs = List.filter forwarded all) /\
  headersFrom (HeaderArray (map pair_js pairs)) = Ok pairs.
Proof.
  intros Hpairs. destruct (headersFrom_clean value pairs Hpairs) as [Hok Hfwd]. revert Hpairs.
  unfold headersFrom. destruct (header_entries value) as [v|]; [|done].
  destruct (headerPairs v) eqn:E; [|done]. intros [= <-].
  destruct (headerPairs_inv v E) as [Ev Hall]. set (all := read_pairs v) in *.
  split_and!; [done|done|by exists all; rewrite Ev|].
  - cbn [header_entries]. rewrite spread_pairs_js. cbn [fmap option_fmap option_map].
    change (JArray (map pair_js ?ps)) with (pairs_js ps).
    rewrite headerPairs_ok, read_pairs_js by done. cbn [negb]. by rewrite filter_filter_same.
Qed.

Lemma headersFrom_sound_witness :
  let pairs := [("Accept", "text/html"); ("X-A", "1")] in
  Forall header_ok pairs /\ Forall (fun p => forwarded p = true) pairs /\
  (exists all, header_entries (HeaderRecord
      [("Accept", JStr "text/html"); ("TraceParent", JStr "00"); ("X-A", JStr "1")])
      = Some (pairs_js all) /\ pairs = List.filter forwarded all) /\
  headersFrom (HeaderArray (map pair_js pairs)) = Ok pairs.
Proof.
  apply (headersFrom_sound (HeaderRecord
    [("Accept", JStr "text/html"); ("TraceParent", JStr "00"); ("X-A", JStr "1")])).
  vm_compute. reflexivity.
Defined.

(** ** Capabilities *)

Lemma positive_inv v : is_some_int (positive v) = true -> exists z, v = jint z /\ 0 < z <= MAX_SAFE_INTEGER.
Proof.
  unfold is_some_int. intros [w Hw]%bool_decide_eq_true. destruct v as [| | |[]| | | | |]; try done.
  unfold positive in Hw. destruct (isSafeInteger _ && _) eqn:E; [|done].
  apply andb_prop in E as [E1 E2]. cbn in E1. exists z. split; [done|]. lia.
Qed.
Lemma positive_at_most_inv limit v :
  positive_at_most limit v = true -> exists z, v = jint z /\ 0 < z <= limit.
Proof.
  unfold positive_at_most. destruct (positive v) as [z|] eqn:E; [|done]. intros Hz%Z.leb_le.
  destruct (positive_inv v) as (z' & -> & Hz'); [unfold is_some_int; by rewrite E|].
  unfold positive, jint in E. destruct (_ && _); [|done]. simplify_eq. exists z. split; [done|]. lia.
Qed.
Lemma get_entries v k : is_undefined (get v k) = false -> In (k, get v k) (entries v).
Proof.
  destruct v; try done. simpl. destruct (assoc k props) as [w|] eqn:E; [|done].
  intros _. simpl. apply list_elem_of_In. by apply assoc_Some_in.
Qed.

Lemma capabilities_inv caps :
  capabilities caps = true ->
  validate25 caps = true /\ forallb profile_re (strings (get caps "profiles")) = true /\
  capabilities_descriptors caps = true /\ capabilities_aliases caps = true /\
  capabilities_framing caps = true /\ capabilities_limits caps = true /\ capabilities_modes caps = true.
Proof.
  unfold capabilities. destruct (negb _ || _) eqn:E; [done|].
  apply orb_false_elim in E as [Hv%negb_false_iff _]. rewrite !andb_true_iff. by intuition.
Qed.

(** A required limit is a number, positive unless it bounds a queue. *)
Lemma limit_inv caps k :
  capabilities caps = true -> In k limits_required ->
  exists z, get (get caps "limits") k = jint z /\ 0 <= z <= MAX_SAFE_INTEGER /\
    (k <> "maxQueued" -> k <> "maxQueuedPerPartition" -> 0 < z).
Proof.
  intros (Hv & _ & _ & _ & _ & Hl & _)%capabilities_inv Hk.
  apply object_block_inv in Hv as (_ & Hm & Hp).
  assert (limits_block (get caps "limits") = true) as Hlimits.
  { apply (properties_elem _ _ _ _ Hp); [apply list_elem_of_In; simpl; tauto|].
    apply (missing_elem _ _ _ Hm), list_elem_of_In. simpl. tauto. }
  apply object_block_inv in Hlimits as (_ & Hm' & _).
  assert (is_undefined (get (get caps "limits") k) = false) as Hu
    by (apply (missing_elem _ _ _ Hm'), list_elem_of_In; done).
  unfold capabilities_limits in Hl. rewrite forallb_forall in Hl.
  specialize (Hl _ (get_entries _ _ Hu)). simpl in Hl.
  destruct (js_eqb k "maxQueued" || js_eqb k "maxQueuedPerPartition") eqn:E.
  - apply nonnegative_inv in Hl as (z & -> & Hz). exists z. split_and!; try done; try lia.
    intros H1 H2. apply orb_prop in E as [E|E]; by apply js_eqb_eq in E.
  - apply positive_inv in Hl as (z & -> & Hz). exists z. split_and!; try done; lia.
Qed.

(** Accepted capabilities can be used.  The frame limits they advertise are
    positive and at most one frame, the admission limits are positive numbers, and a
    profile name or alias resolves to a concrete profile the service offers. *)
Theorem capabilities_usable caps :
  capabilities caps = true ->
  (exists metadata data frames,
     get (get caps "framing") "maxMetadataBytes" = jint metadata /\ 0 < metadata <= FRAME_LIMIT /\
     get (get caps "framing") "maxDataBytes" = jint data /\ 0 < data <= FRAME_LIMIT /\
     get (get caps "framing") "maxUploadFrames" = jint frames /\ 0 < frames <= MAX_SAFE_INTEGER) /\
  (exists concurrent perPartition queued queuedPerPartition,
     get (get caps "limits") "maxConcurrent" = jint concurrent /\ 0 < concurrent /\
     get (get caps "limits") "maxConcurrentPerPartition" = jint perPartition /\ 0 < perPartition /\
     get (get caps "limits") "maxQueued" = jint queued /\ 0 <= queued /\
     get (get caps "limits") "maxQueuedPerPartition" = jint queuedPerPartition /\ 0 <= queuedPerPartition) /\
  (forall name v, resolveProfile caps name = Some v ->
     exists profile, v = JStr profile /\ includes (get caps "profiles") profile = true /\
       profile_re profile = true /\
       (includes (get caps "profiles") name = true -> profile = name)).
Proof.
  intros Hc. pose proof (capabilities_inv caps Hc) as (_ & Hre & _ & Hal & Hf & _ & _). split; [|split].
  - unfold capabilities_framing in Hf. rewrite !andb_true_iff in Hf. destruct Hf as [[[_ H1] H2] H3].
    apply positive_at_most_inv in H1 as (m & ? & ?), H2 as (d & ? & ?).
    apply positive_inv in H3 as (f & ? & ?). by exists m, d, f.
  - destruct (limit_inv caps "maxConcurrent" Hc ltac:(in_list)) as (c & ? & ? & Hc').
    destruct (limit_inv caps "maxConcurrentPerPartition" Hc ltac:(in_list)) as (p & ? & ? & Hp).
    destruct (limit_inv caps "maxQueued" Hc ltac:(in_list)) as (q & ? & ? & _).
    destruct (limit_inv caps "maxQueuedPerPartition" Hc ltac:(in_list)) as (qp & ? & ? & _).
    specialize (Hc' ltac:(discriminate) ltac:(discriminate)).
    specialize (Hp ltac:(discriminate) ltac:(discriminate)).
    exists c, p, q, qp. split_and!; try done; lia.
  - assert (forall p, includes (get caps "profiles") p = true -> profile_re p = true) as Hprof.
    { intros p Hp. rewrite forallb_forall in Hre. apply Hre, list_elem_of_In.
      by apply bool_decide_eq_true in Hp. }
    intros name v. unfold resolveProfile. destruct (includes (get caps "profiles") name) eqn:E.
    + intros [= <-]. exists name. split_and!; auto.
    + intros Ha%assoc_Some_in%list_elem_of_In. unfold capabilities_aliases in Hal.
      rewrite forallb_forall in Hal. specialize (Hal _ Ha). simpl in Hal.
      rewrite !andb_true_iff in Hal. destruct Hal as [_ (p & -> & Hp)%str_test_inv].
      exists p. split_and!; auto; done.
Qed.

Definition demo_capabilities : jsval := JObject
  [("service", JStr "ja3proxy"); ("build", JStr "1"); ("profiles", JArray [JStr "chrome_131"]);
   ("headerDescriptors", JArray []); ("profileAliases", JObject [("chrome", JStr "chrome_131")]);
   ("framing", JObject [("contentType", JStr CONTENT_TYPE); ("maxMetadataBytes", jint 65536);
     ("maxDataBytes", jint 65536); ("maxUploadFrames", jint 1024)]);
   ("limits", JObject (map (fun k => (k, jint 8)) limits_required));
   ("modes", JObject [("egress", JArray []); ("cookies", JArray []);
     ("stream", JArray [JStr "upload"; JStr "download"]);
     ("cancel", JArray [JStr "request"; JStr "stream-drop"])])].

Lemma capabilities_usable_witness :
  exists profile, JStr "chrome_131" = JStr profile /\
    includes (get demo_capabilities "profiles") profile = true /\ profile_re profile = true /\
    (includes (get demo_capabilities "profiles") "chrome" = true -> profile = "chrome").
Proof.
  refine (proj2 (proj2 (capabilities_usable demo_capabilities _)) "chrome" _ _);
    vm_compute; reflexivity.
Defined.

(** ** Response metadata *)

Record ResponseMetadata := {
  meta_requestId : jsstr;
  status : Z;
  headers : list (jsstr * jsstr);
  meta_diagnostics : Ja3Diagnostics;
  meta_cookieRevision : option Z;
}.
Definition responseMetadata_js (m : ResponseMetadata) : jsval :=
  JObject
    ([("requestId", JStr (meta_requestId m)); ("status", jint (status m));
      ("headers", pairs_js (headers m)); ("diagnostics", diagnostics_js (meta_diagnostics m))]
     ++ optional_field "cookieRevision" (opt_js jint (meta_cookieRevision m))).

(** A property of an envelope that is not its diagnostics passed its block. *)
Lemma envelope_status value :
  validateDiagnosticEnvelope Validators.responseMetadata value = true ->
  integer_block 65535 (get value "status") = true.
Proof.
  assert (forall v, validate13 v = true -> integer_block 65535 (get v "status") = true) as Hinv.
  { intros v (_ & Hm & Hp)%object_block_inv.
    apply (properties_elem _ _ _ _ Hp); [apply list_elem_of_In; simpl; tauto|].
    apply (missing_elem _ _ _ Hm), list_elem_of_In. simpl. tauto. }
  unfold validateDiagnosticEnvelope. cbn [validateWire].
  destruct (validate13 value) eqn:E; [by intros _; apply Hinv|].
  destruct (negb _ || _); [done|]. intros H%Hinv. by rewrite get_spread_ne in H.
Qed.
Lemma integer_inv limit v :
  integer_block limit v = true -> exists z, v = jint z /\ 0 <= z <= limit.
Proof.
  unfold integer_block. destruct v as [| | |[]| | | | |]; simpl; try done.
  intros H. exists z. split; [done|].
  destruct (Z.ltb_spec limit z); [done|]. destruct (Z.ltb_spec z 0); [done|]. lia.
Qed.
Lemma copy_pairs_js ps : map copy_pair (elements (pairs_js ps)) = map pair_js ps.
Proof. induction ps as [|p ps IH]; [done|]. cbn. by f_equal. Qed.

Lemma responseMetadata_typed value rid att :
  responseMetadata value rid att = true ->
  exists m, copyResponseMetadata value = responseMetadata_js m /\
    meta_requestId m = rid /\ 200 <= status m <= 599 /\ Forall header_ok (headers m) /\
    well_formed (meta_diagnostics m) /\ requestId (meta_diagnostics m) = rid /\
    attempt (meta_diagnostics m) = att /\ delivery (meta_diagnostics m) = response_started /\
    if_some safe (meta_cookieRevision m).
Proof.
  unfold responseMetadata. rewrite !andb_true_iff.
  intros [[[[[[[Henv _] Hid] Hst] Hh] Hd] Hdel] Hrev].
  apply is_str_inv in Hid, Hdel. apply diagnostics_sound in Hd as (d & Hwf & Ecopy & Hrid & Hatt).
  apply envelope_status, integer_inv in Henv as (st & Est & _).
  rewrite Est in Hst. cbn in Hst. apply headerPairs_inv in Hh as [Eh Hok].
  destruct (optional_inv jint safe _ _ Hrev) as (rev & Erev & Hrev'); [by intros ?%nonnegative_inv|].
  assert (delivery d = response_started) as Hdelivery.
  { apply (f_equal (fun v => get v "delivery")) in Ecopy.
    change (get (get value "diagnostics") "delivery" = JStr (delivery_string (delivery d))) in Ecopy.
    rewrite Hdel in Ecopy. by destruct (delivery d). }
  exists {| meta_requestId := rid; status := st; headers := read_pairs (get value "headers");
            meta_diagnostics := d; meta_cookieRevision := rev |}.
  cbn [meta_requestId status headers meta_diagnostics meta_cookieRevision].
  split.
  - unfold copyResponseMetadata, responseMetadata_js.
    cbn [meta_requestId status headers meta_diagnostics meta_cookieRevision].
    rewrite Hid, Est, Ecopy, Erev. rewrite Eh at 1. by rewrite copy_pairs_js.
  - split_and!; auto; lia.
Qed.

(** C18: response metadata a guard accepts is a typed record for the expected attempt.
    What the SDK hands to the caller has the request's own identifier, a final status,
    well-formed headers, and diagnostics of a started response for that attempt. *)
Theorem responseMetadata_sound value rid att :
  responseMetadata value rid att = true ->
  exists m, copyResponseMetadata value = responseMetadata_js m /\
    meta_requestId m = rid /\ 200 <= status m <= 599 /\ Forall header_ok (headers m) /\
    well_formed (meta_diagnostics m) /\ requestId (meta_diagnostics m) = rid /\
    attempt (meta_diagnostics m) = att /\ delivery (meta_diagnostics m) = response_started /\
    if_some safe (meta_cookieRevision m).
Proof. apply responseMetadata_typed. Qed.

Definition demo_metadata : ResponseMetadata := {|
  meta_requestId := "r-1"; status := 200; headers := [("Content-Type", "text/html")];
  meta_diagnostics := demo_diagnostics; meta_cookieRevision := Some 3 |}.

Lemma responseMetadata_sound_witness :
  exists m, copyResponseMetadata (responseMetadata_js demo_metadata) = responseMetadata_js m /\
    meta_requestId m = "r-1" /\ 200 <= status m <= 599 /\ Forall header_ok (headers m) /\
    well_formed (meta_diagnostics m) /\ requestId (meta_diagnostics m) = "r-1" /\
    attempt (meta_diagnostics m) = 0 /\ delivery (meta_diagnostics m) = response_started /\
    if_some safe (meta_cookieRevision m).
Proof.
  apply (responseMetadata_sound (responseMetadata_js demo_metadata) "r-1" 0).
  vm_compute. reflexivity.
Defined.
