(* ===== verification/Service.v ===== *)
(** * The service side of the client (packages/typescript/src/service.ts)

    What the SDK makes of the service's answers outside a response stream: error
    documents, control calls, the cached capabilities, and the check of a connection
    against them.  [JSON.parse], [JSON.stringify] and [URL] are the host's and
    parameters here. *)

From S2P Require Import Prelude Js Errors Deadline Framing Buffering Validators Protocol.

Local Open Scope js_scope.

(** ** Typed reading of accepted values *)

Definition read_string (v : jsval) : option jsstr := match v with JStr s => Some s | _ => None end.
Definition read_int (v : jsval) : option Z := match v with JNum (NInt z) => Some z | _ => None end.
Definition read_bool (v : jsval) : option bool := match v with JBool b => Some b | _ => None end.
Definition read_enum {A : Type} (f : A -> jsstr) (all : list A) (v : jsval) : option A :=
  match v with JStr s => List.find (fun a => js_eqb (f a) s) all | _ => None end.
(** A field that may be null or missing. *)
Definition read_optional {A : Type} (read : jsval -> option A) (v : jsval) : option (option A) :=
  match v with JUndefined | JNull => Some None | _ => Some <$> read v end.

(** The record behind diagnostics that a guard accepted. *)
Definition read_diagnostics (v : jsval) : option Ja3Diagnostics :=
  requestId ← read_string (get v "requestId");
  attempt ← read_int (get v "attempt");
  phase ← read_enum phase_string PHASES (get v "phase");
  delivery ← read_enum delivery_string DELIVERIES (get v "delivery");
  queueMs ← read_int (get v "queueMs");
  headersMs ← read_optional read_int (get v "headersMs");
  bodyMs ← read_optional read_int (get v "bodyMs");
  totalMs ← read_int (get v "totalMs");
  requestBytes ← read_int (get v "requestBytes");
  responseBytes ← read_int (get v "responseBytes");
  tlsProfile ← read_string (get v "tlsProfile");
  traceId ← read_optional read_string (get v "traceId");
  spanId ← read_optional read_string (get v "spanId");
  clientReused ← read_optional read_bool (get v "clientReused");
  contextId ← read_optional read_string (get v "contextId");
  cookieRevision ← read_optional read_int (get v "cookieRevision");
  Some {|
    requestId := requestId; attempt := attempt; phase := phase; delivery := delivery;
    queueMs := queueMs; headersMs := headersMs; bodyMs := bodyMs; totalMs := totalMs;
    requestBytes := requestBytes; responseBytes := responseBytes; tlsProfile := tlsProfile;
    traceId := traceId; spanId := spanId; clientReused := clientReused; contextId := contextId;
    cookieRevision := cookieRevision |}.

Lemma read_enum_ok {A : Type} (f : A -> jsstr) all a :
  Inj (=) (=) f -> In a all -> read_enum f all (JStr (f a)) = Some a.
Proof.
  intros Hf Hin. simpl. destruct (List.find _ all) as [b|] eqn:E.
  - apply List.find_some in E as [_ E%js_eqb_eq%(inj f)]. by subst.
  - pose proof (List.find_none _ _ E a Hin) as H. simpl in H. by rewrite js_eqb_refl in H.
Qed.
#[export] Instance phase_string_inj : Inj (=) (=) phase_string.
Proof. by intros [] []. Qed.
#[export] Instance delivery_string_inj : Inj (=) (=) delivery_string.
Proof. by intros [] []. Qed.
Lemma read_optional_js {A : Type} (read : jsval -> option A) (f : A -> jsval) o :
  (forall a, read (f a) = Some a) -> (forall a, is_undefined (f a) = false /\ is_null (f a) = false) ->
  read_optional read (opt_js f o) = Some o.
Proof.
  intros Hr Hd. destruct o as [a|]; [|done]. cbn. destruct (Hd a). specialize (Hr a).
  unfold read_optional. by destruct (f a); rewrite ?Hr.
Qed.
Lemma read_nullable o : read_optional read_int (nullable o) = Some o.
Proof. by destruct o. Qed.
Lemma read_diagnostics_js d : read_diagnostics (diagnostics_js d) = Some d.
Proof.
  unfold read_diagnostics. rewrite !get_diagnostics_js by (simpl; tauto).
  change (field_value d "headersMs") with (nullable (headersMs d)).
  change (field_value d "bodyMs") with (nullable (bodyMs d)).
  change (field_value d "traceId") with (opt_js JStr (traceId d)).
  change (field_value d "spanId") with (opt_js JStr (spanId d)).
  change (field_value d "clientReused") with (opt_js JBool (clientReused d)).
  change (field_value d "contextId") with (opt_js JStr (contextId d)).
  change (field_value d "cookieRevision") with (opt_js jint (cookieRevision d)).
  rewrite !read_optional_js, !read_nullable by done. destruct d as [rid att ph del]. destruct ph, del; reflexivity.
Qed.

(** ** Error documents *)

(** [transportError]; the service's own calls go by the request id "control". *)
Definition transportError (value : jsval) (fallback : Ja3Diagnostics) (usedProxy requireDiagnostics : bool) :
    Ja3ProxyTransportError :=
  let protocol_error := newTransportError PROTOCOL_ERROR fallback usedProxy None None in
  let control := js_eqb (requestId fallback) "control" in
  let expected {A : Type} (a : A) := if control then None else Some a in
  let own := get value "diagnostics" in
  if negb (validateDiagnosticEnvelope Validators.transportError value) || negb (record value) ||
     negb (errorCode (get value "code")) then protocol_error
  else if negb (is_undefined own) &&
          negb (diagnostics own (expected (requestId fallback)) (expected (attempt fallback))) then protocol_error
  else if requireDiagnostics && negb (diagnostics own (Some (requestId fallback)) (Some (attempt fallback)))
  then protocol_error
  else
    match read_enum code_string ERROR_CODES (get value "code") with
    | None => protocol_error     (* [errorCode] found it *)
    | Some code =>
        newTransportError code
          (if diagnostics own None None
           then default fallback (read_diagnostics (copyDiagnostics own)) else fallback)
          usedProxy None None
    end.

(** ** Control documents *)

(** What one raced read of the body gives, with the control limit at that moment. *)
Inductive read_event :=
| ReadChunk (controlLimit : Z) (value : list Z)
| ReadNotBytes
| ReadThrows (e : exn).        (* the read failed, or the deadline aborted *)

Fixpoint read_chunks (diag : Ja3Diagnostics) (usedProxy : bool) (events : list read_event)
    (chunks : list (list Z)) (size : Z) : result exn (list (list Z) * Z) :=
  match events with
  | [] => Ok (chunks, size)
  | ReadThrows e :: _ => Throw e
  | ReadNotBytes :: _ => Throw (ETransport (newTransportError PROTOCOL_ERROR diag usedProxy None None))
  | ReadChunk limit value :: events =>
      if size + zlength value >? limit
      then Throw (ETransport (newTransportError PROTOCOL_ERROR diag usedProxy None None))
      else read_chunks diag usedProxy events (chunks ++ [value]) (size + zlength value)
  end.

Section host.
Context (parseJson : list Z -> result exn jsval) (stringify : jsval -> jsstr).

Definition readJson (body : option (list read_event)) (diag : Ja3Diagnostics) (usedProxy : bool) :
    result exn jsval :=
  match body with
  | None => Throw (ETransport (newTransportError PROTOCOL_ERROR diag usedProxy None None))
  | Some events =>
      let? (chunks, size) := read_chunks diag usedProxy events [] 0 in
      match new_bytes size with
      | None => Throw ERangeError
      | Some bytes =>
          match copy_blocks chunks 0 bytes with
          | None => Throw ERangeError
          | Some (_, bytes) => parseJson bytes
          end
      end
  end.

(** ** Control calls *)

Record Response := {
  status : Z;
  content_type : option jsstr;
  body : option (list read_event);
}.
Definition response_ok (r : Response) : bool := (200 <=? status r) && (status r <=? 299).

(** [s.split(';', 1)[0].trim().toLowerCase()] *)
Definition space_unit (c : N) : bool :=
  between 9 13 c || bool_decide (c ∈ [32; 160; 5760; 8232; 8233; 8239; 8287; 12288; 65279]%N) ||
  between 8192 8202 c.
Fixpoint until_unit (stop : N) (l : list N) : list N :=
  match l with [] => [] | c :: l => if N.eqb c stop then [] else c :: until_unit stop l end.
Fixpoint trim_start (l : list N) : list N :=
  match l with [] => [] | c :: l' => if space_unit c then trim_start l' else l end.
Definition trim (l : list N) : list N := rev (trim_start (rev (trim_start l))).
Definition media_type (s : jsstr) : jsstr := to_lower (JsStr (trim (until_unit 59 (units s)))).
Definition media_type_is (expected : jsstr) (r : Response) : bool :=
  match content_type r with Some s => js_eqb (media_type s) expected | None => false end.

(** What the environment does during one control call: the admission, the signal at
    the checks (the error of an aborted deadline), the transport's answer. *)
Record control_answers := {
  admitted : result exn unit;
  limit_now : Z;                                (* [controlLimit] when the body is written *)
  aborted_before : option Ja3ProxyTransportError;
  answer : result exn Response;
  aborted_after : option Ja3ProxyTransportError;
}.

Definition control_diag : Ja3Diagnostics := initialDiagnostics "control" (NInt 0) "unknown".
Definition control_error (code : Ja3ErrorCode) (kind : option Ja3ProxyFailureKind) : exn :=
  ETransport (newTransportError code control_diag false kind None).

(** The [try] block: whether a response was received, and the outcome; [None] is
    [undefined]. *)
Definition control_body (document : option jsval) (w : control_answers) :
    bool * result exn (option jsval) :=
  match admitted w with
  | Throw e => (false, Throw e)
  | Ok _ =>
      match (match document with
             | None => Ok None
             | Some v => match jsonBytes stringify v (limit_now w) with
                         | Ok bytes => Ok (Some bytes)
                         | Throw _ => Throw (control_error BODY_TOO_LARGE None)
                         end
             end) with
      | Throw e => (false, Throw e)
      | Ok bytes =>
          match aborted_before w with
          | Some e => (false, Throw (ETransport e))
          | None =>
              match answer w with
              | Throw e => (false, Throw e)
              | Ok response =>
                  (true,
                   if (300 <=? status response) && (status response <=? 399)
                   then Throw (control_error PROTOCOL_ERROR None)
                   else if response_ok response && (status response =? 204) then Ok None
                   else if negb (media_type_is "application/json" response)
                   then Throw (control_error PROTOCOL_ERROR None)
                   else
                     let? value := readJson (body response) control_diag false in
                     if negb (response_ok response)
                     then Throw (ETransport (transportError value control_diag false false))
                     else Ok (Some value))
              end
          end
      end
  end.

(** The [catch] clause. *)
Definition control (closed : bool) (document : option jsval) (w : control_answers) :
    result Ja3ProxyTransportError (option jsval) :=
  if closed then Throw (localError CANCELLED (Some client_closed))
  else
    match control_body document w with
    | (_, Ok value) => Ok value
    | (received, Throw error) =>
        Throw (match error with
               | ETransport e => e
               | _ => match aborted_after w with
                      | Some e => e
                      | None => newTransportError (if received then PROTOCOL_ERROR else CONNECT_ERROR)
                                  control_diag false (Some service_unavailable) None
                      end
               end)
    end.
End host.

(** ** Connections *)

Definition validatePartition (partition : jsval) : result exn unit :=
  if negb (opaque partition) then Throw invalid_input_error else Ok tt.

(** What the source reads of a parsed URL. *)
Record URL := { protocol : jsstr; hostname : jsstr; hash : jsstr; search : jsstr }.

Definition proxy_modes : list jsstr := ["http"; "https"; "socks4"; "socks4a"; "socks5"; "socks5h"].
(** [s.slice(0, -1)] *)
Definition slice_last (s : jsstr) : jsstr := JsStr (take (pred (length (units s))) (units s)).

Section urls.
Context (parse_url : jsval -> option URL).

Definition proxy_mode (url : jsval) : option jsstr :=
  match parse_url url with
  | None => None
  | Some proxy =>
      let mode := slice_last (protocol proxy) in
      if negb (js_includes proxy_modes mode) || js_eqb (hostname proxy) "" ||
         negb (js_eqb (hash proxy) "") || negb (js_eqb (search proxy) "") then None
      else Some mode
  end.

(** [validateConnection].  The diagnostics of its errors name the profile; one that is
    not a string is refused, and named "unknown" here. *)
Definition validateConnection (caps spec : jsval) : result exn unit :=
  let identity := get spec "identity" in
  let egress := get spec "egress" in
  if negb (record spec) || negb (record identity) || negb (record egress) then Throw invalid_input_error
  else
    let profile := get identity "tlsProfile" in
    let userAgent := get identity "userAgent" in
    let diag := initialDiagnostics "control" (NInt 0) (default "unknown" (read_string profile)) in
    let is_proxy := is_str (get egress "mode") "proxy" in
    let error {A : Type} code usedProxy : result exn A :=
      Throw (ETransport (newTransportError code diag usedProxy None None)) in
    match read_string profile ≫= resolveProfile caps with
    | None => error INVALID_PROFILE is_proxy
    | Some _ =>
        if negb (is_boolean (get identity "emulateHeaders")) ||
           (negb (is_undefined userAgent) && negb (str_test (fun s => negb (line_re s)) userAgent))
        then error INVALID_REQUEST false
        else
          match (if is_proxy then
                   match proxy_mode (get egress "url") with
                   | Some mode => Ok mode
                   | None => error INVALID_REQUEST true
                   end
                 else if is_str (get egress "mode") "direct" then Ok "direct"
                 else error EGRESS_REQUIRED false) with
          | Throw e => Throw e
          | Ok mode =>
              if negb (includes (get (get caps "modes") "egress") mode)
              then error UNSUPPORTED_CAPABILITY is_proxy else Ok tt
          end
    end.
End urls.

(** ** The cached capabilities *)

Record Service := {
  ttlMs : Z;
  closed : bool;
  cached : option (Z * jsval);                           (* expires, value *)
  loading : option (nat * option (result exn jsval));    (* the promise, settled or not *)
  inflight : list nat;                                   (* control calls not answered yet *)
  controlLimit : Z;
}.
Definition newService (ttl : jsval) : result exn Service :=
  match nonnegativeInteger ttl with
  | Some z =>
      if z >? MAX_TIMEOUT_MS then Throw invalid_input_error
      else Ok {| ttlMs := z; closed := false; cached := None; loading := None; inflight := [];
                 controlLimit := CONTROL_LIMIT |}
  | None => Throw invalid_input_error
  end.

(** ** Construction, and the headers of a call *)

(** [value ?? fallback] *)
Definition or_else (v fallback : jsval) : jsval := match v with JUndefined | JNull => fallback | _ => v end.
(** What the source reads of the parsed base URL. *)
Record BaseURL := {
  b_protocol : jsstr; b_username : jsstr; b_password : jsstr; b_search : jsstr; b_hash : jsstr; b_pathname : jsstr }.
(** [pathname.replace(/\/+$/, '') + '/'] *)
Fixpoint drop_slashes (l : list N) : list N :=
  match l with [] => [] | c :: l' => if N.eqb c 47 then drop_slashes l' else l end.
Definition base_path (pathname : jsstr) : jsstr := JsStr (rev (drop_slashes (rev (units pathname))) ++ [47%N]).
Definition token_ok (token : jsval) : bool :=
  match token with
  | JStr t => (32 <=? js_length t) && negb (class_any (fun c => space_unit c || between 0 31 c || N.eqb c 127) t)
  | _ => false
  end.
Record ServiceConfig := { path : jsstr; token : jsstr; controlTimeoutMs : Z; service : Service }.
(** The constructor; [transport] says whether the transport is a function. *)
Definition service_config (parse_base : jsval -> option BaseURL) (transport : bool) (options : jsval) :
    result exn ServiceConfig :=
  match parse_base (get options "baseUrl") with
  | None => Throw invalid_input_error
  | Some base =>
      if negb (js_includes ["http:"; "https:"] (b_protocol base)) || negb (js_eqb (b_username base) "") ||
         negb (js_eqb (b_password base) "") || negb (js_eqb (b_search base) "") || negb (js_eqb (b_hash base) "")
      then Throw invalid_input_error
      else
        match get options "token" with
        | JStr token =>
            if negb (token_ok (JStr token)) then Throw (ETransport (localError UNAUTHORIZED None))
            else if negb transport then Throw invalid_input_error
            else
              let? controlTimeoutMs := timeoutValue (or_else (get options "controlTimeoutMs") (jint 10000)) in
              let? service := newService (or_else (get options "capabilitiesTtlMs") (jint 60000)) in
              Ok {| path := base_path (b_pathname base); token := token;
                    controlTimeoutMs := controlTimeoutMs; service := service |}
        | _ => Throw (ETransport (localError UNAUTHORIZED None))
        end
  end.

(** [headers]: what the hook supplied is read through the [get] of a [Headers], or the
    hook, or making a [Headers] of its result, has thrown. *)
Definition tracing_headers : list jsstr := ["traceparent"; "tracestate"; "baggage"].
Definition traced (supplied : option (result exn (jsstr -> option jsstr))) : list (jsstr * jsstr) :=
  match supplied with
  | Some (Ok extra) =>
      foldl (fun headers key => match extra key with Some value => assoc_set key value headers | None => headers end)
        [] tracing_headers
  | _ => []
  end.
Definition service_headers (c : ServiceConfig) (supplied : option (result exn (jsstr -> option jsstr)))
    (contentType : option jsstr) : list (jsstr * jsstr) :=
  let headers := assoc_set "authorization" (JsStr (units "Bearer " ++ units (token c))) (traced supplied) in
  match contentType with
  | Some value => if js_eqb value "" then headers else assoc_set "content-type" value headers
  | None => headers
  end.

(** ** Calls for the capabilities *)

Inductive capabilities_call :=
| Answered (r : result exn jsval)
| Waits (load : nat).

(** [capabilities()] at [now]; [aborted] is the error of an aborted signal, [fresh]
    numbers the promise of a new control call. *)
Definition capabilities_get (now : Z) (aborted : option Ja3ProxyTransportError) (fresh : nat) (s : Service) :
    Service * capabilities_call :=
  if closed s then (s, Answered (Throw (ETransport (localError CANCELLED (Some client_closed)))))
  else
    match aborted with
    | Some e => (s, Answered (Throw (ETransport e)))
    | None =>
        let load (s : Service) :=
          match loading s with
          | Some (id, _) => (s, Waits id)
          | None =>
              ({| ttlMs := ttlMs s; closed := closed s; cached := cached s;
                  loading := Some (fresh, None); inflight := fresh :: inflight s;
                  controlLimit := controlLimit s |}, Waits fresh)
          end in
        match cached s with
        | Some (expires, value) => if expires >? now then (s, Answered (Ok value)) else load s
        | None => load s
        end
    end.

(** [this.control(...).then(raw => ...)] *)
Definition capabilities_loaded (id : nat) (raw : result exn jsval) (now : Z) (s : Service) : Service :=
  let settle (r : result exn jsval) (cached : option (Z * jsval)) (limit : Z) := {|
    ttlMs := ttlMs s; closed := closed s; cached := cached;
    loading := match loading s with
               | Some (id', None) => Some (id', if decide (id' = id) then Some r else None)
               | l => l
               end;
    inflight := filter (fun i => i <> id) (inflight s); controlLimit := limit |} in
  match raw with
  | Throw e => settle (Throw e) (cached s) (controlLimit s)
  | Ok raw =>
      if negb (capabilities raw)
      then settle (Throw (ETransport (localError UNSUPPORTED_CAPABILITY None))) (cached s) (controlLimit s)
      else
        let value := copyCapabilities raw in
        settle (Ok value) (Some (now + ttlMs s, value))
          (Z.min CONTROL_LIMIT (default 0 (read_int (get (get raw "limits") "maxControlBytes"))))
  end.

(** [if (this.loading === loading) this.loading = undefined]: after it settled. *)
Definition clear_loading (id : nat) (s : Service) : Service :=
  match loading s with
  | Some (id', Some _) =>
      if decide (id' = id) then {|
        ttlMs := ttlMs s; closed := closed s; cached := cached s; loading := None;
        inflight := inflight s; controlLimit := controlLimit s |} else s
  | _ => s
  end.
Definition close (s : Service) : Service := {|
  ttlMs := ttlMs s; closed := true; cached := None; loading := loading s;
  inflight := inflight s; controlLimit := controlLimit s |}.

Inductive service_event :=
| ServiceGet (now : Z) (aborted : option Ja3ProxyTransportError) (fresh : nat)
| ServiceLoaded (id : nat) (raw : result exn jsval) (now : Z)
| ServiceClear (id : nat)
| ServiceClose.
Definition service_step (s : Service) (ev : service_event) : Service :=
  match ev with
  | ServiceGet now aborted fresh => (capabilities_get now aborted fresh s).1
  | ServiceLoaded id raw now => capabilities_loaded id raw now s
  | ServiceClear id => clear_loading id s
  | ServiceClose => close s
  end.

(** ** Proofs *)

Lemma errorCode_inv v : errorCode v = true -> exists c, v = JStr (code_string c).
Proof.
  intros (s & -> & H)%str_test_inv. unfold js_includes in H. apply bool_decide_eq_true in H.
  apply list_elem_of_In, in_map_iff in H as (c & <- & _). by exists c.
Qed.
Lemma read_code c : read_enum code_string ERROR_CODES (JStr (code_string c)) = Some c.
Proof. apply find_code_string. Qed.

(** Diagnostics accepted for one request are accepted for any. *)
Lemma diagnostics_any v rid att : diagnostics v rid att = true -> diagnostics v None None = true.
Proof.
  unfold diagnostics. destruct (negb _ || _); [done|]. rewrite !andb_true_iff. tauto.
Qed.

Lemma userAgent_ok v :
  negb (is_undefined v) && negb (str_test (fun s => negb (line_re s)) v) = false <->
  v = JUndefined \/ exists s, v = JStr s /\ line_re s = false.
Proof.
  destruct v; cbn; try naive_solver. rewrite negb_false_iff, negb_true_iff. naive_solver.
Qed.
Lemma proxy_mode_spec parse_url url :
  match proxy_mode parse_url url with
  | Some mode =>
      exists proxy, parse_url url = Some proxy /\ slice_last (protocol proxy) = mode /\
        mode ∈ proxy_modes /\ hostname proxy <> "" /\ hash proxy = "" /\ search proxy = ""
  | None =>
      forall proxy, parse_url url = Some proxy ->
        ~ (slice_last (protocol proxy) ∈ proxy_modes /\ hostname proxy <> "" /\
           hash proxy = "" /\ search proxy = "")
  end.
Proof.
  unfold proxy_mode. destruct (parse_url url) as [proxy|]; [|done].
  unfold js_includes, js_eqb. repeat case_bool_decide; cbn; naive_solver.
Qed.

(** What a document reports to a request with the diagnostics [fallback]: a code, with
    no diagnostics where none are required, or with diagnostics the guard accepts that
    are this request's and attempt's, or of any request for a control call. *)
Definition reportable (value : jsval) (fallback : Ja3Diagnostics) (require : bool)
    (c : Ja3ErrorCode) (own : option Ja3Diagnostics) : Prop :=
  validateDiagnosticEnvelope Validators.transportError value = true /\ record value = true /\
  get value "code" = JStr (code_string c) /\
  match own with
  | None => require = false /\ get value "diagnostics" = JUndefined
  | Some d =>
      diagnostics (get value "diagnostics") None None = true /\
      well_formed d /\ copyDiagnostics (get value "diagnostics") = diagnostics_js d /\
      ((require = false /\ requestId fallback = "control") \/
       (requestId d = requestId fallback /\ attempt d = attempt fallback))
  end.

Lemma code_string_inj c c' : code_string c = code_string c' -> c = c'.
Proof. intros E. pose proof (read_code c) as H. rewrite E, read_code in H. by injection H. Qed.
(** The guard for one request is the guard for any, and the two identifiers. *)
Lemma diagnostics_split v rid att :
  diagnostics v rid att =
  diagnostics v None None &&
  match rid with Some s => is_str (get v "requestId") s | None => true end &&
  match att with Some z => is_int (get v "attempt") z | None => true end.
Proof.
  unfold diagnostics. destruct (negb _ || _); [done|]. destruct (opaque _); [|done]. cbn [andb].
  destruct (match rid with Some _ => _ | None => _ end), (match att with Some _ => _ | None => _ end);
    cbn [andb]; rewrite ?andb_true_r, ?andb_false_r; done.
Qed.
Lemma diagnostics_matches v d s z :
  diagnostics v None None = true -> copyDiagnostics v = diagnostics_js d ->
  diagnostics v (Some s) (Some z) = true <-> requestId d = s /\ attempt d = z.
Proof.
  intros Hg Hc. split.
  - intros (d' & _ & E & Hs & Hz)%diagnostics_sound. rewrite Hc in E.
    apply (f_equal read_diagnostics) in E. rewrite !read_diagnostics_js in E. apply (inj Some) in E as <-.
    split; [by apply Hs | by apply Hz].
  - intros [<- <-]. rewrite diagnostics_split, Hg. cbn [andb].
    assert (get v "requestId" = JStr (requestId d)) as -> by exact (f_equal (fun w => get w "requestId") Hc).
    assert (get v "attempt" = jint (attempt d)) as -> by exact (f_equal (fun w => get w "attempt") Hc).
    cbn [is_str is_int jint]. by rewrite js_eqb_refl, Z.eqb_refl.
Qed.

Lemma transportError_reports value fallback usedProxy require c own :
  reportable value fallback require c own ->
  transportError value fallback usedProxy require =
    newTransportError c (default fallback own) usedProxy None None.
Proof.
  intros (Hv & Hr & Hc & Hown). unfold transportError. rewrite Hv, Hr, Hc. cbv zeta.
  assert (errorCode (JStr (code_string c)) = true) as -> by by destruct c.
  cbn [negb orb]. rewrite read_code. destruct own as [d|]; cbn [default].
  - destruct Hown as (Hg & Hd & Hcopy & Hmatch). rewrite Hg, Hcopy, read_diagnostics_js. cbn [default].
    assert (is_undefined (get value "diagnostics") = false) as -> by by destruct (get value "diagnostics").
    pose proof (diagnostics_matches _ _ (requestId fallback) (attempt fallback) Hg Hcopy) as Hm.
    destruct Hmatch as [[-> Hid]|Hids].
    + rewrite Hid, js_eqb_refl, Hg. done.
    + apply Hm in Hids as Hids'. rewrite Hids'. cbn [negb]. rewrite andb_false_r.
      destruct (js_eqb _ _); by rewrite ?Hg, ?Hids'.
  - destruct Hown as [-> ->]. done.
Qed.
Lemma transportError_cases value fallback usedProxy require :
  (exists c own, reportable value fallback require c own) \/
  transportError value fallback usedProxy require =
    newTransportError PROTOCOL_ERROR fallback usedProxy None None.
Proof.
  unfold transportError. cbv zeta. destruct (negb _ || _ || _) eqn:E1; [by right|].
  apply orb_false_elim in E1 as [[Hv%negb_false_iff Hr%negb_false_iff]%orb_false_elim Hc%negb_false_iff].
  apply errorCode_inv in Hc as [c Hc].
  destruct (negb (is_undefined _) && _) eqn:E2; [by right|].
  destruct (require && _) eqn:E3; [by right|]. left. exists c.
  destruct (is_undefined (get value "diagnostics")) eqn:Eu.
  - apply undefined_inv in Eu. exists None. split_and!; try done. rewrite Eu in E3. by destruct require.
  - cbn [negb andb] in E2. apply negb_false_iff in E2.
    pose proof (diagnostics_any _ _ _ E2) as Hg.
    destruct (diagnostics_sound _ _ _ Hg) as (d & Hd & Hcopy & _). exists (Some d). split_and!; try done.
    pose proof (diagnostics_matches _ _ (requestId fallback) (attempt fallback) Hg Hcopy) as Hm.
    destruct (js_eqb (requestId fallback) "control") eqn:Ectl; [|right; by apply Hm].
    destruct require; [right; apply Hm; by apply negb_false_iff|]. apply js_eqb_eq in Ectl. by left.
Qed.

(** C21: what an error document makes the SDK report, exactly.  A document is reportable
    when it is a valid error envelope with a known code and either brings no
    diagnostics where none are required, or diagnostics that the guard accepts and that
    are this request's and attempt's; a request whose own identifier is "control" takes
    those of any request unless diagnostics are required.  A reportable document's
    code is reported, with the diagnostics it brings or else the SDK's own; for any
    other document the error is a PROTOCOL_ERROR with the SDK's diagnostics. *)
Theorem transportError_exact value fallback usedProxy require :
  let e := transportError value fallback usedProxy require in
  (forall c own, reportable value fallback require c own ->
     e = newTransportError c (default fallback own) usedProxy None None) /\
  ((exists c own, reportable value fallback require c own) \/
   e = newTransportError PROTOCOL_ERROR fallback usedProxy None None).
Proof.
  split; [intros; by apply transportError_reports | apply transportError_cases].
Qed.

Lemma transportError_typed value fallback usedProxy require :
  well_formed fallback -> requestId fallback <> "control" ->
  let e := transportError value fallback usedProxy require in
  well_formed (Errors.diagnostics e) /\ requestId (Errors.diagnostics e) = requestId fallback.
Proof.
  intros Hwf Hid. cbv zeta. destruct (transportError_cases value fallback usedProxy require)
    as [(c & own & H)|E]; [|by rewrite E].
  rewrite (transportError_reports _ _ _ _ _ _ H). destruct H as (_ & _ & _ & H), own as [d|]; [|done].
  destruct H as (_ & Hd & _ & [[_ ?]|[? _]]); done.
Qed.

Definition demo_error : jsval :=
  JObject [("code", JStr "TLS_ERROR"); ("message", JStr "x"); ("diagnostics", diagnostics_js demo_diagnostics)].

Lemma transportError_exact_witness :
  reportable demo_error demo_diagnostics true TLS_ERROR (Some demo_diagnostics) /\
  transportError demo_error demo_diagnostics false true =
    newTransportError TLS_ERROR demo_diagnostics false None None.
Proof.
  assert (reportable demo_error demo_diagnostics true TLS_ERROR (Some demo_diagnostics)) as H.
  { split_and!; try (vm_compute; reflexivity); [apply demo_well_formed|by right]. }
  split; [exact H|]. exact (proj1 (transportError_exact demo_error demo_diagnostics false true) _ _ H).
Defined.

(** *** Reading a document *)

Definition read_bytes (ev : read_event) : list Z :=
  match ev with ReadChunk _ value => value | _ => [] end.
Definition within (limit : Z) (ev : read_event) : Prop :=
  match ev with ReadChunk l _ => l <= limit | _ => True end.

Lemma read_chunks_ok diag usedProxy limit events chunks size got final :
  size = zlength (concat chunks) -> size <= limit -> Forall (within limit) events ->
  read_chunks diag usedProxy events chunks size = Ok (got, final) ->
  concat got = concat chunks ++ concat (map read_bytes events) /\
  final = zlength (concat got) /\ final <= limit.
Proof.
  intros Hs Hle Hall. revert chunks size Hs Hle.
  induction Hall as [|ev events Hev _ IH]; intros chunks size Hs Hle; cbn.
  { intros [= <- <-]. by rewrite app_nil_r. }
  destruct ev as [l value| |e]; try done. rewrite Z.gtb_ltb. destruct (Z.ltb_spec l (size + zlength value)) as [|Hsz]; [done|].
  intros H. apply IH in H as (E & ? & ?).
  - split; [|done]. rewrite E, concat_app. cbn. by rewrite app_nil_r, <- app_assoc.
  - rewrite concat_app, zlength_app. cbn. rewrite app_nil_r. lia.
  - cbn in Hev. lia.
Qed.
Lemma read_chunks_complete diag usedProxy events chunks size :
  (forall ev, In ev events -> exists l value, ev = ReadChunk l value) ->
  (forall k ev, events !! k = Some ev ->
     size + zlength (concat (map read_bytes (take (S k) events))) <=
       match ev with ReadChunk l _ => l | _ => 0 end) ->
  exists got final, read_chunks diag usedProxy events chunks size = Ok (got, final).
Proof.
  revert chunks size. induction events as [|ev events IH]; intros chunks size Hall Hfit; cbn; [by eexists _, _|].
  destruct (Hall ev) as (l & value & ->); [by left|].
  pose proof (Hfit 0%nat _ eq_refl) as H0. cbn in H0. rewrite take_0, app_nil_r in H0. cbn in H0.
  rewrite Z.gtb_ltb. destruct (Z.ltb_spec l (size + zlength value)); [lia|]. apply IH.
  - intros; apply Hall; by right.
  - intros k ev Hk. specialize (Hfit (S k) ev Hk). cbn in Hfit. rewrite zlength_app in Hfit. lia.
Qed.

(** Reading a control document.  Whatever the chunks, the text handed to the JSON
    parser is exactly the body's bytes, and never more than the control limit; a body
    whose every prefix fits its limit and whose reads all succeed is parsed. *)
Theorem readJson_bounded parseJson limit events diag usedProxy :
  0 <= limit -> Forall (within limit) events ->
  (forall v, readJson parseJson (Some events) diag usedProxy = Ok v ->
     parseJson (concat (map read_bytes events)) = Ok v /\
     zlength (concat (map read_bytes events)) <= limit) /\
  ((forall ev, In ev events -> exists l value, ev = ReadChunk l value) ->
   (forall k ev, events !! k = Some ev ->
      zlength (concat (map read_bytes (take (S k) events))) <=
        match ev with ReadChunk l _ => l | _ => 0 end) ->
   readJson parseJson (Some events) diag usedProxy = parseJson (concat (map read_bytes events))).
Proof.
  intros Hl Hall. assert (forall got final, read_chunks diag usedProxy events [] 0 = Ok (got, final) ->
    zlength (concat (map read_bytes events)) <= limit /\
    readJson parseJson (Some events) diag usedProxy = parseJson (concat (map read_bytes events))) as Hread.
  { intros got final E. unfold readJson. rewrite E. cbn [result_bind].
    destruct (read_chunks_ok _ _ limit events [] 0 got final eq_refl Hl Hall E) as (Hgot & Hfinal & Hle).
    cbn in Hgot. rewrite Hgot in Hfinal. split; [lia|].
    destruct (new_bytes_ok final) as (bytes & -> & Hbytes);
      [pose proof (zlength_nonneg (concat (map read_bytes events))); lia|].
    rewrite <- (app_nil_l bytes), <- (app_nil_r bytes). change 0 with (zlength (@nil Z)).
    rewrite copy_blocks_spec by (rewrite Hgot; lia). by rewrite app_nil_l, app_nil_r, Hgot. }
  split.
  - intros v. destruct (read_chunks diag usedProxy events [] 0) as [[got final]|e] eqn:E.
    + destruct (Hread got final eq_refl) as [? ->]. done.
    + unfold readJson. by rewrite E.
  - intros Hchunks Hfit. destruct (read_chunks_complete diag usedProxy events [] 0 Hchunks Hfit) as (got & final & E).
    by destruct (Hread got final E).
Qed.

Lemma readJson_bounded_witness :
  let parse (b : list Z) := Ok (JNum (NInt (zlength b))) in
  let events := [ReadChunk 4 [123]; ReadChunk 4 [32; 125]] in
  (forall v, readJson parse (Some events) control_diag false = Ok v ->
     parse (concat (map read_bytes events)) = Ok v /\ zlength (concat (map read_bytes events)) <= 4) /\
  ((forall ev, In ev events -> exists l value, ev = ReadChunk l value) ->
   (forall k ev, events !! k = Some ev ->
      zlength (concat (map read_bytes (take (S k) events))) <=
        match ev with ReadChunk l _ => l | _ => 0 end) ->
   readJson parse (Some events) control_diag false = parse (concat (map read_bytes events))).
Proof.
  intros parse events. apply (readJson_bounded parse 4 events); [done|]. repeat constructor; cbn; lia.
Defined.

(** Which connections are accepted.  Exactly those whose identity names a profile
    the capabilities resolve, with a boolean [emulateHeaders] and no line break in
    the user agent, and whose egress is either direct, or a proxy of a known scheme
    with a host and without query or fragment; in both cases by a mode the service
    offers.  A connection that asks for a proxy is never taken as direct. *)
Definition connection_ok (parse_url : jsval -> option URL) (caps spec : jsval) : Prop :=
  record spec = true /\ record (get spec "identity") = true /\ record (get spec "egress") = true /\
  (exists profile, get (get spec "identity") "tlsProfile" = JStr profile /\
     is_Some (resolveProfile caps profile)) /\
  is_boolean (get (get spec "identity") "emulateHeaders") = true /\
  (get (get spec "identity") "userAgent" = JUndefined \/
   exists s, get (get spec "identity") "userAgent" = JStr s /\ line_re s = false) /\
  ((get (get spec "egress") "mode" = JStr "direct" /\
    includes (get (get caps "modes") "egress") "direct" = true) \/
   (get (get spec "egress") "mode" = JStr "proxy" /\
    exists proxy mode, parse_url (get (get spec "egress") "url") = Some proxy /\
      slice_last (protocol proxy) = mode /\ mode ∈ proxy_modes /\ hostname proxy <> "" /\
      hash proxy = "" /\ search proxy = "" /\
      includes (get (get caps "modes") "egress") mode = true)).
Theorem validateConnection_spec parse_url caps spec :
  validateConnection parse_url caps spec = Ok tt <-> connection_ok parse_url caps spec.
Proof.
  unfold validateConnection, connection_ok. cbv zeta.
  destruct (record spec), (record (get spec "identity")), (record (get spec "egress")); cbn [negb orb];
    try (split; [discriminate | naive_solver]).
  destruct (get (get spec "identity") "tlsProfile") as [| | | |profile| | | |] eqn:Ep; cbn [read_string mbind option_bind];
    try (split; [discriminate | naive_solver]).
  destruct (resolveProfile caps profile) as [target|] eqn:Er.
  2:{ split; [discriminate|]. intros (_ & _ & _ & (p & [= <-] & [? ?]) & _). congruence. }
  pose proof (userAgent_ok (get (get spec "identity") "userAgent")) as Hua.
  destruct (is_boolean _); cbn [negb orb]; [|split; [discriminate | naive_solver]].
  destruct (negb (is_undefined _) && _).
  { split; [discriminate|]. intros (_ & _ & _ & _ & _ & H & _). apply Hua in H. done. }
  destruct Hua as [Hua _]. specialize (Hua eq_refl).
  pose proof (proxy_mode_spec parse_url (get (get spec "egress") "url")) as Hmode.
  destruct (is_str (get (get spec "egress") "mode") "proxy") eqn:Eproxy.
  - apply is_str_inv in Eproxy as ->. destruct (proxy_mode _ _) as [mode|].
    + destruct Hmode as (proxy & Eurl & Hmode). destruct (includes _ mode) eqn:Ei; cbn [negb].
      * split; [|done]. intros _. split_and!; eauto. right. split; [done|]. exists proxy, mode.
        naive_solver.
      * split; [discriminate|]. intros (_ & _ & _ & _ & _ & _ & [[? _]|(_ & p & m & Hu & Hm & _ & _ & _ & _ & ?)]); [done|].
        rewrite Eurl in Hu. destruct Hmode as [Hmode _]. congruence.
    + split; [discriminate|]. intros (_ & _ & _ & _ & _ & _ & [[? _]|(_ & p & m & Hu & H)]); [done|].
      destruct (Hmode p Hu). naive_solver.
  - destruct (is_str (get (get spec "egress") "mode") "direct") eqn:Edirect.
    + apply is_str_inv in Edirect as ->. destruct (includes _ _) eqn:Ei; cbn [negb].
      * split; [|done]. intros _. split_and!; eauto.
      * split; [discriminate|]. intros (_ & _ & _ & _ & _ & _ & [[_ ?]|[? _]]); done.
    + split; [discriminate|]. intros (_ & _ & _ & _ & _ & _ & [[H _]|[H _]]); rewrite H in *; done.
Qed.

Lemma validateConnection_refuses parse_url caps spec e :
  validateConnection parse_url caps spec = Throw e ->
  (exists e', e = ETransport e' /\
     code e' ∈ [INVALID_REQUEST; INVALID_PROFILE; EGRESS_REQUIRED; UNSUPPORTED_CAPABILITY]) /\
  ~ connection_ok parse_url caps spec.
Proof.
  intros H. split.
  - revert H. unfold validateConnection. cbv zeta.
    repeat (case_match; simplify_eq); intros [= <-]; eexists; (split; [reflexivity|cbn; set_solver]).
  - intros Hok%validateConnection_spec. congruence.
Qed.

(** *** The cache *)

Definition legal_service (s : Service) (ev : service_event) : Prop :=
  match ev with
  | ServiceGet _ _ fresh => fresh ∉ inflight s /\ (forall id r, loading s = Some (id, r) -> id <> fresh)
  | ServiceLoaded id _ _ => id ∈ inflight s
  | _ => True
  end.
Inductive service_reachable : Service -> Prop :=
| service_new ttl s : newService ttl = Ok s -> service_reachable s
| service_reach s ev : service_reachable s -> legal_service s ev -> service_reachable (service_step s ev).

(** A value the service's document stands behind. *)
Definition genuine (v : jsval) : Prop := exists raw, capabilities raw = true /\ v = copyCapabilities raw.

Record service_wf (s : Service) : Prop := {
  sw_inflight : inflight s = match loading s with Some (id, None) => [id] | _ => [] end;
  sw_cached : forall expires v, cached s = Some (expires, v) -> genuine v;
  sw_loaded : forall id v, loading s = Some (id, Some (Ok v)) -> genuine v;
  sw_limit : 0 < controlLimit s <= CONTROL_LIMIT;
}.

Lemma control_limit_ok raw :
  capabilities raw = true ->
  0 < Z.min CONTROL_LIMIT (default 0 (read_int (get (get raw "limits") "maxControlBytes"))) <= CONTROL_LIMIT.
Proof.
  intros H. destruct (limit_inv raw "maxControlBytes" H ltac:(simpl; tauto)) as (z & -> & _ & Hz).
  specialize (Hz ltac:(discriminate) ltac:(discriminate)). cbn [read_int jint default from_option]. unfold CONTROL_LIMIT in *. cbn. lia.
Qed.
Lemma service_step_wf s ev : service_wf s -> legal_service s ev -> service_wf (service_step s ev).
Proof.
  intros Hwf Hev. destruct Hwf as [Hin Hc Hl Hlim] eqn:E0. clear E0.
  destruct ev as [now aborted fresh|id raw now|id|]; cbn.
  - unfold capabilities_get. destruct (closed s); [done|]. destruct aborted; [done|].
    destruct (cached s) as [[expires v]|] eqn:Ec; [destruct (expires >? now); [done|]|];
      (destruct (loading s) as [[id r]|] eqn:El; [done|]; constructor; cbn; rewrite ?Hin; naive_solver).
  - cbn in Hev. rewrite Hin in Hev.
    destruct (loading s) as [[id' [r'|]]|] eqn:El; try set_solver. apply list_elem_of_singleton in Hev as ->.
    assert (filter (fun i => i <> id') [id'] = []) as Hfilter
      by (rewrite filter_cons, decide_False by tauto; done).
    unfold capabilities_loaded. rewrite El, Hin. destruct raw as [raw|e].
    + destruct (capabilities raw) eqn:Eraw; cbn [negb].
      * constructor; cbn [inflight loading cached controlLimit].
        -- rewrite Hfilter, decide_True by done. done.
        -- intros ? ? [= _ <-]. by exists raw.
        -- rewrite decide_True by done. intros ? ? [= _ <-]. by exists raw.
        -- by apply control_limit_ok.
      * constructor; cbn [inflight loading cached controlLimit]; rewrite ?Hfilter, ?decide_True by done; naive_solver.
    + constructor; cbn [inflight loading cached controlLimit]; rewrite ?Hfilter, ?decide_True by done; naive_solver.
  - unfold clear_loading. destruct (loading s) as [[id' [r|]]|] eqn:El; try done.
    case_decide; [|done]. constructor; cbn; rewrite ?Hin; naive_solver.
  - constructor; cbn; naive_solver.
Qed.
Lemma service_reachable_wf s : service_reachable s -> service_wf s.
Proof.
  induction 1 as [ttl s H|s ev _ IH Hev]; [|by apply service_step_wf].
  unfold newService in H. destruct (nonnegativeInteger ttl) as [z|]; [|done].
  destruct (z >? MAX_TIMEOUT_MS); [done|]. injection H as <-.
  by constructor.
Qed.

(** C20: the capability cache.  After any interleaving of calls, answers and close: at
    most one capability request is in flight, and a call starts one only when none
    is; every value handed out is the copy of a document that passed the guard; an
    open service answers from the cache while the entry is fresh, without a request;
    a closed one refuses; and control documents are always limited to between one
    byte and [CONTROL_LIMIT]. *)
Theorem capabilities_single_flight s now aborted fresh :
  service_reachable s ->
  (length (inflight s) <= 1)%nat /\ 0 < controlLimit s <= CONTROL_LIMIT /\
  let '(s', call) := capabilities_get now aborted fresh s in
  (closed s = true -> s' = s /\ call = Answered (Throw (ETransport (localError CANCELLED (Some client_closed))))) /\
  (inflight s' = inflight s \/ (inflight s = [] /\ inflight s' = [fresh] /\ call = Waits fresh)) /\
  (forall v, call = Answered (Ok v) -> s' = s /\ genuine v) /\
  (forall id, call = Waits id -> exists r, loading s' = Some (id, r) /\ (forall v, r = Some (Ok v) -> genuine v)) /\
  (forall expires v, closed s = false -> aborted = None -> cached s = Some (expires, v) -> now < expires ->
     s' = s /\ call = Answered (Ok v)).
Proof.
  intros [Hin Hc Hl Hlim]%service_reachable_wf.
  split; [rewrite Hin; destruct (loading s) as [[? []]|]; cbn; lia|]. split; [done|].
  unfold capabilities_get. destruct (closed s) eqn:Eclosed; [by split_and!; auto|].
  destruct aborted as [e|]; [by split_and!; auto|].
  assert (forall expires v, cached s = Some (expires, v) -> (expires >? now) = false -> now < expires -> False) as Hfresh
    by (intros ? ? _ E; rewrite Z.gtb_ltb in E; reflect_bools; lia).
  set (load := match loading s with Some _ => _ | None => _ end).
  assert (let '(s', call) := load in
    (inflight s' = inflight s \/ (inflight s = [] /\ inflight s' = [fresh] /\ call = Waits fresh)) /\
    exists id r, call = Waits id /\ loading s' = Some (id, r) /\ (forall v, r = Some (Ok v) -> genuine v)) as Hload.
  { unfold load. destruct (loading s) as [[id r]|] eqn:El.
    - split; [by left|]. exists id, r. split_and!; try done. intros v ->. by eapply Hl.
    - rewrite Hin. split; [by right|]. by exists fresh, None. }
  clearbody load. destruct (cached s) as [[expires v]|] eqn:Ec; [destruct (expires >? now) eqn:E|].
  { split_and!; try done; [by left|intros ? [= <-]; split; [done|by eapply Hc]|].
    by intros ? ? _ _ [= <- <-]. }
  all: destruct load as [s' call]; destruct Hload as (Hstart & id & r & -> & El & Hr);
    split_and!; try done; try (intros ? [= <-]; by exists r).
  intros ? ? _ _ [= <- <-] ?. exfalso. by eapply Hfresh.
Qed.

Lemma capabilities_single_flight_witness :
  exists s0, newService (jint 1000) = Ok s0 /\
  let s := service_step (service_step s0 (ServiceGet 0 None 7)) (ServiceLoaded 7 (Ok demo_capabilities) 5) in
  (length (inflight s) <= 1)%nat /\ 0 < controlLimit s <= CONTROL_LIMIT /\
  let '(s', call) := capabilities_get 900 None 8 s in
  (closed s = true -> s' = s /\ call = Answered (Throw (ETransport (localError CANCELLED (Some client_closed))))) /\
  (inflight s' = inflight s \/ (inflight s = [] /\ inflight s' = [8]%nat /\ call = Waits 8)) /\
  (forall v, call = Answered (Ok v) -> s' = s /\ genuine v) /\
  (forall id, call = Waits id -> exists r, loading s' = Some (id, r) /\ (forall v, r = Some (Ok v) -> genuine v)) /\
  (forall expires v, closed s = false -> (None : option Ja3ProxyTransportError) = None ->
     cached s = Some (expires, v) -> 900 < expires -> s' = s /\ call = Answered (Ok v)).
Proof.
  eexists. split; [reflexivity|]. intros s. apply (capabilities_single_flight s 900 None 8).
  apply service_reach; [apply service_reach; [by eapply (service_new (jint 1000))|]|].
  - cbn. split; [apply not_elem_of_nil|done].
  - cbn. by apply list_elem_of_singleton.
Defined.

(** *** Control calls *)

(** The answer that makes a control call succeed with [value]. *)
Definition control_success (parseJson : list Z -> result exn jsval) (response : Response) (value : option jsval) : Prop :=
  match value with
  | None => status response = 204
  | Some v =>
      200 <= status response <= 299 /\ status response <> 204 /\
      media_type_is "application/json" response = true /\
      readJson parseJson (body response) control_diag false = Ok v
  end.

Lemma document_fits stringify document limit :
  (forall v, document = Some v -> zlength (encode (stringify v)) <= limit) <->
  exists bytes,
    match document with
    | None => Ok None
    | Some v => match jsonBytes stringify v limit with
                | Ok bytes => Ok (Some bytes)
                | Throw _ => Throw (control_error BODY_TOO_LARGE None)
                end
    end = Ok bytes.
Proof.
  destruct document as [v|]; [|naive_solver]. unfold jsonBytes. rewrite Z.gtb_ltb.
  destruct (Z.ltb_spec limit (zlength (encode (stringify v)))) as [Hlt|Hge]; split.
  - intros H. specialize (H v eq_refl). lia.
  - by intros [? ?].
  - eauto.
  - by intros _ v' [= <-].
Qed.
(** What becomes of a received response. *)
Lemma control_answer parseJson response value aborted :
  match (true,
         if (300 <=? status response) && (status response <=? 399)
         then Throw (control_error PROTOCOL_ERROR None)
         else if response_ok response && (status response =? 204) then Ok None
         else if negb (media_type_is "application/json" response)
         then Throw (control_error PROTOCOL_ERROR None)
         else
           let? value := readJson parseJson (body response) control_diag false in
           if negb (response_ok response)
           then Throw (ETransport (transportError value control_diag false false))
           else Ok (Some value)) with
  | (_, Ok value) => Ok value
  | (received, Throw error) =>
      Throw (match error with
             | ETransport e => e
             | _ => match aborted with
                    | Some e => e
                    | None => newTransportError (if received then PROTOCOL_ERROR else CONNECT_ERROR)
                                control_diag false (Some service_unavailable) None
                    end
             end)
  end = Ok value <-> control_success parseJson response value.
Proof.
  unfold control_success, response_ok.
  destruct (Z.leb_spec 300 (status response)), (Z.leb_spec (status response) 399); cbn [andb]; try lia;
    try (split; [discriminate|destruct value; lia]).
  - destruct (Z.leb_spec 200 (status response)), (Z.leb_spec (status response) 299); cbn [andb negb]; try lia.
    destruct (media_type_is _ _); cbn [negb]; [|split; [discriminate|destruct value; [lia|lia]]].
    destruct (readJson _ _ _ _) as [v|[]]; cbn [result_bind]; split; try discriminate; destruct value; try lia; naive_solver.
  - destruct (Z.leb_spec 200 (status response)), (Z.leb_spec (status response) 299); cbn [andb negb]; try lia.
    + destruct (Z.eqb_spec (status response) 204) as [E|E].
      { split; [by intros [= <-]|]. destruct value; [lia|done]. }
      destruct (media_type_is _ _); cbn [negb]; [|split; [discriminate|destruct value; naive_solver]].
      destruct (readJson _ _ _ _) as [v|[]]; cbn [result_bind]; split; try discriminate; destruct value; naive_solver.
    + destruct (media_type_is _ _); cbn [negb]; [|split; [discriminate|destruct value; lia]].
      destruct (readJson _ _ _ _) as [v|[]]; cbn [result_bind]; split; try discriminate; destruct value; lia.
Qed.
Lemma control_received parseJson stringify document w received error :
  control_body parseJson stringify document w = (received, Throw error) -> isJa3ProxyError error = false ->
  (received = true <-> admitted w = Ok tt /\ exists response, answer w = Ok response).
Proof.
  unfold control_body. destruct (admitted w) as [[]|e]; [|naive_solver].
  destruct (match document with None => _ | Some _ => _ end) as [bytes|e] eqn:Edoc.
  - destruct (aborted_before w); [intros [= <- <-]; done|]. destruct (answer w); naive_solver.
  - intros [= <- <-]. destruct document; [|done]. destruct (jsonBytes _ _ _); [done|]. by injection Edoc as <-.
Qed.

(** Control calls.  A call returns a value exactly when the service is open, a
    permit was granted, the document fits the control limit, the signal had not
    aborted, and the response is a 204, or another 2xx with a JSON media type and a
    readable document.  A host failure never leaves the call: after an abort it is the
    deadline's error, and otherwise a [service_unavailable] error that tells a missing
    response (CONNECT_ERROR) from a bad one (PROTOCOL_ERROR). *)
Theorem control_spec parseJson stringify closed document w :
  (forall value, control parseJson stringify closed document w = Ok value <->
     closed = false /\ admitted w = Ok tt /\ aborted_before w = None /\
     (forall v, document = Some v -> zlength (encode (stringify v)) <= limit_now w) /\
     exists response, answer w = Ok response /\ control_success parseJson response value) /\
  (forall received error,
     closed = false -> control_body parseJson stringify document w = (received, Throw error) ->
     isJa3ProxyError error = false ->
     control parseJson stringify closed document w =
       Throw (match aborted_after w with
              | Some e => e
              | None => newTransportError (if received then PROTOCOL_ERROR else CONNECT_ERROR)
                          control_diag false (Some service_unavailable) None
              end) /\
     (received = true <-> admitted w = Ok tt /\ exists response, answer w = Ok response)).
Proof.
  split.
  - intros value. unfold control. destruct closed; [naive_solver|]. unfold control_body.
    destruct (admitted w) as [[]|e]; [|naive_solver].
    pose proof (document_fits stringify document (limit_now w)) as Hfit.
    destruct (match document with None => _ | Some _ => _ end) as [bytes|e] eqn:Edoc.
    2:{ split; [discriminate|]. intros (_ & _ & _ & Hd & _). apply Hfit in Hd as [? ?]. congruence. }
    assert (forall v, document = Some v -> zlength (encode (stringify v)) <= limit_now w) as Hd by (apply Hfit; eauto).
    destruct (aborted_before w); [naive_solver|]. destruct (answer w) as [response|e]; [|naive_solver].
    transitivity (control_success parseJson response value).
    2:{ split; [intros; split_and!; eauto | intros (_ & _ & _ & _ & ? & [= <-] & ?); done]. }
    apply control_answer.
  - intros received error -> Hbody Herr. unfold control. rewrite Hbody.
    split; [by destruct error|]. by eapply control_received.
Qed.

Lemma control_spec_witness :
  let parse (b : list Z) : result exn jsval := Ok (JNum (NInt (zlength b))) in
  let text (_ : jsval) : jsstr := "{}" in
  let offline := {| admitted := Ok tt; limit_now := 10; aborted_before := None;
                    answer := Throw ETypeError; aborted_after := None |} in
  control parse text false (Some JNull) offline =
    Throw (newTransportError CONNECT_ERROR control_diag false (Some service_unavailable) None) /\
  (false = true <-> admitted offline = Ok tt /\ exists response, answer offline = Ok response).
Proof.
  intros parse text offline. apply (proj2 (control_spec parse text false (Some JNull) offline) false ETypeError); reflexivity.
Defined.

(** A request that its caller names "control" is taken for a control call: the
    document of another request is accepted. *)
Example control_request_id :
  let fallback := initialDiagnostics "control" (NInt 0) "unknown" in
  requestId (Errors.diagnostics (transportError demo_error fallback false false)) = "r-1" /\
  requestId (Errors.diagnostics (transportError demo_error (initialDiagnostics "mine" (NInt 0) "unknown") false false)) = "mine".
Proof. vm_compute. split; reflexivity. Qed.

Lemma assoc_set_assoc {A : Type} k (v : A) props key :
  assoc key (assoc_set k v props) = if js_eqb k key then Some v else assoc key props.
Proof.
  destruct (js_eqb k key) eqn:E; [apply js_eqb_eq in E as ->; apply assoc_set_eq|]. apply assoc_set_ne.
  intros ->. by rewrite js_eqb_refl in E.
Qed.
Lemma assoc_elem {A : Type} key (props : list (jsstr * A)) : key ∈ props.*1 <-> assoc key props <> None.
Proof. rewrite assoc_None. split; [auto|]. apply dec_stable. Qed.
Lemma traced_assoc (extra : jsstr -> option jsstr) keys acc key :
  assoc key (foldl (fun headers key => match extra key with Some value => assoc_set key value headers | None => headers end)
               acc keys) =
  match (if bool_decide (key ∈ keys) then extra key else None) with Some value => Some value | None => assoc key acc end.
Proof.
  revert acc. induction keys as [|k keys IH]; intros acc; [done|]. cbn [foldl]. rewrite IH.
  destruct (decide (key = k)) as [->|Hne].
  - rewrite (bool_decide_true (k ∈ k :: keys)) by by left.
    destruct (extra k) as [value|]; [|by destruct (bool_decide _)]. destruct (bool_decide _); [done|].
    apply assoc_set_eq.
  - rewrite (bool_decide_ext (key ∈ k :: keys) (key ∈ keys)) by set_solver.
    destruct (if bool_decide (key ∈ keys) then extra key else None); [done|].
    destruct (extra k); [|done]. by apply assoc_set_ne.
Qed.

(** The service gets the bearer token of the client, and a tracing hook can only add
    the three tracing headers, whatever it returns or throws. *)
Theorem service_headers_only c supplied contentType :
  let headers := service_headers c supplied contentType in
  assoc "authorization" headers = Some (JsStr (units "Bearer " ++ units (token c))) /\
  (forall key, key ∈ headers.*1 -> key ∈ "authorization" :: "content-type" :: tracing_headers) /\
  (forall key, key ∈ tracing_headers ->
     assoc key headers = match supplied with Some (Ok extra) => extra key | _ => None end) /\
  (forall value, contentType = Some value -> value <> "" -> assoc "content-type" headers = Some value).
Proof.
  set (bearer := JsStr (units "Bearer " ++ units (token c))).
  assert (forall key, assoc key (traced supplied) =
            if bool_decide (key ∈ tracing_headers) then match supplied with Some (Ok extra) => extra key | _ => None end else None)
    as Htr.
  { intros key. unfold traced. destruct supplied as [[extra|]|]; try by destruct (bool_decide _).
    rewrite traced_assoc. destruct (bool_decide _); [|done]. by destruct (extra key). }
  assert (forall key, assoc key (service_headers c supplied contentType) =
            match contentType with
            | Some value => if negb (js_eqb value "") && js_eqb "content-type" key then Some value
                            else if js_eqb "authorization" key then Some bearer else assoc key (traced supplied)
            | None => if js_eqb "authorization" key then Some bearer else assoc key (traced supplied)
            end) as Hall.
  { intros key. unfold service_headers. destruct contentType as [value|]; [|apply assoc_set_assoc].
    destruct (js_eqb value ""); cbn [negb andb]; rewrite !assoc_set_assoc; done. }
  cbv zeta. split_and!.
  - rewrite Hall. destruct contentType as [value|]; [|done]. by rewrite andb_false_r.
  - intros key Hk%assoc_elem. rewrite Hall, Htr in Hk. rewrite !elem_of_cons.
    destruct (decide (key = "authorization")) as [|Ha]; [by left|].
    destruct (decide (key = "content-type")) as [|Hc]; [by right; left|]. right; right.
    apply not_eq_sym in Ha, Hc. unfold js_eqb in Hk. rewrite (bool_decide_false _ Ha), (bool_decide_false _ Hc) in Hk.
    destruct contentType; rewrite ?andb_false_r in Hk; by case_bool_decide.
  - intros key Hk. rewrite Hall, Htr, bool_decide_true by done.
    assert (js_eqb "content-type" key = false /\ js_eqb "authorization" key = false) as [-> ->].
    { unfold tracing_headers in Hk. rewrite !elem_of_cons in Hk.
      destruct Hk as [-> |[-> |[-> |H%not_elem_of_nil]]]; [vm_compute; done..|done]. }
    destruct contentType; by rewrite ?andb_false_r.
  - intros value -> Hne. rewrite Hall. unfold js_eqb at 1. by rewrite bool_decide_false.
Qed.
