(* ===== verification/Request.v ===== *)
(** * Requests before they are sent (Ja3ProxyClient.executeStream of packages/typescript/src/client.ts)

    The checks a request passes before it waits for a permit, the checks against the
    service's limits afterwards, and the metadata document that is sent.  [URL] and
    [JSON.stringify] are the host's and parameters here. *)

From S2P Require Import Prelude Js Errors Deadline Validators Protocol Service.

Local Open Scope js_scope.

(** The options after their defaults; a [requestId] that is missing is a random UUID. *)
Record RequestOptions := {
  requestId : jsval;
  attempt : jsval;
  partition : jsval;
  contextId : jsval;
  connection : jsval;
  headerOrder : jsval;
  url : jsval;
  method : jsval;
  headers : HeadersInput;
  body : jsval;
  maxResponseBytes : jsval;
}.

(** What the source reads of the target. *)
Record Target := {
  target_protocol : jsstr; target_username : jsstr; target_password : jsstr;
  target_hash : jsstr; href : jsstr;
}.

(** The values the checks produce. *)
Record Prepared := {
  p_requestId : jsstr;
  p_attempt : Z;
  p_partition : jsstr;
  p_url : jsstr;
  p_method : jsstr;
  p_headers : list (jsstr * jsstr);
  p_body : jsval;               (* [null], bytes or a stream *)
  p_maximum : Z;
}.

Definition is_nullish (v : jsval) : bool := is_null v || is_undefined v.
(** [typeof options.body === 'string' ? encoder.encode(options.body) : options.body] *)
Definition encode_body (v : jsval) : jsval :=
  match v with JStr s => JBytes (encode s) | v => v end.
Definition body_kind_ok (v : jsval) : bool :=
  match v with
  | JBytes _ | JHost HReadableStream | JHost HAsyncIterable => true
  | _ => false
  end.
(** [b.length] of a Uint8Array body. *)
Definition body_length (v : jsval) : option Z :=
  match v with JBytes b => Some (zlength b) | _ => None end.
Definition http_protocols : list jsstr := ["http:"; "https:"].
Definition bodyless_methods : list jsstr := ["GET"; "HEAD"].

(** [options.connection ?? connectionHint] *)
Definition connection_of (o : RequestOptions) (hint : option jsval) : option jsval :=
  if is_nullish (connection o) then hint else Some (connection o).

Section host.
Context (parse_target : jsval -> option Target) (parse_url : jsval -> option URL) (stringify : jsval -> jsstr).

(** The [try] block that reads the target, the method and the headers. *)
Definition read_target (o : RequestOptions) : option (Target * jsstr * list (jsstr * jsstr)) :=
  match parse_target (url o), method o with
  | Some target, JStr m =>
      if negb (js_includes http_protocols (target_protocol target)) ||
         negb (js_eqb (target_username target) "") || negb (js_eqb (target_password target) "") ||
         negb (js_eqb (target_hash target) "") || negb (token_re m) then None
      else match headersFrom (headers o) with
           | Ok pairs => Some (target, m, pairs)
           | Throw _ => None
           end
  | _, _ => None
  end.

(** Everything up to the first wait; [diag] and [usedProxy] go into the error. *)
Definition check_options (o : RequestOptions) (diag : Ja3Diagnostics) (usedProxy : bool) :
    result exn Prepared :=
  let invalid {A : Type} : result exn A :=
    Throw (ETransport (newTransportError INVALID_REQUEST diag usedProxy (Some invalid_input) None)) in
  match requestId o, nonnegativeInteger (attempt o) with
  | JStr rid, Some att =>
      if negb (opaque_re rid) then invalid else
      match validatePartition (partition o), partition o with
      | Throw e, _ => Throw e
      | Ok _, JStr part =>
          if eqb (is_undefined (contextId o)) (is_undefined (connection o)) ||
             (negb (is_undefined (contextId o)) && negb (opaque (contextId o))) then invalid
          else if negb (is_undefined (headerOrder o)) && negb (is_str (headerOrder o) "caller") &&
                  negb (is_str (headerOrder o) "browser") then invalid
          else
            match read_target o with
            | None => invalid
            | Some (target, m, pairs) =>
                let m := to_upper m in
                let b := encode_body (body o) in
                if negb (is_nullish b) && negb (body_kind_ok b) then invalid
                else if js_includes bodyless_methods m && negb (is_nullish b) then invalid
                else
                  match positive (maxResponseBytes o) with
                  | None => invalid
                  | Some maximum =>
                      Ok {| p_requestId := rid; p_attempt := att; p_partition := part;
                            p_url := href target; p_method := m; p_headers := pairs; p_body := b;
                            p_maximum := maximum |}
                  end
            end
      | Ok _, _ => invalid
      end
  | _, _ => invalid
  end.

(** The limits of the capabilities that bound one request. *)
Record RequestLimits := {
  maxTimeoutMs : Z; l_maxResponseBytes : Z; maxHeaders : Z; maxHeaderBytes : Z;
  maxRequestBytes : Z; maxMetadataBytes : Z;
}.
Definition number (v : jsval) : Z := default 0 (read_int v).
Definition request_limits (caps : jsval) : RequestLimits :=
  let limits := get caps "limits" in {|
  maxTimeoutMs := number (get limits "maxTimeoutMs");
  l_maxResponseBytes := number (get limits "maxResponseBytes");
  maxHeaders := number (get limits "maxHeaders");
  maxHeaderBytes := number (get limits "maxHeaderBytes");
  maxRequestBytes := number (get limits "maxRequestBytes");
  maxMetadataBytes := number (get (get caps "framing") "maxMetadataBytes") |}.
Definition header_bytes (pairs : list (jsstr * jsstr)) : Z :=
  fold_left (fun sum '(name, value) => sum + byte_length name + byte_length value) pairs 0.

Definition wire_document (o : RequestOptions) (p : Prepared) (remaining : Z) : jsval :=
  JObject
    ([("requestId", JStr (p_requestId p)); ("partition", JStr (p_partition p))]
     ++ (if truthy (connection o) then [("connection", connection o)] else [("contextId", contextId o)])
     ++ [("url", JStr (p_url p)); ("method", JStr (p_method p)); ("headers", pairs_js (p_headers p))]
     ++ (if is_str (headerOrder o) "browser" then [("headerOrder", JStr "browser")] else [])
     ++ [("timeoutMs", jint remaining); ("maxResponseBytes", jint (p_maximum p));
         ("attempt", jint (p_attempt p)); ("hasBody", JBool (negb (is_nullish (p_body p))))]
     ++ match body_length (p_body p) with Some n => [("bodyLength", jint n)] | None => [] end).

(** After the permit: the checks of the connection and of the limits, and the bytes of
    the metadata. *)
Definition check_limits (o : RequestOptions) (p : Prepared) (caps : jsval) (connection : option jsval)
    (timeoutMs remaining : Z) (diag : Ja3Diagnostics) (usedProxy : bool) : result exn (list Z) :=
  let error {A : Type} code : result exn A :=
    Throw (ETransport (newTransportError code diag usedProxy None None)) in
  let limits := request_limits caps in
  let? _ := match connection with
            | Some c => if truthy c then validateConnection parse_url caps c else Ok tt
            | None => Ok tt
            end in
  if (timeoutMs >? maxTimeoutMs limits) || (p_maximum p >? l_maxResponseBytes limits) ||
     (zlength (p_headers p) >? maxHeaders limits) || (header_bytes (p_headers p) >? maxHeaderBytes limits)
  then error INVALID_REQUEST
  else if match body_length (p_body p) with Some n => n >? maxRequestBytes limits | None => false end
  then error BODY_TOO_LARGE
  else
    let wire := wire_document o p remaining in
    if negb (validateWire requestMetadata wire) then error INVALID_REQUEST
    else match jsonBytes stringify wire (maxMetadataBytes limits) with
         | Ok bytes => Ok bytes
         | Throw _ => error BODY_TOO_LARGE
         end.
End host.

(** ** Proofs *)

(** What [check_options] establishes of the values it passes on. *)
Record checked (parse_target : jsval -> option Target) (o : RequestOptions) (p : Prepared) : Prop := {
  ck_requestId : requestId o = JStr (p_requestId p) /\ opaque_re (p_requestId p) = true;
  ck_attempt : attempt o = jint (p_attempt p) /\ safe (p_attempt p);
  ck_partition : partition o = JStr (p_partition p) /\ opaque_re (p_partition p) = true;
  ck_route : (contextId o = JUndefined /\ connection o <> JUndefined) \/
             (opaque (contextId o) = true /\ connection o = JUndefined);
  ck_target : exists target, parse_target (url o) = Some target /\ p_url p = href target /\
    target_protocol target ∈ http_protocols /\ target_username target = "" /\
    target_password target = "" /\ target_hash target = "";
  ck_method : exists m, method o = JStr m /\ token_re m = true /\ p_method p = to_upper m;
  ck_headerOrder : headerOrder o ∈ [JUndefined; JStr "caller"; JStr "browser"];
  ck_headersFrom : headersFrom (headers o) = Ok (p_headers p);
  ck_headers : Forall header_ok (p_headers p) /\ Forall (fun pair => forwarded pair = true) (p_headers p);
  ck_body : p_body p = encode_body (body o) /\
    (is_nullish (p_body p) = true \/ (body_kind_ok (p_body p) = true /\ p_method p ∉ bodyless_methods));
  ck_maximum : maxResponseBytes o = jint (p_maximum p) /\ 0 < p_maximum p <= MAX_SAFE_INTEGER;
}.

Lemma undefined_iff v : is_undefined v = true <-> v = JUndefined.
Proof. by destruct v. Qed.
Lemma route_inv ctx conn :
  eqb (is_undefined ctx) (is_undefined conn) || (negb (is_undefined ctx) && negb (opaque ctx)) = false ->
  (ctx = JUndefined /\ conn <> JUndefined) \/ (opaque ctx = true /\ conn = JUndefined).
Proof.
  intros [E1 E2]%orb_false_elim. destruct (is_undefined ctx) eqn:Ec.
  - apply undefined_iff in Ec. left. split; [done|]. intros ->. done.
  - right. cbn in E2. apply negb_false_iff in E2. split; [done|]. apply undefined_iff.
    by destruct (is_undefined conn).
Qed.
Lemma header_order_inv v :
  negb (is_undefined v) && negb (is_str v "caller") && negb (is_str v "browser") = false <->
  v ∈ [JUndefined; JStr "caller"; JStr "browser"].
Proof.
  rewrite !andb_false_iff, !negb_false_iff. split.
  - intros [[->%undefined_iff| ->%is_str_inv]| ->%is_str_inv]; set_solver.
  - rewrite !elem_of_cons. intros [->|[->|[->|[]%not_elem_of_nil]]]; vm_compute; tauto.
Qed.
Lemma read_target_inv parse_target o target m pairs :
  read_target parse_target o = Some (target, m, pairs) ->
  parse_target (url o) = Some target /\ target_protocol target ∈ http_protocols /\
  target_username target = "" /\ target_password target = "" /\ target_hash target = "" /\
  method o = JStr m /\ token_re m = true /\ headersFrom (headers o) = Ok pairs /\
  Forall header_ok pairs /\ Forall (fun pair => forwarded pair = true) pairs.
Proof.
  unfold read_target. destruct (parse_target (url o)) as [t|]; [|done].
  destruct (method o) as [| | | |m'| | | |]; try done. destruct (_ || _) eqn:E; [done|].
  repeat (apply orb_false_elim in E as [E ?%negb_false_iff]). apply negb_false_iff in E.
  unfold js_includes in E. apply bool_decide_eq_true in E.
  repeat match goal with H : js_eqb _ _ = true |- _ => apply js_eqb_eq in H end.
  destruct (headersFrom (headers o)) as [ps|] eqn:Eh; [|done]. intros [= -> -> ->].
  apply headersFrom_clean in Eh as [? ?]. done.
Qed.

Lemma check_options_checked parse_target o diag usedProxy p :
  check_options parse_target o diag usedProxy = Ok p -> checked parse_target o p.
Proof.
  unfold check_options. destruct (requestId o) as [| | | |rid| | | |] eqn:Erid; try done.
  destruct (nonnegativeInteger (attempt o)) as [att|] eqn:Eatt; [|done].
  destruct (opaque_re rid) eqn:Eop; cbn [negb]; [|done].
  unfold validatePartition. destruct (opaque (partition o)) eqn:Epart; cbn [negb]; [|done].
  apply str_test_inv in Epart as (part & Epart & Hpart). rewrite Epart.
  destruct (eqb _ _ || _) eqn:Eroute; [done|]. apply route_inv in Eroute.
  destruct (negb (is_undefined (headerOrder o)) && _ && _) eqn:Eorder; [done|]. apply header_order_inv in Eorder.
  destruct (read_target parse_target o) as [[[target m] pairs]|] eqn:Et; [|done].
  apply read_target_inv in Et as (? & ? & ? & ? & ? & ? & ? & ? & ? & ?).
  destruct (negb (is_nullish _) && negb (body_kind_ok _)) eqn:Ebody; [done|].
  destruct (js_includes bodyless_methods (to_upper m) && _) eqn:Eless; [done|].
  destruct (positive (maxResponseBytes o)) as [maximum|] eqn:Emax; [|done]. intros [= <-].
  apply nonnegativeInteger_Some in Eatt. apply positive_Some in Emax.
  constructor; cbn; try done; [by exists target|by exists m|]. split; [done|].
  destruct (is_nullish _); [by left|]. right. cbn in Ebody. apply negb_false_iff in Ebody.
  split; [done|]. rewrite andb_true_r in Eless. unfold js_includes in Eless.
  by apply bool_decide_eq_false in Eless.
Qed.

(** [check_options] accepts every request that has the values. *)
Lemma checked_check_options parse_target o diag usedProxy p :
  checked parse_target o p -> check_options parse_target o diag usedProxy = Ok p.
Proof.
  intros [[Erid Hrid] [Eatt Hatt] [Epart Hpart] Hroute (target & Etarget & Eurl & Hproto & Euser & Epass & Ehash)
    (m & Em & Htoken & Epm) Horder Hheaders _ [Ebody Hbody] [Emax Hmax]].
  unfold check_options, validatePartition, read_target.
  apply header_order_inv in Horder. rewrite Erid, Eatt, Epart, Horder, Etarget, Em, Euser, Epass, Ehash, Htoken, Hheaders, Emax.
  rewrite (proj2 (nonnegativeInteger_Some (jint (p_attempt p)) (p_attempt p))) by done.
  rewrite (proj2 (positive_Some (jint (p_maximum p)) (p_maximum p))) by done.
  unfold opaque at 1. cbn [str_test]. rewrite Hrid, Hpart, !js_eqb_refl. unfold js_includes.
  rewrite (bool_decide_true (target_protocol target ∈ _)) by done. cbn [negb orb].
  replace (eqb _ _ || _) with false.
  2:{ symmetry. destruct Hroute as [[-> Hc]|[Ho ->]].
      - destruct (connection o); done.
      - destruct (is_undefined (contextId o)) eqn:Eu; [|by rewrite Ho].
        apply undefined_iff in Eu. by rewrite Eu in Ho. }
  rewrite <- Ebody, <- Epm.
  replace (negb (is_nullish (p_body p)) && _) with false.
  2:{ symmetry. destruct Hbody as [->|[-> _]]; [done|]. apply andb_false_r. }
  replace (bool_decide _ && _) with false.
  2:{ symmetry. destruct Hbody as [->|[_ Hm]]; [apply andb_false_r|]. by rewrite bool_decide_false. }
  rewrite <- Eurl. by destruct p.
Qed.
Lemma check_options_refuses parse_target o diag usedProxy e :
  check_options parse_target o diag usedProxy = Throw e ->
  exists e', e = ETransport e' /\ code e' = INVALID_REQUEST /\ kind e' = invalid_input.
Proof.
  unfold check_options, validatePartition.
  repeat (case_match; simplify_eq); intros [= <-]; eexists; split_and!; reflexivity.
Qed.

(** What the limits of the service allow. *)
Definition fits (limits : RequestLimits) (timeoutMs : Z) (p : Prepared) : Prop :=
  timeoutMs <= maxTimeoutMs limits /\ p_maximum p <= l_maxResponseBytes limits /\
  zlength (p_headers p) <= maxHeaders limits /\ header_bytes (p_headers p) <= maxHeaderBytes limits.
Definition body_fits (limits : RequestLimits) (p : Prepared) : Prop :=
  forall b, p_body p = JBytes b -> zlength b <= maxRequestBytes limits.
(** The connection, if the request has one, is one the service offers. *)
Definition connection_accepted (parse_url : jsval -> option URL) (caps : jsval) (connection : option jsval) : Prop :=
  forall c, connection = Some c -> truthy c = true -> connection_ok parse_url caps c.

Lemma fits_spec limits timeoutMs p :
  (timeoutMs >? maxTimeoutMs limits) || (p_maximum p >? l_maxResponseBytes limits) ||
  (zlength (p_headers p) >? maxHeaders limits) || (header_bytes (p_headers p) >? maxHeaderBytes limits) = false <->
  fits limits timeoutMs p.
Proof. unfold fits. rewrite !orb_false_iff, !Z.gtb_ltb, !Z.ltb_ge. tauto. Qed.
Lemma body_fits_spec limits p :
  match body_length (p_body p) with Some n => n >? maxRequestBytes limits | None => false end = false <->
  body_fits limits p.
Proof.
  unfold body_fits. destruct (p_body p) as [| | | | | | |b|]; cbn; try (by split); [].
  rewrite Z.gtb_ltb, Z.ltb_ge. split; [by intros ? ? [= <-]|auto].
Qed.
Lemma connection_checked parse_url caps connection :
  match (match connection with
         | Some c => if truthy c then validateConnection parse_url caps c else Ok tt
         | None => Ok tt
         end) with
  | Ok _ => connection_accepted parse_url caps connection
  | Throw e => exists c, connection = Some c /\ truthy c = true /\ validateConnection parse_url caps c = Throw e
  end.
Proof.
  unfold connection_accepted. destruct connection as [c|]; [|done]. destruct (truthy c) eqn:Et; [|intros c' [= <-]; congruence].
  destruct (validateConnection parse_url caps c) as [[]|e] eqn:Ev; [|by exists c].
  intros c' [= <-] _. by apply validateConnection_spec.
Qed.

(** The members of the document that a peer routes by, and the body's length. *)
Lemma wire_members o p remaining :
  let wire := wire_document o p remaining in
  get wire "connection" = (if truthy (connection o) then connection o else JUndefined) /\
  get wire "contextId" = (if truthy (connection o) then JUndefined else contextId o) /\
  get wire "requestId" = JStr (p_requestId p) /\ get wire "partition" = JStr (p_partition p) /\
  get wire "url" = JStr (p_url p) /\ get wire "method" = JStr (p_method p) /\
  get wire "headers" = pairs_js (p_headers p) /\ get wire "timeoutMs" = jint remaining /\
  get wire "bodyLength" = match body_length (p_body p) with Some n => jint n | None => JUndefined end.
Proof.
  unfold wire_document.
  destruct (truthy (connection o)), (is_str (headerOrder o) "browser"), (body_length (p_body p));
    split_and!; reflexivity.
Qed.

(** C19: which requests are sent, and why the others are not.  Before the wait a request
    passes exactly when it has the values of [checked]: a well-formed identifier, attempt
    and partition, exactly one of a context and a connection, a known header order, an
    http(s) target without credentials or fragment, a token method, clean headers without
    the tracing ones, no body on GET or HEAD, and a positive response limit; any other
    request is an INVALID_REQUEST.  After it, what is sent is a document of the request
    contract, within the metadata frame, whose timeout, response limit, headers and body
    length are within the service's limits, and which names the connection, checked
    against the capabilities, or else the context.  A refusal then is the connection's
    own, when the service does not offer it; an INVALID_REQUEST, when a limit is exceeded
    or the document is not of the contract; or a BODY_TOO_LARGE, when the body or the
    metadata is too large; the last two with the request's diagnostics. *)
Theorem request_checked parse_target parse_url stringify o hint caps timeoutMs remaining diag usedProxy :
  match check_options parse_target o diag usedProxy with
  | Throw e =>
      (exists e', e = ETransport e' /\ code e' = INVALID_REQUEST /\ kind e' = invalid_input) /\
      forall p, ~ checked parse_target o p
  | Ok p =>
      checked parse_target o p /\
      let connection := connection_of o hint in
      let limits := request_limits caps in
      let wire := wire_document o p remaining in
      let refusal c := ETransport (newTransportError c diag usedProxy None None) in
      match check_limits parse_url stringify o p caps connection timeoutMs remaining diag usedProxy with
      | Throw e =>
          (exists c e', connection = Some c /\ truthy c = true /\ ~ connection_ok parse_url caps c /\
             e = ETransport e' /\
             code e' ∈ [INVALID_REQUEST; INVALID_PROFILE; EGRESS_REQUIRED; UNSUPPORTED_CAPABILITY]) \/
          (connection_accepted parse_url caps connection /\
           ((e = refusal INVALID_REQUEST /\
             (~ fits limits timeoutMs p \/
              (fits limits timeoutMs p /\ body_fits limits p /\ validateWire requestMetadata wire = false))) \/
            (e = refusal BODY_TOO_LARGE /\ fits limits timeoutMs p /\
             (~ body_fits limits p \/
              (validateWire requestMetadata wire = true /\
               maxMetadataBytes limits < zlength (encode (stringify wire)))))))
      | Ok bytes =>
          connection_accepted parse_url caps connection /\ fits limits timeoutMs p /\ body_fits limits p /\
          bytes = encode (stringify wire) /\ zlength bytes <= maxMetadataBytes limits /\
          validateWire requestMetadata wire = true /\
          get wire "requestId" = requestId o /\ get wire "partition" = partition o /\
          get wire "url" = JStr (p_url p) /\ get wire "method" = JStr (p_method p) /\
          get wire "headers" = pairs_js (p_headers p) /\ get wire "timeoutMs" = jint remaining /\
          (if truthy (Request.connection o)
           then get wire "connection" = Request.connection o /\ get wire "contextId" = JUndefined /\
                connection_ok parse_url caps (Request.connection o)
           else get wire "connection" = JUndefined /\ get wire "contextId" = contextId o) /\
          (forall b, p_body p = JBytes b -> get wire "bodyLength" = jint (zlength b))
      end
  end.
Proof.
  destruct (check_options parse_target o diag usedProxy) as [p|e] eqn:E.
  2:{ split; [by eapply check_options_refuses|]. intros p Hp.
      apply (checked_check_options _ _ diag usedProxy) in Hp. congruence. }
  apply check_options_checked in E. split; [done|]. cbv zeta. unfold check_limits, jsonBytes.
  pose proof (connection_checked parse_url caps (connection_of o hint)) as Hc.
  destruct (match connection_of o hint with Some _ => _ | None => _ end) as [[]|e]; cbn [result_bind].
  2:{ destruct Hc as (c & Ec & Et & Ev). apply validateConnection_refuses in Ev as [(e' & -> & Hcode) Hno].
      left. by exists c, e'. }
  pose proof (fits_spec (request_limits caps) timeoutMs p) as Hf.
  destruct (_ || _); [right; split; [done|]; left; split; [done|]; left; by intros ?%Hf|].
  apply proj1 in Hf. specialize (Hf eq_refl).
  pose proof (body_fits_spec (request_limits caps) p) as Hb.
  destruct (match body_length (p_body p) with Some _ => _ | None => _ end);
    [right; split; [done|]; right; split_and!; [done..|]; left; by intros ?%Hb|].
  apply proj1 in Hb. specialize (Hb eq_refl).
  destruct (validateWire _ _) eqn:Ew; cbn [negb]; [|right; split; [done|]; left; split; [done|]; by right].
  rewrite Z.gtb_ltb. destruct (Z.ltb_spec (maxMetadataBytes (request_limits caps)) (zlength (encode (stringify (wire_document o p remaining)))));
    [right; split; [done|]; right; split_and!; [done..|]; by right|].
  destruct (wire_members o p remaining) as (Ewc & Ewx & Ewi & Ewp & Ewu & Ewm & Ewh & Ewt & Ewl).
  rewrite Ewc, Ewx, Ewi, Ewp, Ewu, Ewm, Ewh, Ewt, Ewl, (proj1 (ck_requestId _ _ _ E)), (proj1 (ck_partition _ _ _ E)).
  split_and!; try done; [|by intros b ->].
  destruct (truthy (connection o)) eqn:Et; [|done]. split_and!; [done..|]. apply Hc; [|done].
  unfold connection_of. by destruct (connection o).
Qed.

Definition demo_target (v : jsval) : option Target :=
  match v with
  | JStr s => Some {| target_protocol := "https:"; target_username := ""; target_password := "";
                      target_hash := ""; href := s |}
  | _ => None
  end.
Definition demo_options : RequestOptions := {|
  requestId := JStr "r-1"; attempt := jint 0; partition := JStr "main"; contextId := JStr "ctx-1";
  connection := JUndefined; headerOrder := JUndefined; url := JStr "https://example.org/";
  method := JStr "post"; headers := HeaderRecord [("Accept", JStr "*/*"); ("traceparent", JStr "00")];
  body := JStr "hi"; maxResponseBytes := jint 1000 |}.
Example demo_checked :
  check_options demo_target demo_options localDiagnostics false =
    Ok {| p_requestId := "r-1"; p_attempt := 0; p_partition := "main"; p_url := "https://example.org/";
          p_method := "POST"; p_headers := [("Accept", "*/*")]; p_body := JBytes [104; 105];
          p_maximum := 1000 |}.
Proof. vm_compute. reflexivity. Qed.
(** A connection that is [null] is not missing for the check of exactly one route, but is
    not sent either: the document names neither a connection nor a context. *)
Definition null_options : RequestOptions := {|
  requestId := JStr "r-1"; attempt := jint 0; partition := JStr "main"; contextId := JUndefined;
  connection := JNull; headerOrder := JUndefined; url := JStr "https://example.org/";
  method := JStr "post"; headers := HeaderRecord []; body := JStr "hi"; maxResponseBytes := jint 1000 |}.
Example null_connection_sent :
  exists p, check_options demo_target null_options localDiagnostics false = Ok p /\
    let wire := wire_document null_options p 500 in
    validateWire requestMetadata wire = true /\
    get wire "connection" = JUndefined /\ get wire "contextId" = JUndefined.
Proof. eexists. split; [vm_compute; reflexivity|]. vm_compute. done. Qed.
