(* ===== verification/Stream.v ===== *)
(** * Response streams (Ja3ProxyClient.executeStream of packages/typescript/src/client.ts)

    One request from its checks to the end of its body, as a machine with one step per
    await, timer or caller's action.  The awaited values are the events' arguments, so
    a run is any interleaving of the service's answers with aborts, cancellations and
    reads.  [URL], [JSON.parse] and [JSON.stringify] are the host's and parameters. *)

From S2P Require Import Prelude Js Errors Deadline Framing Validators Protocol Service Request.

Local Open Scope js_scope.

(** ** Typed reading of response metadata *)

Definition read_metadata (v : jsval) : option ResponseMetadata :=
  meta_requestId ← read_string (get v "requestId");
  status ← read_int (get v "status");
  diag ← read_diagnostics (get v "diagnostics");
  revision ← read_optional read_int (get v "cookieRevision");
  Some {| meta_requestId := meta_requestId; Protocol.status := status;
          Protocol.headers := read_pairs (get v "headers"); meta_diagnostics := diag;
          meta_cookieRevision := revision |}.

Lemma read_metadata_js m : read_metadata (responseMetadata_js m) = Some m.
Proof.
  unfold read_metadata. destruct m as [rid st hs d rev].
  change (get (responseMetadata_js _) "requestId") with (JStr rid).
  change (get (responseMetadata_js _) "status") with (jint st).
  change (get (responseMetadata_js _) "headers") with (pairs_js hs).
  change (get (responseMetadata_js _) "diagnostics") with (diagnostics_js d).
  change (get (responseMetadata_js _) "cookieRevision") with
    (get (JObject (optional_field "cookieRevision" (opt_js jint rev))) "cookieRevision").
  rewrite read_diagnostics_js, read_pairs_js. by destruct rev.
Qed.

(** ** State *)

Inductive resource := Absent | Held | Released.
Definition release_resource (r : resource) : resource :=
  match r with Held => Released | r => r end.

(** The caller's ReadableStream. *)
Inductive body_state := BodyOpen | BodyClosed | BodyErrored (e : Ja3ProxyTransportError) | BodyCancelled.
Record body_stream := { enqueued : list (list Z); state : body_state }.

Abbreviation Completion := (result Ja3ProxyTransportError Ja3Diagnostics).

(** Where the call is: what it awaits, or that it has thrown. *)
Inductive place :=
| Starting
| Observing (p : Prepared)                (* the observers are called *)
| AwaitCapabilities (p : Prepared)
| AwaitPermit (p : Prepared) (caps : jsval)
| AwaitRun (p : Prepared) (caps : jsval)  (* the observers' [run] hooks *)
| AwaitResponse (p : Prepared) (caps : jsval)
| AwaitErrorDocument
| AwaitHead (p : Prepared) (caps : jsval)
| AwaitHeadEnd (e : Ja3ProxyTransportError)
| Idle (p : Prepared)                     (* the exchange was returned; nothing is read *)
| AwaitFrame (p : Prepared)
| AwaitErrorEnd (p : Prepared) (e : Ja3ProxyTransportError)
| AwaitEnd (p : Prepared) (trailer : jsval)
| Thrown (e : Ja3ProxyTransportError).

Record Stream := {
  at_ : place;
  deadline : Deadline;
  finished : bool;
  sent : bool;
  responseBytes : Z;
  diag : Ja3Diagnostics;
  metadata : option ResponseMetadata;
  failure : option Ja3ProxyTransportError;
  terminal : option Completion;
  references : option ExchangeReferences;
  permit : resource;
  reservation : resource;
  upload : resource;                      (* released when cancelled *)
  reader : resource;                      (* the frame reader *)
  operation : resource;
  controller : option body_stream;
}.

Definition newStream (d : Deadline) (requestId : jsstr) (attempt : num) (tlsProfile : jsstr) : Stream := {|
  at_ := Starting; deadline := d; finished := false; sent := false; responseBytes := 0;
  diag := initialDiagnostics requestId attempt tlsProfile; metadata := None; failure := None;
  terminal := None; references := None; permit := Absent; reservation := Absent;
  upload := Absent; reader := Absent; operation := Held; controller := None |}.

(** ** Assignments *)

Definition goto (p : place) (s : Stream) : Stream := {|
  at_ := p; deadline := deadline s; finished := finished s; sent := sent s;
  responseBytes := responseBytes s; diag := diag s; metadata := metadata s; failure := failure s;
  terminal := terminal s; references := references s; permit := permit s;
  reservation := reservation s; upload := upload s; reader := reader s; operation := operation s;
  controller := controller s |}.
Definition set_deadline (d : Deadline) (s : Stream) : Stream := {|
  at_ := at_ s; deadline := d; finished := finished s; sent := sent s;
  responseBytes := responseBytes s; diag := diag s; metadata := metadata s; failure := failure s;
  terminal := terminal s; references := references s; permit := permit s;
  reservation := reservation s; upload := upload s; reader := reader s; operation := operation s;
  controller := controller s |}.
Definition set_diag (d : Ja3Diagnostics) (s : Stream) : Stream := {|
  at_ := at_ s; deadline := deadline s; finished := finished s; sent := sent s;
  responseBytes := responseBytes s; diag := d; metadata := metadata s; failure := failure s;
  terminal := terminal s; references := references s; permit := permit s;
  reservation := reservation s; upload := upload s; reader := reader s; operation := operation s;
  controller := controller s |}.
Definition set_references (r : option ExchangeReferences) (s : Stream) : Stream := {|
  at_ := at_ s; deadline := deadline s; finished := finished s; sent := sent s;
  responseBytes := responseBytes s; diag := diag s; metadata := metadata s; failure := failure s;
  terminal := terminal s; references := r; permit := permit s;
  reservation := reservation s; upload := upload s; reader := reader s; operation := operation s;
  controller := controller s |}.
(** The resources that the call acquires. *)
Definition set_resources (permit reservation upload reader : resource) (s : Stream) : Stream := {|
  at_ := at_ s; deadline := deadline s; finished := finished s; sent := sent s;
  responseBytes := responseBytes s; diag := diag s; metadata := metadata s; failure := failure s;
  terminal := terminal s; references := references s; permit := permit;
  reservation := reservation; upload := upload; reader := reader; operation := operation s;
  controller := controller s |}.
Definition set_sent (s : Stream) : Stream := {|
  at_ := at_ s; deadline := deadline s; finished := finished s; sent := true;
  responseBytes := responseBytes s; diag := diag s; metadata := metadata s; failure := failure s;
  terminal := terminal s; references := references s; permit := permit s;
  reservation := reservation s; upload := upload s; reader := reader s; operation := operation s;
  controller := controller s |}.
Definition set_metadata (m : ResponseMetadata) (s : Stream) : Stream := {|
  at_ := at_ s; deadline := deadline s; finished := finished s; sent := sent s;
  responseBytes := responseBytes s; diag := meta_diagnostics m; metadata := Some m;
  failure := failure s; terminal := terminal s; references := references s; permit := permit s;
  reservation := reservation s; upload := upload s; reader := reader s; operation := operation s;
  controller := controller s |}.
Definition set_body (bytes : Z) (b : option body_stream) (s : Stream) : Stream := {|
  at_ := at_ s; deadline := deadline s; finished := finished s; sent := sent s;
  responseBytes := bytes; diag := diag s; metadata := metadata s; failure := failure s;
  terminal := terminal s; references := references s; permit := permit s;
  reservation := reservation s; upload := upload s; reader := reader s; operation := operation s;
  controller := b |}.

(** [{ ...diag, phase, delivery, contextId }] and the like. *)
Definition spread_diag (phase : Phase) (delivery : Ja3Delivery) (queueMs totalMs requestBytes responseBytes : Z)
    (contextId : option jsstr) (d : Ja3Diagnostics) : Ja3Diagnostics := {|
  Errors.requestId := Errors.requestId d; Errors.attempt := Errors.attempt d; Errors.phase := phase;
  Errors.delivery := delivery; Errors.queueMs := queueMs; headersMs := headersMs d; bodyMs := bodyMs d;
  Errors.totalMs := totalMs; Errors.requestBytes := requestBytes; Errors.responseBytes := responseBytes;
  tlsProfile := tlsProfile d; traceId := traceId d; spanId := spanId d; clientReused := clientReused d;
  Errors.contextId := contextId; cookieRevision := cookieRevision d |}.

(** [controller?.error(error)], [controller.enqueue(chunk)] and [controller.close()]:
    only an open stream changes; the last two throw on any other. *)
Definition error_body (e : Ja3ProxyTransportError) (b : body_stream) : body_stream :=
  match state b with BodyOpen => {| enqueued := enqueued b; state := BodyErrored e |} | _ => b end.
Definition enqueue_body (chunk : list Z) (b : body_stream) : option body_stream :=
  match state b with
  | BodyOpen => Some {| enqueued := enqueued b ++ [chunk]; state := BodyOpen |}
  | _ => None
  end.
Definition close_body (b : body_stream) : option body_stream :=
  match state b with
  | BodyOpen => Some {| enqueued := enqueued b; state := BodyClosed |}
  | _ => None
  end.

(** The clock, and the upload's byte count, when an event runs. *)
Record moment := { now : Z; uploaded : Z }.

Section call.
Context (usedProxy : bool) (connection : option jsval) (contextId : option jsstr).

(** [updateLocal()] *)
Definition updateLocal (t : moment) (s : Stream) : Ja3Diagnostics :=
  let d := diag s in
  spread_diag (phase d) (delivery d) (queueMs d) (elapsedMs (deadline s) (now t))
    (match upload s with Absent => 0 | _ => uploaded t end) (responseBytes s) (Errors.contextId d) d.

(** [finish(error?)] *)
Definition finish (error : option Ja3ProxyTransportError) (s : Stream) : Stream :=
  if finished s then s
  else
    let error := (fun e => withReferences e (references s)) <$> error in
    let diag := match error with Some e => Errors.diagnostics e | None => diag s end in
    {| at_ := at_ s;
       deadline := match error with Some _ => controller_abort DefaultReason (deadline s) | None => deadline s end;
       finished := true; sent := sent s; responseBytes := responseBytes s; diag := diag;
       metadata := metadata s; failure := error;
       terminal := Some (match error with Some e => Throw e | None => Ok diag end);
       references := references s;
       permit := release_resource (permit s); reservation := release_resource (reservation s);
       upload := release_resource (upload s);
       reader := match error with Some _ => release_resource (reader s) | None => reader s end;
       operation := release_resource (operation s);
       controller := match error with Some e => error_body e <$> controller s | None => controller s end |}.

Definition local_error (code : Ja3ErrorCode) (kind : option Ja3ProxyFailureKind) (t : moment) (s : Stream) :
    Ja3ProxyTransportError :=
  newTransportError code (updateLocal t s) usedProxy kind None.
Definition deadline_error (t : moment) (d : Ja3Diagnostics) (s : Stream) : Ja3ProxyTransportError :=
  error (deadline s) (now t) d usedProxy.

(** [onAbort]: the deadline's signal aborts. *)
Definition onAbort (t : moment) (s : Stream) : Stream :=
  finish (Some (deadline_error t (updateLocal t s) s)) s.

(** [normalize(error)] *)
Definition normalize (t : moment) (error : exn) (s : Stream) : Ja3ProxyTransportError :=
  match failure s with
  | Some f => f
  | None =>
      match error with
      | ETransport e => e
      | _ =>
          if aborted (deadline s) then deadline_error t (updateLocal t s) s
          else local_error (if sent s then PROTOCOL_ERROR else INVALID_REQUEST)
                 (if sent s && bool_decide (metadata s = None) then Some service_unavailable else None) t s
      end
  end.

(** The [catch] clauses of the call and of the stream's [pull]. *)
Definition throw (t : moment) (error : exn) (s : Stream) : Stream :=
  let normalized := withReferences (normalize t error s) (references s) in
  goto (Thrown normalized) (finish (Some normalized) s).
Definition pull_fails (p : Prepared) (t : moment) (error : exn) (s : Stream) : Stream :=
  goto (Idle p) (finish (Some (normalize t error s)) s).
(** [failure ?? deadline.error(diag, usedProxy)] *)
Definition failure_or_deadline (t : moment) (s : Stream) : exn :=
  ETransport (default (deadline_error t (diag s) s) (failure s)).
End call.

(** ** The steps *)

(** What an awaited [reader.next()] gives. *)
Abbreviation frame_answer := (result exn (option (Z * list Z))).

(** What the call reads of the transport's response. *)
Record transport_response := { ok : bool; http_status : Z; http_content_type : option jsstr; has_body : bool }.

Inductive stream_event :=
| SChecked                                              (* the synchronous checks *)
| SObserved (refs : option ExchangeReferences) (reserved : result exn unit)
| SCapabilities (r : result exn jsval)
| SPermit (r : result exn unit)
| SRun
| SResponse (r : result exn transport_response)
| SErrorDocument (r : result exn jsval)
| SHead (r : frame_answer)
| SHeadEnd (r : frame_answer)
| SPull                                                 (* the consumer wants a chunk *)
| SFrame (r : frame_answer)
| SErrorEnd (r : frame_answer)
| SEnd (r : frame_answer)
| SDeadline (ev : deadline_event)
| SCancelBody                                           (* the consumer cancels the body *)
| SClose                                                (* [exchange.close()] *)
| SFailStream (e : Ja3ProxyTransportError)              (* the buffering of the body failed *)
| SUploadFails (range : bool).

Section steps.
Context (parse_target : jsval -> option Target) (parse_url : jsval -> option URL)
  (stringify : jsval -> jsstr) (json_parse : list Z -> option jsval).
Context (o : RequestOptions) (usedProxy : bool) (connection : option jsval) (contextId : option jsstr).

(** [parseJson]: the host's decoder and parser throw their own errors. *)
Definition parseJson (bytes : list Z) : result exn jsval :=
  match json_parse bytes with Some v => Ok v | None => Throw EOther end.
(** [next?.type === type], with the payload. *)
Definition frame_is (type : Z) (next : option (Z * list Z)) : option (list Z) :=
  match next with Some (ty, payload) => if ty =? type then Some payload else None | None => None end.

(** [options.contextId !== undefined && value.contextId !== options.contextId], negated *)
Definition context_matches (v : jsval) : bool :=
  match contextId with Some c => is_str (get v "contextId") c | None => true end.
Definition profile_matches (caps : jsval) (v : jsval) : bool :=
  match connection with
  | None => true
  | Some c =>
      match read_string (get (get c "identity") "tlsProfile") ≫= resolveProfile caps with
      | Some (JStr profile) => is_str (get v "tlsProfile") profile
      | _ => false
      end
  end.
Definition bodyless (p : Prepared) (s : Stream) : bool :=
  js_eqb (p_method p) "HEAD" ||
  match metadata s with
  | Some m => bool_decide (Protocol.status m ∈ [204; 205; 304])
  | None => false
  end.

Definition fail (t : moment) (code : Ja3ErrorCode) (s : Stream) : Stream :=
  throw usedProxy t (ETransport (newTransportError code (diag s) usedProxy None None)) s.
Definition protocol_error (t : moment) (p : Prepared) (s : Stream) : Stream :=
  pull_fails usedProxy p t (ETransport (local_error usedProxy PROTOCOL_ERROR None t s)) s.

(** Up to the reservation. *)
Definition checked_step (t : moment) (s : Stream) : Stream :=
  match check_options parse_target o (diag s) usedProxy with
  | Throw e => throw usedProxy t e s
  | Ok p => goto (Observing p) s
  end.
Definition observed_step (t : moment) (refs : option ExchangeReferences) (reserved : result exn unit)
    (p : Prepared) (s : Stream) : Stream :=
  let s := set_references refs s in
  if finished s then throw usedProxy t (failure_or_deadline usedProxy t s) s
  else if aborted (deadline s) then throw usedProxy t (ETransport (deadline_error usedProxy t (diag s) s)) s
  else
    match reserved with
    | Throw e => throw usedProxy t e s
    | Ok _ => goto (AwaitCapabilities p) (set_resources (permit s) Held (upload s) (reader s) s)
    end.
Definition capabilities_step (t : moment) (r : result exn jsval) (p : Prepared) (s : Stream) : Stream :=
  match r with
  | Throw e => throw usedProxy t e s
  | Ok caps => goto (AwaitPermit p caps) s
  end.

(** From the permit to the metadata and the upload. *)
Definition permit_step (t : moment) (r : result exn unit) (p : Prepared) (caps : jsval) (s : Stream) : Stream :=
  match r with
  | Throw e => throw usedProxy t e s
  | Ok _ =>
      if finished s then
        (* [release()] *)
        throw usedProxy t (failure_or_deadline usedProxy t s)
          (set_resources Released (reservation s) (upload s) (reader s) s)
      else
        let s := set_resources Held (reservation s) (upload s) (reader s) s in
        let d := diag s in
        let s := set_diag (spread_diag (phase d) (delivery d) (elapsedMs (deadline s) (now t)) (totalMs d)
                   (requestBytes d) (Errors.responseBytes d) (Errors.contextId d) d) s in
        match check_limits parse_url stringify o p caps connection (timeoutMs (deadline s))
                (remaining (deadline s) (now t)) (diag s) usedProxy with
        | Throw e => throw usedProxy t e s
        | Ok _ =>
            let s := set_resources (permit s) (reservation s) Held (reader s) s in
            if aborted (deadline s)
            then throw usedProxy t (ETransport (deadline_error usedProxy t (diag s) s)) s
            else goto (AwaitRun p caps) s
        end
  end.

(** The request leaves: [sent] and the diagnostics change before the transport runs. *)
Definition run_step (t : moment) (p : Prepared) (caps : jsval) (s : Stream) : Stream :=
  if aborted (deadline s) then throw usedProxy t (failure_or_deadline usedProxy t s) s
  else
    let d := diag s in
    goto (AwaitResponse p caps)
      (set_sent (set_diag (spread_diag upstream possibly_sent (queueMs d) (totalMs d) (requestBytes d)
         (Errors.responseBytes d) (match contextId with Some c => Some c | None => Errors.contextId d end) d) s)).
Definition response_step (t : moment) (r : result exn transport_response) (p : Prepared) (caps : jsval) (s : Stream) :
    Stream :=
  match r with
  | Throw e => throw usedProxy t e s
  | Ok response =>
      if negb (ok response) then goto AwaitErrorDocument s
      else if negb (http_status response =? 200) ||
              negb (match http_content_type response with
                    | Some c => js_eqb (media_type c) CONTENT_TYPE
                    | None => false
                    end) || negb (has_body response)
      then fail t PROTOCOL_ERROR s
      else goto (AwaitHead p caps) (set_resources (permit s) (reservation s) (upload s) Held s)
  end.
Definition error_document_step (t : moment) (r : result exn jsval) (s : Stream) : Stream :=
  match r with
  | Throw e => throw usedProxy t e s
  | Ok value => throw usedProxy t (ETransport (transportError value (diag s) usedProxy false)) s
  end.

(** The first frame: response metadata, or an error that ends the body. *)
Definition head_step (t : moment) (r : frame_answer) (p : Prepared) (caps : jsval) (s : Stream) : Stream :=
  match r with
  | Throw e => throw usedProxy t e s
  | Ok first =>
      match frame_is 4 first with
      | Some payload =>
          match parseJson payload with
          | Throw e => throw usedProxy t e s
          | Ok value => goto (AwaitHeadEnd (transportError value (diag s) usedProxy true)) s
          end
      | None =>
          match (match frame_is 1 first with Some payload => parseJson payload | None => Ok JUndefined end) with
          | Throw e => throw usedProxy t e s
          | Ok value =>
              if negb (responseMetadata value (p_requestId p) (p_attempt p)) ||
                 negb (context_matches (get value "diagnostics")) ||
                 negb (profile_matches caps (get value "diagnostics"))
              then fail t PROTOCOL_ERROR s
              else
                match read_metadata (copyResponseMetadata value) with
                | None => fail t PROTOCOL_ERROR s     (* accepted metadata is readable *)
                | Some m =>
                    let s := set_body (responseBytes s) (Some {| enqueued := []; state := BodyOpen |}) (set_metadata m s) in
                    if finished s then
                      let s := set_body (responseBytes s)
                                 (match failure s with
                                  | Some f => error_body f <$> controller s
                                  | None => controller s
                                  end) s in
                      throw usedProxy t (failure_or_deadline usedProxy t s) s
                    else goto (Idle p) s
                end
          end
      end
  end.
Definition head_end_step (t : moment) (r : frame_answer) (e : Ja3ProxyTransportError) (s : Stream) : Stream :=
  match r with
  | Throw e' => throw usedProxy t e' s
  | Ok (Some _) => fail t PROTOCOL_ERROR s
  | Ok None => throw usedProxy t (ETransport e) s
  end.

(** A data frame. *)
Definition data_step (t : moment) (payload : list Z) (p : Prepared) (s : Stream) : Stream :=
  if bodyless p s || (zlength payload =? 0) then protocol_error t p s
  else if responseBytes s + zlength payload >? p_maximum p
  then pull_fails usedProxy p t (ETransport (local_error usedProxy BODY_TOO_LARGE None t s)) s
  else
    let bytes := responseBytes s + zlength payload in
    let d := diag s in
    let s := set_diag (spread_diag body_phase (delivery d) (queueMs d) (totalMs d) (requestBytes d) bytes
               (Errors.contextId d) d) (set_body bytes (controller s) s) in
    match controller s ≫= enqueue_body payload with
    | Some b => goto (Idle p) (set_body bytes (Some b) s)
    | None => pull_fails usedProxy p t ETypeError s
    end.
(** The completion frame. *)
Definition trailer_accepted (p : Prepared) (trailer : jsval) (s : Stream) : bool :=
  diagnostics trailer (Some (p_requestId p)) (Some (p_attempt p)) &&
  is_str (get trailer "phase") "complete" && is_str (get trailer "delivery") "response_started" &&
  is_int (get trailer "responseBytes") (responseBytes s) && context_matches trailer &&
  match metadata s ≫= meta_cookieRevision with
  | Some revision => is_int (get trailer "cookieRevision") revision
  | None => true
  end.
(** One [pull] of the consumer's stream. *)
Definition frame_step (t : moment) (r : frame_answer) (p : Prepared) (s : Stream) : Stream :=
  match r with
  | Throw e => pull_fails usedProxy p t e s
  | Ok next =>
      match frame_is 2 next, frame_is 4 next with
      | Some payload, _ => data_step t payload p s
      | None, Some payload =>
          match parseJson payload with
          | Throw e => pull_fails usedProxy p t e s
          | Ok value =>
              let e := transportError value (updateLocal t s) usedProxy true in
              if negb (bool_decide (error_delivery e = response_started)) then protocol_error t p s
              else goto (AwaitErrorEnd p e) s
          end
      | None, None =>
          match (match frame_is 3 next with Some payload => parseJson payload | None => Ok JUndefined end) with
          | Throw e => pull_fails usedProxy p t e s
          | Ok trailer =>
              if negb (trailer_accepted p trailer s) then protocol_error t p s
              else goto (AwaitEnd p trailer) s
          end
      end
  end.
Definition error_end_step (t : moment) (r : frame_answer) (p : Prepared) (e : Ja3ProxyTransportError) (s : Stream) :
    Stream :=
  match r with
  | Throw e' => pull_fails usedProxy p t e' s
  | Ok (Some _) => protocol_error t p s
  | Ok None => pull_fails usedProxy p t (ETransport e) s
  end.
Definition end_step (t : moment) (r : frame_answer) (p : Prepared) (trailer : jsval) (s : Stream) : Stream :=
  match r with
  | Throw e => pull_fails usedProxy p t e s
  | Ok (Some _) => protocol_error t p s
  | Ok None =>
      let s := set_diag (default (diag s) (read_diagnostics (copyDiagnostics trailer))) s in
      let s := finish None s in
      match controller s ≫= close_body with
      | Some b => goto (Idle p) (set_body (responseBytes s) (Some b) s)
      | None => pull_fails usedProxy p t ETypeError s
      end
  end.

(** The signal's abort event; its listener is removed when the call finishes. *)
Definition deadline_event_step (t : moment) (ev : deadline_event) (s : Stream) : Stream :=
  let d := deadline_step (deadline s) ev in
  let was := aborted (deadline s) in
  let s := set_deadline d s in
  if negb was && aborted d then onAbort usedProxy t s else s.

(** The exchange was returned. *)
Definition returned (s : Stream) : bool :=
  match at_ s with Idle _ | AwaitFrame _ | AwaitErrorEnd _ _ | AwaitEnd _ _ => true | _ => false end.
Definition cancel_body_step (t : moment) (s : Stream) : Stream :=
  match controller s with
  | Some b =>
      match state b with
      | BodyOpen =>
          finish (Some (local_error usedProxy CANCELLED None t s))
            (set_body (responseBytes s) (Some {| enqueued := enqueued b; state := BodyCancelled |}) s)
      | _ => s
      end
  | None => s
  end.

Definition stream_step (t : moment) (ev : stream_event) (s : Stream) : Stream :=
  match ev, at_ s with
  | SChecked, Starting => checked_step t s
  | SObserved refs reserved, Observing p => observed_step t refs reserved p s
  | SCapabilities r, AwaitCapabilities p => capabilities_step t r p s
  | SPermit r, AwaitPermit p caps => permit_step t r p caps s
  | SRun, AwaitRun p caps => run_step t p caps s
  | SResponse r, AwaitResponse p caps => response_step t r p caps s
  | SErrorDocument r, AwaitErrorDocument => error_document_step t r s
  | SHead r, AwaitHead p caps => head_step t r p caps s
  | SHeadEnd r, AwaitHeadEnd e => head_end_step t r e s
  | SPull, Idle p => if finished s then s else goto (AwaitFrame p) s
  | SFrame r, AwaitFrame p => frame_step t r p s
  | SErrorEnd r, AwaitErrorEnd p e => error_end_step t r p e s
  | SEnd r, AwaitEnd p trailer => end_step t r p trailer s
  | SDeadline ev, _ => deadline_event_step t ev s
  | SCancelBody, _ => if returned s then cancel_body_step t s else s
  | SClose, _ => if returned s then finish (Some (local_error usedProxy CANCELLED None t s)) s else s
  | SFailStream e, _ =>
      if returned s then finish (Some (local_error usedProxy (code e) (Some (kind e)) t s)) s else s
  | SUploadFails range, _ =>
      match upload s with
      | Held => finish (Some (local_error usedProxy (if range then BODY_TOO_LARGE else INVALID_REQUEST) None t s)) s
      | _ => s
      end
  | _, _ => s
  end.
End steps.

(** ** The invariant *)

(** What an error says about delivery. *)
Definition reported (e : Ja3ProxyTransportError) : Ja3Delivery := delivery (Errors.diagnostics e).
(** The diagnostics of an error are those of a document of the service. *)
Definition from_service (e : Ja3ProxyTransportError) : Prop :=
  exists value, diagnostics (get value "diagnostics") None None = true /\
    read_diagnostics (copyDiagnostics (get value "diagnostics")) = Some (Errors.diagnostics e).
(** An error is honest when "not started" means that nothing was sent, unless the
    service itself says so. *)
Definition honest (e : Ja3ProxyTransportError) (s : Stream) : Prop :=
  reported e = not_started -> sent s = false \/ from_service e.

Definition stage (s : Stream) : Ja3Delivery :=
  if metadata s then response_started else if sent s then possibly_sent else not_started.
Definition delivered (b : body_stream) : Z := zlength (concat (enqueued b)).

(** The outcome of a call that ended well. *)
Definition succeeded (o : RequestOptions) (d : Ja3Diagnostics) (s : Stream) : Prop :=
  well_formed d /\ JStr (Errors.requestId d) = requestId o /\ jint (Errors.attempt d) = attempt o /\
  phase d = complete /\ delivery d = response_started /\
  exists b, controller s = Some b /\ state b = BodyClosed /\ Errors.responseBytes d = delivered b.

Definition body_ok (o : RequestOptions) (b : body_stream) (s : Stream) : Prop :=
  (exists maximum, maxResponseBytes o = jint maximum /\ delivered b <= maximum) /\
  (finished s = false -> state b = BodyOpen /\ responseBytes s = delivered b) /\
  (forall e, failure s = Some e -> state b = BodyErrored e \/ state b = BodyCancelled).

Record core (o : RequestOptions) (s : Stream) : Prop := {
  c_open : finished s = false -> terminal s = None /\ failure s = None /\ operation s = Held;
  c_done : finished s = true ->
    permit s <> Held /\ reservation s <> Held /\ upload s <> Held /\ operation s = Released;
  c_outcome : finished s = true ->
    (exists e, terminal s = Some (Throw e) /\ failure s = Some e /\ aborted (deadline s) = true) \/
    (exists d, terminal s = Some (Ok d) /\ failure s = None /\ succeeded o d s);
  c_stage : finished s = false -> delivery (diag s) = stage s;
  c_sent : is_Some (metadata s) -> sent s = true;
  c_honest : forall e, failure s = Some e -> honest e s;
  c_bytes : metadata s = None -> responseBytes s = 0;
  c_body : forall b, controller s = Some b -> is_Some (metadata s) /\ body_ok o b s;
}.

Section invariant.
Context (parse_target : jsval -> option Target) (parse_url : jsval -> option URL)
  (stringify : jsval -> jsstr) (json_parse : list Z -> option jsval).
Context (o : RequestOptions) (usedProxy : bool) (connection : option jsval) (contextId : option jsstr).

(** The exchange was handed out: every failure is one of a started response. *)
Definition exchange (s : Stream) : Prop :=
  is_Some (controller s) /\ sent s = true /\ is_Some (metadata s) /\
  forall e, failure s = Some e -> reported e = response_started.
Definition trailer_ok (p : Prepared) (trailer : jsval) (s : Stream) : Prop :=
  diagnostics trailer (Some (p_requestId p)) (Some (p_attempt p)) = true /\
  get trailer "phase" = JStr "complete" /\ get trailer "delivery" = JStr "response_started" /\
  get trailer "responseBytes" = jint (responseBytes s).

Definition place_ok (s : Stream) : Prop :=
  match at_ s with
  | Starting => sent s = false /\ metadata s = None
  | Observing p | AwaitCapabilities p | AwaitPermit p _ | AwaitRun p _ =>
      checked parse_target o p /\ sent s = false /\ metadata s = None
  | AwaitResponse p _ | AwaitHead p _ => checked parse_target o p /\ sent s = true /\ metadata s = None
  | AwaitErrorDocument => sent s = true /\ metadata s = None
  | AwaitHeadEnd e => sent s = true /\ metadata s = None /\ (finished s = false -> honest e s)
  | Idle p | AwaitFrame p => checked parse_target o p /\ exchange s
  | AwaitErrorEnd p e =>
      checked parse_target o p /\ exchange s /\ (finished s = false -> reported e = response_started)
  | AwaitEnd p trailer =>
      checked parse_target o p /\ exchange s /\ (finished s = false -> trailer_ok p trailer s)
  | Thrown e =>
      exists f, failure s = Some f /\ code e = code f /\ Errors.diagnostics e = Errors.diagnostics f
  end.
(** Before the abort listener can matter. *)
Definition early (s : Stream) : bool :=
  match at_ s with Starting | Observing _ => true | _ => false end.

Record stream_wf (s : Stream) : Prop := {
  sw_core : core o s;
  sw_place : place_ok s;
  sw_abort : finished s = false -> early s = false -> aborted (deadline s) = false;
}.

(** *** Errors *)

Lemma reported_withReferences e r : reported (withReferences e r) = reported e.
Proof. unfold reported. by rewrite withReferences_diagnostics. Qed.
Lemma honest_withReferences e r s : honest e s -> honest (withReferences e r) s.
Proof. unfold honest, from_service. rewrite reported_withReferences, withReferences_diagnostics. done. Qed.
Lemma updateLocal_stage t s : finished s = false -> core o s -> delivery (updateLocal t s) = stage s.
Proof. intros Hf H. by apply (c_stage o s H). Qed.
(** An error made from diagnostics of the current stage is honest. *)
Lemma staged_honest e s : core o s -> reported e = stage s -> honest e s.
Proof.
  unfold honest, stage. intros H -> E. left. destruct (metadata s) eqn:Em; [done|].
  by destruct (sent s).
Qed.
Lemma transportError_reported value d p r :
  reported (transportError value d p r) = delivery d \/ from_service (transportError value d p r).
Proof.
  unfold transportError, from_service, reported.
  destruct (_ || _ || _); [by left|]. destruct (_ && _); [by left|]. destruct (_ && _); [by left|].
  destruct (read_enum _ _ _); [|by left].
  destruct (diagnostics (get value "diagnostics") None None) eqn:E; [|by left].
  destruct (read_diagnostics _) as [d'|] eqn:Er; [|by left]. right. exists value. done.
Qed.
Lemma transportError_consistent value d p r :
  reported (transportError value d p r) = error_delivery (transportError value d p r).
Proof.
  unfold transportError, reported. destruct (_ || _ || _); [done|]. destruct (_ && _); [done|].
  destruct (_ && _); [done|]. by destruct (read_enum _ _ _).
Qed.
Lemma transportError_honest value p r s :
  core o s -> finished s = false -> honest (transportError value (diag s) p r) s.
Proof.
  intros H Hf. destruct (transportError_reported value (diag s) p r) as [E|E].
  - apply staged_honest; [done|]. rewrite E. by apply (c_stage o s H).
  - intros _. by right.
Qed.

(** *** Finishing *)

Lemma release_not_held r : release_resource r <> Held.
Proof. by destruct r. Qed.
Lemma aborted_controller r d : aborted (controller_abort r d) = true.
Proof. unfold aborted. cbn. apply bool_decide_true. destruct (reason d); eauto. Qed.

Lemma finish_core e s : core o s -> (finished s = false -> honest e s) -> core o (finish (Some e) s).
Proof.
  intros H He. unfold finish. destruct (finished s) eqn:Ef; [done|]. specialize (He eq_refl).
  destruct (c_open o s H Ef) as (_ & Hfail & Hop).
  constructor; cbn; try done.
  - intros _. rewrite Hop. split_and!; try apply release_not_held. done.
  - intros _. left. eexists. split_and!; try done. apply aborted_controller.
  - apply (c_sent o s H).
  - intros ? [= <-]. by apply honest_withReferences.
  - apply (c_bytes o s H).
  - intros b Hb. destruct (controller s) as [b0|] eqn:Ec; [|done]. injection Hb as <-.
    destruct (c_body o s H b0 Ec) as (Hm & (m & Em & Hle) & Hstate & _). split; [done|].
    destruct (Hstate Ef) as [Es _]. unfold error_body. rewrite Es. split_and!; cbn; try done.
    + exists m. done.
    + intros ? [= <-]. by left.
Qed.
Lemma finish_finished e s : finished (finish e s) = true.
Proof. unfold finish. by destruct (finished s) eqn:E. Qed.
Lemma finish_same e s : finished s = true -> finish e s = s.
Proof. unfold finish. by intros ->. Qed.

Lemma finish_place e s :
  place_ok s -> (finished s = false -> exchange s -> reported e = response_started) ->
  (finished s = false -> forall f, at_ s <> Thrown f) -> place_ok (finish (Some e) s).
Proof.
  intros H He Hthrown. unfold finish. destruct (finished s) eqn:Ef; [done|].
  assert (exchange s -> exchange (finish (Some e) s)) as Hex.
  { intros Hx. specialize (He eq_refl Hx). destruct Hx as (Hc & Hs & Hm & _). unfold finish. rewrite Ef.
    split_and!; cbn; try done.
    - destruct Hc as [b ->]. by eexists.
    - intros ? [= <-]. by rewrite reported_withReferences. }
  unfold finish in Hex. rewrite Ef in Hex. unfold place_ok in *. cbn.
  destruct (at_ s) eqn:Ea; cbn in *; try (exfalso; by eapply (Hthrown eq_refl)); clear Hthrown;
    intuition discriminate.
Qed.

Lemma core_goto p s : core o s -> core o (goto p s).
Proof. intros []. by constructor. Qed.

(** A thrown value the call may end with. *)
Definition exn_honest (error : exn) (s : Stream) : Prop :=
  finished s = false -> forall e, error = ETransport e -> honest e s.
Definition exn_started (error : exn) (s : Stream) : Prop :=
  finished s = false -> forall e, error = ETransport e -> reported e = response_started.

Lemma normalize_reported t error s :
  core o s -> finished s = false ->
  (exists e, error = ETransport e /\ normalize usedProxy t error s = e) \/
  reported (normalize usedProxy t error s) = stage s.
Proof.
  intros H Hf. unfold normalize. destruct (c_open o s H Hf) as (_ & -> & _).
  destruct error; [by left; eexists| | |]; right;
    (destruct (aborted (deadline s)); [by apply (c_stage o s H)|by apply (c_stage o s H)]).
Qed.
Lemma failure_unfinished s : core o s -> finished s = false -> failure s = None.
Proof. intros H Hf. by destruct (c_open o s H Hf) as (_ & ? & _). Qed.
Lemma failed_early s : core o s -> finished s = true -> metadata s = None -> is_Some (failure s).
Proof.
  intros H Hf Hm. destruct (c_outcome o s H Hf) as [(e & _ & -> & _)|(d & _ & _ & Hs)]; [by eexists|].
  destruct Hs as (_ & _ & _ & _ & _ & b & Hb & _). destruct (c_body o s H b Hb) as [[? E] _]. congruence.
Qed.

Lemma throw_wf t error s :
  core o s -> exn_honest error s -> (finished s = true -> is_Some (failure s)) ->
  stream_wf (throw usedProxy t error s).
Proof.
  intros H He Hfail. unfold throw. set (n := withReferences _ _). constructor.
  - apply core_goto, finish_core; [done|]. intros Hf. apply honest_withReferences.
    destruct (normalize_reported t error s H Hf) as [(e & -> & ->)|E]; [by apply He|by apply staged_honest].
  - cbn. unfold finish. destruct (finished s) eqn:Ef.
    + destruct (Hfail eq_refl) as [f Ef']. exists f. split; [done|]. unfold n, normalize. rewrite Ef'.
      by rewrite withReferences_code, withReferences_diagnostics.
    + cbn. eexists. split; [done|]. by rewrite withReferences_code, withReferences_diagnostics.
  - cbn. by rewrite finish_finished.
Qed.
Lemma exchange_stage s : exchange s -> stage s = response_started.
Proof. unfold stage. by intros (_ & _ & [m ->] & _). Qed.
Lemma pull_fails_wf p t error s :
  core o s -> checked parse_target o p -> exchange s -> exn_started error s ->
  stream_wf (pull_fails usedProxy p t error s).
Proof.
  intros H Hp Hx He. unfold pull_fails. set (n := normalize _ _ _ _).
  assert (finished s = false -> reported n = response_started) as Hn.
  { intros Hf. unfold n. destruct (normalize_reported t error s H Hf) as [(e & -> & ->)|E]; [by apply He|].
    by rewrite E, exchange_stage. }
  constructor.
  - apply core_goto, finish_core; [done|]. intros Hf Hns. by rewrite Hn in Hns.
  - cbn. split; [done|]. destruct Hx as (Hc & Hs & Hm & Hfl). unfold finish. destruct (finished s) eqn:Ef; [done|].
    split_and!; cbn; try done; [destruct Hc as [b ->]; by eexists|].
    intros ? [= <-]. rewrite reported_withReferences. auto.
  - cbn. by rewrite finish_finished.
Qed.

(** What may be awaited: after the request left, an error of the SDK's own (of the race
    with the deadline) carries the diagnostics that were passed to it. *)
Definition legal_answer {A : Type} (r : result exn A) (s : Stream) : Prop :=
  finished s = false -> sent s = true ->
  forall e, r = Throw (ETransport e) -> reported e = delivery (diag s).
Definition legal_event (ev : stream_event) (s : Stream) : Prop :=
  match ev with
  | SResponse r => legal_answer r s
  | SErrorDocument r => legal_answer r s
  | SHead r | SHeadEnd r | SFrame r | SErrorEnd r | SEnd r => legal_answer r s
  | _ => True
  end.

Lemma unsent_honest error s : sent s = false -> exn_honest error s.
Proof. intros Hs _ e _ _. by left. Qed.
Lemma legal_honest {A} (r : result exn A) error s :
  core o s -> legal_answer r s -> r = Throw error -> exn_honest error s.
Proof.
  intros H Hl -> Hf e ->. destruct (sent s) eqn:Es; [|by left].
  apply staged_honest; [done|]. rewrite (Hl Hf Es e eq_refl). by apply (c_stage o s H).
Qed.
Lemma legal_started {A} (r : result exn A) error s :
  core o s -> legal_answer r s -> exchange s -> r = Throw error -> exn_started error s.
Proof.
  intros H Hl Hx -> Hf e ->. destruct Hx as (Hc & Hs & Hm & Hfl). rewrite (Hl Hf Hs e eq_refl).
  rewrite (c_stage o s H Hf). by apply exchange_stage.
Qed.
Lemma staged_exn e s : core o s -> (finished s = false -> reported e = stage s) -> exn_honest (ETransport e) s.
Proof. intros H E Hf ? [= <-]. by apply staged_honest; auto. Qed.
Lemma staged_started e s :
  exchange s -> (finished s = false -> reported e = stage s) -> exn_started (ETransport e) s.
Proof. intros Hx E Hf ? [= <-]. rewrite E by done. by apply exchange_stage. Qed.
Lemma host_honest error s : isJa3ProxyError error = false -> exn_honest error s.
Proof. intros H _ e ->. done. Qed.
Lemma host_started error s : isJa3ProxyError error = false -> exn_started error s.
Proof. intros H _ e ->. done. Qed.
Lemma fail_wf t code s :
  core o s -> metadata s = None -> stream_wf (fail usedProxy t code s).
Proof.
  intros H Hm. apply throw_wf; [done| |by intros; apply failed_early].
  apply staged_exn; [done|]. intros Hf. by apply (c_stage o s H).
Qed.
Lemma protocol_error_wf t p s :
  core o s -> checked parse_target o p -> exchange s -> stream_wf (protocol_error usedProxy t p s).
Proof.
  intros H Hp Hx. apply pull_fails_wf; try done. apply staged_started; [done|]. intros Hf. by apply (c_stage o s H).
Qed.

(** *** Assignments keep the invariant *)

Lemma core_references r s : core o s -> core o (set_references r s).
Proof. intros []. by constructor. Qed.
Lemma core_resources a b c d s :
  core o s -> (finished s = true -> a <> Held /\ b <> Held /\ c <> Held) -> core o (set_resources a b c d s).
Proof. intros [] Hr. constructor; cbn; try done. intros Hf. by destruct (Hr Hf) as (? & ? & ?), (c_done0 Hf) as (_ & _ & _ & ?). Qed.
Lemma core_diag d s : core o s -> (finished s = false -> delivery d = stage s) -> core o (set_diag d s).
Proof. intros [] Hd. by constructor. Qed.
Lemma core_send d s :
  core o s -> finished s = false -> metadata s = None -> delivery d = possibly_sent ->
  core o (set_sent (set_diag d s)).
Proof.
  intros H Hf Hm Hd. pose proof (failure_unfinished s H Hf) as Hfail.
  destruct H. constructor; cbn; try done.
  - intros _. unfold stage. cbn. by rewrite Hm.
  - intros e. by rewrite Hfail.
Qed.
(** Only an unfinished call has an open body. *)
Lemma open_unfinished b s : core o s -> controller s = Some b -> state b = BodyOpen -> finished s = false.
Proof.
  intros H Hb Es. destruct (finished s) eqn:Ef; [|done].
  destruct (c_body o s H b Hb) as (_ & _ & _ & Herr).
  destruct (c_outcome o s H Ef) as [(e & _ & Hfail & _)|(d & _ & _ & Hs)].
  - destruct (Herr e Hfail); congruence.
  - destruct Hs as (_ & _ & _ & _ & _ & b' & Hb' & ? & _). congruence.
Qed.
Lemma failure_finished e s : core o s -> failure s = Some e -> finished s = true.
Proof. intros H Hf. destruct (finished s) eqn:Ef; [done|]. by rewrite (failure_unfinished s H Ef) in Hf. Qed.

(** *** Steps before the response *)

Lemma checked_step_wf t s :
  stream_wf s -> at_ s = Starting -> stream_wf (checked_step parse_target o usedProxy t s).
Proof.
  intros [H Hp _] Ea. unfold place_ok in Hp. rewrite Ea in Hp. destruct Hp as [Hs Hm]. unfold checked_step.
  destruct (check_options _ _ _ _) as [p|e] eqn:Ec.
  - constructor; [by apply core_goto| |done]. split_and!; [|done|done]. by eapply check_options_checked.
  - apply throw_wf; [done|by apply unsent_honest|by intros; apply failed_early].
Qed.
Lemma observed_step_wf t refs reserved p s :
  stream_wf s -> at_ s = Observing p -> stream_wf (observed_step usedProxy t refs reserved p s).
Proof.
  intros [H Hp _] Ea. unfold place_ok in Hp. rewrite Ea in Hp. destruct Hp as (Hck & Hs & Hm). unfold observed_step.
  assert (core o (set_references refs s)) as H' by by apply core_references. cbn [finished set_references deadline].
  assert (forall error, stream_wf (throw usedProxy t error (set_references refs s))) as Hthrow.
  { intros error. apply throw_wf; [done|by apply unsent_honest|by intros; apply failed_early]. }
  destruct (finished s) eqn:Ef; [done|]. destruct (aborted (deadline s)) eqn:Eab; [done|].
  destruct reserved as [|e]; [|done]. constructor; cbn; try done.
  apply core_goto, core_resources; [done|]. cbn. congruence.
Qed.
Lemma capabilities_step_wf t r p s :
  stream_wf s -> at_ s = AwaitCapabilities p -> stream_wf (capabilities_step usedProxy t r p s).
Proof.
  intros [H Hp Hab] Ea. unfold place_ok in Hp. rewrite Ea in Hp. destruct Hp as (Hck & Hs & Hm). unfold capabilities_step.
  destruct r as [caps|e].
  - constructor; [by apply core_goto|done|]. cbn. intros Hf _. apply Hab; [done|]. unfold early. by rewrite Ea.
  - apply throw_wf; [done|by apply unsent_honest|by intros; apply failed_early].
Qed.
Lemma permit_step_wf t r p caps s :
  stream_wf s -> at_ s = AwaitPermit p caps ->
  stream_wf (permit_step parse_url stringify o usedProxy connection t r p caps s).
Proof.
  intros [H Hp Hab] Ea. unfold place_ok in Hp. rewrite Ea in Hp. destruct Hp as (Hck & Hs & Hm). unfold permit_step.
  assert (forall error s', core o s' -> sent s' = false -> metadata s' = None ->
            stream_wf (throw usedProxy t error s')) as Hthrow.
  { intros. apply throw_wf; [done|by apply unsent_honest|by intros; apply failed_early]. }
  destruct r as [|e]; [|by apply Hthrow]. destruct (finished s) eqn:Ef.
  { apply Hthrow; try done. apply core_resources; [done|]. intros Hf. by destruct (c_done o s H Hf) as (_ & ? & ? & _). }
  match goal with |- stream_wf (match check_limits _ _ _ _ _ _ _ _ (diag ?s1) _ with _ => _ end) =>
    assert (core o s1) as H1 end.
  { apply core_diag; [|intros _; by apply (c_stage o s H)]. apply core_resources; [done|]. congruence. }
  destruct (check_limits _ _ _ _ _ _ _ _ _ _) as [|e]; [|by apply Hthrow].
  assert (aborted (deadline s) = false) as Eab by (apply Hab; [done|unfold early; by rewrite Ea]).
  cbn [deadline set_resources set_diag]. rewrite Eab. constructor; cbn; try done.
  apply core_goto, core_resources; [done|]. cbn. congruence.
Qed.
Lemma run_step_wf t p caps s :
  stream_wf s -> at_ s = AwaitRun p caps -> stream_wf (run_step usedProxy contextId t p caps s).
Proof.
  intros [H Hp Hab] Ea. unfold place_ok in Hp. rewrite Ea in Hp. destruct Hp as (Hck & Hs & Hm). unfold run_step.
  destruct (aborted (deadline s)) eqn:Eab.
  { apply throw_wf; [done|by apply unsent_honest|by intros; apply failed_early]. }
  destruct (finished s) eqn:Ef.
  { destruct (c_outcome o s H Ef) as [(e & _ & _ & ?)|(d & _ & _ & Hd)]; [congruence|].
    destruct (failed_early s H Ef Hm) as [e He]. destruct (c_outcome o s H Ef) as [(? & _ & _ & ?)|(? & _ & ? & _)]; congruence. }
  constructor; cbn; try done. apply core_goto, core_send; done.
Qed.

(** *** Steps up to the response's metadata *)

Lemma response_step_wf t r p caps s :
  stream_wf s -> at_ s = AwaitResponse p caps -> legal_answer r s ->
  stream_wf (response_step usedProxy t r p caps s).
Proof.
  intros [H Hp Hab] Ea Hl. unfold place_ok in Hp. rewrite Ea in Hp. destruct Hp as (Hck & Hs & Hm). unfold response_step.
  assert (finished s = false -> aborted (deadline s) = false) as Hab' by (intros; apply Hab; [done|unfold early; by rewrite Ea]).
  destruct r as [response|e]; [|apply throw_wf; [done|by eapply legal_honest|by intros; apply failed_early]].
  destruct (negb (ok response)).
  { constructor; [by apply core_goto|done|auto]. }
  destruct (_ || _ || _); [by apply fail_wf|]. constructor; cbn; try done; [|auto].
  apply core_goto, core_resources; [done|]. intros Hf. by destruct (c_done o s H Hf) as (? & ? & ? & _).
Qed.
Lemma error_document_step_wf t r s :
  stream_wf s -> at_ s = AwaitErrorDocument -> legal_answer r s ->
  stream_wf (error_document_step usedProxy t r s).
Proof.
  intros [H Hp _] Ea Hl. unfold place_ok in Hp. rewrite Ea in Hp. destruct Hp as (Hs & Hm). unfold error_document_step.
  destruct r as [value|e]; apply throw_wf; try done; try (by intros; apply failed_early); [|by eapply legal_honest].
  intros Hf e [= <-]. by apply transportError_honest.
Qed.
Lemma head_end_step_wf t r e s :
  stream_wf s -> at_ s = AwaitHeadEnd e -> legal_answer r s -> stream_wf (head_end_step usedProxy t r e s).
Proof.
  intros [H Hp _] Ea Hl. unfold place_ok in Hp. rewrite Ea in Hp. destruct Hp as (Hs & Hm & He). unfold head_end_step.
  destruct r as [[]|e']; [by apply fail_wf| |]; apply throw_wf; try done; try (by intros; apply failed_early).
  - intros Hf ? [= <-]. auto.
  - by eapply legal_honest.
Qed.

(** The metadata that a head frame brings. *)
Lemma head_open_core m s :
  core o s -> finished s = false -> metadata s = None -> sent s = true ->
  delivery (meta_diagnostics m) = response_started -> (exists p, checked parse_target o p) ->
  core o (set_body (responseBytes s) (Some {| enqueued := []; state := BodyOpen |}) (set_metadata m s)).
Proof.
  intros H Hf Hm Hs Hd [p Hp]. pose proof (c_bytes o s H Hm) as Hz. pose proof (failure_unfinished s H Hf) as Hfail. destruct H.
  constructor; cbn; try done; try (intros; congruence).
  intros b [= <-]. split; [by eexists|]. destruct (ck_maximum _ _ _ Hp) as [E ?]. split_and!.
  - exists (p_maximum p). split; [done|]. change (0 <= p_maximum p). lia.
  - intros _. split; [done|]. exact Hz.
  - cbn. intros; congruence.
Qed.
Lemma head_late_core m f s :
  core o s -> finished s = true -> failure s = Some f -> sent s = true ->
  (exists p, checked parse_target o p) ->
  core o (set_body (responseBytes s) (Some {| enqueued := []; state := BodyErrored f |}) (set_metadata m s)).
Proof.
  intros H Hf Hfail Hs [p Hp]. destruct H. constructor; cbn; try done; try (intros; congruence).
  - intros _. destruct (c_outcome0 Hf) as [?|(d & _ & ? & _)]; [by left|congruence].
  - intros b [= <-]. split; [by eexists|]. destruct (ck_maximum _ _ _ Hp) as [E ?]. split_and!.
    + exists (p_maximum p). split; [done|]. change (0 <= p_maximum p). lia.
    + intros Hf'. cbn in Hf'. congruence.
    + cbn. rewrite Hfail. intros e [= <-]. by left.
Qed.

Lemma head_step_wf t r p caps s :
  stream_wf s -> at_ s = AwaitHead p caps -> legal_answer r s ->
  stream_wf (head_step json_parse usedProxy connection contextId t r p caps s).
Proof.
  intros [H Hp Hab] Ea Hl. unfold place_ok in Hp. rewrite Ea in Hp. destruct Hp as (Hck & Hs & Hm).
  assert (finished s = false -> aborted (deadline s) = false) as Hab' by (intros; apply Hab; [done|unfold early; by rewrite Ea]).
  assert (forall error, isJa3ProxyError error = false -> stream_wf (throw usedProxy t error s)) as Hhost.
  { intros error He. apply throw_wf; [done|by apply host_honest|by intros; apply failed_early]. }
  unfold head_step. destruct r as [first|e].
  2:{ apply throw_wf; [done|by eapply legal_honest|by intros; apply failed_early]. }
  destruct (frame_is 4 first) as [payload|].
  { unfold parseJson. destruct (json_parse payload) as [value|]; [|by apply Hhost].
    constructor; [by apply core_goto| |auto]. split_and!; try done.
    intros Hf. exact (transportError_honest value usedProxy true s H Hf). }
  destruct (match frame_is 1 first with Some _ => _ | None => _ end) as [value|e] eqn:Ev.
  2:{ apply Hhost. destruct (frame_is 1 first); [|done]. unfold parseJson in Ev.
      destruct (json_parse _); [done|]. by injection Ev as <-. }
  destruct (negb _ || _ || _) eqn:Eok; [by apply fail_wf|].
  apply orb_false_elim in Eok as [[Emeta%negb_false_iff _]%orb_false_elim _].
  apply responseMetadata_typed in Emeta as (m & -> & _ & _ & _ & _ & _ & _ & Hdel & _).
  rewrite read_metadata_js. cbn [finished set_body set_metadata failure controller].
  destruct (finished s) eqn:Ef.
  - destruct (failed_early s H Ef Hm) as [f Hfail]. rewrite Hfail. cbn [fmap option_fmap option_map].
    apply throw_wf.
    + apply (head_late_core m f s); try done. by exists p.
    + intros Hf. cbn in Hf. congruence.
    + cbn. rewrite Hfail. eauto.
  - pose proof (failure_unfinished s H Ef) as Hfail. constructor.
    + apply core_goto, head_open_core; try done. by exists p.
    + cbn. split; [done|]. split_and!; cbn; try (by eexists); try done. intros e. by rewrite Hfail.
    + cbn. auto.
Qed.

(** *** Steps of the body *)

Lemma exchange_goto p s : exchange s -> exchange (goto p s).
Proof. done. Qed.
(** A chunk that comes after the end changes only the local counters. *)
Lemma late_data_core d bytes b s :
  core o s -> controller s = Some b -> delivery d = delivery (diag s) -> state b <> BodyOpen ->
  core o (set_diag d (set_body bytes (controller s) s)).
Proof.
  intros H Hb Hd Hs. assert (finished s = true) as Hf.
  { destruct (finished s) eqn:Ef; [done|]. destruct (c_body o s H b Hb) as (_ & _ & Hopen & _).
    by destruct (Hopen Ef). }
  destruct (c_body o s H b Hb) as (Hm & _). destruct H. constructor; cbn; try done; try (intros; congruence).
  - intros E. destruct Hm as [? Hm]. congruence.
  - intros b' Hb'. destruct (c_body0 b' Hb') as (? & ? & ? & ?). split; [done|]. split_and!; try done.
    cbn. intros; congruence.
Qed.
Lemma data_step_wf t payload p s :
  core o s -> checked parse_target o p -> exchange s ->
  (finished s = false -> aborted (deadline s) = false) -> stream_wf (data_step usedProxy t payload p s).
Proof.
  intros H Hck Hx Hab. unfold data_step. destruct (_ || _); [by apply protocol_error_wf|].
  rewrite Z.gtb_ltb. destruct (Z.ltb_spec (p_maximum p) (responseBytes s + zlength payload)) as [|Hle].
  { apply pull_fails_wf; try done. apply staged_started; [done|]. intros Hf. by apply (c_stage o s H). }
  set (s' := set_diag _ _). pose proof Hx as ([b Hb] & Hs & Hm & Hfail). cbn [controller set_diag set_body].
  assert (controller s' = Some b) as -> by done. cbn [mbind option_bind].
  unfold enqueue_body. destruct (state b) eqn:Es.
  - pose proof (open_unfinished b s H Hb Es) as Hf. pose proof (failure_unfinished s H Hf) as Hnone.
    destruct (c_body o s H b Hb) as (_ & _ & Hopen & _). destruct (Hopen Hf) as [_ Hbytes].
    constructor; [|split; [done|]; split_and!; cbn; try done; by eexists|by auto].
    apply core_goto. unfold s'. destruct H. constructor; cbn; try done; try (intros; congruence).
    + intros E. destruct Hm as [? Hm]. congruence.
    + intros b' [= <-]. split; [done|]. destruct (ck_maximum _ _ _ Hck) as [Emax _].
      assert (delivered {| enqueued := enqueued b ++ [payload]; state := BodyOpen |} =
              responseBytes s + zlength payload) as Ed.
      { unfold delivered in *. cbn. rewrite concat_app, zlength_app. cbn. rewrite app_nil_r. lia. }
      split_and!; cbn; rewrite ?Ed; [by exists (p_maximum p)|done|]. intros; congruence.
  - apply pull_fails_wf; [|done|done|by apply host_started].
    apply (late_data_core _ _ b); [done|done|done|congruence].
  - apply pull_fails_wf; [|done|done|by apply host_started].
    apply (late_data_core _ _ b); [done|done|done|congruence].
  - apply pull_fails_wf; [|done|done|by apply host_started].
    apply (late_data_core _ _ b); [done|done|done|congruence].
Qed.

Lemma trailer_accepted_ok p trailer s : trailer_accepted contextId p trailer s = true -> trailer_ok p trailer s.
Proof.
  unfold trailer_accepted, trailer_ok. rewrite !andb_true_iff. intros [[[[[? ?%is_str_inv] ?%is_str_inv] ?%is_int_inv] _] _]. done.
Qed.
Lemma frame_step_wf t r p s :
  stream_wf s -> at_ s = AwaitFrame p -> legal_answer r s ->
  stream_wf (frame_step json_parse usedProxy contextId t r p s).
Proof.
  intros [H Hp Hab] Ea Hl. unfold place_ok in Hp. rewrite Ea in Hp. destruct Hp as (Hck & Hx).
  assert (finished s = false -> aborted (deadline s) = false) as Hab' by (intros; apply Hab; [done|unfold early; by rewrite Ea]).
  assert (forall error, isJa3ProxyError error = false -> stream_wf (pull_fails usedProxy p t error s)) as Hhost.
  { intros error He. apply pull_fails_wf; [done|done|done|by apply host_started]. }
  unfold frame_step. destruct r as [next|e].
  2:{ apply pull_fails_wf; [done|done|done|by eapply legal_started]. }
  destruct (frame_is 2 next) as [payload|]; [by apply data_step_wf|].
  destruct (frame_is 4 next) as [payload|].
  { unfold parseJson. destruct (json_parse payload) as [value|]; [|by apply Hhost].
    case_bool_decide as Hd; cbn [negb]; [|by apply protocol_error_wf].
    constructor; [by apply core_goto| |auto]. split_and!; try done. intros _.
    rewrite <- Hd. apply transportError_consistent. }
  destruct (match frame_is 3 next with Some _ => _ | None => _ end) as [trailer|e] eqn:Ev.
  2:{ apply Hhost. destruct (frame_is 3 next); [|done]. unfold parseJson in Ev.
      destruct (json_parse _); [done|]. by injection Ev as <-. }
  destruct (trailer_accepted _ _ _ _) eqn:Eok; cbn [negb]; [|by apply protocol_error_wf].
  constructor; [by apply core_goto| |auto]. split_and!; try done. intros _. by apply trailer_accepted_ok.
Qed.
Lemma error_end_step_wf t r p e s :
  stream_wf s -> at_ s = AwaitErrorEnd p e -> legal_answer r s ->
  stream_wf (error_end_step usedProxy t r p e s).
Proof.
  intros [H Hp Hab] Ea Hl. unfold place_ok in Hp. rewrite Ea in Hp. destruct Hp as (Hck & Hx & He).
  unfold error_end_step. destruct r as [[]|e']; [by apply protocol_error_wf| |].
  - apply pull_fails_wf; try done. intros Hf ? [= <-]. auto.
  - apply pull_fails_wf; try done. by eapply legal_started.
Qed.

(** What an accepted trailer makes of the diagnostics. *)
Lemma trailer_read p trailer s :
  trailer_ok p trailer s -> exists d, read_diagnostics (copyDiagnostics trailer) = Some d /\ well_formed d /\
    Errors.requestId d = p_requestId p /\ Errors.attempt d = p_attempt p /\ phase d = complete /\
    delivery d = response_started /\ Errors.responseBytes d = responseBytes s.
Proof.
  intros (Hd & Hph & Hdel & Hb). apply diagnostics_sound in Hd as (d & Hwf & Ec & Hrid & Hatt).
  exists d. rewrite Ec, read_diagnostics_js. split_and!; try done; [by apply Hrid|by apply Hatt| | |].
  - apply (f_equal (fun v => get v "phase")) in Ec.
    change (get trailer "phase" = JStr (phase_string (phase d))) in Ec. rewrite Hph in Ec. by destruct (phase d).
  - apply (f_equal (fun v => get v "delivery")) in Ec.
    change (get trailer "delivery" = JStr (delivery_string (delivery d))) in Ec. rewrite Hdel in Ec. by destruct (delivery d).
  - apply (f_equal (fun v => get v "responseBytes")) in Ec.
    change (get trailer "responseBytes" = jint (Errors.responseBytes d)) in Ec. rewrite Hb in Ec. by injection Ec.
Qed.
Lemma end_step_wf t r p trailer s :
  stream_wf s -> at_ s = AwaitEnd p trailer -> legal_answer r s ->
  stream_wf (end_step usedProxy t r p trailer s).
Proof.
  intros [H Hp Hab] Ea Hl. unfold place_ok in Hp. rewrite Ea in Hp. destruct Hp as (Hck & Hx & Ht).
  unfold end_step. destruct r as [[]|e]; [by apply protocol_error_wf| |by apply pull_fails_wf; try done; eapply legal_started].
  pose proof Hx as ([b Hb] & Hs & Hm & Hfail). destruct (finished s) eqn:Ef.
  - rewrite finish_same by done. cbn [controller set_diag]. rewrite Hb. cbn [mbind option_bind].
    unfold close_body. destruct (state b) eqn:Es; [by rewrite (open_unfinished b s H Hb Es) in Ef| | |];
      (apply pull_fails_wf; [|done|done|by apply host_started]); apply core_diag; try done; congruence.
  - destruct (trailer_read p trailer s (Ht eq_refl)) as (d & -> & Hwf & Hrid & Hatt & Hph & Hdel & Hbytes).
    cbn [default from_option id]. unfold finish. cbn [finished set_diag]. rewrite Ef.
    cbn [controller set_diag fmap option_fmap option_map]. rewrite Hb. cbn [mbind option_bind].
    destruct (c_body o s H b Hb) as (_ & Hmax & Hopen & _). destruct (Hopen Ef) as [Es Hlen].
    unfold close_body. rewrite Es. constructor; cbn; try done.
    + destruct H. constructor; cbn; try done.
      * intros _. destruct (c_open0 Ef) as (_ & _ & ->). split_and!; try apply release_not_held. done.
      * intros _. right. exists d. split; [done|]. split; [done|].
        destruct (ck_requestId _ _ _ Hck) as [Eid _], (ck_attempt _ _ _ Hck) as [Eatt _].
        split; [done|]. split; [by rewrite Eid, Hrid|]. split; [by rewrite Eatt, Hatt|].
        split; [done|]. split; [done|]. eexists. split; [done|]. split; [done|].
        rewrite Hbytes. exact Hlen.
      * intros b' [= <-]. split; [done|]. split_and!; try done.
Qed.

(** *** Aborts and the caller's actions *)

Lemma deadline_core d s :
  core o s -> (aborted (deadline s) = true -> aborted d = true) -> core o (set_deadline d s).
Proof.
  intros [] Hd. constructor; cbn; try done. intros Hf. destruct (c_outcome0 Hf) as [(e & ? & ? & ?)|?]; [left|by right].
  exists e. auto.
Qed.
Lemma aborted_step d ev : aborted d = true -> aborted (deadline_step d ev) = true.
Proof.
  unfold aborted. intros [r Hr]%bool_decide_eq_true. apply bool_decide_true. exists r. by apply reason_step.
Qed.
Lemma not_thrown s f : core o s -> place_ok s -> finished s = false -> at_ s <> Thrown f.
Proof.
  intros H Hp Hf Ea. unfold place_ok in Hp. rewrite Ea in Hp. destruct Hp as (e & He & _).
  by rewrite (failure_unfinished s H Hf) in He.
Qed.
(** Ending the call with an error made of its current diagnostics. *)
Lemma finish_staged_wf e s :
  core o s -> place_ok s -> (finished s = true -> stream_wf s) -> reported e = delivery (diag s) ->
  stream_wf (finish (Some e) s).
Proof.
  intros H Hp Hdone He. destruct (finished s) eqn:Ef; [rewrite finish_same by done; auto|].
  assert (reported e = stage s) as Hstage by (rewrite He; by apply (c_stage o s H)). constructor.
  - apply finish_core; [done|]. intros _. by apply staged_honest.
  - apply finish_place; [done| |]; intros _; [|intros; by apply not_thrown].
    intros Hx. rewrite Hstage. by apply exchange_stage.
  - by rewrite finish_finished.
Qed.
Lemma deadline_event_wf t ev s : stream_wf s -> stream_wf (deadline_event_step usedProxy t ev s).
Proof.
  intros [H Hp Hab]. unfold deadline_event_step.
  assert (core o (set_deadline (deadline_step (deadline s) ev) s)) as H'
    by (apply deadline_core; [done|apply aborted_step]).
  destruct (aborted (deadline s)) eqn:Eab; cbn [negb andb].
  { constructor; [done|done|]. cbn. intros Hf He. discriminate (Hab Hf He). }
  destruct (aborted (deadline_step (deadline s) ev)) eqn:Eab'.
  - unfold onAbort. apply finish_staged_wf; try done. intros Hf. constructor; try done. cbn in *. congruence.
  - constructor; try done.
Qed.
Lemma cancel_body_wf t s : stream_wf s -> stream_wf (cancel_body_step usedProxy t s).
Proof.
  intros Hwf. pose proof Hwf as [H Hp Hab]. unfold cancel_body_step. destruct (controller s) as [b|] eqn:Hb; [|done].
  destruct (state b) eqn:Es; try done. pose proof (open_unfinished b s H Hb Es) as Hf.
  destruct (c_body o s H b Hb) as (Hm & Hmax & _ & _).
  set (e := local_error _ _ _ _ _). set (s' := set_body _ _ _).
  assert (reported e = stage s) as He by by apply (c_stage o s H).
  assert (place_ok (finish (Some e) s')) as Hp'.
  { apply finish_place;
      [|intros _ Hx; rewrite He; exact (exchange_stage s' Hx)|intros _ f; exact (not_thrown s f H Hp Hf)].
    unfold place_ok in *. cbn. destruct (at_ s); try done; unfold exchange in *; cbn; naive_solver. }
  constructor; [|done|by rewrite finish_finished].
  unfold finish. cbn [finished set_body s']. rewrite Hf. destruct H.
  destruct (c_open0 Hf) as (_ & _ & Hop). constructor; cbn; try done.
  - intros _. rewrite Hop. split_and!; try apply release_not_held. done.
  - intros _. left. eexists. split_and!; try done. apply aborted_controller.
  - intros ? [= <-]. apply honest_withReferences. intros Hns. rewrite He in Hns. unfold stage in Hns.
    destruct Hm as [m Hm]. by rewrite Hm in Hns.
  - intros b' [= <-]. split; [done|]. split_and!; try done. cbn. intros ? _. by right.
Qed.

Lemma stream_step_wf t ev s :
  stream_wf s -> legal_event ev s ->
  stream_wf (stream_step parse_target parse_url stringify json_parse o usedProxy connection contextId t ev s).
Proof.
  intros Hwf Hl. pose proof Hwf as [H Hp Hab]. unfold stream_step.
  destruct ev; cbn in Hl;
    try lazymatch goal with |- context [match at_ s with _ => _ end] => destruct (at_ s) eqn:Ea; try done end.
  - by apply checked_step_wf.
  - by apply observed_step_wf.
  - by apply capabilities_step_wf.
  - by apply permit_step_wf.
  - by apply run_step_wf.
  - by apply response_step_wf.
  - by apply error_document_step_wf.
  - by apply head_step_wf.
  - by apply head_end_step_wf.
  - destruct (finished s) eqn:Ef; [done|]. unfold place_ok in Hp. rewrite Ea in Hp.
    constructor; [by apply core_goto|done|]. cbn. intros _ _. apply Hab; [done|unfold early; by rewrite Ea].
  - by apply frame_step_wf.
  - by apply error_end_step_wf.
  - by apply end_step_wf.
  - by apply deadline_event_wf.
  - destruct (returned s); [by apply cancel_body_wf|done].
  - destruct (returned s); [|done]. by apply finish_staged_wf.
  - destruct (returned s); [|done]. by apply finish_staged_wf.
  - destruct (upload s); try done. by apply finish_staged_wf.
Qed.

(** *** Reachable states *)

Definition step (t : moment) (ev : stream_event) (s : Stream) : Stream :=
  stream_step parse_target parse_url stringify json_parse o usedProxy connection contextId t ev s.
Inductive stream_reachable : Stream -> Prop :=
| stream_new d requestId attempt tlsProfile : stream_reachable (newStream d requestId attempt tlsProfile)
| stream_reach t ev s : stream_reachable s -> legal_event ev s -> stream_reachable (step t ev s).

Lemma newStream_wf d requestId attempt tlsProfile : stream_wf (newStream d requestId attempt tlsProfile).
Proof. constructor; [constructor|..]; cbn; done. Qed.
Lemma stream_reachable_wf s : stream_reachable s -> stream_wf s.
Proof. induction 1; [apply newStream_wf|by apply stream_step_wf]. Qed.

(** The outcome of a finished call is final. *)
Definition final (s s' : Stream) : Prop := finished s' = true /\ terminal s' = terminal s.
Lemma final_finish e s : finished s = true -> final s (finish e s).
Proof. intros H. by rewrite finish_same. Qed.
Lemma step_final t ev s : finished s = true -> final s (step t ev s).
Proof.
  intros Hf. unfold step, stream_step.
  destruct ev; try lazymatch goal with |- context [match at_ s with _ => _ end] => destruct (at_ s) end;
    unfold checked_step, observed_step, capabilities_step, permit_step, run_step, response_step,
      error_document_step, head_step, head_end_step, frame_step, data_step, error_end_step, end_step,
      deadline_event_step, cancel_body_step, onAbort, fail, protocol_error, throw, pull_fails;
    repeat case_match; simplify_eq/=; unfold finish; cbn; rewrite ?Hf; cbn; try done.
  all: match goal with H : finished _ = true |- _ => rewrite H end; done.
Qed.
End invariant.

(** ** A run *)

Definition demo_diag (ph : Phase) : Ja3Diagnostics := {|
  Errors.requestId := "r-1"; Errors.attempt := 0; phase := ph; delivery := response_started; queueMs := 1;
  headersMs := Some 2; bodyMs := None; totalMs := 9; requestBytes := 2; Errors.responseBytes := 3;
  tlsProfile := "chrome_131"; traceId := None; spanId := None; clientReused := None;
  Errors.contextId := Some "ctx-1"; cookieRevision := None |}.
Definition demo_head : ResponseMetadata := {|
  meta_requestId := "r-1"; Protocol.status := 200; Protocol.headers := [("Content-Type", "text/html")];
  meta_diagnostics := demo_diag upstream; meta_cookieRevision := None |}.
(** A parser for the two documents of the run. *)
Definition demo_parse (b : list Z) : option jsval :=
  match b with
  | [1] => Some (responseMetadata_js demo_head)
  | [3] => Some (diagnostics_js (demo_diag complete))
  | _ => None
  end.
Definition demo_deadline : Deadline := {|
  timeoutMs := 1000; started := 0; reason := None; timedOut := false; timer := true; listening := false |}.
Definition demo_step : moment -> stream_event -> Stream -> Stream :=
  step demo_target (fun _ => None) (fun _ => "{}") demo_parse demo_options false None (Some "ctx-1").
Definition demo_answer : transport_response := {|
  ok := true; http_status := 200; http_content_type := Some "application/vnd.ja3proxy"; has_body := true |}.
Definition demo_caps : jsval :=
  spread_set demo_capabilities "limits" (JObject (map (fun k => (k, jint 65536)) limits_required)).
Definition demo_events : list stream_event :=
  [SChecked; SObserved None (Ok tt); SCapabilities (Ok demo_caps); SPermit (Ok tt); SRun;
   SResponse (Ok demo_answer); SHead (Ok (Some (1, [1]))); SPull; SFrame (Ok (Some (2, [7; 8; 9])));
   SPull; SFrame (Ok (Some (3, [3]))); SEnd (Ok None)].
Definition demo_run (evs : list stream_event) : Stream :=
  fold_left (fun s ev => demo_step {| now := 5000000; uploaded := 2 |} ev s) evs
    (newStream demo_deadline "r-1" (NInt 0) "unknown").
Example demo_terminal : terminal (demo_run demo_events) = Some (Ok (demo_diag complete)).
Proof. vm_compute. reflexivity. Qed.

Definition demo_reachable : Stream -> Prop :=
  stream_reachable demo_target (fun _ => None) (fun _ => "{}") demo_parse demo_options false None (Some "ctx-1").
Lemma demo_run_reachable evs :
  Forall (fun ev => forall s, legal_event ev s) evs -> demo_reachable (demo_run evs).
Proof.
  unfold demo_run. assert (demo_reachable (newStream demo_deadline "r-1" (NInt 0) "unknown")) as H by constructor.
  revert H. generalize (newStream demo_deadline "r-1" (NInt 0) "unknown"). intros s Hs Hall. revert s Hs.
  induction Hall as [|ev evs Hev _ IH]; intros s Hs; [done|]. cbn. apply IH. by apply stream_reach.
Qed.
Lemma demo_events_legal : Forall (fun ev => forall s, legal_event ev s) demo_events.
Proof. repeat constructor; intros s; cbn; unfold legal_answer; done. Qed.

(** ** Properties *)

(** C2: a call ends once, and then holds nothing.  In every reachable state the call
    has an outcome exactly when it is finished; from then on no answer, abort or
    caller's action changes the outcome, the permit, the reservation and the upload
    are released and the operation is done; before, the operation still counts for
    the client's close; and once past its checks an aborted call is finished. *)
Theorem stream_settles parse_target parse_url stringify json_parse o usedProxy connection contextId s t ev :
  stream_reachable parse_target parse_url stringify json_parse o usedProxy connection contextId s ->
  (finished s = true <-> is_Some (terminal s)) /\
  (finished s = true ->
     permit s <> Held /\ reservation s <> Held /\ upload s <> Held /\ operation s = Released) /\
  (finished s = false -> operation s = Held) /\
  (aborted (deadline s) = true -> early s = false -> finished s = true) /\
  (is_Some (terminal s) ->
     terminal (step parse_target parse_url stringify json_parse o usedProxy connection contextId t ev s) = terminal s).
Proof.
  intros H. apply stream_reachable_wf in H as [Hc _ Hab].
  assert (finished s = true <-> is_Some (terminal s)) as Hiff.
  { destruct (finished s) eqn:Ef.
    - split; [|done]. intros _. destruct (c_outcome o s Hc Ef) as [(? & -> & _)|(? & -> & _)]; by eexists.
    - destruct (c_open o s Hc Ef) as (-> & _). split; [done|by intros [? ?]]. }
  split; [done|]. split; [apply (c_done o s Hc)|].
  split; [intros Hf; by destruct (c_open o s Hc Hf) as (_ & _ & ?)|]. split.
  - intros Ha He. destruct (finished s) eqn:Ef; [done|]. rewrite Hab in Ha by done. done.
  - intros Ht%Hiff. by apply step_final.
Qed.

Lemma stream_settles_witness :
  let s := demo_run demo_events in
  terminal s = Some (Ok (demo_diag complete)) /\
  (finished s = true <-> is_Some (terminal s)) /\
  (finished s = true ->
     permit s <> Held /\ reservation s <> Held /\ upload s <> Held /\ operation s = Released) /\
  (finished s = false -> operation s = Held) /\
  (aborted (deadline s) = true -> early s = false -> finished s = true) /\
  (is_Some (terminal s) -> terminal (demo_step {| now := 0; uploaded := 0 |} SClose s) = terminal s).
Proof.
  intros s. split; [apply demo_terminal|].
  apply (stream_settles demo_target (fun _ => None) (fun _ => "{}") demo_parse demo_options false None (Some "ctx-1")
    s {| now := 0; uploaded := 0 |} SClose).
  apply demo_run_reachable, demo_events_legal.
Defined.

(** C1: a body that ends well is whole.  In every reachable state: what the consumer
    got is at most the response limit; a successful outcome carries the service's own
    completion for this request and attempt, whose byte count is the number of bytes
    the consumer got, and the body is closed; and a body whose call failed is errored
    or was cancelled by its consumer, never closed as if it were complete. *)
Theorem stream_complete parse_target parse_url stringify json_parse o usedProxy connection contextId s :
  stream_reachable parse_target parse_url stringify json_parse o usedProxy connection contextId s ->
  (forall b, controller s = Some b ->
     exists maximum, maxResponseBytes o = jint maximum /\ delivered b <= maximum) /\
  (forall d, terminal s = Some (Ok d) ->
     well_formed d /\ JStr (Errors.requestId d) = requestId o /\ jint (Errors.attempt d) = attempt o /\
     phase d = complete /\ delivery d = response_started /\
     exists b, controller s = Some b /\ state b = BodyClosed /\ Errors.responseBytes d = delivered b) /\
  (forall e b, terminal s = Some (Throw e) -> controller s = Some b ->
     state b = BodyErrored e \/ state b = BodyCancelled).
Proof.
  intros H. apply stream_reachable_wf in H as [Hc _ _]. split_and!.
  - intros b Hb. by destruct (c_body o s Hc b Hb) as (_ & ? & _).
  - intros d Hd. destruct (finished s) eqn:Ef.
    + destruct (c_outcome o s Hc Ef) as [(? & ? & _)|(d' & ? & _ & Hs)]; [congruence|].
      assert (d = d') as -> by congruence. exact Hs.
    + destruct (c_open o s Hc Ef) as (? & _). congruence.
  - intros e b He Hb. destruct (c_body o s Hc b Hb) as (_ & _ & _ & Herr). apply Herr.
    destruct (finished s) eqn:Ef.
    + destruct (c_outcome o s Hc Ef) as [(? & ? & ? & _)|(? & ? & _)]; congruence.
    + destruct (c_open o s Hc Ef) as (? & _). congruence.
Qed.

Lemma stream_complete_witness :
  let s := demo_run demo_events in
  terminal s = Some (Ok (demo_diag complete)) /\
  (forall b, controller s = Some b ->
     exists maximum, maxResponseBytes demo_options = jint maximum /\ delivered b <= maximum) /\
  (forall d, terminal s = Some (Ok d) ->
     well_formed d /\ JStr (Errors.requestId d) = requestId demo_options /\
     jint (Errors.attempt d) = attempt demo_options /\
     phase d = complete /\ delivery d = response_started /\
     exists b, controller s = Some b /\ state b = BodyClosed /\ Errors.responseBytes d = delivered b) /\
  (forall e b, terminal s = Some (Throw e) -> controller s = Some b ->
     state b = BodyErrored e \/ state b = BodyCancelled).
Proof.
  intros s. split; [apply demo_terminal|].
  apply (stream_complete demo_target (fun _ => None) (fun _ => "{}") demo_parse demo_options false None (Some "ctx-1")).
  apply demo_run_reachable, demo_events_legal.
Defined.



