(* ===== verification/Sessions.v ===== *)
(** * Sessions (packages/typescript/src/sessions.ts)

    A session owns one context of the service, which [rebindIdentity] can exchange
    for another, and remembers every context it must still delete.  Its operations
    run one at a time; between two awaits of an operation the service's answer and
    the end of response streams come in as events.  Admission to the operations and
    the wait of [close] are the modelled classes Admission and Lifetime: here an
    operation begins when it is admitted, and contexts are removed when all
    operations have ended. *)

From S2P Require Import Prelude Js Errors Deadline Validators Protocol Service.

Local Open Scope js_scope.

Definition invalid_input_failure {A : Type} : result exn A := Throw invalid_input_error.
Definition fails_with {A : Type} (c : Ja3ErrorCode) : result exn A := Throw (ETransport (localError c None)).

(** [a === b] on primitive values. *)
Definition strict_eq (a b : jsval) : bool :=
  match a, b with
  | JUndefined, JUndefined | JNull, JNull => true
  | JBool x, JBool y => Bool.eqb x y
  | JStr x, JStr y => js_eqb x y
  | JNum (NInt x), JNum (NInt y) => x =? y
  | _, _ => false
  end.

(** ** Requests and replies *)

(** A copied context info: its id, its revision, and the fields no operation reads. *)
Record ContextInfo := { contextId : jsstr; revision : Z; details : jsval }.
Definition read_info (v : jsval) : option ContextInfo :=
  id ← read_string (get v "contextId"); rev ← read_int (get v "revision");
  Some {| contextId := id; revision := rev; details := v |}.
Definition set_revision (rev : Z) (i : ContextInfo) : ContextInfo :=
  {| contextId := contextId i; revision := rev; details := details i |}.

Record CookieReply := { r_revision : Z; r_cookies : option jsval; r_snapshot : option jsval }.
Definition present_field (v : jsval) : option jsval := if is_undefined v then None else Some v.

(** What the source reads of a parsed origin. *)
Record Origin := {
  o_protocol : jsstr; o_username : jsstr; o_password : jsstr; o_search : jsstr; o_hash : jsstr;
  o_pathname : jsstr; o_origin : jsstr }.
(** [Array.from(new Set(values))] keeps the first of equal values. *)
Fixpoint distinct (l : list jsstr) : list jsstr :=
  match l with [] => [] | x :: l => x :: List.filter (fun y => negb (js_eqb x y)) (distinct l) end.

Section session.
Context (parse_url : jsval -> option URL) (parse_origin : jsval -> option Origin).

Definition normalized_origin (value : jsval) : option jsstr :=
  match parse_origin value with
  | Some url =>
      if negb (js_includes ["http:"; "https:"] (o_protocol url)) || negb (js_eqb (o_username url) "") ||
         negb (js_eqb (o_password url) "") || negb (js_eqb (o_search url) "") || negb (js_eqb (o_hash url) "") ||
         negb (js_eqb (o_pathname url) "/")
      then None else Some (o_origin url)
  | None => None
  end.
Definition normalizedOrigins (origins : jsval) (managed : bool) : result exn (list jsstr) :=
  match origins with
  | JArray l =>
      if managed && (zlength l =? 0) then invalid_input_failure
      else match mapM normalized_origin l with
           | Some os => Ok (distinct os)
           | None => invalid_input_failure
           end
  | _ => invalid_input_failure
  end.

(** [createSession]: the mode of the cookies and the origins, before anything is awaited. *)
Definition session_settings (cookieMode origins : jsval) : result exn (bool * list jsstr) :=
  let managed := is_str cookieMode "managed" in
  if negb managed && negb (is_str cookieMode "external") then invalid_input_failure
  else
    let origins := match origins with JUndefined | JNull => JArray [] | v => v end in
    let? allowedOrigins := normalizedOrigins origins managed in Ok (managed, allowedOrigins).

(** What a session is created with, after the checks of [createSession]. *)
Context (caps partition : jsval) (managed : bool) (allowedOrigins : list jsstr) (ttlMs : jsval).

Definition cookieMode : jsval := JStr (if managed then "managed" else "external").
(** [createSession] before the context is opened: the time and size limits. *)
Definition session_limits (timeout maximum : jsval) : result exn Z :=
  let limit key := default 0 (read_int (get (get caps "limits") key)) in
  let? timeoutMs := timeoutValue timeout in
  match positive maximum with
  | Some m => if (m >? limit "maxResponseBytes") || (timeoutMs >? limit "maxTimeoutMs") then invalid_input_failure
              else Ok timeoutMs
  | None => invalid_input_failure
  end.
(** [openContext] up to the control call, with the capabilities it has awaited: the
    request it posts. *)
Definition open_request (caps connection : jsval) : result exn jsval :=
  let? _ := validatePartition partition in
  let? _ := validateConnection parse_url caps connection in
  if negb (match cookieMode with JStr m => includes (get (get caps "modes") "cookies") m | _ => false end)
  then fails_with UNSUPPORTED_CAPABILITY
  else if negb (is_undefined ttlMs) &&
          match positive ttlMs with
          | Some t => t >? default 0 (read_int (get (get caps "limits") "contextMaxIdleTtlMs"))
          | None => true
          end then invalid_input_failure
  else
    let request := JObject ([("partition", partition); ("connection", connection); ("cookieMode", cookieMode);
                             ("allowedOrigins", JArray (map JStr allowedOrigins))]
                            ++ optional_field "ttlMs" ttlMs) in
    if validateWire createContext request then Ok request else invalid_input_failure.
(** [openContext] after the control call. *)
Definition open_reply (caps connection value : jsval) : result exn ContextInfo :=
  let identity := get connection "identity" in
  let got := get value "identity" in
  if contextInfo value && strict_eq (get value "partition") partition &&
     strict_eq (get value "cookieMode") cookieMode &&
     match read_string (get identity "tlsProfile") ≫= resolveProfile caps with
     | Some profile => strict_eq (get got "tlsProfile") profile
     | None => false
     end &&
     strict_eq (get got "emulateHeaders") (get identity "emulateHeaders") &&
     strict_eq (get got "userAgent") (get identity "userAgent")
  then match read_info (copyContextInfo value) with Some i => Ok i | None => fails_with PROTOCOL_ERROR end
  else fails_with PROTOCOL_ERROR.

(** [cookies] up to the control call, and after it. *)
Definition cookies_request (command : list (jsstr * jsval)) : result exn jsval :=
  let request := JObject (("partition", partition) :: command) in
  if validateWire cookieOperation request then Ok request else invalid_input_failure.
Definition cookies_reply (value : jsval) : result exn CookieReply :=
  if negb (validateWire cookieReply value) || negb (record value) then fails_with PROTOCOL_ERROR
  else
    match nonnegativeInteger (get value "revision") with
    | None => fails_with PROTOCOL_ERROR
    | Some rev =>
        let cookies := get value "cookies" in
        let snapshot := get value "snapshot" in
        if negb (is_undefined cookies) && negb (cookieRecords cookies) then fails_with PROTOCOL_ERROR
        else if negb (is_undefined snapshot) && negb (cookieSnapshot snapshot) then fails_with PROTOCOL_ERROR
        else Ok {| r_revision := rev; r_cookies := present_field cookies; r_snapshot := present_field snapshot |}
    end.
Definition is_none {A : Type} (o : option A) : bool := match o with None => true | Some _ => false end.
(** The reply to a change of [expected]: the next revision and nothing else. *)
Definition changed_reply (expected : Z) (r : CookieReply) : result exn Z :=
  if negb (r_revision r =? expected + 1) || negb (is_none (r_cookies r)) || negb (is_none (r_snapshot r))
  then fails_with PROTOCOL_ERROR else Ok (r_revision r).

(** The headers of a request in this session. *)
Definition headers_named (name : jsstr) (headers : list (jsstr * jsstr)) : list (jsstr * jsstr) :=
  List.filter (fun pair => js_eqb (to_lower pair.1) name) headers.
Definition session_headers (userAgent : jsval) (input : HeadersInput) : result exn (list (jsstr * jsstr)) :=
  let? headers := headersFrom input in
  if managed && negb (is_none (head (headers_named "cookie" headers))) then invalid_input_failure
  else
    match userAgent with
    | JStr agent =>
        let values := headers_named "user-agent" headers in
        if existsb (fun pair => negb (js_eqb pair.2 agent)) values then fails_with CONTEXT_CONFLICT
        else Ok (if is_none (head values) then headers ++ [("user-agent", agent)] else headers)
    | _ => Ok headers
    end.

(** ** The state of a session *)

(** What an operation that holds [serial] awaits. *)
Inductive job :=
| Selecting                                            (* getCookies *)
| Setting (expected : Z)                               (* setCookies *)
| Exporting                                            (* exportCookies *)
| Importing (expected : Z)                             (* importCookies *)
| RebindExport (next : jsval)                          (* rebindIdentity: the snapshot *)
| RebindCapabilities (next snapshot : jsval)           (* the capabilities now *)
| RebindOpen (next snapshot caps : jsval)              (* the new context *)
| RebindImport (next : jsval) (staged : ContextInfo)   (* its cookies *)
| RebindRollback (staged : jsstr) (error : exn)        (* its removal after a failure *)
| RebindRemove (previous : jsstr)                      (* the removal of the old context *)
| Streaming (n : nat).                                 (* the head of a managed stream *)

Inductive outcome :=
| Cookies (v : jsval)
| Snapshot (v : jsval)
| Done
| Committed (previous current : jsstr)
| CommittedCleanupPending (previous current : jsstr) (cleanupError : Ja3ProxyTransportError)
| Failed (error : Ja3ProxyTransportError).

Inductive closing_phase :=
| Stopping                                                      (* await stopped *)
| Removing (pending : list jsstr) (failed : option exn)         (* await Promise.allSettled *)
| Closed.

Record Session := {
  info : ContextInfo;
  connection : jsval;
  cleanup : list jsstr;                        (* a Set *)
  lost : bool;
  accepting : bool;                            (* the lifetime is open *)
  admitted : nat;                              (* operations that wait for [serial] *)
  running : option (job * jsstr);              (* and the context the operation started with *)
  streams : list (nat * ContextInfo);          (* requests whose head is awaited *)
  bodies : list (nat * jsstr);                 (* responses that are not complete *)
  closing : option closing_phase;
  (* what the proofs observe *)
  opened : list jsstr;
  deleted : list jsstr;
  outcomes : list outcome;
}.

Definition set_add (id : jsstr) (l : list jsstr) : list jsstr := if js_includes l id then l else l ++ [id].
Definition set_remove (id : jsstr) (l : list jsstr) : list jsstr := List.filter (fun x => negb (js_eqb x id)) l.

Definition with_info (i : ContextInfo) (c : jsval) (s : Session) : Session := {|
  info := i; connection := c; cleanup := cleanup s; lost := lost s; accepting := accepting s; admitted := admitted s;
  running := running s; streams := streams s; bodies := bodies s; closing := closing s;
  opened := opened s; deleted := deleted s; outcomes := outcomes s |}.
Definition with_cleanup (c o d : list jsstr) (s : Session) : Session := {|
  info := info s; connection := connection s; cleanup := c; lost := lost s; accepting := accepting s;
  admitted := admitted s; running := running s; streams := streams s; bodies := bodies s; closing := closing s;
  opened := o; deleted := d; outcomes := outcomes s |}.
Definition with_work (l : bool) (a : nat) (r : option (job * jsstr)) (st : list (nat * ContextInfo))
    (b : list (nat * jsstr)) (out : list outcome) (s : Session) : Session := {|
  info := info s; connection := connection s; cleanup := cleanup s; lost := l; accepting := accepting s;
  admitted := a; running := r; streams := st; bodies := b; closing := closing s;
  opened := opened s; deleted := deleted s; outcomes := out |}.
Definition with_closing (acc : bool) (c : option closing_phase) (s : Session) : Session := {|
  info := info s; connection := connection s; cleanup := cleanup s; lost := lost s; accepting := acc;
  admitted := admitted s; running := running s; streams := streams s; bodies := bodies s; closing := c;
  opened := opened s; deleted := deleted s; outcomes := outcomes s |}.

Definition newSession (first : ContextInfo) (connection : jsval) : Session := {|
  info := first; connection := connection; cleanup := [contextId first]; lost := false; accepting := true;
  admitted := 0; running := None; streams := []; bodies := []; closing := None;
  opened := [contextId first]; deleted := []; outcomes := [] |}.

(** ** Operations *)

Definition is_code (c : Ja3ErrorCode) (e : exn) : bool :=
  match e with ETransport e => bool_decide (code e = c) | _ => false end.
Definition markLost (e : exn) (id : jsstr) (s : Session) : Session :=
  if js_eqb (contextId (info s)) id && is_code CONTEXT_NOT_FOUND e
  then with_work true (admitted s) (running s) (streams s) (bodies s) (outcomes s) s else s.
Definition applyRevision (value : Z) (id : jsstr) (s : Session) : result exn Session :=
  if negb (js_eqb (contextId (info s)) id) then Ok s
  else if is_none (nonnegativeInteger (jint value)) || (value <? revision (info s)) then fails_with CONTEXT_CONFLICT
  else Ok (with_info (set_revision value (info s)) (connection s) s).
(** [removeContext] after its control call. *)
Definition removeContext (id : jsstr) (r : result exn jsval) (s : Session) : Session * result exn unit :=
  let deleted_now := with_cleanup (set_remove id (cleanup s)) (opened s) (set_add id (deleted s)) s in
  let kept := with_cleanup (set_add id (cleanup s)) (opened s) (deleted s) s in
  match r with
  | Ok JUndefined => (deleted_now, Ok tt)
  | Ok _ => (kept, fails_with PROTOCOL_ERROR)
  | Throw e => if is_code CONTEXT_NOT_FOUND e then (deleted_now, Ok tt) else (kept, Throw e)
  end.

(** The operation ends; [done] and the release of [serial] let the next one begin. *)
Definition ends (o : outcome) (s : Session) : Session :=
  with_work (lost s) (admitted s) None (streams s) (bodies s) (outcomes s ++ [o]) s.
Definition fails (e : exn) (id : jsstr) (s : Session) : Session :=
  ends (Failed (safeError e localDiagnostics false)) (markLost e id s).
Definition awaits (j : job) (id : jsstr) (s : Session) : Session :=
  with_work (lost s) (admitted s) (Some (j, id)) (streams s) (bodies s) (outcomes s) s.

Inductive operation :=
| GetCookies (url : jsval)
| SetCookies (url values : jsval)
| ExportCookies
| ImportCookies (snapshot : jsval)
| RebindIdentity (identity : jsval).

Definition select_command (url : jsval) : list (jsstr * jsval) := [("operation", JStr "select"); ("url", url)].
Definition set_command (url values : jsval) (expected : Z) : list (jsstr * jsval) :=
  [("operation", JStr "set"); ("url", url); ("cookies", values); ("expectedRevision", jint expected)].
Definition export_command : list (jsstr * jsval) := [("operation", JStr "export")].
Definition import_command (snapshot : jsval) (expected : Z) : list (jsstr * jsval) :=
  [("operation", JStr "import"); ("snapshot", snapshot); ("expectedRevision", jint expected)].

(** An operation up to its first control call. *)
Definition prepare (op : operation) (s : Session) : result exn job :=
  let expected := revision (info s) in
  match op with
  | GetCookies url => let? _ := cookies_request (select_command url) in Ok Selecting
  | SetCookies url values =>
      if negb (is_array values) || negb (forallb is_string (elements values)) then invalid_input_failure
      else let? _ := cookies_request (set_command url values expected) in Ok (Setting expected)
  | ExportCookies => let? _ := cookies_request export_command in Ok Exporting
  | ImportCookies snapshot =>
      if negb (cookieSnapshot snapshot) then invalid_input_failure
      else let? _ := cookies_request (import_command snapshot expected) in Ok (Importing expected)
  | RebindIdentity identity =>
      let next := JObject [("egress", get (connection s) "egress"); ("identity", identity)] in
      let? _ := validateConnection parse_url caps next in
      let? _ := cookies_request export_command in Ok (RebindExport next)
  end.
(** The operation is admitted; [aborted] is the error of its deadline. *)
Definition begins (op : operation) (aborted : option exn) (s : Session) : Session :=
  let id := contextId (info s) in
  let s := with_work (lost s) (pred (admitted s)) None (streams s) (bodies s) (outcomes s) s in
  if lost s then fails (ETransport (localError CONTEXT_NOT_FOUND None)) id s
  else
    match aborted with
    | Some e => fails e id s
    | None => match prepare op s with Ok j => awaits j id s | Throw e => fails e id s end
    end.

Definition export_reply (r : CookieReply) (s : Session) : result exn (Session * jsval) :=
  match r_snapshot r with
  | Some snapshot =>
      if negb (is_none (r_cookies r)) then fails_with PROTOCOL_ERROR
      else let? s' := applyRevision (r_revision r) (contextId (info s)) s in Ok (s', snapshot)
  | None => fails_with PROTOCOL_ERROR
  end.
Definition change_reply (expected : Z) (r : result exn jsval) (s : Session) : result exn Session :=
  let? value := r in
  let? reply := cookies_reply value in
  let? rev := changed_reply expected reply in
  applyRevision rev (contextId (info s)) s.
(** A staged context that failed is removed, whatever comes of it. *)
Definition rolls_back (staged : jsstr) (e : exn) (id : jsstr) (s : Session) : Session :=
  awaits (RebindRollback staged e) id
    (with_cleanup (set_add staged (cleanup s)) (opened s) (deleted s) s).

(** The cut-over: the staged context is in use, the old one is to be removed. *)
Definition cutover (next : jsval) (staged : ContextInfo) (rev : Z) (s : Session) : Session :=
  with_cleanup (set_add (contextId (info s)) (cleanup s)) (opened s) (deleted s)
    (with_info (set_revision rev staged) next s).

(** The service has answered what the operation awaits. *)
Definition answers (r : result exn jsval) (aborted : bool) (s : Session) : Session :=
  match running s with
  | None => s
  | Some (j, id) =>
      match j with
      | Selecting =>
          match (let? value := r in
                 let? reply := cookies_reply value in
                 match r_cookies reply with
                 | Some cookies =>
                     if negb (is_none (r_snapshot reply)) then fails_with PROTOCOL_ERROR
                     else let? s' := applyRevision (r_revision reply) (contextId (info s)) s in Ok (s', cookies)
                 | None => fails_with PROTOCOL_ERROR
                 end) with
          | Ok (s', cookies) => ends (Cookies cookies) s'
          | Throw e => fails e id s
          end
      | Setting expected | Importing expected =>
          match change_reply expected r s with Ok s' => ends Done s' | Throw e => fails e id s end
      | Exporting =>
          match (let? value := r in let? reply := cookies_reply value in export_reply reply s) with
          | Ok (s', snapshot) => ends (Snapshot snapshot) s'
          | Throw e => fails e id s
          end
      | RebindExport next =>
          match (let? value := r in let? reply := cookies_reply value in export_reply reply s) with
          | Ok (s', snapshot) =>
              match validatePartition partition with
              | Ok _ => awaits (RebindCapabilities next snapshot) id s'
              | Throw e => fails e id s'
              end
          | Throw e => fails e id s
          end
      | RebindCapabilities next snapshot =>
          match (let? caps := r in let? _ := open_request caps next in Ok caps) with
          | Ok caps => awaits (RebindOpen next snapshot caps) id s
          | Throw e => fails e id s
          end
      | RebindOpen next snapshot caps =>
          match (let? value := r in open_reply caps next value) with
          | Ok staged =>
              let s := with_cleanup (set_add (contextId staged) (cleanup s)) (opened s ++ [contextId staged]) (deleted s) s in
              match cookies_request (import_command snapshot (revision staged)) with
              | Ok _ => awaits (RebindImport next staged) id s
              | Throw e => rolls_back (contextId staged) e id s
              end
          | Throw e => fails e id s
          end
      | RebindImport next staged =>
          match (let? value := r in
                 let? reply := cookies_reply value in
                 let? rev := changed_reply (revision staged) reply in
                 if aborted then fails_with CANCELLED else Ok rev) with
          | Ok rev => awaits (RebindRemove (contextId (info s))) id (cutover next staged rev s)
          | Throw e => rolls_back (contextId staged) e id s
          end
      | RebindRollback staged e => fails e id (removeContext staged r s).1
      | RebindRemove previous =>
          match removeContext previous r s with
          | (s', Ok _) => ends (Committed previous (contextId (info s'))) s'
          | (s', Throw e) =>
              ends (CommittedCleanupPending previous (contextId (info s')) (safeError e localDiagnostics false)) s'
          end
      | Streaming _ => s
      end
  end.

(** ** Streams *)

(** What [stream] reads of an exchange's metadata. *)
Record Exchange := { x_contextId : option jsstr; x_cookieRevision : option Z }.
Definition stream_begins (n : nat) (headers : HeadersInput) (aborted : option exn) (s : Session) : Session :=
  let id := contextId (info s) in
  let s := with_work (lost s) (pred (admitted s)) (running s) (streams s) (bodies s) (outcomes s) s in
  let fail e := with_work (lost (markLost e id s)) (admitted s) (running s) (streams s) (bodies s)
                  (outcomes s ++ [Failed (safeError e localDiagnostics false)]) s in
  if lost s then fail (ETransport (localError CONTEXT_NOT_FOUND None))
  else
    match aborted with
    | Some e => fail e
    | None =>
        match session_headers (get (get (connection s) "identity") "userAgent") headers with
        | Throw e => fail e
        | Ok _ =>
            with_work (lost s) (admitted s) (if managed then Some (Streaming n, id) else running s)
              ((n, info s) :: streams s) (bodies s) (outcomes s) s
        end
    end.
Definition exchange_accepted (current : ContextInfo) (x : Exchange) (s : Session) : result exn Session :=
  if negb (bool_decide (x_contextId x = Some (contextId current))) ||
     (managed && match x_cookieRevision x with
                 | Some rev => is_none (nonnegativeInteger (jint rev)) || (rev <? revision current)
                 | None => true
                 end)
  then fails_with PROTOCOL_ERROR
  else match x_cookieRevision x with Some rev => applyRevision rev (contextId current) s | None => Ok s end.
(** The head of the response has come, or the request failed. *)
Definition stream_answers (n : nat) (r : result exn Exchange) (s : Session) : Session :=
  match List.find (fun st => Nat.eqb n st.1) (streams s) with
  | None => s
  | Some (_, current) =>
      let rest := List.filter (fun st => negb (Nat.eqb n st.1)) (streams s) in
      let free := match running s with
                  | Some (Streaming m, _) => if Nat.eqb n m then None else running s
                  | r => r
                  end in
      match (let? x := r in exchange_accepted current x s) with
      | Ok s => with_work (lost s) (admitted s) free rest ((n, contextId current) :: bodies s) (outcomes s) s
      | Throw e =>
          with_work (lost (markLost e (contextId current) s)) (admitted s) free rest (bodies s)
            (outcomes s ++ [Failed (safeError e localDiagnostics false)]) s
      end
  end.
(** The response has ended, with an error or not. *)
Definition stream_ends (n : nat) (error : option exn) (s : Session) : Session :=
  match List.find (fun st => Nat.eqb n st.1) (bodies s) with
  | None => s
  | Some (_, id) =>
      let s := match error with Some e => markLost e id s | None => s end in
      with_work (lost s) (admitted s) (running s) (streams s)
        (List.filter (fun st => negb (Nat.eqb n st.1)) (bodies s)) (outcomes s) s
  end.

(** ** Closing *)

Definition close_begins (s : Session) : Session :=
  match closing s with
  | Some _ => s
  | None => with_closing false (Some Stopping) s
  end.
(** The lifetime has closed: all operations have ended. *)
Definition quiet (s : Session) : bool :=
  Nat.eqb (admitted s) 0 && is_none (running s) && bool_decide (streams s = []) && bool_decide (bodies s = []).
Definition settles_close (pending : list jsstr) (failed : option exn) (s : Session) : Session :=
  match pending, failed with
  | _ :: _, _ => with_closing (accepting s) (Some (Removing pending failed)) s
  | [], Some _ => with_closing (accepting s) None s
  | [], None => with_closing (accepting s) (Some Closed) s
  end.
Definition close_removes (aborted : bool) (s : Session) : Session :=
  match closing s with
  | Some Stopping =>
      if negb (quiet s) then s
      else if aborted then with_closing (accepting s) None s
      else settles_close (cleanup s) None s
  | _ => s
  end.
Definition close_removed (id : jsstr) (r : result exn jsval) (s : Session) : Session :=
  match closing s with
  | Some (Removing pending failed) =>
      if negb (js_includes pending id) then s
      else
        let '(s, outcome) := removeContext id r s in
        settles_close (set_remove id pending)
          (match failed, outcome with Some e, _ => Some e | None, Throw e => Some e | None, Ok _ => None end) s
  | _ => s
  end.

Inductive event :=
| Call                                                     (* an operation passes [assertUsable] *)
| Begins (op : operation) (aborted : option exn)
| Answers (r : result exn jsval) (aborted : bool)
| StreamBegins (n : nat) (headers : HeadersInput) (aborted : option exn)
| StreamAnswers (n : nat) (r : result exn Exchange)
| StreamEnds (n : nat) (error : option exn)
| StopAccepting
| CloseBegins
| CloseRemoves (aborted : bool)
| CloseRemoved (id : jsstr) (r : result exn jsval).

Definition session_step (s : Session) (ev : event) : Session :=
  match ev with
  | Call => if accepting s && negb (lost s)
            then with_work (lost s) (S (admitted s)) (running s) (streams s) (bodies s) (outcomes s) s else s
  | Begins op aborted =>
      if managed && negb (Nat.eqb (admitted s) 0) && is_none (running s) then begins op aborted s else s
  | Answers r aborted => answers r aborted s
  | StreamBegins n headers aborted =>
      if negb (Nat.eqb (admitted s) 0) && (negb managed || is_none (running s)) &&
         negb (existsb (fun st => Nat.eqb n st.1) (streams s)) && negb (existsb (fun st => Nat.eqb n st.1) (bodies s))
      then stream_begins n headers aborted s else s
  | StreamAnswers n r => stream_answers n r s
  | StreamEnds n error => stream_ends n error s
  | StopAccepting => with_closing false (closing s) s
  | CloseBegins => close_begins s
  | CloseRemoves aborted => close_removes aborted s
  | CloseRemoved id r => close_removed id r s
  end.
End session.

(** ** What a session sends *)

Lemma elem_distinct x l : x ∈ distinct l <-> x ∈ l.
Proof.
  induction l as [|y l IH]; [done|]. cbn. rewrite !elem_of_cons.
  rewrite (list_elem_of_In (List.filter _ _)), List.filter_In, <- list_elem_of_In, IH.
  unfold js_eqb. destruct (decide (x = y)) as [->|Hne]; [tauto|].
  rewrite bool_decide_false by congruence. tauto.
Qed.
Lemma nodup_distinct l : NoDup (distinct l).
Proof.
  induction l as [|y l IH]; [constructor|]. cbn. constructor.
  - rewrite list_elem_of_In, List.filter_In. unfold js_eqb. rewrite bool_decide_true by done. by intros [_ ?].
  - apply base.NoDup_ListNoDup, List.NoDup_filter, base.NoDup_ListNoDup, IH.
Qed.
Section sent.
Context (parse_origin : jsval -> option Origin).

(** What an origin of the options must be. *)
Definition plain_origin (value : jsval) (o : jsstr) : Prop :=
  exists url, parse_origin value = Some url /\ o_origin url = o /\
    (o_protocol url = "http:" \/ o_protocol url = "https:") /\ o_pathname url = "/" /\
    o_username url = "" /\ o_password url = "" /\ o_search url = "" /\ o_hash url = "".
Lemma normalized_origin_plain value o : normalized_origin parse_origin value = Some o -> plain_origin value o.
Proof.
  unfold normalized_origin, plain_origin, js_eqb, js_includes.
  destruct (parse_origin value) as [url|]; [|done]. destruct (_ || _) eqn:E; [done|]. intros [= <-].
  reflect_bools. exists url. split_and!; try done. set_solver.
Qed.

Lemma normalized_spec managed origins os :
  normalizedOrigins parse_origin origins managed = Ok os ->
  exists l names, origins = JArray l /\ Forall2 plain_origin l names /\ os = distinct names /\ (managed = true -> l <> []).
Proof.
  unfold normalizedOrigins. destruct origins as [| | | | |l| | |]; try done.
  destruct (managed && (zlength l =? 0)) eqn:Em; [done|].
  destruct (mapM _ l) as [names|] eqn:E; [|done]. intros [= <-]. exists l, names. split_and!; try done.
  - apply mapM_Some in E. eapply Forall2_impl; [exact E|]. apply normalized_origin_plain.
  - intros -> ->. done.
Qed.
Lemma is_str_spec v s : is_str v s = true <-> v = JStr s.
Proof. destruct v; try done. cbn. unfold js_eqb. rewrite bool_decide_eq_true. naive_solver. Qed.

(** The origins of a session are the distinct origins of the values in its options, each
    an HTTP URL without credentials, path, query or fragment, and every value is one;
    a managed session has at least one. *)
Theorem session_origins mode origins managed os :
  session_settings parse_origin mode origins = Ok (managed, os) ->
  mode = JStr (if managed then "managed" else "external") /\ NoDup os /\ (managed = true -> os <> []) /\
  (forall o, o ∈ os -> exists value, value ∈ elements origins /\ plain_origin value o) /\
  (forall value, value ∈ elements origins -> exists o, o ∈ os /\ plain_origin value o).
Proof.
  unfold session_settings. set (given := match origins with JUndefined | JNull => JArray [] | v => v end).
  destruct (negb (is_str mode "managed") && negb (is_str mode "external")) eqn:Em; [done|].
  destruct (normalizedOrigins _ given _) as [os'|] eqn:E; [|done]. cbn [result_bind]. intros [= <- <-].
  apply normalized_spec in E as (l & names & Hg & Hl & -> & Hne).
  assert (elements origins = l) as -> by by destruct origins; simplify_eq/=.
  split_and!.
  - destruct (is_str mode "managed") eqn:E; [by apply is_str_spec|].
    apply is_str_spec. by destruct (is_str mode "external").
  - apply nodup_distinct.
  - intros Hm Hd. destruct (Hne Hm). destruct Hl as [|v o l names]; [done|]. done.
  - intros o Ho%(proj1 (elem_distinct _ _)). apply list_elem_of_lookup in Ho as [k Hk].
    destruct (Forall2_lookup_r _ _ _ _ _ Hl Hk) as (v & Hv & ?). exists v. split; [by eapply list_elem_of_lookup_2|done].
  - intros v Hv. apply list_elem_of_lookup in Hv as [k Hk].
    destruct (Forall2_lookup_l _ _ _ _ _ Hl Hk) as (o & Ho & ?). exists o.
    split; [by eapply elem_distinct, list_elem_of_lookup_2|done].
Qed.
End sent.

Definition named (name : jsstr) (pair : jsstr * jsstr) : Prop := to_lower pair.1 = name.
Lemma filter_none {A} (f : A -> bool) l : is_none (head (List.filter f l)) = true -> forall x, x ∈ l -> f x = false.
Proof.
  intros H x Hx. destruct (f x) eqn:E; [|done].
  assert (x ∈ List.filter f l) as Hin by (rewrite list_elem_of_In, List.filter_In, <- list_elem_of_In; done).
  destruct (List.filter f l); [by apply not_elem_of_nil in Hin|done].
Qed.

(** A request of a session carries the headers of the caller, no cookie header when the
    session is managed, and, when the identity names a user agent, that user agent
    exactly: another one is a conflict and a missing one is appended. *)
Theorem session_headers_sound managed agent input hs :
  session_headers managed agent input = Ok hs ->
  (exists caller added, headersFrom input = Ok caller /\ hs = caller ++ added /\
     (added = [] \/ exists a, agent = JStr a /\ added = [("user-agent", a)])) /\
  (managed = true -> forall pair, pair ∈ hs -> ~ named "cookie" pair) /\
  (forall a, agent = JStr a ->
     (exists pair, pair ∈ hs /\ named "user-agent" pair) /\
     (forall pair, pair ∈ hs -> named "user-agent" pair -> pair.2 = a)).
Proof.
  unfold session_headers. destruct (headersFrom input) as [caller|]; [|done]. cbn [result_bind].
  assert (forall name pair, js_eqb (to_lower pair.1) name = false -> ~ named name pair) as Hno.
  { intros name pair H%bool_decide_eq_false. done. }
  destruct (managed && negb (is_none (head (headers_named "cookie" caller)))) eqn:Ec; [done|].
  assert (managed = true -> forall pair, pair ∈ caller -> ~ named "cookie" pair) as Hcookie.
  { intros ->. cbn in Ec. apply negb_false_iff in Ec. intros pair Hp. apply Hno. exact (filter_none _ _ Ec pair Hp). }
  destruct agent as [| | | |a| | | |]; try (intros [= <-]; split_and!; [|done..];
    exists caller, []; rewrite app_nil_r; auto).
  destruct (existsb _ (headers_named "user-agent" caller)) eqn:Eu; [done|]. intros [= <-].
  assert (forall pair, pair ∈ caller -> named "user-agent" pair -> pair.2 = a) as Hsame.
  { intros pair Hp Hn. rewrite <- not_true_iff_false, existsb_exists in Eu. destruct (decide (pair.2 = a)) as [|Hne]; [done|].
    destruct Eu. exists pair. split; [|by unfold js_eqb; rewrite bool_decide_false].
    apply List.filter_In. split; [by apply list_elem_of_In|]. unfold js_eqb. by rewrite bool_decide_true. }
  destruct (is_none (head (headers_named "user-agent" caller))) eqn:En.
  - split_and!.
    + exists caller, [("user-agent", a)]. split_and!; [done..|]. right. by exists a.
    + intros Hm pair [Hp| ->%list_elem_of_singleton]%elem_of_app; [by apply Hcookie|]. apply Hno. vm_compute. reflexivity.
    + intros ? [= <-]. split; [exists ("user-agent", a); split; [apply elem_of_app; right; by left|vm_compute; reflexivity]|].
      intros pair [Hp| ->%list_elem_of_singleton]%elem_of_app; [by apply Hsame|done].
  - split_and!; [exists caller, []; rewrite app_nil_r; auto|done|]. intros ? [= <-]. split; [|done].
    destruct (headers_named "user-agent" caller) as [|pair l] eqn:El; [done|]. exists pair.
    assert (pair ∈ headers_named "user-agent" caller) as Hin by (rewrite El; by left).
    unfold headers_named in Hin. rewrite list_elem_of_In, List.filter_In, <- list_elem_of_In in Hin.
    destruct Hin as [? H%bool_decide_eq_true]. done.
Qed.

Lemma session_origins_witness :
  exists os, session_settings (fun _ => Some {| o_protocol := "https:"; o_username := ""; o_password := ""; o_search := "";
      o_hash := ""; o_pathname := "/"; o_origin := "https://a.test" |})
    (JStr "managed") (JArray [JStr "https://a.test"; JStr "https://A.test/"]) = Ok (true, os) /\ os <> [].
Proof.
  eexists. split; [vm_compute; reflexivity|].
  exact (proj1 (proj2 (proj2 (session_origins (fun _ => Some {| o_protocol := "https:"; o_username := ""; o_password := "";
    o_search := ""; o_hash := ""; o_pathname := "/"; o_origin := "https://a.test" |})
    (JStr "managed") (JArray [JStr "https://a.test"; JStr "https://A.test/"]) true _ eq_refl))) eq_refl).
Defined.
Lemma session_headers_sound_witness :
  session_headers true (JStr "UA") (HeaderRecord [("Accept", JStr "*/*")]) =
    Ok [("Accept", "*/*"); ("user-agent", "UA")] /\
  forall pair, pair ∈ [("Accept", "*/*"); ("user-agent", "UA")] -> named "user-agent" pair -> pair.2 = "UA".
Proof.
  split; [vm_compute; reflexivity|].
  refine (proj2 (proj2 (proj2 (session_headers_sound true (JStr "UA") (HeaderRecord [("Accept", JStr "*/*")]) _ _)) "UA" eq_refl)).
  vm_compute. reflexivity.
Defined.


(** ** What is true of every session *)

Lemma elem_set_add x id l : x ∈ set_add id l <-> x = id \/ x ∈ l.
Proof. unfold set_add, js_includes. case_bool_decide; set_solver. Qed.
Lemma elem_set_remove x id l : x ∈ set_remove id l <-> x <> id /\ x ∈ l.
Proof.
  unfold set_remove, js_eqb. rewrite !list_elem_of_In, List.filter_In, negb_true_iff, bool_decide_eq_false. tauto.
Qed.
#[local] Hint Rewrite elem_set_add elem_set_remove : sets.

Section invariant.
Context (parse_url : jsval -> option URL) (caps partition : jsval) (managed : bool) (allowedOrigins : list jsstr)
  (ttlMs : jsval).
Notation step := (session_step parse_url caps partition managed allowedOrigins ttlMs).
Notation open_reply := (open_reply partition managed).

(** The service gives a new context an id that it has not used for this session. *)
Definition legal (s : Session) (ev : event) : Prop :=
  match ev, running s with
  | Answers (Ok value) _, Some (RebindOpen next _ caps, _) =>
      forall staged, open_reply caps next value = Ok staged -> contextId staged ∉ opened s
  | _, _ => True
  end.
Inductive reachable : Session -> Prop :=
| reachable_new first connection : reachable (newSession first connection)
| reachable_step s ev : reachable s -> legal s ev -> reachable (step s ev).

Fixpoint legal_run (s : Session) (evs : list event) : Prop :=
  match evs with [] => True | ev :: evs => legal s ev /\ legal_run (step s ev) evs end.
Lemma reachable_run evs : forall s, reachable s -> legal_run s evs -> reachable (foldl step s evs).
Proof. induction evs as [|ev evs IH]; intros s Hs Hl; [done|]. destruct Hl. by apply IH; [apply reachable_step|]. Qed.

Definition job_ok (s : Session) : Prop :=
  match running s with
  | Some (RebindImport _ staged, _) =>
      contextId staged ∈ opened s /\ contextId staged <> contextId (info s) /\ contextId staged ∉ deleted s
  | Some (RebindRollback id _, _) | Some (RebindRemove id, _) => id ∈ opened s /\ id <> contextId (info s)
  | _ => True
  end.
Record session_ok (s : Session) : Prop := {
  ok_current : contextId (info s) ∈ opened s;
  ok_owned : forall id, id ∈ opened s -> id ∈ deleted s \/ id ∈ cleanup s;
  ok_cleanup : forall id, id ∈ cleanup s -> id ∈ opened s;
  ok_deleted : forall id, id ∈ deleted s -> id ∈ opened s;
  ok_job : job_ok s;
  ok_using : contextId (info s) ∈ deleted s -> accepting s = false /\ quiet s = true;
  ok_closing : match closing s with
               | Some Stopping => accepting s = false
               | Some (Removing pending failed) =>
                   accepting s = false /\ quiet s = true /\ (forall id, id ∈ pending -> id ∈ opened s) /\
                   (failed = None -> forall id, id ∈ cleanup s -> id ∈ pending)
               | Some Closed => accepting s = false /\ quiet s = true /\ cleanup s = []
               | None => True
               end;
}.

(** A session that still works. *)
Definition active (s : Session) : Prop := accepting s = true \/ quiet s = false.
Lemma active_using s : session_ok s -> active s -> contextId (info s) ∉ deleted s.
Proof. intros H [Ha|Ha] Hd; destruct (ok_using s H Hd); congruence. Qed.
Lemma active_closing s : session_ok s -> active s ->
  closing s = None \/ (closing s = Some Stopping /\ accepting s = false).
Proof.
  intros H Ha. pose proof (ok_closing s H) as Hc. destruct (closing s) as [[|p f|]|]; [by right| | |by left];
    destruct Hc as (? & ? & _), Ha; congruence.
Qed.
(** A step of the work of an active session that touches no context. *)
Lemma ok_work s s' :
  session_ok s -> active s -> contextId (info s') = contextId (info s) ->
  cleanup s' = cleanup s -> opened s' = opened s -> deleted s' = deleted s -> closing s' = closing s ->
  accepting s' = accepting s -> job_ok s' -> session_ok s'.
Proof.
  intros H Ha Hi Hcl Ho Hd Hclo Hac Hj. pose proof (active_using s H Ha) as Hu. pose proof (active_closing s H Ha) as Hc.
  destruct H. split; rewrite ?Hi, ?Hcl, ?Ho, ?Hd, ?Hclo, ?Hac in *; try done.
  destruct Hc as [-> |[-> ?]]; done.
Qed.
Lemma running_active s r : running s = Some r -> active s.
Proof. intros Hr. right. unfold quiet. rewrite Hr. by rewrite andb_false_r. Qed.
Lemma admitted_active s : Nat.eqb (admitted s) 0 = false -> active s.
Proof. intros Ha. right. unfold quiet. by rewrite Ha. Qed.
Lemma streams_active s : streams s <> [] -> active s.
Proof. intros Hs. right. unfold quiet. rewrite (bool_decide_false (streams s = [])) by done. by rewrite andb_false_r. Qed.
Lemma bodies_active s : bodies s <> [] -> active s.
Proof. intros Hs. right. unfold quiet. rewrite (bool_decide_false (bodies s = [])) by done. by rewrite andb_false_r. Qed.

Lemma markLost_same e id s :
  let s' := markLost e id s in
  info s' = info s /\ connection s' = connection s /\ cleanup s' = cleanup s /\ accepting s' = accepting s /\
  admitted s' = admitted s /\ running s' = running s /\ streams s' = streams s /\ bodies s' = bodies s /\
  closing s' = closing s /\ opened s' = opened s /\ deleted s' = deleted s /\ outcomes s' = outcomes s.
Proof. unfold markLost. by destruct (_ && _). Qed.
Lemma applyRevision_same value id s s' :
  applyRevision value id s = Ok s' ->
  contextId (info s') = contextId (info s) /\ revision (info s) <= revision (info s') /\
  s' = with_info (info s') (connection s) s.
Proof.
  unfold applyRevision. destruct (negb _); [intros [= <-]; by destruct s|].
  destruct (is_none _ || (value <? revision (info s))) eqn:E; [done|]. intros [= <-]. cbn.
  apply orb_false_elim in E as [_ ?%Z.ltb_ge]. done.
Qed.

(** What an operation changes besides the contexts. *)
Definition work (s s' : Session) : Prop :=
  contextId (info s') = contextId (info s) /\ revision (info s) <= revision (info s') /\
  connection s' = connection s /\ cleanup s' = cleanup s /\ opened s' = opened s /\ deleted s' = deleted s /\
  closing s' = closing s /\ accepting s' = accepting s.
#[local] Instance work_preorder : PreOrder work.
Proof.
  split; [intros s; unfold work; split_and!; done || lia|].
  intros s t u (A1 & A2 & A3 & A4 & A5 & A6 & A7 & A8) (B1 & B2 & B3 & B4 & B5 & B6 & B7 & B8).
  unfold work. split_and!; congruence || lia.
Qed.
Lemma work_with_work l a r st b out s : work s (with_work l a r st b out s).
Proof. unfold work. split_and!; done || lia. Qed.
Lemma work_markLost e id s : work s (markLost e id s).
Proof. unfold markLost. destruct (_ && _); [apply work_with_work | reflexivity]. Qed.
Lemma work_fails e id s : work s (fails e id s).
Proof. unfold fails. etrans; [apply work_markLost | apply work_with_work]. Qed.
Lemma work_revision value id s s' : applyRevision value id s = Ok s' -> work s s'.
Proof. intros (H1 & H2 & ->)%applyRevision_same. cbn in *. unfold work. split_and!; done. Qed.
Lemma idle_job s : running s = None -> job_ok s.
Proof. unfold job_ok. by intros ->. Qed.
Lemma ok_works s s' : session_ok s -> active s -> work s s' -> job_ok s' -> session_ok s'.
Proof. intros H Ha (? & ? & ? & ? & ? & ? & ? & ?). by apply (ok_work s). Qed.

(** ** Every step keeps it *)

Lemma fails_ok e id s : session_ok s -> active s -> session_ok (fails e id s).
Proof. intros H Ha. apply (ok_works s); [done|done|apply work_fails|by apply idle_job]. Qed.
Lemma plain_job j id s : match j with RebindImport _ _ | RebindRollback _ _ | RebindRemove _ => False | _ => True end ->
  job_ok (awaits j id s).
Proof. by destruct j. Qed.
Lemma prepare_plain op s j :
  prepare parse_url caps partition op s = Ok j ->
  match j with RebindImport _ _ | RebindRollback _ _ | RebindRemove _ => False | _ => True end.
Proof.
  destruct op; unfold prepare.
  - destruct (cookies_request _ _); by intros [= <-].
  - destruct (_ || _); [done|]. destruct (cookies_request _ _); by intros [= <-].
  - destruct (cookies_request _ _); by intros [= <-].
  - destruct (negb _); [done|]. destruct (cookies_request _ _); by intros [= <-].
  - destruct (validateConnection _ _ _); [|done]. destruct (cookies_request _ _); by intros [= <-].
Qed.
Lemma begins_ok op aborted s :
  session_ok s -> admitted s <> 0%nat -> session_ok (begins parse_url caps partition op aborted s).
Proof.
  intros H Hadm. assert (active s) as Ha by (apply admitted_active; by apply Nat.eqb_neq).
  unfold begins. set (s1 := with_work _ _ _ _ _ _ _).
  assert (work s s1) as Hw by apply work_with_work.
  assert (forall e id, session_ok (fails e id s1)) as Hfail.
  { intros e id. apply (ok_works s); [done|done|etrans; [exact Hw|apply work_fails]|by apply idle_job]. }
  destruct (lost s1); [apply Hfail|]. destruct aborted; [apply Hfail|].
  destruct (prepare parse_url caps partition op s1) as [j|e] eqn:Ep; [|apply Hfail].
  apply (ok_works s); [done|done|etrans; [exact Hw|apply work_with_work]|]. apply plain_job. by eapply prepare_plain.
Qed.

(** Removing a context that is not in use. *)
Lemma removeContext_facts id r s s' res :
  removeContext id r s = (s', res) ->
  info s' = info s /\ connection s' = connection s /\ opened s' = opened s /\ running s' = running s /\
  closing s' = closing s /\ accepting s' = accepting s /\ quiet s' = quiet s /\ lost s' = lost s /\ outcomes s' = outcomes s /\
  ((res = Ok tt /\ cleanup s' = set_remove id (cleanup s) /\ deleted s' = set_add id (deleted s)) \/
   (exists e, res = Throw e /\ cleanup s' = set_add id (cleanup s) /\ deleted s' = deleted s)).
Proof.
  unfold removeContext. intros H.
  destruct r as [[]|e]; [..|destruct (is_code CONTEXT_NOT_FOUND e)]; injection H as <- <-; split_and!; try done;
    first [by left | right; by eexists].
Qed.
Lemma removed_sets id r s s' res :
  session_ok s -> removeContext id r s = (s', res) -> id ∈ opened s ->
  (forall x, x ∈ opened s -> x ∈ deleted s' \/ x ∈ cleanup s') /\
  (forall x, x ∈ cleanup s' -> x ∈ opened s /\ (x <> id \/ exists e, res = Throw e) /\ (x <> id -> x ∈ cleanup s)) /\
  (forall x, x ∈ deleted s' -> x ∈ opened s /\ (x <> id -> x ∈ deleted s)).
Proof.
  intros [] Hr Hid. destruct (removeContext_facts _ _ _ _ _ Hr) as (_ & _ & _ & _ & _ & _ & _ & _ & _ & Hres).
  split_and!; intros x; [intros Hx; destruct (ok_owned0 x Hx)|..]; destruct Hres as [(-> & Ec & Ed)|(e & -> & Ec & Ed)];
    rewrite ?Ec, ?Ed, ?elem_set_add, ?elem_set_remove; destruct (decide (x = id)); naive_solver.
Qed.
Lemma removed_ok id r s s' s'' res :
  session_ok s -> active s -> removeContext id r s = (s', res) -> id ∈ opened s -> id <> contextId (info s) ->
  work s' s'' -> running s'' = None -> session_ok s''.
Proof.
  intros H Ha Hr Hid Hne (Wi & _ & _ & Wcl & Wo & Wd & Wclo & Wac) Hrun.
  pose proof (active_using s H Ha) as Hu. pose proof (active_closing s H Ha) as Hc.
  destruct (removeContext_facts _ _ _ _ _ Hr) as (Hi & _ & Ho & _ & Hclo & Hac & _).
  destruct (removed_sets _ _ _ _ _ H Hr Hid) as (Rown & Rcl & Rd).
  rewrite Hi in Wi. rewrite Ho in Wo. rewrite Hclo in Wclo. rewrite Hac in Wac. destruct H.
  split; rewrite ?Wi, ?Wo, ?Wcl, ?Wd, ?Wclo, ?Wac; try done.
  - apply Rcl.
  - apply Rd.
  - by apply idle_job.
  - intros Hd. exfalso. apply Hu. apply Rd; [done|congruence].
  - by destruct Hc as [-> |[-> ->]].
Qed.
(** Contexts that join the cleanup set. *)
Lemma added_ok id s s' :
  session_ok s -> active s -> id ∈ opened s' -> info s' = info s -> cleanup s' = set_add id (cleanup s) ->
  (opened s' = opened s \/ opened s' = opened s ++ [id]) ->
  deleted s' = deleted s -> closing s' = closing s -> accepting s' = accepting s -> job_ok s' -> session_ok s'.
Proof.
  intros H Ha Hid Hi Hcl Ho Hd Hclo Hac Hj. pose proof (active_using s H Ha) as Hu. pose proof (active_closing s H Ha) as Hc.
  assert (forall x, x ∈ opened s' -> x ∈ opened s \/ x = id) as Hsub by (destruct Ho as [-> | ->]; set_solver).
  assert (forall x, x ∈ opened s -> x ∈ opened s') as Hsup by (destruct Ho as [-> | ->]; set_solver).
  destruct H. split; rewrite ?Hi, ?Hd, ?Hclo, ?Hac; try done.
  - by apply Hsup.
  - intros x Hx. rewrite Hcl, elem_set_add. destruct (Hsub x Hx) as [Hx'|]; [destruct (ok_owned0 x Hx')|]; tauto.
  - intros x. rewrite Hcl, elem_set_add. intros [->|Hx]; auto.
  - intros x Hx. auto.
  - by destruct Hc as [-> |[-> ->]].
Qed.

Lemma ends_ok o s s' : session_ok s -> active s -> work s s' -> session_ok (ends o s').
Proof. intros H Ha Hw. apply (ok_works s); [done|done|etrans; [exact Hw|apply work_with_work]|by apply idle_job]. Qed.
Lemma awaits_ok j id s s' :
  session_ok s -> active s -> work s s' ->
  match j with RebindImport _ _ | RebindRollback _ _ | RebindRemove _ => False | _ => True end ->
  session_ok (awaits j id s').
Proof.
  intros H Ha Hw Hj. apply (ok_works s); [done|done|etrans; [exact Hw|apply work_with_work]|by apply plain_job].
Qed.
Lemma fails_work_ok e id s s' : session_ok s -> active s -> work s s' -> session_ok (fails e id s').
Proof. intros H Ha Hw. apply (ok_works s); [done|done|etrans; [exact Hw|apply work_fails]|by apply idle_job]. Qed.

(** What the replies change. *)
Lemma export_reply_work reply s s' snapshot : export_reply reply s = Ok (s', snapshot) -> work s s'.
Proof.
  unfold export_reply. destruct (r_snapshot reply); [|done]. destruct (negb _); [done|].
  destruct (applyRevision _ _ s) as [s2|] eqn:E; [|done]. intros [= <- _]. by eapply work_revision.
Qed.
Lemma change_reply_work expected r s s' : change_reply expected r s = Ok s' -> work s s'.
Proof.
  unfold change_reply. destruct r as [v|]; [|done]. cbn [result_bind]. destruct (cookies_reply v) as [reply|]; [|done].
  cbn [result_bind]. destruct (changed_reply expected reply); [|done]. cbn [result_bind]. apply work_revision.
Qed.
Lemma exchange_work current x s s' : exchange_accepted managed current x s = Ok s' -> work s s'.
Proof.
  unfold exchange_accepted. destruct (_ || _); [done|].
  destruct (x_cookieRevision x); [apply work_revision | by intros [= <-]].
Qed.

(** A staged context is in the cleanup set before and after a rollback begins. *)
Lemma rolls_back_ok staged e id s :
  session_ok s -> active s -> staged ∈ opened s -> staged <> contextId (info s) -> session_ok (rolls_back staged e id s).
Proof. intros H Ha Hin Hne. apply (added_ok staged s); try done. by left. Qed.
(** The new context is remembered, then it is given its cookies. *)
Lemma staged_ok s (staged : ContextInfo) next snapshot caps' id :
  session_ok s -> running s = Some (RebindOpen next snapshot caps', id) -> contextId staged ∉ opened s ->
  let s1 := with_cleanup (set_add (contextId staged) (cleanup s)) (opened s ++ [contextId staged]) (deleted s) s in
  session_ok (match cookies_request partition (import_command snapshot (revision staged)) with
              | Ok _ => awaits (RebindImport next staged) id s1
              | Throw e => rolls_back (contextId staged) e id s1
              end).
Proof.
  intros H Hrun Hfresh s1. assert (active s) as Ha by by eapply running_active.
  assert (contextId staged <> contextId (info s)) as Hne by (intros E; apply Hfresh; rewrite E; by apply ok_current).
  assert (contextId staged ∈ opened s1) as Hin by (apply elem_of_app; right; by apply list_elem_of_singleton).
  assert (session_ok s1) as H1.
  { apply (added_ok (contextId staged) s); try done; [by right|]. unfold job_ok. cbn. by rewrite Hrun. }
  assert (active s1) as Ha1 by by apply (running_active s1 _ Hrun).
  destruct (cookies_request _ _); [|by apply rolls_back_ok].
  apply (ok_works s1); [done|done|apply work_with_work|]. cbn. split_and!; [done..|].
  intros Hd. by apply Hfresh, (ok_deleted s).
Qed.

Lemma cutover_ok next staged rev id s :
  session_ok s -> running s = Some (RebindImport next staged, id) ->
  session_ok (awaits (RebindRemove (contextId (info s))) id (cutover next staged rev s)).
Proof.
  intros H Hrun. assert (active s) as Ha by by eapply running_active.
  pose proof (active_closing s H Ha) as Hc. pose proof (ok_job s H) as Hj. unfold job_ok in Hj. rewrite Hrun in Hj.
  destruct Hj as (Hin & Hne & Hd). destruct H. split; cbn; try done.
  - intros x Hx. rewrite elem_set_add. destruct (ok_owned0 x Hx); tauto.
  - intros x. rewrite elem_set_add. intros [->|]; auto.
  - by destruct Hc as [-> |[-> ?]].
Qed.
Lemma answers_ok r aborted s :
  session_ok s -> legal s (Answers r aborted) -> session_ok (answers parse_url partition managed allowedOrigins ttlMs r aborted s).
Proof.
  intros H Hlegal. unfold answers. destruct (running s) as [[j id]|] eqn:Hrun; [|done].
  assert (active s) as Ha by by eapply running_active.
  assert (forall e, session_ok (fails e id s)) as Hfail by (intros; by apply fails_ok).
  pose proof (ok_job s H) as Hjob. unfold job_ok in Hjob. rewrite Hrun in Hjob.
  destruct j as [|expected| |expected|next|next snapshot|next snapshot caps'|next staged|staged e|previous|n]; [..|done].
  - destruct r as [v|]; [|apply Hfail]. cbn [result_bind]. destruct (cookies_reply v) as [reply|]; [|apply Hfail]. cbn [result_bind].
    destruct (r_cookies reply); [|apply Hfail]. destruct (negb _); [apply Hfail|].
    destruct (applyRevision _ _ s) as [s'|] eqn:E; [|apply Hfail]. cbn [result_bind].
    apply (ends_ok _ s); [done..|by eapply work_revision].
  - destruct (change_reply expected r s) as [s'|] eqn:E; [|apply Hfail]. apply (ends_ok _ s); [done..|by eapply change_reply_work].
  - destruct r as [v|]; [|apply Hfail]. cbn [result_bind]. destruct (cookies_reply v) as [reply|]; [|apply Hfail]. cbn [result_bind].
    destruct (export_reply reply s) as [[s' snapshot]|] eqn:E; [|apply Hfail].
    apply (ends_ok _ s); [done..|by eapply export_reply_work].
  - destruct (change_reply expected r s) as [s'|] eqn:E; [|apply Hfail]. apply (ends_ok _ s); [done..|by eapply change_reply_work].
  - destruct r as [v|]; [|apply Hfail]. cbn [result_bind]. destruct (cookies_reply v) as [reply|]; [|apply Hfail]. cbn [result_bind].
    destruct (export_reply reply s) as [[s' snapshot]|] eqn:E; [|apply Hfail]. apply export_reply_work in E.
    destruct (validatePartition partition); [by apply (awaits_ok _ _ s) | by apply (fails_work_ok _ _ s)].
  - destruct r as [caps'|]; [|apply Hfail]. cbn [result_bind].
    destruct (open_request _ _ _ _ _ _ _); [|apply Hfail]. by apply (awaits_ok _ _ s).
  - destruct r as [v|]; [|apply Hfail]. cbn [result_bind]. destruct (Sessions.open_reply _ _ _ _ _) as [staged|] eqn:E; [|apply Hfail].
    eapply staged_ok; [done..|]. unfold legal in Hlegal. rewrite Hrun in Hlegal. by apply Hlegal.
  - destruct Hjob as (Hin & Hne & _).
    match goal with |- session_ok (match ?m with _ => _ end) => destruct m as [rev|] end.
    + by apply cutover_ok.
    + by apply rolls_back_ok.
  - destruct Hjob as [Hin Hne]. destruct (removeContext staged r s) as [s' res] eqn:E. cbn [fst].
    eapply removed_ok; [done..|apply work_fails|done].
  - destruct Hjob as [Hin Hne]. destruct (removeContext previous r s) as [s' [[]|e]] eqn:E;
      (eapply removed_ok; [done..|apply work_with_work|done]).
Qed.

(** Work of an active session that leaves the operation in place, or a plain one. *)
Definition plain (r : option (job * jsstr)) (s : Session) : Prop :=
  r = running s \/ r = None \/ exists n id, r = Some (Streaming n, id).
Lemma working_ok l a r st b out s s' :
  session_ok s -> active s -> work s s' -> plain r s -> session_ok (with_work l a r st b out s').
Proof.
  intros H Ha Hw Hr. apply (ok_works s); [done|done|etrans; [exact Hw|apply work_with_work]|].
  destruct Hw as (Hi & _ & _ & _ & Ho & Hd & _). pose proof (ok_job s H) as Hj. unfold job_ok in *. cbn.
  destruct Hr as [-> |[-> |(n & id & ->)]]; [|done|done].
  by rewrite Ho, Hd, Hi.
Qed.
Lemma find_nonempty {A} (f : A -> bool) l x : List.find f l = Some x -> l <> [].
Proof. by destruct l. Qed.
Lemma freed_plain n s :
  plain (match running s with
         | Some (Streaming m, _) => if Nat.eqb n m then None else running s
         | r => r
         end) s.
Proof.
  unfold plain. destruct (running s) as [[[] ?]|]; try (by left).
  destruct (Nat.eqb _ _); [right; by left | by left].
Qed.

Lemma stream_begins_ok n headers aborted s :
  session_ok s -> admitted s <> 0%nat -> session_ok (stream_begins managed n headers aborted s).
Proof.
  intros H Hadm. assert (active s) as Ha by (apply admitted_active; by apply Nat.eqb_neq).
  unfold stream_begins. set (s1 := with_work _ _ _ _ _ _ _).
  assert (work s s1) as Hw by apply work_with_work.
  assert (forall l a r st b out, plain r s -> session_ok (with_work l a r st b out s1)) as Hok
    by (intros; by apply (working_ok _ _ _ _ _ _ s)).
  assert (plain (running s) s) as Hp by by left.
  destruct (lost s1); [by apply Hok|]. destruct aborted; [by apply Hok|].
  destruct (session_headers _ _ _); [|by apply Hok]. apply Hok. destruct managed; [|by left]. right. right. by do 2 eexists.
Qed.
Lemma stream_answers_ok n r s : session_ok s -> session_ok (stream_answers managed n r s).
Proof.
  intros H. unfold stream_answers. destruct (List.find _ (streams s)) as [[m current]|] eqn:Ef; [|done].
  assert (active s) as Ha by by eapply streams_active, find_nonempty.
  destruct (result_bind r _) as [s'|e] eqn:E; [|apply (working_ok _ _ _ _ _ _ s); [done|done|reflexivity|apply freed_plain]].
  apply (working_ok _ _ _ _ _ _ s); [done|done| |apply freed_plain].
  destruct r; [|done]. by eapply exchange_work.
Qed.
Lemma stream_ends_ok n error s : session_ok s -> session_ok (stream_ends n error s).
Proof.
  intros H. unfold stream_ends. destruct (List.find _ (bodies s)) as [[m id]|] eqn:Ef; [|done].
  assert (active s) as Ha by by eapply bodies_active, find_nonempty.
  assert (work s (match error with Some e => markLost e id s | None => s end)) as Hw
    by (destruct error; [apply work_markLost|reflexivity]).
  apply (working_ok _ _ _ _ _ _ s); [done..|]. left. destruct error as [e|]; [|done].
  by destruct (markLost_same e id s) as (_ & _ & _ & _ & _ & -> & _).
Qed.

(** Only the closing changes. *)
Lemma with_closing_ok acc c s :
  session_ok s -> (contextId (info s) ∈ deleted s -> acc = false) ->
  match c with
  | Some Stopping => acc = false
  | Some (Removing pending failed) =>
      acc = false /\ quiet s = true /\ (forall id, id ∈ pending -> id ∈ opened s) /\
      (failed = None -> forall id, id ∈ cleanup s -> id ∈ pending)
  | Some Closed => acc = false /\ quiet s = true /\ cleanup s = []
  | None => True
  end -> session_ok (with_closing acc c s).
Proof.
  intros H Hacc Hc. destruct H. split; try done. intros Hd. destruct (ok_using0 Hd). split; [by apply Hacc | done].
Qed.
Lemma empty_list {A} (l : list A) : (forall x, x ∈ l -> x ∈ []) -> l = [].
Proof. destruct l as [|x l]; [done|]. intros H. exfalso. apply (not_elem_of_nil x), H. by left. Qed.
Lemma settles_close_ok pending failed s :
  session_ok s -> accepting s = false -> quiet s = true -> (forall id, id ∈ pending -> id ∈ opened s) ->
  (failed = None -> forall id, id ∈ cleanup s -> id ∈ pending) -> session_ok (settles_close pending failed s).
Proof.
  intros H Hacc Hq Hp Hcl. unfold settles_close.
  destruct pending; [destruct failed|]; apply with_closing_ok; try done.
  split_and!; [done..|]. apply empty_list. by apply Hcl.
Qed.
Lemma close_begins_ok s : session_ok s -> session_ok (close_begins s).
Proof. intros H. unfold close_begins. destruct (closing s) as [c|]; [done|]. by apply with_closing_ok. Qed.
Lemma close_removes_ok aborted s : session_ok s -> session_ok (close_removes aborted s).
Proof.
  intros H. unfold close_removes. pose proof (ok_closing s H) as Hc. destruct (closing s) as [[| |]|]; try done.
  destruct (quiet s) eqn:Hq; [|done]. cbn [negb]. destruct aborted; [by apply with_closing_ok|].
  apply settles_close_ok; try done. apply (ok_cleanup s H).
Qed.
Lemma close_removed_ok id r s : session_ok s -> session_ok (close_removed id r s).
Proof.
  intros H. unfold close_removed. pose proof (ok_closing s H) as Hc.
  destruct (closing s) as [[|pending failed|]|] eqn:Eclo; try done. destruct Hc as (Hacc & Hq & Hp & Hcl).
  destruct (js_includes pending id) eqn:Ein; [|done]. apply bool_decide_eq_true in Ein. cbn [negb].
  destruct (removeContext id r s) as [s' res] eqn:Er.
  destruct (removeContext_facts _ _ _ _ _ Er) as (Hi & _ & Ho & Hrun & _ & Hac & Hq' & _).
  destruct (removed_sets _ _ _ _ _ H Er (Hp _ Ein)) as (Rown & Rcl & Rd).
  set (s0 := with_closing (accepting s') None s').
  change (session_ok (settles_close (set_remove id pending)
    (match failed, res with Some e, _ => Some e | None, Throw e => Some e | None, Ok _ => None end) s0)).
  assert (session_ok s0) as H0.
  { split; cbn; rewrite ?Hi, ?Ho, ?Hac; [apply (ok_current s H)|done|apply Rcl|apply Rd| | |done].
    - apply idle_job. cbn. rewrite Hrun. unfold quiet in Hq. by destruct (running s); rewrite ?andb_false_r in Hq.
    - intros _. by rewrite <- Hq' in Hq. }
  apply settles_close_ok; [done|cbn; congruence|cbn; by rewrite <- Hq' in Hq| |].
  - intros x [_ Hx]%elem_set_remove. cbn. rewrite Ho. by apply Hp.
  - intros Hf x Hx. destruct (Rcl x Hx) as (_ & [Hne|[e ->]] & Hin); [|by destruct failed].
    apply elem_set_remove. split; [done|]. destruct failed; [done|]. by apply Hcl, Hin.
Qed.

Lemma step_ok s ev : session_ok s -> legal s ev -> session_ok (step s ev).
Proof.
  intros H Hlegal. destruct ev as [|op aborted|r aborted|n headers aborted|n r|n error| | |aborted|id r]; cbn [session_step].
  - destruct (accepting s && negb (lost s)) eqn:E; [|done]. apply andb_prop in E as [E _].
    apply (working_ok _ _ _ _ _ _ s); [done|by left|done|by left].
  - destruct (_ && is_none (running s)) eqn:E; [|done]. reflect_bools. by apply begins_ok, Nat.eqb_neq.
  - by apply answers_ok.
  - destruct (_ && negb (existsb _ (bodies s))) eqn:E; [|done]. reflect_bools. by apply stream_begins_ok, Nat.eqb_neq.
  - by apply stream_answers_ok.
  - by apply stream_ends_ok.
  - apply with_closing_ok; [done..|]. pose proof (ok_closing s H) as Hc. destruct (closing s) as [[|p f|]|]; [done| | |done];
      by destruct Hc as (_ & Hc).
  - by apply close_begins_ok.
  - by apply close_removes_ok.
  - by apply close_removed_ok.
Qed.
Lemma reachable_ok s : reachable s -> session_ok s.
Proof.
  induction 1 as [first connection|s ev _ IH Hlegal]; [|by apply step_ok].
  split; cbn; try done.
  - by left.
  - intros id Hid. by right.
  - intros id Hid. by apply not_elem_of_nil in Hid.
  - intros Hid. by apply not_elem_of_nil in Hid.
Qed.

(** ** What one step changes *)

(** The frame of a step outside of the cut-over. *)
Definition kept (s s' : Session) : Prop :=
  contextId (info s') = contextId (info s) /\ connection s' = connection s /\ revision (info s) <= revision (info s').
#[local] Instance kept_preorder : PreOrder kept.
Proof.
  split; [intros s; unfold kept; split_and!; done || lia|].
  intros s t u (A1 & A2 & A3) (B1 & B2 & B3). unfold kept. split_and!; congruence || lia.
Qed.
Lemma work_kept s s' : work s s' -> kept s s'.
Proof. by intros (? & ? & ? & _). Qed.
Lemma same_info_kept s s' : info s' = info s -> connection s' = connection s -> kept s s'.
Proof. intros Hi Hc. unfold kept. rewrite Hi, Hc. split_and!; done || lia. Qed.
Lemma removeContext_kept id r s : kept s (removeContext id r s).1.
Proof.
  destruct (removeContext id r s) as [s' res] eqn:E. by apply same_info_kept; destruct (removeContext_facts _ _ _ _ _ E) as (? & ? & _).
Qed.
Lemma fails_kept e id s s' : kept s s' -> kept s (fails e id s').
Proof. intros H. etrans; [exact H|apply work_kept, work_fails]. Qed.
Lemma settles_close_kept p f s : kept s (settles_close p f s).
Proof. unfold settles_close. destruct p; [destruct f|]; by apply same_info_kept. Qed.

(** The step that exchanges the context of the session. *)
Definition cuts_over (s s' : Session) : Prop :=
  exists next staged id,
    running s = Some (RebindImport next staged, id) /\
    s' = awaits (RebindRemove (contextId (info s))) id (cutover next staged (revision staged + 1) s).
Lemma changed_reply_next expected reply rev : changed_reply expected reply = Ok rev -> rev = expected + 1.
Proof.
  unfold changed_reply. destruct (r_revision reply =? expected + 1) eqn:E; cbn [negb orb]; [|done].
  apply Z.eqb_eq in E. destruct (_ || _); [done|]. by intros [= <-].
Qed.
Lemma answers_kept r aborted s :
  let s' := answers parse_url partition managed allowedOrigins ttlMs r aborted s in kept s s' \/ cuts_over s s'.
Proof.
  unfold answers. destruct (running s) as [[j id]|] eqn:Hrun; [|by left].
  assert (forall e, kept s (fails e id s)) as Hfail by (intros; by apply fails_kept).
  destruct j as [|expected| |expected|next|next snapshot|next snapshot caps'|next staged|staged e|previous|n];
    [left..| |left|left|by left].
  - destruct r as [v|]; [|apply Hfail]. cbn [result_bind]. destruct (cookies_reply v) as [reply|]; [|apply Hfail].
    cbn [result_bind]. destruct (r_cookies reply); [|apply Hfail]. destruct (negb _); [apply Hfail|].
    destruct (applyRevision _ _ s) as [s'|] eqn:E; [|apply Hfail]. exact (work_kept _ _ (work_revision _ _ _ _ E)).
  - destruct (change_reply expected r s) as [s'|] eqn:E; [|apply Hfail]. exact (work_kept _ _ (change_reply_work _ _ _ _ E)).
  - destruct r as [v|]; [|apply Hfail]. cbn [result_bind]. destruct (cookies_reply v) as [reply|]; [|apply Hfail].
    cbn [result_bind]. destruct (export_reply reply s) as [[s' snapshot]|] eqn:E; [|apply Hfail].
    exact (work_kept _ _ (export_reply_work _ _ _ _ E)).
  - destruct (change_reply expected r s) as [s'|] eqn:E; [|apply Hfail]. exact (work_kept _ _ (change_reply_work _ _ _ _ E)).
  - destruct r as [v|]; [|apply Hfail]. cbn [result_bind]. destruct (cookies_reply v) as [reply|]; [|apply Hfail].
    cbn [result_bind]. destruct (export_reply reply s) as [[s' snapshot]|] eqn:E; [|apply Hfail].
    apply export_reply_work, work_kept in E. destruct (validatePartition partition); [exact E|by apply fails_kept].
  - destruct r as [caps'|]; [|apply Hfail]. cbn [result_bind].
    destruct (open_request _ _ _ _ _ _ _); [by apply same_info_kept|apply Hfail].
  - destruct r as [v|]; [|apply Hfail]. cbn [result_bind].
    destruct (Sessions.open_reply _ _ _ _ _) as [staged|]; [|apply Hfail].
    destruct (cookies_request _ _); by apply same_info_kept.
  - destruct (let? value := r in _) as [rev|e] eqn:E; [right|by left; apply same_info_kept].
    exists next, staged, id. split; [done|]. destruct r as [v|]; [|done]. cbn [result_bind] in E.
    destruct (cookies_reply v) as [reply|]; [|done]. cbn [result_bind] in E.
    destruct (changed_reply _ reply) as [rev'|] eqn:Ec; [|done]. apply changed_reply_next in Ec as ->.
    cbn [result_bind] in E. destruct aborted; [done|]. by injection E as <-.
  - apply fails_kept, removeContext_kept.
  - pose proof (removeContext_kept previous r s) as Hk. destruct (removeContext previous r s) as [s' [[]|e]]; exact Hk.
Qed.
Lemma stream_answers_kept n r s : kept s (stream_answers managed n r s).
Proof.
  unfold stream_answers. destruct (List.find _ (streams s)) as [[m current]|]; [|reflexivity].
  destruct (result_bind r _) as [s'|e] eqn:E; [|by apply same_info_kept].
  destruct r as [x|]; [|done]. apply exchange_work, work_kept in E. exact E.
Qed.
Lemma close_removed_kept id r s : kept s (close_removed id r s).
Proof.
  unfold close_removed. destruct (closing s) as [[| |]|]; try reflexivity. destruct (negb _); [reflexivity|].
  pose proof (removeContext_kept id r s) as Hk. destruct (removeContext id r s) as [s' res].
  etrans; [exact Hk|apply settles_close_kept].
Qed.
Lemma step_kept s ev : kept s (step s ev) \/ cuts_over s (step s ev).
Proof.
  destruct ev as [|op aborted|r aborted|n headers aborted|n r|n error| | |aborted|id r]; cbn [session_step];
    [left|left|apply answers_kept|left..].
  - destruct (_ && _); by apply same_info_kept.
  - destruct (_ && _); [|reflexivity]. unfold begins. set (s1 := with_work _ _ _ _ _ _ _).
    assert (kept s s1) as Hk by by apply same_info_kept.
    destruct (lost s1); [by apply fails_kept|]. destruct aborted; [by apply fails_kept|].
    destruct (prepare _ _ _ _ _); [exact Hk|by apply fails_kept].
  - destruct (_ && _); [|reflexivity]. unfold stream_begins. set (s1 := with_work _ _ _ _ _ _ _).
    destruct (lost s1); [by apply same_info_kept|]. destruct aborted; [by apply same_info_kept|].
    destruct (session_headers _ _ _); by apply same_info_kept.
  - apply stream_answers_kept.
  - unfold stream_ends. destruct (List.find _ _) as [[m id]|]; [|reflexivity].
    destruct error; [|by apply same_info_kept]. destruct (markLost_same e id s) as (? & ? & _). by apply same_info_kept.
  - by apply same_info_kept.
  - unfold close_begins. destruct (closing s); by apply same_info_kept.
  - unfold close_removes. destruct (closing s) as [[| |]|]; try reflexivity.
    destruct (negb _); [reflexivity|]. destruct aborted; [by apply same_info_kept|apply settles_close_kept].
  - apply close_removed_kept.
Qed.

(** What a rebind that has cut over reports. *)
Definition reports_commit (previous current : jsstr) (o : outcome) : Prop :=
  o = Committed previous current \/ exists e, o = CommittedCleanupPending previous current e.
Lemma step_removing s ev previous id :
  running s = Some (RebindRemove previous, id) -> managed = true ->
  running (step s ev) = running s \/
  exists o, running (step s ev) = None /\ outcomes (step s ev) = outcomes s ++ [o] /\
            reports_commit previous (contextId (info (step s ev))) o.
Proof.
  intros Hrun Hm. destruct ev as [|op aborted|r aborted|n headers aborted|n r|n error| | |aborted|x r]; cbn [session_step];
    [left|left|right|left..].
  - by destruct (_ && _).
  - rewrite Hrun. cbn [is_none]. by rewrite andb_false_r.
  - unfold answers. rewrite Hrun. destruct (removeContext previous r s) as [s' [[]|e]] eqn:E;
      destruct (removeContext_facts _ _ _ _ _ E) as (_ & _ & _ & _ & _ & _ & _ & _ & Hout & _); cbn; rewrite Hout;
      eexists; split_and!; try done; [by left|right; by eexists].
  - rewrite Hm, Hrun. cbn [is_none negb orb]. by rewrite andb_false_r.
  - unfold stream_answers. destruct (List.find _ (streams s)) as [[m current]|]; [|done]. rewrite Hrun.
    by destruct (result_bind r _).
  - unfold stream_ends. destruct (List.find _ _) as [[m y]|]; [|done]. destruct error as [e|]; [|done].
    by destruct (markLost_same e y s) as (_ & _ & _ & _ & _ & ? & _).
  - done.
  - unfold close_begins. by destruct (closing s).
  - unfold close_removes, settles_close. destruct (closing s) as [[| |]|]; try done.
    destruct (negb _); [done|]. destruct aborted; [done|]. by destruct (cleanup s).
  - unfold close_removed, settles_close. destruct (closing s) as [[| |]|]; try done. destruct (negb _); [done|].
    destruct (removeContext x r s) as [s' res] eqn:E. destruct (removeContext_facts _ _ _ _ _ E) as (_ & _ & _ & ? & _).
    destruct (set_remove x pending); [|done]. by destruct failed, res.
Qed.

Lemma import_fails s next staged id e aborted :
  running s = Some (RebindImport next staged, id) ->
  step s (Answers (Throw e) aborted) = rolls_back (contextId staged) e id s.
Proof. intros Hrun. cbn [session_step]. unfold answers. by rewrite Hrun. Qed.
Lemma rollback_ends s staged e id r aborted :
  running s = Some (RebindRollback staged e, id) ->
  step s (Answers r aborted) = fails e id (removeContext staged r s).1.
Proof. intros Hrun. cbn [session_step]. unfold answers. by rewrite Hrun. Qed.

(** ** Properties *)

(** C6: no context is forgotten: in every reachable state a context the session has
    opened is deleted or waits in the cleanup set, the one in use is not deleted while an
    operation may still run, and once a close has succeeded all of them are deleted. *)
Theorem session_owns s :
  reachable s ->
  (forall id, id ∈ opened s -> id ∈ deleted s \/ id ∈ cleanup s) /\
  (accepting s = true \/ quiet s = false -> contextId (info s) ∈ opened s /\ contextId (info s) ∉ deleted s) /\
  (closing s = Some Closed -> forall id, id ∈ opened s -> id ∈ deleted s).
Proof.
  intros H%reachable_ok. split_and!.
  - apply (ok_owned s H).
  - intros Ha. split; [apply (ok_current s H)|by apply active_using].
  - intros Hc id Hid. pose proof (ok_closing s H) as Hclo. rewrite Hc in Hclo. destruct Hclo as (_ & _ & Hempty).
    destruct (ok_owned s H id Hid) as [?|Hin]; [done|]. rewrite Hempty in Hin. by apply not_elem_of_nil in Hin.
Qed.

(** C7: a rebind is atomic.  A step keeps the context and the connection and does not lower
    the revision, or it replaces all three at once by the staged context, its next
    revision and the next connection, with the old context in the cleanup set; and a
    rebind that has cut over can only report that it has committed. *)
Theorem rebind_atomic s ev :
  let s' := step s ev in
  ((contextId (info s') = contextId (info s) /\ connection s' = connection s /\ revision (info s) <= revision (info s')) \/
   exists next staged id,
     running s = Some (RebindImport next staged, id) /\ info s' = set_revision (revision staged + 1) staged /\
     connection s' = next /\ contextId (info s) ∈ cleanup s' /\
     running s' = Some (RebindRemove (contextId (info s)), id)) /\
  (forall previous id, managed = true -> running s = Some (RebindRemove previous, id) ->
   running s' = running s \/
   exists o, running s' = None /\ outcomes s' = outcomes s ++ [o] /\
     (o = Committed previous (contextId (info s')) \/
      exists e, o = CommittedCleanupPending previous (contextId (info s')) e)).
Proof.
  split; [|intros previous id Hm Hrun; by eapply step_removing].
  destruct (step_kept s ev) as [Hk|(next & staged & id & Hrun & Heq)]; [by left|right].
  exists next, staged, id. rewrite Heq. split_and!; try done. apply elem_set_add. by left.
Qed.

(** C36: a staging import that fails because the service has lost the staged context marks
    the session as lost, although the context in use is neither replaced nor deleted. *)
Theorem staging_marks_lost s next staged e r aborted aborted' :
  reachable s -> running s = Some (RebindImport next staged, contextId (info s)) -> code e = CONTEXT_NOT_FOUND ->
  let s' := step (step s (Answers (Throw (ETransport e)) aborted)) (Answers r aborted') in
  lost s' = true /\ running s' = None /\
  contextId (info s') = contextId (info s) /\ contextId (info s') ∉ deleted s'.
Proof.
  intros H%reachable_ok Hrun He. assert (active s) as Ha by by eapply running_active.
  pose proof (active_using s H Ha) as Hu. pose proof (ok_job s H) as Hj. unfold job_ok in Hj. rewrite Hrun in Hj.
  destruct Hj as (Hin & Hne & _). rewrite (import_fails s next staged _ _ _ Hrun).
  set (s1 := rolls_back _ _ _ s). rewrite (rollback_ends s1 (contextId staged) (ETransport e) (contextId (info s))) by done.
  assert (session_ok s1) as H1 by by apply rolls_back_ok.
  destruct (removeContext (contextId staged) r s1) as [s2 res] eqn:Er. cbn [fst].
  destruct (removeContext_facts _ _ _ _ _ Er) as (Hi & _).
  destruct (removed_sets _ _ _ _ _ H1 Er Hin) as (_ & _ & Rd).
  unfold fails, markLost, is_code, js_eqb. rewrite Hi. change (info s1) with (info s).
  rewrite !bool_decide_true by done. cbn. rewrite Hi. split_and!; try done.
  intros Hd. apply Hu. by apply (Rd _ Hd).
Qed.
End invariant.

(** ** A rebind of a demonstration session *)

Definition demo_info (id : jsstr) (rev : Z) : jsval := JObject
  [("contextId", JStr id); ("partition", JStr "p"); ("expiresAtMs", jint 0); ("revision", jint rev);
   ("cookieMode", JStr "managed");
   ("identity", JObject [("tlsProfile", JStr "chrome_131"); ("emulateHeaders", JBool true)])].
Definition demo_service : jsval := JObject
  [("profiles", JArray [JStr "chrome_131"]); ("profileAliases", JObject []);
   ("limits", JObject [("contextMaxIdleTtlMs", jint 8)]);
   ("modes", JObject [("egress", JArray [JStr "direct"]); ("cookies", JArray [JStr "managed"])])].
Definition demo_step : Session -> event -> Session :=
  session_step (fun _ => None) demo_service (JStr "p") true ["https://a.test"] JUndefined.
Definition demo_identity : jsval := JObject [("tlsProfile", JStr "chrome_131"); ("emulateHeaders", JBool true)].
Definition demo_connection : jsval :=
  JObject [("egress", JObject [("mode", JStr "direct")]); ("identity", demo_identity)].
Definition demo_snapshot : jsval := JObject [("partitionKey", JStr "k"); ("cookies", JArray [])].
Definition demo_events : list event :=
  [Call; Begins (RebindIdentity demo_identity) None;
   Answers (Ok (JObject [("revision", jint 4); ("snapshot", demo_snapshot)])) false;
   Answers (Ok demo_service) false;
   Answers (Ok (demo_info "b" 0)) false].
Definition demo_new : Session := newSession {| contextId := "a"; revision := 3; details := JUndefined |} demo_connection.
Definition demo_rebinding : Session := foldl demo_step demo_new demo_events.

Lemma demo_rebinding_reachable :
  reachable (fun _ => None) demo_service (JStr "p") true ["https://a.test"] JUndefined demo_rebinding.
Proof.
  apply reachable_run; [apply reachable_new|]. repeat (split; [try exact I|]); [|exact I].
  assert (running (foldl demo_step demo_new (take 4 demo_events)) =
          Some (RebindOpen demo_connection demo_snapshot demo_service, "a"))
    as Hrun by (vm_compute; reflexivity).
  assert (opened (foldl demo_step demo_new (take 4 demo_events)) = ["a"]) as Ho by (vm_compute; reflexivity).
  cbn [foldl take demo_events] in Hrun, Ho. unfold demo_step in Hrun, Ho. unfold legal. rewrite Hrun, Ho.
  assert (open_reply (JStr "p") true demo_service demo_connection (demo_info "b" 0) =
          Ok {| contextId := "b"; revision := 0; details := demo_info "b" 0 |}) as -> by (vm_compute; reflexivity).
  intros staged [= <-]. rewrite list_elem_of_singleton. cbn. by intros [=].
Qed.

Lemma session_owns_witness :
  (forall id, id ∈ opened demo_rebinding -> id ∈ deleted demo_rebinding \/ id ∈ cleanup demo_rebinding) /\
  (accepting demo_rebinding = true \/ quiet demo_rebinding = false ->
   contextId (info demo_rebinding) ∈ opened demo_rebinding /\ contextId (info demo_rebinding) ∉ deleted demo_rebinding) /\
  (closing demo_rebinding = Some Closed -> forall id, id ∈ opened demo_rebinding -> id ∈ deleted demo_rebinding).
Proof. apply (session_owns _ _ _ _ _ _ demo_rebinding demo_rebinding_reachable). Defined.

Lemma staging_marks_lost_witness :
  let s := demo_step (demo_step demo_rebinding (Answers (Throw (ETransport (localError CONTEXT_NOT_FOUND None))) false))
             (Answers (Ok JUndefined) false) in
  lost s = true /\ running s = None /\ contextId (info s) = contextId (info demo_rebinding) /\
  contextId (info s) ∉ deleted s.
Proof.
  eapply (staging_marks_lost _ _ _ _ _ _ demo_rebinding demo_connection
    {| contextId := "b"; revision := 0; details := demo_info "b" 0 |} (localError CONTEXT_NOT_FOUND None));
    [apply demo_rebinding_reachable|vm_compute; reflexivity|reflexivity].
Defined.

(** The import of the staged cookies is accepted. *)
Definition demo_imported : event := Answers (Ok (JObject [("revision", jint 1)])) false.
Lemma rebind_atomic_witness :
  let s := demo_step demo_rebinding demo_imported in
  let s' := demo_step s (Answers (Throw ETypeError) false) in
  running s = Some (RebindRemove "a", "a") /\
  (running s' = running s \/
   exists o, running s' = None /\ outcomes s' = outcomes s ++ [o] /\
     (o = Committed "a" (contextId (info s')) \/ exists e, o = CommittedCleanupPending "a" (contextId (info s')) e)).
Proof.
  split; [vm_compute; reflexivity|].
  apply (proj2 (rebind_atomic _ _ _ _ _ _ (demo_step demo_rebinding demo_imported) (Answers (Throw ETypeError) false)) "a" "a");
    [reflexivity|vm_compute; reflexivity].
Defined.
