(* ===== verification/Observation.v ===== *)
(** * Observers of an exchange (packages/typescript/src/observation.ts)

    What observers are given, the references they may supply, and the wrapping of the
    operations of an exchange by their [run] hooks.  An observer is code of the caller:
    a function of the parameters, which may throw at every point where it runs. *)

From S2P Require Import Prelude Js Errors.

Local Open Scope js_scope.

(** ** References *)

Definition MAX_REFERENCES : Z := 16.
(** [/^[A-Za-z][A-Za-z0-9_.-]{0,63}$/] *)
Definition referenceKey (s : jsstr) : bool :=
  match units s with
  | c :: rest => (is_upper c || is_lower c) && (zlength rest <=? 63) &&
                 forallb (fun c => is_alnum c || one_of "_.-" c) rest
  | [] => false
  end.
(** [/\p{Cc}/u] *)
Definition controlCharacter (s : jsstr) : bool := existsb (fun c => between 0 31 c || between 127 159 c) (units s).
Definition reference_entry (entry : jsstr * jsval) : option (jsstr * jsstr) :=
  match entry.2 with
  | JStr text =>
      if negb (referenceKey entry.1) || (js_length text =? 0) || (js_length text >? 256) || controlCharacter text
      then None else Some (entry.1, text)
  | _ => None
  end.
Definition copyReferences (value : jsval) : option ExchangeReferences :=
  match value with
  | JObject entries =>
      if (zlength entries =? 0) || (zlength entries >? MAX_REFERENCES) then None else mapM reference_entry entries
  | _ => None
  end.
(** [{ ...references, ...supplied }] *)
Definition merge (references : option ExchangeReferences) (supplied : ExchangeReferences) : ExchangeReferences :=
  foldl (fun acc entry => assoc_set entry.1 entry.2 acc) (default [] references) supplied.

(** ** What an observer is shown *)

Section observers.
(** Parses a proxy URL, clears its user and password, and prints it. *)
Context (without_credentials : jsval -> option jsstr).

Definition is_nullish (v : jsval) : bool := is_undefined v || is_null v.
Definition snapshot_of (start : jsval) : result exn jsval :=
  let connection := get start "connection" in
  if is_nullish connection then Ok start
  else
    let egress := get connection "egress" in
    if is_nullish egress then Throw ETypeError
    else if is_str (get egress "mode") "proxy" then
      match without_credentials (get egress "url") with
      | Some url =>
          Ok (spread_set start "connection" (spread_set connection "egress" (spread_set egress "url" (JStr url))))
      | None => Throw ETypeError
      end
    else Ok start.

(** What an observer returns: an observation, whose hooks are numbered by [o_id] and whose
    properties are read with a getter that may throw. *)
Record ExchangeObservation := {
  o_id : nat;
  o_references : result exn jsval;
  o_run : option nat;        (* how often the hook calls its continuation before it returns or throws *)
}.
Context (observer : nat -> jsval -> result exn (option ExchangeObservation)).

Record Observation := {
  observations : list ExchangeObservation;
  finished : bool;
  references : option ExchangeReferences;
}.
(** [new Set(observers)], without the missing ones. *)
Fixpoint distinct_observers (seen : list nat) (l : list (option nat)) : list nat :=
  match l with
  | [] => []
  | None :: l => distinct_observers seen l
  | Some o :: l => if bool_decide (o ∈ seen) then distinct_observers seen l else o :: distinct_observers (o :: seen) l
  end.
(** One round of the loop of the constructor; everything it throws is caught. *)
Definition observe (start : jsval) (s : Observation) (o : nat) : Observation :=
  match snapshot_of start with
  | Throw _ => s
  | Ok snapshot =>
      match observer o snapshot with
      | Throw _ | Ok None => s
      | Ok (Some observation) =>
          let refs :=
            match o_references observation with
            | Throw _ => references s
            | Ok value =>
                match copyReferences value with
                | Some supplied =>
                    let merged := merge (references s) supplied in
                    if zlength merged <=? MAX_REFERENCES then Some merged else references s
                | None => references s
                end
            end in
          {| observations := observations s ++ [observation]; finished := false; references := refs |}
      end
  end.
Definition newObservation (start : jsval) (observers : list (option nat)) : Observation :=
  foldl (observe start) {| observations := []; finished := false; references := None |} (distinct_observers [] observers).
End observers.

(** ** Running an operation *)

(** The continuation of a hook, [() => result ??= invoke(index + 1)]: the state is its
    [result] and the number of operations begun; a promise is named by the operation it
    is the promise of.  A hook calls the continuation it was given, not one of another
    hook. *)
Definition once (next : nat -> nat * nat) (st : option nat * nat) : option nat * nat :=
  match st with
  | (Some p, begun) => (Some p, begun)
  | (None, begun) => let '(p, begun) := next begun in (Some p, begun)
  end.
Fixpoint invoke (observations : list ExchangeObservation) (begun : nat) : nat * nat :=
  match observations with
  | [] => (begun, S begun)
  | observation :: rest =>
      let hooked := match o_run observation with
                    | Some calls => Nat.iter calls (once (invoke rest)) (None, begun)
                    | None => (None, begun)
                    end in
      match once (invoke rest) hooked with
      | (Some p, begun) => (p, begun)
      | (None, begun) => (begun, begun)
      end
  end.
Definition run (s : Observation) (begun : nat) : nat * nat := invoke (observations s) begun.

(** ** Notifications *)

Inductive note :=
| RequestChunk (chunk : list Z)
| ResponseHeaders (metadata : jsval)
| ResponseChunk (chunk : list Z)
| Finish (outcome : jsval).
(** Each hook of the observations is called with the note, whatever the others do. *)
Definition notify (n : note) (s : Observation) : Observation * list (nat * note) :=
  (s, map (fun o => (o_id o, n)) (observations s)).
Definition finish (outcome : jsval) (s : Observation) : Observation * list (nat * note) :=
  if finished s then (s, [])
  else ({| observations := []; finished := true; references := references s |},
        map (fun o => (o_id o, Finish outcome)) (observations s)).
Definition observation_step (s : Observation) (n : note) : Observation * list (nat * note) :=
  match n with Finish outcome => finish outcome s | n => notify n s end.
Fixpoint observation_run (s : Observation) (notes : list note) : Observation * list (nat * note) :=
  match notes with
  | [] => (s, [])
  | n :: notes =>
      let '(s, log) := observation_step s n in
      let '(s, log') := observation_run s notes in (s, log ++ log')
  end.

(** ** References stay valid and bounded *)

Lemma assoc_set_pair {A : Type} k (v : A) props p : p ∈ assoc_set k v props -> p = (k, v) \/ p ∈ props.
Proof.
  induction props as [|[k' w] props IH]; cbn.
  - rewrite list_elem_of_singleton. by left.
  - destruct (js_eqb k k') eqn:E; rewrite !elem_of_cons.
    + apply js_eqb_eq in E as ->. intros [->|?]; auto.
    + intros [->|H]; [auto|]. destruct (IH H); auto.
Qed.
Lemma merge_spec references supplied :
  supplied <> [] -> NoDup (default [] references).*1 ->
  NoDup (merge references supplied).*1 /\ merge references supplied <> [] /\
  forall p, p ∈ merge references supplied -> p ∈ supplied \/ p ∈ default [] references.
Proof.
  unfold merge. generalize (default [] references) as acc. clear references.
  induction supplied as [|[k t] supplied IH] using rev_ind; [done|]. intros acc _ Hacc. rewrite foldl_app. cbn.
  split_and!.
  - apply assoc_set_NoDup. destruct supplied as [|p supplied]; [done|]. by apply IH.
  - by destruct (foldl _ _ _) as [|[k' w] l]; [|cbn; destruct (js_eqb k k')].
  - intros p [->|Hp]%assoc_set_pair; [left; set_solver|]. destruct supplied as [|q supplied]; [by right|].
    destruct (IH acc) as (_ & _ & H); [done|done|]. destruct (H p Hp); [left; set_solver|by right].
Qed.

(** A reference that an observation supplied. *)
Definition reference_ok (p : jsstr * jsstr) : Prop :=
  referenceKey p.1 = true /\ 0 < js_length p.2 <= 256 /\ controlCharacter p.2 = false.
Definition supplied_by (s : Observation) (p : jsstr * jsstr) : Prop :=
  exists o entries, o ∈ observations s /\ o_references o = Ok (JObject entries) /\ (p.1, JStr p.2) ∈ entries.
Lemma copyReferences_spec value supplied :
  copyReferences value = Some supplied ->
  supplied <> [] /\ exists entries, value = JObject entries /\
  Forall (fun p => reference_ok p /\ (p.1, JStr p.2) ∈ entries) supplied.
Proof.
  unfold copyReferences. destruct value as [| | | | | |entries| |]; try done.
  destruct (zlength entries =? 0) eqn:E0; [done|]. destruct (zlength entries >? MAX_REFERENCES); [done|]. cbn [orb].
  intros H%mapM_Some. split.
  - intros ->. by apply Forall2_nil_inv_r in H as ->.
  - exists entries. split; [done|]. apply Forall_forall. intros p Hp.
    apply list_elem_of_lookup in Hp as [i Hi]. destruct (Forall2_lookup_r _ _ _ _ _ H Hi) as ([k v] & Hv & He).
    apply list_elem_of_lookup_2 in Hv. unfold reference_entry in He. cbn in He. destruct v as [| | | |text| | | |]; try done.
    destruct (_ || _) eqn:Et; [done|]. injection He as <-. reflect_bools. split; [|done].
    unfold reference_ok. cbn. rewrite Z.gtb_ltb in *. reflect_bools. split_and!; try done.
    unfold js_length in *. zlen.
Qed.
Definition references_ok (s : Observation) : Prop :=
  match references s with
  | Some refs => 0 < zlength refs <= MAX_REFERENCES /\ NoDup refs.*1 /\ Forall (fun p => reference_ok p /\ supplied_by s p) refs
  | None => True
  end.
Lemma supplied_more s s' p : (forall o, o ∈ observations s -> o ∈ observations s') -> supplied_by s p -> supplied_by s' p.
Proof. intros Hs (o & entries & Ho & H). exists o, entries. auto. Qed.
Lemma observe_ok without_credentials observer start s o :
  references_ok s -> references_ok (observe without_credentials observer start s o).
Proof.
  intros H. unfold observe. destruct (snapshot_of _ start) as [snapshot|]; [|done].
  destruct (observer o snapshot) as [[observation|]|]; [|done..]. unfold references_ok. cbn [references].
  set (s' := {| observations := _; finished := _; references := _ |}).
  assert (forall refs, references s = Some refs -> 0 < zlength refs <= MAX_REFERENCES /\ NoDup refs.*1 /\
            Forall (fun p => reference_ok p /\ supplied_by s' p) refs) as Hold.
  { intros refs E. unfold references_ok in H. rewrite E in H. destruct H as (? & ? & Hf). split; [done|]. split; [done|].
    eapply Forall_impl; [exact Hf|]. intros p [? Hp]. split; [done|]. eapply supplied_more; [|exact Hp]. cbn. set_solver. }
  assert (match references s with Some refs => 0 < zlength refs <= MAX_REFERENCES /\ NoDup refs.*1 /\
            Forall (fun p => reference_ok p /\ supplied_by s' p) refs | None => True end) as Hsame
    by (destruct (references s); [by apply Hold|done]).
  destruct (o_references observation) as [value|] eqn:Ev; [|done].
  destruct (copyReferences value) as [supplied|] eqn:Ec; [|done].
  apply copyReferences_spec in Ec as (Hne & entries & -> & Hsup).
  destruct (zlength (merge _ supplied) <=? MAX_REFERENCES) eqn:El; [|done]. apply Z.leb_le in El.
  assert (NoDup (default [] (references s)).*1) as Hnd.
  { destruct (references s) as [refs|]; [by apply (Hold refs)|constructor]. }
  destruct (merge_spec (references s) supplied Hne Hnd) as (Hm & Hmne & Hin).
  split_and!; [|done|done|].
  - destruct (merge (references s) supplied); [done|]. zlen.
  - apply Forall_forall. intros p Hp. destruct (Hin p Hp) as [Hp'|Hp'].
    + rewrite Forall_forall in Hsup. destruct (Hsup p Hp'). split; [done|]. exists observation, entries. cbn.
      split_and!; [set_solver|done..].
    + destruct (references s) as [refs|]; [|by apply not_elem_of_nil in Hp'].
      destruct (Hold refs eq_refl) as (_ & _ & Hf). rewrite Forall_forall in Hf. by apply Hf.
Qed.

(** C24: the references of an exchange are at most sixteen, with distinct keys, each a valid
    key and text that one of its observations supplied, whatever the observers do. *)
Theorem observation_references without_credentials observer start observers refs :
  let s := newObservation without_credentials observer start observers in
  references s = Some refs ->
  0 < zlength refs <= 16 /\ NoDup refs.*1 /\ forall p, p ∈ refs -> reference_ok p /\ supplied_by s p.
Proof.
  intros s Hs. assert (references_ok s) as H.
  { unfold s, newObservation. generalize (distinct_observers [] observers).
    assert (references_ok {| observations := []; finished := false; references := None |}) as H0 by done.
    revert H0. generalize {| observations := []; finished := false; references := None |}. intros s0 H0 l. revert s0 H0.
    induction l as [|o l IH]; intros s0 H0; [done|]. by apply IH, observe_ok. }
  unfold references_ok in H. rewrite Hs in H. destruct H as (? & ? & Hf). rewrite Forall_forall in Hf. done.
Qed.

(** ** Operations run once, outcomes are reported once *)

Lemma once_twice next st : once next (once next st) = once next st.
Proof. destruct st as [[p|] b]; [done|]. cbn. by destruct (next b). Qed.
Lemma once_iter next calls b : once next (Nat.iter calls (once next) (None, b)) = once next (None, b).
Proof. induction calls as [|calls IH]; [done|]. cbn [Nat.iter nat_rect]. by rewrite once_twice. Qed.
Lemma invoke_once os begun : invoke os begun = (begun, S begun).
Proof.
  revert begun. induction os as [|o os IH]; intros begun; [done|]. cbn.
  assert (once (invoke os) (match o_run o with
                            | Some calls => Nat.iter calls (once (invoke os)) (None, begun)
                            | None => (None, begun)
                            end) = (Some begun, S begun)) as ->; [|done].
  destruct (o_run o); rewrite ?once_iter; cbn; by rewrite IH.
Qed.

(** The notes that reach the observers: those up to the first outcome. *)
Fixpoint until_finish (notes : list note) : list note :=
  match notes with
  | [] => []
  | Finish outcome :: _ => [Finish outcome]
  | n :: notes => n :: until_finish notes
  end.
Lemma finished_quiet notes s : finished s = true -> observations s = [] -> (observation_run s notes).2 = [].
Proof.
  revert s. induction notes as [|n notes IH]; intros s Hf Ho; [done|]. cbn.
  assert (observation_step s n = (s, [])) as ->.
  { destruct n; cbn; unfold notify, finish; rewrite ?Ho, ?Hf; done. }
  specialize (IH s Hf Ho). by destruct (observation_run s notes).
Qed.

(** Whatever the hooks do, an operation begins exactly once and its promise is the one
    returned; and every observation gets the notes in their order, with at most one
    outcome and nothing after it. *)
Theorem observation_once s begun notes :
  finished s = false ->
  run s begun = (begun, S begun) /\
  (observation_run s notes).2 = concat (map (fun n => map (fun o => (o_id o, n)) (observations s)) (until_finish notes)).
Proof.
  intros Hf. split; [apply invoke_once|]. revert s Hf. induction notes as [|n notes IH]; intros s Hf; [done|].
  destruct n; cbn; try (specialize (IH s Hf); destruct (observation_run s notes); cbn in *; by rewrite IH).
  unfold finish. rewrite Hf. set (s' := {| observations := []; finished := true; references := references s |}).
  pose proof (finished_quiet notes s' eq_refl eq_refl) as Hq. destruct (observation_run s' notes) as [s2 log]. cbn in *. by rewrite Hq.
Qed.

(** An observer is shown a copy of the request whose proxy URL has no credentials; a
    request whose proxy URL cannot be read is shown to nobody. *)
Theorem observers_see_no_credentials without_credentials start snapshot :
  snapshot_of without_credentials start = Ok snapshot ->
  let egress v := get (get v "connection") "egress" in
  (forall k, k <> "connection" -> get snapshot k = get start k) /\
  (is_str (get (egress start) "mode") "proxy" = false -> snapshot = start) /\
  (is_str (get (egress start) "mode") "proxy" = true ->
   exists url, without_credentials (get (egress start) "url") = Some url /\ get (egress snapshot) "url" = JStr url).
Proof.
  unfold snapshot_of. destruct (is_nullish (get start "connection")) eqn:Ec.
  { intros [= <-]. split_and!; [done..|]. cbv zeta. destruct (get start "connection"); done. }
  destruct (is_nullish (get (get start "connection") "egress")) eqn:Ee; [done|].
  destruct (is_str _ "proxy"); [|by intros [= <-]].
  destruct (without_credentials _) as [url|]; [|done]. intros [= <-].
  assert (forall v k w, get (spread_set v k w) k = w) as Hset.
  { intros v k w. destruct v; cbn; rewrite ?assoc_set_eq, ?js_eqb_refl; done. }
  split_and!; [|done|].
  - intros k Hk. destruct start; try done. cbn [get spread_set]. by rewrite assoc_set_ne.
  - intros _. exists url. split; [done|]. by rewrite !Hset.
Qed.

(** Two observers of one request. *)
Definition demo_observation (i : nat) (refs : list (jsstr * jsval)) : ExchangeObservation :=
  {| o_id := i; o_references := Ok (JObject refs); o_run := Some i |}.
Definition demo_observer (o : nat) (_ : jsval) : result exn (option ExchangeObservation) :=
  match o with
  | 0%nat => Ok (Some (demo_observation 0 [("trace", JStr "a"); ("span", JStr "b")]))
  | 1%nat => Ok (Some (demo_observation 1 [("span", JStr "c")]))
  | _ => Throw ETypeError
  end.
Definition demo_observed : Observation :=
  newObservation (fun _ => Some "http://p.test/") demo_observer (JObject []) [Some 0%nat; None; Some 2%nat; Some 1%nat; Some 0%nat].
Lemma observation_references_witness :
  references demo_observed = Some [("trace", "a"); ("span", "c")] /\ 0 < zlength [("trace", "a"); ("span", "c")] <= 16.
Proof.
  assert (references demo_observed = Some [("trace", "a"); ("span", "c")]) as H by (vm_compute; reflexivity).
  exact (conj H (proj1 (observation_references _ _ _ _ _ H))).
Defined.
Lemma observation_once_witness :
  run demo_observed 5 = (5%nat, 6%nat) /\
  (observation_run demo_observed [RequestChunk [1]; Finish JNull; Finish JUndefined; ResponseChunk [2]]).2 =
    [(0%nat, RequestChunk [1]); (1%nat, RequestChunk [1]); (0%nat, Finish JNull); (1%nat, Finish JNull)].
Proof.
  exact (observation_once demo_observed 5 [RequestChunk [1]; Finish JNull; Finish JUndefined; ResponseChunk [2]] eq_refl).
Defined.
Definition demo_start : jsval := JObject
  [("connection", JObject [("egress", JObject [("mode", JStr "proxy"); ("url", JStr "http://u:p@p.test/")])])].
Lemma observers_see_no_credentials_witness :
  exists snapshot url, snapshot_of (fun _ => Some "http://p.test/") demo_start = Ok snapshot /\
    get (get (get snapshot "connection") "egress") "url" = JStr url /\ url = "http://p.test/".
Proof.
  eexists. edestruct (proj2 (proj2 (observers_see_no_credentials (fun _ => Some "http://p.test/") demo_start _ eq_refl)))
    as (url & Hu & Hg); [vm_compute; reflexivity|].
  exists url. split; [reflexivity|]. split; [exact Hg|]. by injection Hu.
Defined.
