(* ===== verification/Fetch.v ===== *)
(** * Fetch (packages/typescript/src/fetch.ts)

    The translation of a fetch call into an exchange, and the closeable fetch handle with
    its lazily opened session.  Requests and responses are host objects; what the source
    reads of them are the records below.  The admission of a handle is the modelled class
    Admission, its operations those of Lifetime. *)

From S2P Require Import Prelude Js Errors.

Local Open Scope js_scope.

(** ** One fetch *)

Record FetchRequest := {
  f_url : jsstr;
  f_method : jsstr;
  f_body : option bool;             (* has a body; whether it is locked when the call has failed *)
}.
Record FetchExchange := {
  e_status : Z;
  e_headers : list (jsstr * jsstr);
  e_references : option ExchangeReferences;
}.
(** What the host and the client answer during one call. *)
Record fetch_answers := {
  requested : option FetchRequest;                  (* [new Request], or it throws *)
  executed : FetchRequest -> result exn FetchExchange;
  chunks : list (list Z);                           (* of a response that must have no body *)
  chunks_end : option exn;                          (* the read that fails, if one does *)
  completion : result Ja3ProxyTransportError unit;
  responded : option exn;                           (* [new Response] throws *)
}.
Record FetchResponse := {
  r_status : Z; r_headers : list (jsstr * jsstr); r_url : jsstr; has_body : bool; r_references : option ExchangeReferences }.
Inductive fetch_effect := ClosesExchange | CancelsRequestBody.

Definition null_body_statuses : list Z := [204; 205; 304].
Definition no_body (request : FetchRequest) (exchange : FetchExchange) : bool :=
  js_eqb (f_method request) "HEAD" || existsb (Z.eqb (e_status exchange)) null_body_statuses.
(** The loop that reads a body that must be empty. *)
Fixpoint drain (l : list (list Z)) (final : option exn) : result exn unit :=
  match l with
  | [] => match final with Some e => Throw e | None => Ok tt end
  | chunk :: l => if zlength chunk =? 0 then drain l final else Throw (ETransport (localError PROTOCOL_ERROR None))
  end.
(** The [try] block once the exchange is there. *)
Definition respond (request : FetchRequest) (exchange : FetchExchange) (w : fetch_answers) : result exn FetchResponse :=
  let noBody := no_body request exchange in
  let? _ := (if noBody then
               let? _ := drain (chunks w) (chunks_end w) in
               match completion w with Ok _ => Ok tt | Throw e => Throw (ETransport e) end
             else Ok tt) in
  match responded w with
  | Some e => Throw e
  | None => Ok {| r_status := e_status exchange; r_headers := e_headers exchange; r_url := f_url request;
                  has_body := negb noBody; r_references := e_references exchange |}
  end.
Definition fetchResponse (w : fetch_answers) : result Ja3ProxyTransportError FetchResponse * list fetch_effect :=
  match requested w with
  | None => (Throw (localError INVALID_REQUEST (Some invalid_input)), [])
  | Some request =>
      match executed w request with
      | Throw e =>
          (Throw (safeError e localDiagnostics false),
           match f_body request with Some false => [CancelsRequestBody] | _ => [] end)
      | Ok exchange =>
          match respond request exchange w with
          | Ok response => (Ok response, [])
          | Throw e => (Throw (withReferences (safeError e localDiagnostics false) (e_references exchange)), [ClosesExchange])
          end
      end
  end.

(** ** The fetch handle *)

Inductive promise := Opening | Opened (session : nat) | OpenFailed (e : exn).
Inductive stage :=
| Queued          (* await admission.acquire *)
| WaitsSession    (* await operation.deadline.race(session) *)
| WaitsHead       (* await stream *)
| HasHead.        (* until the completion of the exchange *)
Inductive closing_phase :=
| Stopping        (* await deadline.race(stopped) *)
| AwaitsSession   (* await deadline.race(session) *)
| ClosingSession (session : nat)
| Closed.
Record Scope := {
  closed : bool;                        (* the lifetime *)
  session : option promise;
  requests : list (nat * stage);
  phase : option closing_phase;
  (* what the proofs observe *)
  creations : nat;
  closed_sessions : list nat;
  streamed : list (nat * nat);          (* a request and the session it was sent in *)
}.
Definition newScope : Scope := {|
  closed := false; session := None; requests := []; phase := None; creations := 0; closed_sessions := []; streamed := [] |}.
Definition with_requests (l : list (nat * stage)) (st : list (nat * nat)) (s : Scope) : Scope := {|
  closed := closed s; session := session s; requests := l; phase := phase s; creations := creations s;
  closed_sessions := closed_sessions s; streamed := st |}.
Definition with_session (p : option promise) (n : nat) (s : Scope) : Scope := {|
  closed := closed s; session := p; requests := requests s; phase := phase s; creations := n;
  closed_sessions := closed_sessions s; streamed := streamed s |}.
Definition with_phase (cl : bool) (p : option closing_phase) (cs : list nat) (s : Scope) : Scope := {|
  closed := cl; session := session s; requests := requests s; phase := p; creations := creations s;
  closed_sessions := cs; streamed := streamed s |}.

Definition stage_of (n : nat) (s : Scope) : option stage := snd <$> List.find (fun r => Nat.eqb n r.1) (requests s).
Definition ends (n : nat) (s : Scope) : Scope :=
  with_requests (List.filter (fun r => negb (Nat.eqb n r.1)) (requests s)) (streamed s) s.
Definition moves (n : nat) (st : stage) (s : Scope) : Scope :=
  with_requests (map (fun r => if Nat.eqb n r.1 then (n, st) else r) (requests s)) (streamed s) s.

Section scope.
Context (session_mode : bool).                   (* context: 'session' *)

Definition admitted (n : nat) (ok : bool) (s : Scope) : Scope :=
  match stage_of n s with
  | Some Queued =>
      if negb ok then ends n s
      else if session_mode then
        match session s with
        | None => if closed s then ends n s                      (* lifetime.begin throws *)
                  else moves n WaitsSession (with_session (Some Opening) (S (creations s)) s)
        | Some _ => moves n WaitsSession s
        end
      else moves n WaitsHead s
  | _ => s
  end.
Definition session_awaited (n : nat) (aborted : bool) (s : Scope) : Scope :=
  match stage_of n s with
  | Some WaitsSession =>
      if aborted then ends n s
      else match session s with
           | Some (Opened id) => with_requests (requests (moves n WaitsHead s)) ((n, id) :: streamed s) s
           | Some (OpenFailed _) => ends n s
           | _ => s
           end
  | _ => s
  end.
Definition head_awaited (n : nat) (ok : bool) (s : Scope) : Scope :=
  match stage_of n s with
  | Some WaitsHead => if ok then moves n HasHead s else ends n s
  | _ => s
  end.
Definition completes (n : nat) (s : Scope) : Scope :=
  match stage_of n s with Some HasHead => ends n s | _ => s end.
Definition session_settles (r : result exn nat) (s : Scope) : Scope :=
  match session s with
  | Some Opening => with_session (Some (match r with Ok id => Opened id | Throw e => OpenFailed e end)) (creations s) s
  | _ => s
  end.

(** All operations of the lifetime have ended, the opening of the session included. *)
Definition stopped (s : Scope) : bool :=
  bool_decide (requests s = []) && match session s with Some Opening => false | _ => true end.
Definition close_begins (s : Scope) : Scope :=
  match phase s with Some _ => s | None => with_phase true (Some Stopping) (closed_sessions s) s end.
(** An await of the closing function ends; [expired] says that its deadline has expired. *)
Definition close_continues (expired : bool) (s : Scope) : Scope :=
  match phase s with
  | Some Stopping =>
      if stopped s then
        match session s with
        | Some _ => with_phase true (Some AwaitsSession) (closed_sessions s) s
        | None => with_phase true (Some Closed) (closed_sessions s) s
        end
      else if expired then with_phase true None (closed_sessions s) s else s
  | Some AwaitsSession =>
      if expired then with_phase true None (closed_sessions s) s
      else match session s with
           | Some (Opened id) => with_phase true (Some (ClosingSession id)) (closed_sessions s) s
           | Some (OpenFailed _) => with_phase true (Some Closed) (closed_sessions s) s
           | _ => s
           end
  | _ => s
  end.
(** The close of the session has ended, or the deadline has. *)
Definition close_settles (ok : bool) (s : Scope) : Scope :=
  match phase s with
  | Some (ClosingSession id) =>
      if ok then with_phase true (Some Closed) (id :: closed_sessions s) s
      else with_phase true None (closed_sessions s) s
  | _ => s
  end.

Inductive scope_event :=
| FetchBegins (n : nat)
| FetchAdmitted (n : nat) (ok : bool)
| FetchSession (n : nat) (aborted : bool)
| FetchHead (n : nat) (ok : bool)
| FetchCompletes (n : nat)
| SessionSettles (r : result exn nat)
| ScopeCloses
| CloseContinues (expired : bool)
| CloseSettles (ok : bool).
Definition scope_step (s : Scope) (ev : scope_event) : Scope :=
  match ev with
  | FetchBegins n =>
      if closed s || bool_decide (is_Some (stage_of n s)) then s else with_requests (requests s ++ [(n, Queued)]) (streamed s) s
  | FetchAdmitted n ok => admitted n ok s
  | FetchSession n aborted => session_awaited n aborted s
  | FetchHead n ok => head_awaited n ok s
  | FetchCompletes n => completes n s
  | SessionSettles r => session_settles r s
  | ScopeCloses => close_begins s
  | CloseContinues expired => close_continues expired s
  | CloseSettles ok => close_settles ok s
  end.
End scope.

(** ** The session of a handle *)

Section invariant.
Context (session_mode : bool).
Notation step := (scope_step session_mode).

Inductive scope_reachable : Scope -> Prop :=
| scope_new : scope_reachable newScope
| scope_steps s ev : scope_reachable s -> scope_reachable (step s ev).

Definition sent (st : stage) : bool := match st with WaitsHead | HasHead => true | _ => false end.
Record scope_ok (s : Scope) : Prop := {
  ok_creations : creations s = match session s with None => 0%nat | Some _ => 1%nat end;
  ok_closed : phase s <> None -> closed s = true;
  ok_stopped : match phase s with None | Some Stopping => True | _ => stopped s = true end;
  ok_phase : match phase s with
             | Some (ClosingSession id) => session s = Some (Opened id)
             | Some Closed => forall id, session s = Some (Opened id) -> id ∈ closed_sessions s
             | _ => True
             end;
  ok_streamed : forall n id, (n, id) ∈ streamed s -> session s = Some (Opened id);
  ok_sent : session_mode = true -> forall n st, (n, st) ∈ requests s -> sent st = true -> exists id, (n, id) ∈ streamed s;
}.

Lemma stopped_requests s : stopped s = true -> requests s = [].
Proof. unfold stopped. intros [H _]%andb_prop. by apply bool_decide_eq_true in H. Qed.
(** Work on a request needs a request: the handle is not being closed any more. *)
Lemma stage_phase n s st : scope_ok s -> stage_of n s = Some st -> phase s = None \/ phase s = Some Stopping.
Proof.
  intros H Hst. pose proof (ok_stopped s H) as Hs. destruct (phase s) as [[]|]; auto;
    apply stopped_requests in Hs; unfold stage_of in Hst; by rewrite Hs in Hst.
Qed.
Lemma requests_ok l streamed' s :
  scope_ok s -> phase s = None \/ phase s = Some Stopping ->
  (forall n id, (n, id) ∈ streamed' -> session s = Some (Opened id)) ->
  (session_mode = true -> forall n st, (n, st) ∈ l -> sent st = true -> exists id, (n, id) ∈ streamed') ->
  scope_ok (with_requests l streamed' s).
Proof. intros [] Hp Hst Hl. split; cbn; try done; by destruct Hp as [-> | ->]. Qed.
Lemma request_ends_ok n s st : scope_ok s -> stage_of n s = Some st -> scope_ok (ends n s).
Proof.
  intros H Hn. apply requests_ok; [done|by eapply stage_phase|apply (ok_streamed s H)|].
  intros Hm x y. rewrite list_elem_of_In, List.filter_In, <- list_elem_of_In. intros [Hx _]. by eapply (ok_sent s H Hm).
Qed.
Lemma elem_moves n st s x y : (x, y) ∈ requests (moves n st s) -> (x, y) = (n, st) \/ (x, y) ∈ requests s.
Proof.
  cbn. rewrite list_elem_of_fmap. intros ([z w] & E & Hz). cbn in E.
  destruct (Nat.eqb n z); [left; congruence|right; congruence].
Qed.
Lemma stage_elem n s st : stage_of n s = Some st -> (n, st) ∈ requests s.
Proof.
  unfold stage_of. destruct (List.find _ (requests s)) as [[m y]|] eqn:E; [|done]. intros [= <-].
  apply List.find_some in E as [E Em]. apply Nat.eqb_eq in Em. cbn in Em. subst. by apply list_elem_of_In.
Qed.

Lemma admitted_ok n ok s : scope_ok s -> scope_ok (admitted session_mode n ok s).
Proof.
  intros H. unfold admitted. destruct (stage_of n s) as [[]|] eqn:En; try done.
  assert (phase s = None \/ phase s = Some Stopping) as Hp by by eapply stage_phase.
  destruct ok; [|by eapply request_ends_ok]. cbn [negb].
  assert (forall st, sent st = false -> scope_ok (moves n st s)) as Hmoves.
  { intros st Hst. apply requests_ok; [done|done|apply (ok_streamed s H)|].
    intros Hm x y [[= -> ->]|Hx]%elem_moves Hy; [congruence|]. by eapply (ok_sent s H Hm). }
  destruct session_mode eqn:Em.
  - destruct (session s) as [p|] eqn:Es; [by apply Hmoves|]. destruct (closed s) eqn:Ec; [by eapply request_ends_ok|].
    destruct H. split; cbn; try done.
    + by rewrite ok_creations0, Es.
    + by destruct Hp as [-> | ->].
    + by destruct Hp as [-> | ->].
    + intros x id Hx. specialize (ok_streamed0 x id Hx). congruence.
    + intros _ x y Hx Hy. apply (elem_moves n WaitsSession s) in Hx as [[= -> ->]|Hx]; [done|]. by eapply ok_sent0.
  - apply requests_ok; [done|done|apply (ok_streamed s H)|congruence].
Qed.
Lemma session_awaited_ok n aborted s : scope_ok s -> scope_ok (session_awaited n aborted s).
Proof.
  intros H. unfold session_awaited. destruct (stage_of n s) as [[]|] eqn:En; try done.
  destruct aborted; [by eapply request_ends_ok|]. destruct (session s) as [[|id|]|] eqn:Es; try done; [|by eapply request_ends_ok].
  apply requests_ok; [done|by eapply stage_phase| |].
  - intros x y [[= -> ->]|Hx]%elem_of_cons; [done|]. by eapply (ok_streamed s H).
  - intros Hm x y [[= -> ->]|Hx]%elem_moves Hy; [exists id; by left|].
    destruct (ok_sent s H Hm x y Hx Hy) as [i Hi]. exists i. by right.
Qed.
Lemma head_awaited_ok n ok s : scope_ok s -> scope_ok (head_awaited n ok s).
Proof.
  intros H. unfold head_awaited. destruct (stage_of n s) as [[]|] eqn:En; try done.
  destruct ok; [|by eapply request_ends_ok]. apply requests_ok; [done|by eapply stage_phase|apply (ok_streamed s H)|].
  intros Hm x y [[= -> ->]|Hx]%elem_moves Hy; [|by eapply (ok_sent s H Hm)].
  by apply (ok_sent s H Hm n WaitsHead); [apply stage_elem|].
Qed.
Lemma session_settles_ok r s : scope_ok s -> scope_ok (session_settles r s).
Proof.
  intros H. unfold session_settles. destruct (session s) as [[| |]|] eqn:Es; try done. destruct H. split; cbn; try done.
  - by rewrite ok_creations0, Es.
  - unfold stopped in *. rewrite Es, andb_false_r in ok_stopped0. by destruct (phase s) as [[]|].
  - unfold stopped in ok_stopped0. rewrite Es, andb_false_r in ok_stopped0. by destruct (phase s) as [[]|].
  - intros n id Hn. specialize (ok_streamed0 n id Hn). congruence.
Qed.
Lemma phase_change p cs s :
  scope_ok s -> (match p with None | Some Stopping => True | _ => stopped s = true end) ->
  (match p with
   | Some (ClosingSession id) => session s = Some (Opened id)
   | Some Closed => forall id, session s = Some (Opened id) -> id ∈ cs
   | _ => True
   end) -> scope_ok (with_phase true p cs s).
Proof. intros [] Hs Hp. by split. Qed.
Lemma scope_continues_ok expired s : scope_ok s -> scope_ok (close_continues expired s).
Proof.
  intros H. unfold close_continues. pose proof (ok_stopped s H) as Hs. destruct (phase s) as [[]|]; try done.
  - destruct (stopped s) eqn:Est; [|destruct expired; [by apply phase_change|done]].
    destruct (session s) eqn:Es; apply phase_change; try done. congruence.
  - destruct expired; [by apply phase_change|]. destruct (session s) as [[]|] eqn:Es; try done; apply phase_change; try done.
    congruence.
Qed.
Lemma scope_step_ok s ev : scope_ok s -> scope_ok (step s ev).
Proof.
  intros H. destruct ev as [n|n ok|n aborted|n ok|n|r| |expired|ok]; cbn [scope_step].
  - destruct (closed s || _) eqn:E; [done|]. apply orb_false_elim in E as [Ec _].
    assert (phase s = None) as Hp by (destruct (phase s) eqn:Ep; [|done]; rewrite (ok_closed s H) in Ec; [done|by rewrite Ep]).
    apply requests_ok; [done|by left|apply (ok_streamed s H)|].
    intros Hm x y [Hx|[= -> ->]%list_elem_of_singleton]%elem_of_app Hy; [by eapply (ok_sent s H Hm)|done].
  - by apply admitted_ok.
  - by apply session_awaited_ok.
  - by apply head_awaited_ok.
  - unfold completes. destruct (stage_of n s) as [[]|] eqn:En; try done. by eapply request_ends_ok.
  - by apply session_settles_ok.
  - unfold close_begins. destruct (phase s); [done|]. by apply phase_change.
  - by apply scope_continues_ok.
  - unfold close_settles. pose proof (ok_stopped s H) as Hs. pose proof (ok_phase s H) as Hp.
    destruct (phase s) as [[| |id|]|] eqn:Ep; try done.
    destruct ok; apply phase_change; try done. rewrite Hp. intros ? [= <-]. by left.
Qed.
Lemma scope_reachable_ok s : scope_reachable s -> scope_ok s.
Proof.
  induction 1 as [|s ev _ IH]; [|by apply scope_step_ok].
  split; try done.
  - intros n id Hn. by apply not_elem_of_nil in Hn.
  - intros _ n st Hn. by apply not_elem_of_nil in Hn.
Qed.

(** C22: a fetch handle opens at most one session; every request it sends in session mode is
    sent in that one, after it has been opened; and when its close has succeeded no request
    is left, nothing is being opened and the session has been closed. *)
Theorem scope_one_session s :
  scope_reachable s ->
  (creations s <= 1)%nat /\
  (forall n id, (n, id) ∈ streamed s -> session s = Some (Opened id)) /\
  (session_mode = true -> forall n st, (n, st) ∈ requests s -> st = WaitsHead \/ st = HasHead ->
   exists id, (n, id) ∈ streamed s /\ session s = Some (Opened id)) /\
  (phase s = Some Closed ->
   closed s = true /\ requests s = [] /\ session s <> Some Opening /\
   forall id, session s = Some (Opened id) -> id ∈ closed_sessions s).
Proof.
  intros H%scope_reachable_ok. split_and!.
  - rewrite (ok_creations s H). destruct (session s); lia.
  - apply (ok_streamed s H).
  - intros Hm n st Hn Hst. destruct (ok_sent s H Hm n st Hn) as [id Hid]; [by destruct Hst as [-> | ->]|].
    exists id. split; [done|]. by eapply (ok_streamed s H).
  - intros Hp. pose proof (ok_stopped s H) as Hs. pose proof (ok_phase s H) as Hph. rewrite Hp in Hs, Hph. split_and!.
    + apply (ok_closed s H). by rewrite Hp.
    + by apply stopped_requests.
    + intros E. unfold stopped in Hs. by rewrite E, andb_false_r in Hs.
    + done.
Qed.
End invariant.

(** ** One fetch *)

Lemma drain_spec l final : drain l final = Ok tt <-> Forall (fun chunk => chunk = []) l /\ final = None.
Proof.
  induction l as [|chunk l IH]; cbn.
  - destruct final; split; try done. by intros [_ ?].
  - destruct (zlength chunk =? 0) eqn:E.
    + apply Z.eqb_eq, zlength_zero in E as ->. rewrite IH, Forall_cons. tauto.
    + rewrite Forall_cons. split; [done|]. intros [[-> _] _]. done.
Qed.
Lemma withReferences_refs e refs : refs <> None -> references (withReferences e refs) = refs.
Proof. unfold withReferences. destruct refs as [r|]; [|done]. intros _. by destruct (decide _). Qed.

(** C23: a fetch call.  It succeeds only for an accepted request whose exchange began, with
    the status, headers and references of the exchange and the URL of the request; the body
    passes through unread, or must have none, and then the exchange has completed without
    a byte.  A failed call leaves nothing open: it closes the exchange that had begun, whose
    references the error carries, or cancels the unlocked body of the request. *)
Theorem fetchResponse_sound w :
  let '(outcome, effects) := fetchResponse w in
  match outcome with
  | Ok response =>
      effects = [] /\
      exists request exchange, requested w = Some request /\ executed w request = Ok exchange /\ responded w = None /\
        r_status response = e_status exchange /\ r_headers response = e_headers exchange /\
        r_url response = f_url request /\ r_references response = e_references exchange /\
        (has_body response = false <-> f_method request = "HEAD" \/ e_status exchange ∈ [204; 205; 304]) /\
        (has_body response = false -> Forall (fun chunk => chunk = []) (chunks w) /\ chunks_end w = None /\ completion w = Ok tt)
  | Throw e =>
      (requested w = None /\ e = localError INVALID_REQUEST (Some invalid_input) /\ effects = []) \/
      (exists request failure, requested w = Some request /\ executed w request = Throw failure /\
         e = safeError failure localDiagnostics false /\
         effects = match f_body request with Some false => [CancelsRequestBody] | _ => [] end) \/
      (exists request exchange, requested w = Some request /\ executed w request = Ok exchange /\ effects = [ClosesExchange] /\
         (e_references exchange <> None -> references e = e_references exchange))
  end.
Proof.
  unfold fetchResponse. destruct (requested w) as [request|]; [|by left].
  destruct (executed w request) as [exchange|failure] eqn:Eex; [|right; left; by exists request, failure].
  destruct (respond request exchange w) as [response|e] eqn:Er.
  2: { right; right. exists request, exchange. split_and!; try done. apply withReferences_refs. }
  split; [done|]. exists request, exchange. unfold respond in Er.
  assert (no_body request exchange = true <-> f_method request = "HEAD" \/ e_status exchange ∈ [204; 205; 304]) as Hno.
  { unfold no_body. rewrite orb_true_iff, js_eqb_eq, existsb_exists. apply or_iff_compat_l.
    unfold null_body_statuses. split.
    - intros (x & Hx & ->%Z.eqb_eq). by apply list_elem_of_In.
    - intros Hx. exists (e_status exchange). by rewrite Z.eqb_refl, <- list_elem_of_In. }
  destruct (no_body request exchange) eqn:En.
  - destruct (drain (chunks w) (chunks_end w)) as [[]|] eqn:Ed; [|done]. cbn [result_bind] in Er.
    apply drain_spec in Ed as [Hd Hend]. destruct (completion w) as [[]|] eqn:Ec; [|done]. cbn [result_bind] in Er.
    destruct (responded w); [done|]. injection Er as <-. cbn. split_and!; try done. by rewrite <- Hno.
  - cbn [result_bind] in Er. destruct (responded w); [done|]. injection Er as <-. cbn.
    split_and!; try done. split; [done|]. intros H. apply Hno in H. done.
Qed.

Definition demo_fetch : fetch_answers := {|
  requested := Some {| f_url := "https://a.test/"; f_method := "GET"; f_body := None |};
  executed := fun _ => Ok {| e_status := 204; e_headers := []; e_references := Some [("trace", "a")] |};
  chunks := [[]; [1]]; chunks_end := None; completion := Ok tt; responded := None |}.
(** A response that must have no body and has one. *)
Example bodyless_byte_refused :
  exists e, fetchResponse demo_fetch = (Throw e, [ClosesExchange]) /\ code e = PROTOCOL_ERROR /\ references e = Some [("trace", "a")].
Proof. eexists. by vm_compute. Qed.

(** Two requests wait for one session; the handle closes while they run. *)
Definition demo_scope : Scope := foldl (scope_step true) newScope
  [FetchBegins 1; FetchBegins 2; FetchAdmitted 1 true; FetchAdmitted 2 true; SessionSettles (Ok 9%nat);
   FetchSession 1 false; FetchSession 2 false; FetchHead 1 true; ScopeCloses; FetchHead 2 false; FetchCompletes 1;
   CloseContinues false; CloseContinues false; CloseSettles true].
Lemma scope_one_session_witness :
  phase demo_scope = Some Closed /\ session demo_scope = Some (Opened 9) /\
  (closed demo_scope = true /\ requests demo_scope = [] /\ session demo_scope <> Some Opening /\
   forall id, session demo_scope = Some (Opened id) -> id ∈ closed_sessions demo_scope).
Proof.
  split; [reflexivity|]. split; [reflexivity|]. apply (scope_one_session true); [|reflexivity].
  unfold demo_scope. cbn [foldl]. repeat apply scope_steps. apply scope_new.
Defined.
