(* ===== verification/Exchange.v ===== *)
(** * Responses and their exchanges (packages/typescript/src/fetch.ts: attachExchange,
    getResponseCompletion, getResponseReferences, resolveFetchObserver)

    A [Response] of the host does not know the exchange it came from, so fetch.ts keeps that in
    a [WeakMap] and gives each response that it makes an own [url] and an own [clone], whose
    results are attached again.  Responses are numbers in the order of their creation;
    so are exchanges, in an order of their own. *)

From S2P Require Import Prelude Js Errors.

(** ** The store of responses *)

Record Responses := {
  made : nat;                                   (* responses are the numbers below *)
  host_url : gmap nat jsstr;                    (* the url that the host keeps *)
  exchanges : gmap nat nat;                     (* the WeakMap *)
  own_url : gmap nat jsstr;                     (* own properties *)
  own_clone : gmap nat (nat * jsstr) }.         (* with the exchange and the url it closes over *)
Definition no_responses : Responses :=
  {| made := 0; host_url := ∅; exchanges := ∅; own_url := ∅; own_clone := ∅ |}.

(** A new response of the host. *)
Definition newResponse (url : jsstr) (st : Responses) : nat * Responses :=
  (made st, {| made := S (made st); host_url := <[made st := url]> (host_url st); exchanges := exchanges st;
               own_url := own_url st; own_clone := own_clone st |}).
Definition attachExchange (response exchange : nat) (url : jsstr) (st : Responses) : Responses :=
  {| made := made st; host_url := host_url st; exchanges := <[response := exchange]> (exchanges st);
     own_url := <[response := url]> (own_url st); own_clone := <[response := (exchange, url)]> (own_clone st) |}.
(** The end of fetchResponse: the host's response has no url. *)
Definition sdk_response (exchange : nat) (url : jsstr) (st : Responses) : nat * Responses :=
  let '(response, st) := newResponse (JsStr []) st in (response, attachExchange response exchange url st).
(** [response.clone()], which the host refuses once the body is used. *)
Definition clone (response : nat) (unused : bool) (st : Responses) : result exn (nat * Responses) :=
  match host_url st !! response with
  | Some url =>
      if unused then
        let '(copy, st') := newResponse url st in
        Ok (copy, match own_clone st !! response with
                  | Some (exchange, url) => attachExchange copy exchange url st'
                  | None => st'
                  end)
      else Throw ETypeError
  | None => Throw ETypeError
  end.
(** [response.url] *)
Definition url_of (response : nat) (st : Responses) : option jsstr :=
  match own_url st !! response with Some url => Some url | None => host_url st !! response end.

Section readers.
Context {completion references : Type} (completion_of : nat -> completion) (references_of : nat -> option references).
Definition getResponseCompletion (response : nat) (st : Responses) : option completion := completion_of <$> exchanges st !! response.
Definition getResponseReferences (response : nat) (st : Responses) : option references := exchanges st !! response ≫= references_of.
End readers.

(** ** Observers of a fetch handle *)

Section observer.
Context {init observation : Type}.
(** What an observer of a fetch handle returns: another observer, an observation, or nothing. *)
Inductive returned := Resolves (observer : jsval -> result exn (option observation)) | Observes (o : observation) | Nothing.
(** [Object.assign(new URL(start.url), start)], as the fields of the start on a URL. *)
Context (url_with : jsval -> result exn jsval).
Definition resolveFetchObserver (observer : option (jsval -> option init -> result exn returned)) (i : option init)
    : option (jsval -> result exn (option observation)) :=
  match observer with
  | None => None
  | Some observer => Some (fun start =>
      let? input := url_with start in
      let? result := observer input i in
      match result with
      | Resolves observer => observer start
      | Observes o => Ok (Some o)
      | Nothing => Ok None
      end)
  end.
End observer.

(** ** What a program sees *)

(** The life of the responses of a program: the SDK makes some, the host others, and clones are
    made of any. *)
Inductive event := SdkResponds (exchange : nat) (url : jsstr) | HostResponds (url : jsstr) | Clones (response : nat) (unused : bool).
Definition step (st : Responses) (e : event) : Responses :=
  match e with
  | SdkResponds exchange url => snd (sdk_response exchange url st)
  | HostResponds url => snd (newResponse url st)
  | Clones response unused => match clone response unused st with Ok (_, st') => st' | Throw _ => st end
  end.

(** The specification: a response is what it was made as, and a clone is what its original is. *)
Record appearance := { a_exchange : option nat; a_url : jsstr }.
Definition appears (l : list appearance) (e : event) : list appearance :=
  match e with
  | SdkResponds exchange url => l ++ [{| a_exchange := Some exchange; a_url := url |}]
  | HostResponds url => l ++ [{| a_exchange := None; a_url := url |}]
  | Clones response unused => match l !! response with Some a => if unused then l ++ [a] else l | None => l end
  end.

(** A response in the store that appears so: what it is attached to, it has as own properties. *)
Definition entry_shows (st : Responses) (r : nat) (a : option appearance) : Prop :=
  match a with
  | None => host_url st !! r = None /\ exchanges st !! r = None /\ own_url st !! r = None /\ own_clone st !! r = None
  | Some a =>
      match a_exchange a with
      | Some x => is_Some (host_url st !! r) /\ exchanges st !! r = Some x /\ own_url st !! r = Some (a_url a) /\ own_clone st !! r = Some (x, a_url a)
      | None => host_url st !! r = Some (a_url a) /\ exchanges st !! r = None /\ own_url st !! r = None /\ own_clone st !! r = None
      end
  end.
Definition shows (st : Responses) (l : list appearance) : Prop :=
  made st = length l /\ forall r, entry_shows st r (l !! r).

Lemma shows_one_more st l st' a :
  shows st l -> made st' = S (made st) -> entry_shows st' (made st) (Some a) ->
  (forall r, r <> made st -> host_url st' !! r = host_url st !! r /\ exchanges st' !! r = exchanges st !! r /\
     own_url st' !! r = own_url st !! r /\ own_clone st' !! r = own_clone st !! r) ->
  shows st' (l ++ [a]).
Proof.
  intros [Hm Hs] Hm' Ha Hother. split; [rewrite length_app; cbn; lia|]. intros r.
  destruct (decide (r = length l)) as [->|Hr]; [rewrite list_lookup_middle by done; by rewrite Hm in Ha|].
  assert ((l ++ [a]) !! r = l !! r) as ->.
  { destruct (decide (r < length l)%nat); [by apply lookup_app_l|]. rewrite lookup_app_r by lia.
    rewrite (lookup_ge_None_2 l) by lia. apply lookup_ge_None_2. cbn. lia. }
  destruct (Hother r) as (H1 & H2 & H3 & H4); [by rewrite Hm|]. specialize (Hs r). unfold entry_shows in *. by rewrite H1, H2, H3, H4.
Qed.
Ltac lookups := cbn; rewrite ?lookup_insert_eq, ?lookup_insert_ne by congruence.
Lemma shows_sdk st l x url : shows st l -> shows (snd (sdk_response x url st)) (l ++ [{| a_exchange := Some x; a_url := url |}]).
Proof. intros H. eapply shows_one_more; [done..| |]; [lookups; by split_and!|]. intros r Hr. by lookups. Qed.
Lemma shows_host st l url : shows st l -> shows (snd (newResponse url st)) (l ++ [{| a_exchange := None; a_url := url |}]).
Proof.
  intros H. eapply shows_one_more; [done..| |].
  - destruct H as [Hm Hs]. specialize (Hs (made st)). rewrite lookup_ge_None_2 in Hs by lia. destruct Hs as (_ & ? & ? & ?). lookups. by split_and!.
  - intros r Hr. by lookups.
Qed.
Lemma shows_step st l e : shows st l -> shows (step st e) (appears l e).
Proof.
  intros H. destruct e as [x url|url|r unused]; cbn [step appears]; [by apply shows_sdk|by apply shows_host|].
  pose proof H as [Hm Hs]. pose proof (Hs r) as Hr. pose proof (Hs (made st)) as Hnew. rewrite lookup_ge_None_2 in Hnew by lia.
  destruct Hnew as (_ & N1 & N2 & N3). unfold clone.
  destruct (l !! r) as [[[x|] url]|]; cbn [entry_shows a_exchange a_url] in Hr.
  - destruct Hr as ([u ->] & H1 & H2 & ->). destruct unused; [|done]. cbn [newResponse].
    eapply shows_one_more; [done..| |]; [lookups; by split_and!|]. intros r' Hr'. by lookups.
  - destruct Hr as (-> & H1 & H2 & ->). destruct unused; [|done]. cbn [newResponse].
    eapply shows_one_more; [done..| |]; [lookups; by split_and!|]. intros r' Hr'. by lookups.
  - by destruct Hr as (-> & _).
Qed.

Lemma shows_run events st l : shows st l -> shows (foldl step st events) (foldl appears l events).
Proof. revert st l. induction events as [|e events IH]; intros st l H; [done|]. by apply IH, shows_step. Qed.

(** What a program learns about a response is what the response was made as, however many clones
    lie between: the completion and the references of the exchange that the SDK made it from and
    the url of that exchange, or nothing for the responses of others. *)
Theorem responses_keep_exchange {completion references : Type} (completion_of : nat -> completion) (references_of : nat -> option references) events r a :
  let st := foldl step no_responses events in
  foldl appears [] events !! r = Some a ->
  getResponseCompletion completion_of r st = completion_of <$> a_exchange a /\
  getResponseReferences references_of r st = a_exchange a ≫= references_of /\ url_of r st = Some (a_url a).
Proof.
  intros st Ha. assert (shows no_responses []) as [_ Hs]%(shows_run events) by (split; [done|]; intros []; by split_and!).
  specialize (Hs r). rewrite Ha in Hs. fold st in Hs. unfold getResponseCompletion, getResponseReferences, url_of. cbn [entry_shows] in Hs.
  destruct (a_exchange a) as [x|]; destruct Hs as (H1 & -> & -> & _); [by split_and!|]. rewrite H1. by split_and!.
Qed.
Lemma responses_keep_exchange_witness :
  let events := [HostResponds "h"%js; SdkResponds 7 "u"%js; Clones 1 true; Clones 2 true; Clones 0 true; Clones 2 false] in
  url_of 3 (foldl step no_responses events) = Some "u"%js /\ getResponseCompletion id 3 (foldl step no_responses events) = Some 7%nat /\
  getResponseCompletion id 4 (foldl step no_responses events) = None.
Proof.
  intros events. destruct (responses_keep_exchange id (fun _ => Some tt) events 3 {| a_exchange := Some 7%nat; a_url := "u"%js |} eq_refl) as (H1 & _ & H2).
  split_and!; [exact H2|exact H1|vm_compute; reflexivity].
Defined.

(** An observer of a fetch handle is called once per exchange; one that looks at URLs and returns
    an observer does what that one does, and a direct observer what it does itself. *)
Lemma resolved_observer {init observation : Type} url_with (observer : jsval -> option init -> result exn (returned (observation:=observation))) i start input r f :
  url_with start = Ok input -> observer input i = Ok r -> resolveFetchObserver url_with (Some observer) i = Some f ->
  f start = match r with Resolves g => g start | Observes o => Ok (Some o) | Nothing => Ok None end.
Proof. intros Hu Ho [= <-]. rewrite Hu. cbn. by rewrite Ho. Qed.
