(* ===== verification/Client.v ===== *)
(** * The client (packages/typescript/src/client.ts)

    The constructor, the calls that ask for or cancel a request, the registry of the
    sessions and fetch handles of a client, and [close].  Requests and their streams are
    in Request.v and Stream.v, buffered responses in Buffering.v. *)

From S2P Require Import Prelude Js Errors Deadline Validators Protocol Service Admission Buffering.

Local Open Scope js_scope.

(** ** Construction *)

Record ClientConfig := {
  config_service : ServiceConfig;
  defaultTimeoutMs : Z;
  maxResponseBytes : Z;
  config_admission : Admission;
  config_buffers : BufferBudget;
}.
Definition newClient (parse_base : jsval -> option BaseURL) (transport : bool) (options : jsval) :
    result exn ClientConfig :=
  let limit key fallback := or_else (get (get options "limits") key) (jint fallback) in
  let? service := service_config parse_base transport options in
  let? timeout := timeoutValue (or_else (get options "defaultTimeoutMs") (jint 30000)) in
  match positive (or_else (get options "maxResponseBytes") (jint (16 * 1024 * 1024))) with
  | None => Throw invalid_input_error
  | Some maximum =>
      let? admission := newAdmission (limit "maxConcurrent" 16) (limit "maxConcurrentPerPartition" 8)
                          (limit "maxQueued" 128) (limit "maxQueuedPerPartition" 32) in
      let? buffers := newBufferBudget (limit "maxBufferedBytes" (64 * 1024 * 1024)) in
      Ok {| config_service := service; defaultTimeoutMs := timeout; maxResponseBytes := maximum;
            config_admission := admission; config_buffers := buffers |}
  end.

(** ** The state of a request *)

Record RequestStatus := {
  state : jsstr;
  status_diagnostics : Ja3Diagnostics;
  status_error : option Ja3ProxyTransportError;
}.
Definition protocol_failure {A : Type} : result exn A := Throw (ETransport (localError PROTOCOL_ERROR None)).
Definition status_states : list jsstr := ["queued"; "active"; "complete"; "failed"].
(** [requestStatus] after its control call. *)
Definition status_reply (requestId : jsstr) (value : jsval) : result exn RequestStatus :=
  let own := get value "diagnostics" in
  let error := get value "error" in
  match get value "state" with
  | JStr state =>
      if negb (validateDiagnosticEnvelope Validators.requestStatus value) || negb (record value) ||
         negb (Protocol.diagnostics own (Some requestId) None) || negb (js_includes status_states state)
      then protocol_failure
      else
        match read_diagnostics (copyDiagnostics own) with
        | None => protocol_failure       (* the guard accepted them *)
        | Some diag =>
            if js_eqb state "failed" then
              if is_undefined error then protocol_failure
              else Ok {| state := state; status_diagnostics := diag;
                         status_error := Some (transportError error diag false true) |}
            else if negb (is_undefined error) ||
                    (js_eqb state "complete" && negb (is_str (get own "phase") "complete")) then protocol_failure
            else Ok {| state := state; status_diagnostics := diag; status_error := None |}
        end
  | _ => protocol_failure
  end.
(** [cancelRequest] after its control call. *)
Definition cancel_reply (requestId : jsstr) (value : jsval) : result exn unit :=
  if negb (validateDiagnosticEnvelope Validators.requestStatus value) || negb (record value) ||
     negb (Protocol.diagnostics (get value "diagnostics") (Some requestId) None)
  then protocol_failure else Ok tt.

Section calls.
Context (parseJson : list Z -> result exn jsval) (stringify : jsval -> jsstr).

(** The common part of both calls: [closed] is the client's, [begin] the outcome of
    [lifetime.begin]. *)
Definition about_request {A : Type} (reply : jsstr -> jsval -> result exn A) (closed service_closed : bool)
    (requestId partition : jsval) (begin : result exn unit) (w : control_answers) : result exn A :=
  if closed then Throw (ETransport (localError CANCELLED (Some client_closed)))
  else
    let? _ := validatePartition partition in
    match requestId with
    | JStr id =>
        if negb (opaque requestId) then Throw invalid_input_error
        else
          let? _ := begin in
          match control parseJson stringify service_closed (Some (JObject [("partition", partition)])) w with
          | Ok value => reply id (default JUndefined value)
          | Throw e => Throw (ETransport e)
          end
    | _ => Throw invalid_input_error
    end.
Definition requestStatus := about_request status_reply.
Definition cancelRequest := about_request cancel_reply.
End calls.
(** [tryRequest]: the outcome of [request] as a value. *)
Definition tryRequest {A : Type} (r : result exn A) : result Ja3ProxyTransportError A :=
  match r with Ok value => Ok value | Throw e => Throw (safeError e localDiagnostics false) end.

(** ** Sessions, fetch handles and closing *)

(** An [openSession] in flight: it awaits [createSession], or the close of the session it
    has opened for a caller who is gone. *)
Inductive opening := Creating | Undoing (session : nat).
Inductive closing_phase :=
| Stopping                                                  (* await deadline.race(stopped) *)
| StoppingLate                                              (* the deadline expired: await stopped *)
| ClosingSessions (late : bool) (pending : list nat) (failed : bool)
| ClosingFetchers (pending : list nat) (failed : bool)
| ClosingService
| Closed.
Record Client := {
  closed : bool;                         (* the lifetime *)
  openings : list (nat * opening);
  sessions : list nat;
  fetchers : list nat;
  phase : option closing_phase;
  expired : bool;                        (* the deadline of the close *)
  service_closed : bool;
  (* what the proofs observe *)
  opened : list nat;
  released : list nat;
}.
Definition emptyClient : Client := {|
  closed := false; openings := []; sessions := []; fetchers := []; phase := None; expired := false;
  service_closed := false; opened := []; released := [] |}.
Definition with_openings (o : list (nat * opening)) (c : Client) : Client := {|
  closed := closed c; openings := o; sessions := sessions c; fetchers := fetchers c; phase := phase c;
  expired := expired c; service_closed := service_closed c; opened := opened c; released := released c |}.
Definition with_sessions (s o r : list nat) (c : Client) : Client := {|
  closed := closed c; openings := openings c; sessions := s; fetchers := fetchers c; phase := phase c;
  expired := expired c; service_closed := service_closed c; opened := o; released := r |}.
Definition with_fetchers (f : list nat) (c : Client) : Client := {|
  closed := closed c; openings := openings c; sessions := sessions c; fetchers := f; phase := phase c;
  expired := expired c; service_closed := service_closed c; opened := opened c; released := released c |}.
Definition with_phase (cl : bool) (p : option closing_phase) (e sc : bool) (c : Client) : Client := {|
  closed := cl; openings := openings c; sessions := sessions c; fetchers := fetchers c; phase := p;
  expired := e; service_closed := sc; opened := opened c; released := released c |}.

Definition without (i : nat) (l : list nat) : list nat := List.filter (fun j => negb (Nat.eqb i j)) l.
Definition without_opening (i : nat) (l : list (nat * opening)) : list (nat * opening) :=
  List.filter (fun o => negb (Nat.eqb i o.1)) l.
Definition opening_of (i : nat) (c : Client) : option opening :=
  snd <$> List.find (fun o => Nat.eqb i o.1) (openings c).

(** [openSession]: [createSession] has opened the session [id].  It is registered before
    anything else; [retain] is [retainOnAbort]. *)
Definition session_created (i id : nat) (aborted retain : bool) (c : Client) : Client :=
  let c := with_sessions (sessions c ++ [id]) (opened c ++ [id]) (released c) c in
  let done := with_openings (without_opening i (openings c)) c in
  if closed c || aborted then
    if retain then done
    else if negb (closed c) then with_openings (without_opening i (openings c) ++ [(i, Undoing id)]) c
    else done
  else done.
(** [onClose] of a session, after its contexts are deleted. *)
Definition session_released (id : nat) (c : Client) : Client :=
  if existsb (Nat.eqb id) (sessions c)
  then with_sessions (without id (sessions c)) (opened c) (id :: released c) c else c.

Definition close_begins (c : Client) : Client :=
  match phase c with
  | Some _ => c
  | None => with_phase true (Some Stopping) false (service_closed c) c
  end.
Definition close_fetchers (pending : list nat) (failed : bool) (c : Client) : Client :=
  match pending, failed with
  | _ :: _, _ => with_phase (closed c) (Some (ClosingFetchers pending failed)) (expired c) (service_closed c) c
  | [], true => with_phase (closed c) None (expired c) (service_closed c) c
  | [], false => with_phase (closed c) (Some ClosingService) (expired c) (service_closed c) c
  end.
Definition close_sessions (late : bool) (pending : list nat) (failed : bool) (c : Client) : Client :=
  match pending, failed with
  | _ :: _, _ => with_phase (closed c) (Some (ClosingSessions late pending failed)) (expired c) (service_closed c) c
  | [], true => with_phase (closed c) None (expired c) (service_closed c) c
  | [], false => close_fetchers (fetchers c) false c
  end.
(** An await of the closing function has ended: [stopped] resolves when no operation is
    left, and the race before it when the deadline expires. *)
Definition close_continues (c : Client) : Client :=
  let stopped := bool_decide (openings c = []) in
  match phase c with
  | Some Stopping =>
      if stopped then close_sessions (expired c) (sessions c) false c
      else if expired c then
        if bool_decide (sessions c = []) then with_phase (closed c) (Some StoppingLate) (expired c) (service_closed c) c
        else close_sessions (expired c) (sessions c) false c
      else c
  | Some StoppingLate => if stopped then close_sessions (expired c) (sessions c) false c else c
  | _ => c
  end.
Definition close_settles (id : nat) (ok : bool) (c : Client) : Client :=
  match phase c with
  | Some (ClosingSessions late pending failed) =>
      if existsb (Nat.eqb id) pending then close_sessions late (without id pending) (failed || negb ok) c else c
  | Some (ClosingFetchers pending failed) =>
      if existsb (Nat.eqb id) pending then close_fetchers (without id pending) (failed || negb ok) c else c
  | Some ClosingService => with_fetchers [] (with_phase (closed c) (Some Closed) (expired c) true c)
  | _ => c
  end.

Inductive client_event :=
| OpenBegins (i : nat)
| OpenCreated (i id : nat) (aborted retain : bool)
| OpenEnds (i : nat)                     (* createSession failed, or the close of the session has ended *)
| SessionReleased (id : nat)
| FetchCreated (f : nat)
| FetchReleased (f : nat)                (* closed, or collected *)
| CloseBegins
| Expires
| CloseContinues
| CloseSettles (id : nat) (ok : bool).
Definition client_step (c : Client) (ev : client_event) : Client :=
  match ev with
  | OpenBegins i => if closed c then c else with_openings (openings c ++ [(i, Creating)]) c
  | OpenCreated i id aborted retain =>
      match opening_of i c with Some Creating => session_created i id aborted retain c | _ => c end
  | OpenEnds i => with_openings (without_opening i (openings c)) c
  | SessionReleased id => session_released id c
  | FetchCreated f => if closed c then c else with_fetchers (fetchers c ++ [f]) c
  | FetchReleased f => with_fetchers (without f (fetchers c)) c
  | CloseBegins => close_begins c
  | Expires => with_phase (closed c) (phase c) true (service_closed c) c
  | CloseContinues => close_continues c
  | CloseSettles id ok => close_settles id ok c
  end.

(** ** What is true of every client *)

(** What the client relies on: fresh numbers, and of a session that its close succeeds
    only after [onClose], and never under a deadline that had expired before. *)
Definition legal_client (c : Client) (ev : client_event) : Prop :=
  match ev with
  | OpenCreated _ id _ _ => id ∉ opened c
  | CloseSettles id true =>
      match phase c with
      | Some (ClosingSessions late _ _) => late = false /\ id ∉ sessions c
      | _ => True
      end
  | _ => True
  end.
Inductive client_reachable : Client -> Prop :=
| client_new : client_reachable emptyClient
| client_steps c ev : client_reachable c -> legal_client c ev -> client_reachable (client_step c ev).

Definition settled (c : Client) : Prop := openings c = [] /\ sessions c = [].
Definition phase_ok (c : Client) : Prop :=
  match phase c with
  | Some (ClosingSessions late pending failed) =>
      pending <> [] /\ (late = false -> openings c = [] /\ (failed = false -> forall id, id ∈ sessions c -> id ∈ pending))
  | Some (ClosingFetchers _ _) | Some ClosingService => settled c
  | Some Closed => settled c /\ fetchers c = [] /\ service_closed c = true
  | _ => True
  end.
Record client_ok (c : Client) : Prop := {
  ok_owned : forall id, id ∈ opened c -> id ∈ sessions c \/ id ∈ released c;
  ok_registered : forall id, id ∈ sessions c -> id ∈ opened c;
  ok_closed : phase c <> None -> closed c = true;
  ok_phase : phase_ok c;
}.

Lemma elem_without x i l : x ∈ without i l <-> x <> i /\ x ∈ l.
Proof.
  unfold without. rewrite !list_elem_of_In, List.filter_In, negb_true_iff, Nat.eqb_neq. naive_solver.
Qed.
(** Fewer openings keep every phase. *)
Lemma fewer_openings c l :
  client_ok c -> (openings c = [] -> l = []) -> client_ok (with_openings l c).
Proof.
  intros [] Hl. split; try done. unfold phase_ok, settled in *. cbn.
  destruct (phase c) as [[| |late p f|p f| |]|]; naive_solver.
Qed.
Lemma with_phase_ok p e sc c :
  client_ok c -> (p <> None -> closed c = true) -> phase_ok (with_phase (closed c) p e sc c) -> client_ok (with_phase (closed c) p e sc c).
Proof. intros [] Hcl Hp. by split. Qed.
Lemma close_fetchers_ok pending failed c :
  client_ok c -> closed c = true -> settled c -> client_ok (close_fetchers pending failed c).
Proof. intros H Hcl Hs. unfold close_fetchers. destruct pending; [destruct failed|]; by apply with_phase_ok. Qed.
Lemma close_sessions_ok late pending failed c :
  client_ok c -> closed c = true ->
  (late = false -> openings c = [] /\ (failed = false -> forall id, id ∈ sessions c -> id ∈ pending)) ->
  (pending = [] -> failed = false -> settled c) -> client_ok (close_sessions late pending failed c).
Proof.
  intros H Hcl Hp Hs. unfold close_sessions. destruct pending; [destruct failed|].
  - by apply with_phase_ok.
  - apply close_fetchers_ok; auto.
  - by apply with_phase_ok.
Qed.
Lemma subset_nil {A} (l : list A) : (forall x, x ∈ l -> x ∈ []) -> l = [].
Proof. destruct l as [|x l]; [done|]. intros H. exfalso. apply (not_elem_of_nil x), H. by left. Qed.

Lemma session_created_ok i id aborted retain c :
  client_ok c -> openings c <> [] -> client_ok (session_created i id aborted retain c).
Proof.
  intros H Hne. unfold session_created. set (c1 := with_sessions _ _ _ c).
  assert (client_ok c1) as H1.
  { destruct H. split; cbn; try done.
    - intros x [Hx|Hx]%elem_of_app; [destruct (ok_owned0 x Hx); set_solver|set_solver].
    - intros x [Hx|Hx]%elem_of_app; [specialize (ok_registered0 x Hx); set_solver|set_solver].
    - unfold phase_ok, settled in *. cbn. destruct (phase c) as [[| |late p f|p f| |]|]; try done; naive_solver. }
  assert (openings c1 = [] -> forall l : list (nat * opening), l = []) as Ho by done.
  destruct (closed c1 || aborted); [destruct retain; [|destruct (negb (closed c1))]|]; apply fewer_openings; auto.
Qed.
Lemma session_released_ok id c : client_ok c -> client_ok (session_released id c).
Proof.
  intros H. unfold session_released. destruct (existsb _ _); [|done]. destruct H. split; cbn; try done.
  - intros x Hx. rewrite elem_without, elem_of_cons. destruct (decide (x = id)); [by right; left|].
    destruct (ok_owned0 x Hx); auto.
  - intros x [_ Hx]%elem_without. auto.
  - unfold phase_ok, settled in *. cbn. destruct (phase c) as [[| |late p f|p f| |]|]; try done.
    + destruct ok_phase0 as [? Hp]. split; [done|]. intros Hl. destruct (Hp Hl) as [? Hs]. split; [done|].
      intros Hf x [_ Hx]%elem_without. auto.
    + destruct ok_phase0 as [? ->]. done.
    + destruct ok_phase0 as [? ->]. done.
    + destruct ok_phase0 as [[? ->] ?]. done.
Qed.
Lemma close_continues_ok c : client_ok c -> client_ok (close_continues c).
Proof.
  intros H. unfold close_continues. pose proof (ok_closed c H) as Hcl.
  destruct (phase c) as [[| |late p f|p f| |]|] eqn:Ep; try done; specialize (Hcl ltac:(done)).
  - case_bool_decide as Ho; [|destruct (expired c) eqn:Ee; [case_bool_decide as Hs|]]; [..|done].
    + apply close_sessions_ok; [done|done|auto|]. intros Hs _. by split.
    + by apply with_phase_ok.
    + apply close_sessions_ok; [done|done| |]; congruence.
  - case_bool_decide as Ho; [|done]. apply close_sessions_ok; [done|done|auto|]. intros Hs _. by split.
Qed.
Lemma close_settles_ok id ok c : client_ok c -> legal_client c (CloseSettles id ok) -> client_ok (close_settles id ok c).
Proof.
  intros H Hlegal. unfold close_settles. pose proof (ok_closed c H) as Hcl. pose proof (ok_phase c H) as Hp.
  unfold phase_ok in Hp. unfold legal_client in Hlegal.
  destruct (phase c) as [[| |late pending failed|pending failed| |]|] eqn:Ep; try done; specialize (Hcl ltac:(done)).
  - destruct (existsb _ pending); [|done]. destruct Hp as [_ Hp].
    assert (late = false -> failed || negb ok = false -> forall x, x ∈ sessions c -> x ∈ without id pending) as Hrest.
    { intros -> [-> ->%negb_false_iff]%orb_false_elim x Hx. destruct Hlegal as [_ Hid], (Hp eq_refl) as [_ Hsub].
      rewrite elem_without. split; [congruence|auto]. }
    apply close_sessions_ok; [done..| |].
    + intros Hl. split; [by apply Hp|]. auto.
    + intros Hnil Hf. assert (late = false) as Hl.
      { apply orb_false_elim in Hf as [_ ->%negb_false_iff]. by destruct Hlegal. }
      split; [by apply Hp|]. apply subset_nil. rewrite <- Hnil. auto.
  - destruct (existsb _ pending); [|done]. by apply close_fetchers_ok.
  - destruct Hp, H. split; try done.
Qed.
Lemma client_step_ok c ev : client_ok c -> legal_client c ev -> client_ok (client_step c ev).
Proof.
  intros H Hlegal. destruct ev as [i|i id aborted retain|i|id|f|f| | | |id ok]; cbn [client_step].
  - destruct (closed c) eqn:Ec; [done|]. pose proof (ok_closed c H) as Hcl. destruct H. split; try done. unfold phase_ok. cbn. destruct (phase c) as [p|]; [|done].
    by rewrite Ec in Hcl; specialize (Hcl ltac:(done)).
  - unfold opening_of. destruct (List.find _ (openings c)) as [[j o]|] eqn:Ef; [|done]. cbn. destruct o; [|done].
    apply session_created_ok; [done|]. by destruct (openings c).
  - apply fewer_openings; [done|]. by intros ->.
  - by apply session_released_ok.
  - destruct (closed c) eqn:Ec; [done|]. pose proof (ok_closed c H) as Hcl. destruct H. split; try done. unfold phase_ok. cbn. destruct (phase c) as [p|]; [|done].
    by rewrite Ec in Hcl; specialize (Hcl ltac:(done)).
  - destruct H. split; try done. unfold phase_ok, settled in *. cbn.
    destruct (phase c) as [[| |late p q|p q| |]|]; try done. by destruct ok_phase0 as (? & -> & ?).
  - unfold close_begins. destruct (phase c) eqn:Ep; [done|]. destruct H. by split.
  - destruct H. by split.
  - by apply close_continues_ok.
  - by apply close_settles_ok.
Qed.
Lemma client_reachable_ok c : client_reachable c -> client_ok c.
Proof.
  induction 1 as [|c ev _ IH Hl]; [|by apply client_step_ok].
  split; try done; intros id Hid; by apply not_elem_of_nil in Hid.
Qed.

(** C8: a client loses no session: every session it has opened is registered until its own
    close has succeeded, even when its caller was gone or the client was closing when it
    was created, and once [close] has succeeded nothing is being opened, all of them are
    closed, no fetch handle is left and the service is closed. *)
Theorem client_close_complete c :
  client_reachable c ->
  (forall id, id ∈ opened c -> id ∈ sessions c \/ id ∈ released c) /\
  (phase c = Some Closed ->
   closed c = true /\ openings c = [] /\ (forall id, id ∈ opened c -> id ∈ released c) /\
   fetchers c = [] /\ service_closed c = true).
Proof.
  intros H%client_reachable_ok. split; [apply (ok_owned c H)|]. intros Hp.
  pose proof (ok_phase c H) as Hok. unfold phase_ok in Hok. rewrite Hp in Hok.
  destruct Hok as ((Ho & Hs) & Hf & Hsc). split_and!; try done.
  - apply (ok_closed c H). by rewrite Hp.
  - intros id Hid. destruct (ok_owned c H id Hid) as [Hin|]; [|done]. rewrite Hs in Hin. by apply not_elem_of_nil in Hin.
Qed.

Lemma copy_phase v : get (copyDiagnostics v) "phase" = get v "phase".
Proof. reflexivity. Qed.
Lemma phase_string_inj p q : phase_string p = phase_string q -> p = q.
Proof. destruct p, q; done. Qed.
Lemma status_reply_sound id value st :
  status_reply id value = Ok st ->
  Errors.requestId (status_diagnostics st) = id /\ well_formed (status_diagnostics st) /\
  state st ∈ status_states /\
  (is_Some (status_error st) <-> state st = "failed") /\
  (state st = "complete" -> Errors.phase (status_diagnostics st) = Errors.complete) /\
  (forall e, status_error st = Some e -> id <> "control" ->
     well_formed (Errors.diagnostics e) /\ Errors.requestId (Errors.diagnostics e) = id).
Proof.
  unfold status_reply. destruct (get value "state") as [| | | |s| | | |]; try done.
  destruct (_ || negb (js_includes _ s)) eqn:E; [done|]. reflect_bools. cbn [js_includes] in *.
  match goal with H : Protocol.diagnostics _ _ _ = true |- _ => apply diagnostics_sound in H as (d & Hd & Hcopy & Hid & _) end.
  rewrite Hcopy, read_diagnostics_js. specialize (Hid _ eq_refl).
  destruct (js_eqb s "failed") eqn:Ef.
  - apply js_eqb_eq in Ef as ->. destruct (is_undefined _); [done|]. intros [= <-]. cbn [state status_diagnostics status_error].
    split; [done|]. split; [done|]. split; [by eapply bool_decide_eq_true_1|]. split; [split; [done|by eexists]|].
    split; [by intros [=]|]. intros e [= <-] Hc. rewrite <- Hid. apply transportError_typed; [done|congruence].
  - destruct (negb (is_undefined _) || _) eqn:Ee; [done|]. intros [= <-]. cbn [state status_diagnostics status_error].
    split; [done|]. split; [done|]. split; [by eapply bool_decide_eq_true_1|]. split; [|split; [|done]].
    + split; [by intros []|]. intros ->. by rewrite js_eqb_refl in Ef.
    + intros ->. apply orb_false_elim in Ee as [_ Ee]. rewrite js_eqb_refl in Ee. cbn [andb] in Ee.
      apply negb_false_iff, is_str_inv in Ee. rewrite <- copy_phase, Hcopy in Ee.
      change (JStr (phase_string (Errors.phase d)) = JStr "complete") in Ee. injection Ee as Ee.
      by apply phase_string_inj.
Qed.

(** What the status of a request says.  A status the client returns is about the request
    that was asked for, with well-formed diagnostics; it has an error exactly when the
    state is failed, whose diagnostics are well formed and of the same request; and a
    complete request has completed diagnostics. *)
Theorem requestStatus_sound parseJson stringify closed service_closed requestId partition begin w st :
  requestStatus parseJson stringify closed service_closed requestId partition begin w = Ok st ->
  exists id, requestId = JStr id /\ opaque requestId = true /\ opaque partition = true /\
  Errors.requestId (status_diagnostics st) = id /\ well_formed (status_diagnostics st) /\
  state st ∈ status_states /\
  (is_Some (status_error st) <-> state st = "failed") /\
  (state st = "complete" -> Errors.phase (status_diagnostics st) = Errors.complete) /\
  (forall e, status_error st = Some e -> id <> "control" ->
     well_formed (Errors.diagnostics e) /\ Errors.requestId (Errors.diagnostics e) = id).
Proof.
  unfold requestStatus, about_request. destruct closed; [done|]. unfold validatePartition.
  destruct (opaque partition) eqn:Epart; [|done]. cbn [negb result_bind].
  destruct requestId as [| | | |id| | | |]; try done. destruct (opaque (JStr id)) eqn:Eid; [|done]. cbn [negb].
  destruct begin as [[]|]; [|done]. cbn [result_bind]. destruct (control _ _ _ _ _) as [value|]; [|done].
  intros H. exists id. do 3 (split; [done|]). by eapply status_reply_sound.
Qed.

Lemma last_slash l : exists k, rev (drop_slashes (rev l)) ++ [47%N] = k ++ [47%N] /\ last k <> Some 47%N.
Proof.
  exists (rev (drop_slashes (rev l))). split; [done|].
  induction (rev l) as [|c r IH]; [done|]. cbn. destruct (N.eqb c 47) eqn:E; [done|]. cbn.
  rewrite last_snoc. intros [= ->]. done.
Qed.
Lemma newBufferBudget_limit v b : newBufferBudget v = Ok b -> 0 < limit b.
Proof. unfold newBufferBudget. destruct (positive v) eqn:E; [|done]. apply positive_Some in E as [_ ?]. intros [= <-]. cbn. lia. Qed.
Lemma existsb_false {A} (f : A -> bool) l x : existsb f l = false -> x ∈ l -> f x = false.
Proof.
  intros H Hx. destruct (f x) eqn:E; [|done]. rewrite <- H. symmetry. apply existsb_exists. exists x.
  by rewrite <- list_elem_of_In.
Qed.
Lemma service_config_sound parse_base transport options s :
  service_config parse_base transport options = Ok s ->
  get options "token" = JStr (token s) /\ 32 <= js_length (token s) /\
  (forall u, u ∈ units (token s) -> space_unit u = false /\ (32 <= u)%N /\ u <> 127%N) /\
  (exists k, units (path s) = k ++ [47%N] /\ last k <> Some 47%N) /\
  0 < controlTimeoutMs s <= MAX_TIMEOUT_MS /\ 0 <= ttlMs (service s) <= MAX_TIMEOUT_MS.
Proof.
  unfold service_config. destruct (parse_base _) as [base|]; [|done]. destruct (_ || _); [done|].
  destruct (get options "token") as [| | | |tok| | | |]; try done. destruct (token_ok (JStr tok)) eqn:Etok; [|done].
  destruct transport; [|done]. cbn [negb]. destruct (timeoutValue _) as [ct|] eqn:Et; [|done]. cbn [result_bind].
  apply timeoutValue_Ok in Et as [_ Et]. unfold newService. destruct (nonnegativeInteger _) as [z|] eqn:Ez; [|done].
  apply nonnegativeInteger_Some in Ez as [_ Ez]. destruct (z >? MAX_TIMEOUT_MS) eqn:Ezt; [done|]. intros [= <-].
  cbn [token path controlTimeoutMs service ttlMs]. rewrite Z.gtb_ltb in Ezt. unfold token_ok in Etok. reflect_bools.
  split; [done|]. split; [done|]. split; [|split; [apply last_slash|lia]].
  intros u Hu. match goal with H : class_any _ tok = false |- _ => pose proof (existsb_false _ _ u H Hu) as Hc end.
  unfold between in Hc. cbn beta in Hc. reflect_bools.
  split; [done|]. split; [|by apply N.eqb_neq]. destruct (N.leb_spec 0 u); [|lia]. destruct (N.leb_spec u 31); [|lia].
  by destruct H3.
Qed.

(** What a client is created with: a token of at least 32 characters without white space
    or control characters, a base path that ends with one slash, timeouts and lifetimes
    that fit a timer, and positive limits. *)
Theorem newClient_sound parse_base transport options c :
  newClient parse_base transport options = Ok c ->
  let s := config_service c in
  get options "token" = JStr (token s) /\ 32 <= js_length (token s) /\
  (forall u, u ∈ units (token s) -> space_unit u = false /\ (32 <= u)%N /\ u <> 127%N) /\
  (exists k, units (path s) = k ++ [47%N] /\ last k <> Some 47%N) /\
  0 < controlTimeoutMs s <= MAX_TIMEOUT_MS /\ 0 <= ttlMs (service s) <= MAX_TIMEOUT_MS /\
  0 < defaultTimeoutMs c <= MAX_TIMEOUT_MS /\ 0 < maxResponseBytes c <= MAX_SAFE_INTEGER /\
  positive_limits (limits (config_admission c)) /\ 0 < limit (config_buffers c).
Proof.
  unfold newClient. destruct (service_config parse_base transport options) as [s|] eqn:Es; [|done]. cbn [result_bind].
  destruct (timeoutValue _) as [dt|] eqn:Et; [|done]. cbn [result_bind]. apply timeoutValue_Ok in Et as [_ Et].
  destruct (positive _) as [maximum|] eqn:Em; [|done]. apply positive_Some in Em as [_ Em].
  destruct (newAdmission _ _ _ _) as [a|] eqn:Ea; [|done]. cbn [result_bind]. apply new_wf in Ea as [Ha _].
  destruct (newBufferBudget _) as [b|] eqn:Eb; [|done]. cbn [result_bind]. intros [= <-].
  apply newBufferBudget_limit in Eb. cbn [config_service defaultTimeoutMs maxResponseBytes config_admission config_buffers].
  destruct (service_config_sound _ _ _ _ Es) as (? & ? & ? & ? & ? & ?). cbv zeta. split_and!; done || lia.
Qed.

(** ** Demonstrations *)

Definition demo_base (_ : jsval) : option BaseURL := Some {|
  b_protocol := "https:"; b_username := ""; b_password := ""; b_search := ""; b_hash := ""; b_pathname := "/v1//" |}.
Definition demo_options : jsval := JObject
  [("baseUrl", JStr "https://s.test/v1//"); ("token", JStr "0123456789abcdef0123456789abcdef");
   ("limits", JObject [("maxConcurrent", jint 4)])].
Lemma newClient_sound_witness :
  exists c, newClient demo_base true demo_options = Ok c /\ units (path (config_service c)) = units "/v1/" /\
    positive_limits (limits (config_admission c)).
Proof.
  eexists. edestruct (newClient_sound demo_base true demo_options) as (_ & _ & _ & _ & _ & _ & _ & _ & H & _);
    [vm_compute; reflexivity|].
  split; [vm_compute; reflexivity|]. split; [vm_compute; reflexivity|exact H].
Defined.

Definition demo_completed : jsval :=
  match diagnostics_js demo_diagnostics with
  | JObject props => JObject [("state", JStr "complete"); ("diagnostics", JObject (assoc_set "phase" (JStr "complete") props))]
  | v => v
  end.
Definition demo_answers : control_answers := {|
  admitted := Ok tt; limit_now := 1000; aborted_before := None;
  answer := Ok {| Service.status := 200; content_type := Some "application/json"; Service.body := Some [] |}; aborted_after := None |}.
Lemma requestStatus_sound_witness :
  exists st, requestStatus (fun _ => Ok demo_completed) (fun _ => "{}") false false (JStr "r-1") (JStr "p") (Ok tt) demo_answers = Ok st /\
    state st = "complete" /\ Errors.phase (status_diagnostics st) = Errors.complete.
Proof.
  eexists. edestruct (requestStatus_sound (fun _ => Ok demo_completed) (fun _ => "{}") false false (JStr "r-1") (JStr "p") (Ok tt)
    demo_answers) as (id & _ & _ & _ & _ & _ & _ & _ & H & _); [vm_compute; reflexivity|].
  split; [vm_compute; reflexivity|]. split; [reflexivity|]. apply H. reflexivity.
Defined.

(** A session that is created while the client closes. *)
Definition demo_events : list client_event :=
  [OpenBegins 1; FetchCreated 3; CloseBegins; OpenCreated 1 7 true false; CloseContinues; SessionReleased 7;
   CloseSettles 7 true; CloseSettles 3 true; CloseSettles 0 true].
Definition demo_client : Client := foldl client_step emptyClient demo_events.
Lemma client_close_complete_witness :
  phase demo_client = Some Closed /\ opened demo_client = [7%nat] /\
  (closed demo_client = true /\ openings demo_client = [] /\ (forall id, id ∈ opened demo_client -> id ∈ released demo_client) /\
   fetchers demo_client = [] /\ service_closed demo_client = true).
Proof.
  split; [reflexivity|]. split; [reflexivity|]. apply client_close_complete; [|reflexivity].
  unfold demo_client, demo_events. cbn [foldl].
  repeat (apply client_steps; [|cbn; try done; try (split; [done|]); try apply not_elem_of_nil]). apply client_new.
Defined.
