(* ===== verification/Ipc.v ===== *)
(** * Values that cross the worker boundary (packages/typescript/src/sync/ipc.ts)

    The synchronous client runs the asynchronous one in a worker thread.  What it
    sends is validated and copied on both sides, and what comes back is encoded by
    the worker and decoded by the caller's thread.  A value that crosses the port is
    a structured clone; the values the two sides exchange are plain data, on which
    cloning is the identity.  [URL] and [Headers] are the host's and parameters. *)

From S2P Require Import Prelude Js Errors Deadline Buffering Validators Protocol Service.

Local Open Scope js_scope.

Definition MAX_TIMEOUT_MS : Z := 2147483647.
Definition MAX_METADATA_BYTES : Z := 1048576.

(** [localError] with its two arguments, [invalid] and the uncertain outcome. *)
Definition localError (c : Ja3ErrorCode) (k : option Ja3ProxyFailureKind) : exn :=
  ETransport (Errors.localError c k).
Definition invalid {A : Type} : result exn A := Throw (localError INVALID_REQUEST (Some invalid_input)).
Definition protocol_error {A : Type} : result exn A := Throw (localError PROTOCOL_ERROR None).
Definition uncertain_diagnostics : Ja3Diagnostics := {|
  requestId := requestId localDiagnostics; attempt := attempt localDiagnostics;
  phase := phase localDiagnostics; delivery := possibly_sent; queueMs := queueMs localDiagnostics;
  headersMs := headersMs localDiagnostics; bodyMs := bodyMs localDiagnostics;
  totalMs := totalMs localDiagnostics; requestBytes := requestBytes localDiagnostics;
  responseBytes := responseBytes localDiagnostics; tlsProfile := tlsProfile localDiagnostics;
  traceId := traceId localDiagnostics; spanId := spanId localDiagnostics;
  clientReused := clientReused localDiagnostics; contextId := contextId localDiagnostics;
  cookieRevision := cookieRevision localDiagnostics |}.
Definition uncertainError (c : Ja3ErrorCode) : Ja3ProxyTransportError :=
  newTransportError c uncertain_diagnostics false (Some worker_unavailable) None.

(** ** Readers *)

Definition object (value : jsval) : result exn jsval :=
  match value with JObject _ => Ok value | _ => invalid end.
Definition keys (value : jsval) (allowed : list jsstr) : result exn unit :=
  if existsb (fun key => negb (js_includes allowed key)) (object_keys value) then invalid else Ok tt.
Definition text (value : jsval) (max : Z) : result exn jsstr :=
  match value with
  | JStr s => if (js_length s =? 0) || (js_length s >? max) then invalid else Ok s
  | _ => invalid
  end.
Definition integer (value : jsval) (fallback maximum : Z) : result exn Z :=
  match (if is_undefined value then jint fallback else value) with
  | JNum (NInt z) =>
      if negb (isSafeInteger (NInt z)) || (z <=? 0) || (z >? maximum) then invalid else Ok z
  | _ => invalid
  end.
(** [...(value === undefined ? {} : { key: read(value) })] *)
Definition optional {A : Type} (read : jsval -> result exn A) (value : jsval) : result exn (option A) :=
  if is_undefined value then Ok None else let? a := read value in Ok (Some a).
Definition boolean (value : jsval) : result exn bool :=
  match value with JBool b => Ok b | _ => invalid end.

(** What the source reads of a parsed URL. *)
Record Link := { link_protocol : jsstr; link_username : jsstr; link_password : jsstr; link_href : jsstr }.

Record Identity := { i_tlsProfile : jsstr; i_emulateHeaders : bool; i_userAgent : option jsstr }.
Definition identity_js (i : Identity) : jsval :=
  JObject ([("tlsProfile", JStr (i_tlsProfile i)); ("emulateHeaders", JBool (i_emulateHeaders i))]
           ++ optional_field "userAgent" (opt_js JStr (i_userAgent i))).
Definition identity (value : jsval) : result exn Identity :=
  let? input := object value in
  let? _ := keys input ["tlsProfile"; "emulateHeaders"; "userAgent"] in
  let? emulate := boolean (get input "emulateHeaders") in
  let? profile := text (get input "tlsProfile") 64 in
  let? agent := optional (fun v => text v 8192) (get input "userAgent") in
  Ok {| i_tlsProfile := profile; i_emulateHeaders := emulate; i_userAgent := agent |}.

Inductive Egress := direct | proxy (url : jsstr).
Record Connection := { c_egress : Egress; c_identity : Identity }.
Definition egress_js (e : Egress) : jsval :=
  match e with
  | direct => JObject [("mode", JStr "direct")]
  | proxy u => JObject [("mode", JStr "proxy"); ("url", JStr u)]
  end.
Definition connection_js (c : Connection) : jsval :=
  JObject [("egress", egress_js (c_egress c)); ("identity", identity_js (c_identity c))].
Definition connection (value : jsval) : result exn Connection :=
  let? input := object value in
  let? _ := keys input ["egress"; "identity"] in
  let? egress := object (get input "egress") in
  let? _ := keys egress ["mode"; "url"] in
  if is_str (get egress "mode") "direct" && is_undefined (get egress "url") then
    let? i := identity (get input "identity") in Ok {| c_egress := direct; c_identity := i |}
  else if negb (is_str (get egress "mode") "proxy") then invalid
  else
    let? u := text (get egress "url") 8192 in
    let? i := identity (get input "identity") in
    Ok {| c_egress := proxy u; c_identity := i |}.

(** ** Requests *)

Record SessionRequest := {
  r_url : jsstr; r_method : jsstr; r_headers : option (list (jsstr * jsstr));
  r_body : option jsval; r_timeoutMs : option Z; r_maxResponseBytes : option Z;
  r_attempt : option Z; r_requestId : option jsstr }.
Definition session_request_fields (r : SessionRequest) : list (jsstr * jsval) :=
  [("url", JStr (r_url r)); ("method", JStr (r_method r))]
  ++ optional_field "headers" (opt_js pairs_js (r_headers r))
  ++ optional_field "body" (opt_js id (r_body r))
  ++ optional_field "timeoutMs" (opt_js jint (r_timeoutMs r))
  ++ optional_field "maxResponseBytes" (opt_js jint (r_maxResponseBytes r))
  ++ optional_field "attempt" (opt_js jint (r_attempt r))
  ++ optional_field "requestId" (opt_js JStr (r_requestId r)).
Definition session_request_js (r : SessionRequest) : jsval := JObject (session_request_fields r).

Inductive Target := ToConnection (c : Connection) | ToContext (contextId : jsstr).
Record Request := { q_common : SessionRequest; q_partition : jsstr; q_target : Target }.
Definition target_field (t : Target) : jsstr * jsval :=
  match t with
  | ToConnection c => ("connection", connection_js c)
  | ToContext id => ("contextId", JStr id)
  end.
Definition request_js (q : Request) : jsval :=
  JObject (session_request_fields (q_common q)
           ++ [("partition", JStr (q_partition q)); target_field (q_target q)]).

Record SessionOptions := {
  o_partition : jsstr; o_connection : Connection; o_ttlMs : option Z; o_timeoutMs : option Z;
  o_maxResponseBytes : option Z; o_managed : bool; o_allowedOrigins : option (list jsstr) }.
Definition session_options_js (o : SessionOptions) : jsval :=
  JObject
    ([("partition", JStr (o_partition o)); ("connection", connection_js (o_connection o))]
     ++ optional_field "ttlMs" (opt_js jint (o_ttlMs o))
     ++ optional_field "timeoutMs" (opt_js jint (o_timeoutMs o))
     ++ optional_field "maxResponseBytes" (opt_js jint (o_maxResponseBytes o))
     ++ [("cookieMode", JStr (if o_managed o then "managed" else "external"))]
     ++ optional_field "allowedOrigins" (opt_js (fun l => JArray (map JStr l)) (o_allowedOrigins o))).

Record Limits := {
  l_maxConcurrent : option Z; l_maxConcurrentPerPartition : option Z; l_maxQueued : option Z;
  l_maxQueuedPerPartition : option Z; l_maxBufferedBytes : option Z }.
Definition limits_js (l : Limits) : jsval :=
  JObject
    (optional_field "maxConcurrent" (opt_js jint (l_maxConcurrent l))
     ++ optional_field "maxConcurrentPerPartition" (opt_js jint (l_maxConcurrentPerPartition l))
     ++ optional_field "maxQueued" (opt_js jint (l_maxQueued l))
     ++ optional_field "maxQueuedPerPartition" (opt_js jint (l_maxQueuedPerPartition l))
     ++ optional_field "maxBufferedBytes" (opt_js jint (l_maxBufferedBytes l))).
Record ClientConfig := {
  k_baseUrl : jsstr; k_token : jsstr; k_controlTimeoutMs : option Z; k_defaultTimeoutMs : option Z;
  k_maxResponseBytes : option Z; k_capabilitiesTtlMs : option Z; k_limits : option Limits }.
Definition client_fields (k : ClientConfig) : list (jsstr * jsval) :=
  [("baseUrl", JStr (k_baseUrl k)); ("token", JStr (k_token k))]
  ++ optional_field "controlTimeoutMs" (opt_js jint (k_controlTimeoutMs k))
  ++ optional_field "defaultTimeoutMs" (opt_js jint (k_defaultTimeoutMs k))
  ++ optional_field "maxResponseBytes" (opt_js jint (k_maxResponseBytes k))
  ++ optional_field "capabilitiesTtlMs" (opt_js jint (k_capabilitiesTtlMs k))
  ++ optional_field "limits" (opt_js limits_js (k_limits k)).
Record BridgeConfig := {
  b_client : ClientConfig; b_startupTimeoutMs : Z; b_operationTimeoutMs : Z; b_maxRequestBytes : Z;
  b_maxBatchRequests : Z; b_maxBatchBytes : Z; b_maxBatchConcurrency : Z }.
Definition bridge_fields (b : BridgeConfig) : list (jsstr * jsval) :=
  [("startupTimeoutMs", jint (b_startupTimeoutMs b)); ("operationTimeoutMs", jint (b_operationTimeoutMs b));
   ("maxRequestBytes", jint (b_maxRequestBytes b)); ("maxBatchRequests", jint (b_maxBatchRequests b));
   ("maxBatchBytes", jint (b_maxBatchBytes b)); ("maxBatchConcurrency", jint (b_maxBatchConcurrency b))].
Definition config_js (b : BridgeConfig) : jsval :=
  JObject (("client", JObject (client_fields (b_client b))) :: bridge_fields b).

(** [results.map(read)], stopping at the first error. *)
Fixpoint each {A B : Type} (read : A -> result exn B) (l : list A) : result exn (list B) :=
  match l with
  | [] => Ok []
  | a :: l => let? b := read a in let? bs := each read l in Ok (b :: bs)
  end.

Section host.
Context (parse_url : jsstr -> option Link) (valid_headers : list (jsstr * jsstr) -> bool).

Definition url (value : jsval) : result exn jsstr :=
  let? s := match value with JHost (HUrl h) => Ok h | _ => text value MAX_METADATA_BYTES end in
  match parse_url s with
  | None => invalid
  | Some parsed =>
      if negb (js_includes ["http:"; "https:"] (link_protocol parsed)) ||
         negb (js_eqb (link_username parsed) "") || negb (js_eqb (link_password parsed) "")
      then invalid else Ok (link_href parsed)
  end.

Definition header_entry (entry : jsval) : result exn (jsstr * jsstr) :=
  match entry with JArray [JStr name; JStr content] => Ok (name, content) | _ => invalid end.
Definition header_field (field : jsstr * jsval) : result exn (jsstr * jsstr) :=
  match field.2 with JStr content => Ok (field.1, content) | _ => invalid end.
Definition pairs_bytes (pairs : list (jsstr * jsstr)) : Z :=
  fold_left (fun size '(name, entry) => size + byte_length name + byte_length entry) pairs 0.
Definition headers (value : jsval) : result exn (option (list (jsstr * jsstr))) :=
  if is_undefined value then Ok None
  else
    let? pairs :=
      match value with
      | JHost (HHeaders entries) => Ok entries
      | JArray l => each header_entry l
      | _ => let? input := object value in each header_field (entries input)
      end in
    if (zlength pairs >? 4096) || (pairs_bytes pairs >? MAX_METADATA_BYTES) then invalid
    else if valid_headers pairs then Ok (Some pairs) else invalid.

Definition body_ok (v : jsval) : bool :=
  match v with JUndefined | JNull | JStr _ | JBytes _ => true | _ => false end.
(** [typeof body === 'string' ? Buffer.byteLength(body) : body?.byteLength ?? 0] *)
Definition body_bytes (v : jsval) : Z :=
  match v with JStr s => byte_length s | JBytes b => zlength b | _ => 0 end.
Definition attempt_ok (v : jsval) : bool :=
  match v with JNum n => isSafeInteger n && negb (num_lt_Z n 0) | _ => false end.

(** [compactBytes] copies the bytes, so only their values are left. *)
Definition sessionRequest (value : jsval) (maxBytes : Z) : result exn SessionRequest :=
  let? input := object value in
  let? _ := keys input ["url"; "method"; "headers"; "body"; "timeoutMs"; "maxResponseBytes"; "attempt"; "requestId"] in
  let b := get input "body" in
  if negb (body_ok b) then invalid
  else if body_bytes b >? maxBytes then Throw (localError BODY_TOO_LARGE (Some buffer_limit))
  else if negb (is_undefined (get input "attempt")) && negb (attempt_ok (get input "attempt")) then invalid
  else
    let? converted := headers (get input "headers") in
    let? u := url (get input "url") in
    let? m := text (get input "method") 64 in
    let? timeout := optional (fun v => integer v 1 MAX_TIMEOUT_MS) (get input "timeoutMs") in
    let? maximum := optional (fun v => integer v 1 MAX_SAFE_INTEGER) (get input "maxResponseBytes") in
    let? id := optional (fun v => text v 128) (get input "requestId") in
    Ok {| r_url := u; r_method := m; r_headers := converted;
          r_body := if is_undefined b then None else Some b;
          r_timeoutMs := timeout; r_maxResponseBytes := maximum;
          r_attempt := read_int (get input "attempt"); r_requestId := id |}.

(** [const { partition, connection, contextId, ...rest } = input] *)
Definition routing_keys : list jsstr := ["partition"; "connection"; "contextId"].
Definition rest (input : jsval) : jsval :=
  JObject (List.filter (fun field => negb (js_includes routing_keys field.1)) (entries input)).
Definition request (value : jsval) (maxBytes : Z) : result exn Request :=
  let? input := object value in
  let spec := get input "connection" in
  let ctx := get input "contextId" in
  let? common := sessionRequest (rest input) maxBytes in
  let? part := text (get input "partition") 1024 in
  if negb (is_undefined spec) && is_undefined ctx then
    let? c := connection spec in
    Ok {| q_common := common; q_partition := part; q_target := ToConnection c |}
  else if negb (is_undefined ctx) && is_undefined spec then
    let? id := text ctx 256 in
    Ok {| q_common := common; q_partition := part; q_target := ToContext id |}
  else invalid.

Definition origins (value : jsval) : result exn (list jsstr) :=
  match value with
  | JArray l => if zlength l >? 4096 then invalid else each url l
  | _ => invalid
  end.
Definition sessionOptions (value : jsval) : result exn SessionOptions :=
  let? input := object value in
  let? _ := keys input ["partition"; "connection"; "cookieMode"; "allowedOrigins"; "ttlMs"; "timeoutMs"; "maxResponseBytes"] in
  let? allowed := optional origins (get input "allowedOrigins") in
  let? part := text (get input "partition") 1024 in
  let? c := connection (get input "connection") in
  let? ttl := optional (fun v => integer v 1 MAX_TIMEOUT_MS) (get input "ttlMs") in
  let? timeout := optional (fun v => integer v 1 MAX_TIMEOUT_MS) (get input "timeoutMs") in
  let? maximum := optional (fun v => integer v 1 MAX_SAFE_INTEGER) (get input "maxResponseBytes") in
  let options managed := {|
    o_partition := part; o_connection := c; o_ttlMs := ttl; o_timeoutMs := timeout;
    o_maxResponseBytes := maximum; o_managed := managed; o_allowedOrigins := allowed |} in
  if is_str (get input "cookieMode") "managed" && match allowed with Some (_ :: _) => true | _ => false end
  then Ok (options true)
  else if is_str (get input "cookieMode") "external" then Ok (options false)
  else invalid.

(** ** Configuration *)

(** A limit, where zero is a value of its own. *)
Definition count_or_zero (maximum : Z) (value : jsval) : result exn Z :=
  if is_int value 0 then Ok 0 else integer value 1 maximum.
Definition limits (value : jsval) : result exn Limits :=
  let? input := object value in
  let? _ := keys input ["maxConcurrent"; "maxConcurrentPerPartition"; "maxQueued"; "maxQueuedPerPartition"; "maxBufferedBytes"] in
  let count := fun v => integer v 1 MAX_SAFE_INTEGER in
  let? c := optional count (get input "maxConcurrent") in
  let? cp := optional count (get input "maxConcurrentPerPartition") in
  let? q := optional (count_or_zero MAX_SAFE_INTEGER) (get input "maxQueued") in
  let? qp := optional (count_or_zero MAX_SAFE_INTEGER) (get input "maxQueuedPerPartition") in
  let? b := optional count (get input "maxBufferedBytes") in
  Ok {| l_maxConcurrent := c; l_maxConcurrentPerPartition := cp; l_maxQueued := q;
        l_maxQueuedPerPartition := qp; l_maxBufferedBytes := b |}.
Definition config_keys : list jsstr :=
  ["baseUrl"; "token"; "limits"; "controlTimeoutMs"; "capabilitiesTtlMs"; "defaultTimeoutMs"; "maxResponseBytes";
   "startupTimeoutMs"; "operationTimeoutMs"; "maxRequestBytes"; "maxBatchRequests"; "maxBatchBytes"; "maxBatchConcurrency"].
Definition config (value : jsval) : result exn BridgeConfig :=
  let? input := object value in
  let? _ := keys input config_keys in
  let? base := url (get input "baseUrl") in
  let? token := text (get input "token") 16384 in
  let? control := optional (fun v => integer v 1 MAX_TIMEOUT_MS) (get input "controlTimeoutMs") in
  let? timeout := optional (fun v => integer v 1 MAX_TIMEOUT_MS) (get input "defaultTimeoutMs") in
  let? maximum := optional (fun v => integer v 1 MAX_SAFE_INTEGER) (get input "maxResponseBytes") in
  let? ttl := optional (count_or_zero MAX_TIMEOUT_MS) (get input "capabilitiesTtlMs") in
  let? lim := optional limits (get input "limits") in
  let? startup := integer (get input "startupTimeoutMs") 10000 MAX_TIMEOUT_MS in
  let? operation := integer (get input "operationTimeoutMs") 60000 MAX_TIMEOUT_MS in
  let? requestBytes := integer (get input "maxRequestBytes") (16 * 1024 * 1024) MAX_SAFE_INTEGER in
  let? batchRequests := integer (get input "maxBatchRequests") 128 4096 in
  let? batchBytes := integer (get input "maxBatchBytes") (16 * 1024 * 1024) (MAX_SAFE_INTEGER / 2) in
  let? concurrency := integer (get input "maxBatchConcurrency") 8 64 in
  Ok {| b_client := {| k_baseUrl := base; k_token := token; k_controlTimeoutMs := control;
                       k_defaultTimeoutMs := timeout; k_maxResponseBytes := maximum;
                       k_capabilitiesTtlMs := ttl; k_limits := lim |};
        b_startupTimeoutMs := startup; b_operationTimeoutMs := operation;
        b_maxRequestBytes := requestBytes; b_maxBatchRequests := batchRequests;
        b_maxBatchBytes := batchBytes; b_maxBatchConcurrency := concurrency |}.

(** What the worker passes to [config]: the client's fields, and the bridge's. *)
Definition worker_config (raw : jsval) : result exn BridgeConfig :=
  let? raw := object raw in
  let? client := object (get raw "client") in
  config (JObject (fold_left (fun props key => assoc_set key (get raw key) props)
    ["startupTimeoutMs"; "operationTimeoutMs"; "maxRequestBytes"; "maxBatchRequests"; "maxBatchBytes";
     "maxBatchConcurrency"] (entries client))).
End host.

(** ** Errors and responses *)

Record SerializedError := {
  s_code : Ja3ErrorCode; s_kind : Ja3ProxyFailureKind; s_usedProxy : bool; s_diagnostics : Ja3Diagnostics }.
Definition serialized_js (e : SerializedError) : jsval :=
  JObject [("code", JStr (code_string (s_code e))); ("kind", JStr (kind_string (s_kind e)));
           ("usedProxy", JBool (s_usedProxy e)); ("diagnostics", diagnostics_js (s_diagnostics e))].
Definition encodeError (value : exn) : SerializedError :=
  let error := match value with
               | ETransport e => e
               | _ => Errors.localError UNKNOWN (Some worker_unavailable)
               end in
  {| s_code := code error; s_kind := kind error; s_usedProxy := usedProxy error;
     s_diagnostics := Errors.diagnostics error |}.

(** [wire], and the guards that throw. *)
Definition wire (name : WireContractName) (value : jsval) : result exn jsval :=
  if validateWire name value then Ok value else protocol_error.
(** The documented fields of accepted diagnostics. *)
Definition ipcDiagnostics (value : jsval) : result exn Ja3Diagnostics :=
  if Protocol.diagnostics value None None then
    match read_diagnostics (copyDiagnostics value) with Some d => Ok d | None => protocol_error end
  else protocol_error.
Definition decodeError (value : jsval) : result exn Ja3ProxyTransportError :=
  let? input := object value in
  match read_enum code_string ERROR_CODES (get input "code"),
        read_enum kind_string FAILURE_KINDS (get input "kind"), get input "usedProxy" with
  | Some c, Some k, JBool used =>
      let? d := ipcDiagnostics (get input "diagnostics") in Ok (newTransportError c d used (Some k) None)
  | _, _, _ => protocol_error
  end.

(** The fields of a response, without the reading methods built on its body. *)
Record PlainResponse := {
  p_status : Z; p_headers : list (jsstr * list jsstr); p_body : list Z; p_elapsed : num;
  p_diagnostics : Ja3Diagnostics }.
Definition header_lists_js (hs : list (jsstr * list jsstr)) : jsval :=
  JObject (map (fun '(name, es) => (name, JArray (map JStr es))) hs).
Definition response_js (r : PlainResponse) : jsval :=
  JObject [("status", jint (p_status r)); ("headers", header_lists_js (p_headers r));
           ("body", JBytes (p_body r)); ("elapsed", JNum (p_elapsed r));
           ("diagnostics", diagnostics_js (p_diagnostics r))].
Definition plainResponse (r : Buffering.BufferedResponse) : PlainResponse := {|
  p_status := Buffering.status r; p_headers := Buffering.response_headers r;
  p_body := Buffering.response_body r; p_elapsed := NInt (Buffering.elapsed r);
  p_diagnostics := Buffering.response_diagnostics r |}.

Definition string_list (value : jsval) : option (list jsstr) :=
  match value with JArray l => mapM read_string l | _ => None end.
(** The entries are assigned to an object without a prototype, so every name is a key. *)
Fixpoint restore_headers (fields : list (jsstr * jsval)) (restored : list (jsstr * list jsstr)) :
    result exn (list (jsstr * list jsstr)) :=
  match fields with
  | [] => Ok restored
  | (name, value) :: fields =>
      match string_list value with
      | None => protocol_error
      | Some es => restore_headers fields (assoc_set name es restored)
      end
  end.
Definition response (value : jsval) : result exn PlainResponse :=
  let? input := object value in
  match get input "status", get input "body", get input "elapsed" with
  | JNum (NInt status), JBytes bytes, JNum elapsed =>
      if (status <? 100) || (status >? 599) || negb (isFinite elapsed) || num_lt_Z elapsed 0
      then protocol_error
      else
        let? fields := object (get input "headers") in
        let? restored := restore_headers (entries fields) [] in
        let? d := ipcDiagnostics (get input "diagnostics") in
        Ok {| p_status := status; p_headers := restored; p_body := bytes; p_elapsed := elapsed;
              p_diagnostics := d |}
  | _, _, _ => protocol_error
  end.

(** A result is a value here: what the caller gets without an exception. *)
Definition Outcome : Type := result Ja3ProxyTransportError PlainResponse.
Definition outcome_js (o : result SerializedError PlainResponse) : jsval :=
  match o with
  | Ok r => JObject [("ok", JBool true); ("value", response_js r)]
  | Throw e => JObject [("ok", JBool false); ("error", serialized_js e)]
  end.
Definition result_ (value : jsval) : result exn Outcome :=
  let? input := object value in
  match get input "ok" with
  | JBool true => let? r := response (get input "value") in Ok (Ok r)
  | JBool false => let? e := decodeError (get input "error") in Ok (Throw e)
  | _ => protocol_error
  end.

(** ** Reading again what was read before *)

(** A reader that reads the printed form of its result as that result, and whose
    printed form is never a missing field. *)
Class Stable {A : Type} (read : jsval -> result exn A) (js : A -> jsval) : Prop := {
  stable v a : read v = Ok a -> read (js a) = Ok a;
  present a : is_undefined (js a) = false }.

#[export] Instance text_stable max : Stable (fun v => text v max) JStr.
Proof. split; [|done]. intros [] a; cbn; try done. destruct (_ || _) eqn:E; [done|]. intros [= <-]. cbn. by rewrite E. Qed.
#[export] Instance boolean_stable : Stable boolean JBool.
Proof. split; [|done]. intros [] a; cbn; try done. Qed.
Lemma integer_again v fallback fallback' maximum z :
  integer v fallback maximum = Ok z -> integer (jint z) fallback' maximum = Ok z.
Proof.
  unfold integer. cbn [is_undefined jint]. destruct (if is_undefined v then _ else _) as [| | |[]| | | | |]; try done.
  destruct (_ || _ || _) eqn:E; [done|]. intros [= <-]. by rewrite E.
Qed.
Lemma integer_bounds v fallback maximum z : integer v fallback maximum = Ok z -> 0 < z <= maximum.
Proof.
  unfold integer. destruct (if is_undefined v then _ else _) as [| | |[]| | | | |]; try done.
  destruct (_ || _ || _) eqn:E; [done|]. intros [= <-]. reflect_bools. lia.
Qed.
#[export] Instance integer_stable fallback maximum : Stable (fun v => integer v fallback maximum) jint.
Proof. split; [|done]. intros v a. apply integer_again. Qed.
#[export] Instance count_or_zero_stable maximum : Stable (count_or_zero maximum) jint.
Proof.
  split; [|done]. intros v a. unfold count_or_zero. destruct (is_int v 0); [by intros [= <-]|].
  intros H. pose proof (integer_bounds _ _ _ _ H). cbn. destruct (Z.eqb_spec a 0); [lia|].
  exact (integer_again _ 1 1 _ _ H).
Qed.
Lemma optional_again {A : Type} (read : jsval -> result exn A) js `{!Stable read js} v o :
  optional read v = Ok o -> optional read (opt_js js o) = Ok o.
Proof.
  unfold optional. destruct (is_undefined v); [by intros [= <-]|]. destruct (read v) as [a|] eqn:E; [|done].
  intros [= <-]. cbn. rewrite present. by rewrite (stable v a).
Qed.

(** Rewrites with what the readers found the first time. *)
Ltac again_one E := cbn beta in E; rewrite E; clear E; cbn [result_bind].
Ltac again :=
  repeat match goal with
  | H : text ?v ?m = Ok ?a |- context [text (JStr ?a) ?m] =>
      let E := fresh in pose proof (stable (Stable := text_stable m) v a H) as E; again_one E
  | H : integer ?v ?f ?m = Ok ?a |- context [integer (jint ?a) ?f' ?m] =>
      let E := fresh in pose proof (integer_again v f f' m a H) as E; again_one E
  | H : optional ?r ?v = Ok ?o |- context [optional ?r (opt_js ?js ?o)] =>
      let E := fresh in pose proof (optional_again r js v o H) as E; again_one E
  | H : ?r ?v = Ok ?a |- context [?r (?js ?a)] =>
      let E := fresh in pose proof (stable (read := r) (js := js) v a H) as E; again_one E
  end.

(** The fields of a printed object. *)
Ltac printed :=
  repeat match goal with
  | |- context [opt_js _ ?o] => lazymatch o with Some _ => fail | None => fail | _ => destruct o end
  end; reflexivity.

Lemma identity_fields p e u :
  let v := identity_js {| i_tlsProfile := p; i_emulateHeaders := e; i_userAgent := u |} in
  object v = Ok v /\ keys v ["tlsProfile"; "emulateHeaders"; "userAgent"] = Ok tt /\ get v "tlsProfile" = JStr p /\
  get v "emulateHeaders" = JBool e /\ get v "userAgent" = opt_js JStr u.
Proof. cbn zeta. unfold identity_js. cbn [i_userAgent]. split_and!; printed. Qed.
#[export] Instance identity_stable : Stable identity identity_js.
Proof.
  split; [|done]. intros v i H. unfold identity in H. read_apart H. injection H as <-.
  destruct (identity_fields a2 a1 a3) as (Ho & Hk & Hp & He & Ha).
  unfold identity. rewrite Ho. cbn [result_bind]. rewrite Hk, Hp, He, Ha. cbn [result_bind]. by again.
Qed.

Lemma connection_fields e i :
  let v := connection_js {| c_egress := e; c_identity := i |} in
  object v = Ok v /\ keys v ["egress"; "identity"] = Ok tt /\ get v "egress" = egress_js e /\
  get v "identity" = identity_js i.
Proof. done. Qed.
Lemma egress_fields e :
  let v := egress_js e in
  object v = Ok v /\ keys v ["mode"; "url"] = Ok tt /\
  match e with
  | direct => is_str (get v "mode") "direct" && is_undefined (get v "url") = true
  | proxy u => is_str (get v "mode") "direct" && is_undefined (get v "url") = false /\
      is_str (get v "mode") "proxy" = true /\ get v "url" = JStr u
  end.
Proof. by destruct e. Qed.
#[export] Instance connection_stable : Stable connection connection_js.
Proof.
  split; [|by intros []]. intros v c H. unfold connection in H. read_apart H.
  destruct (_ && _) eqn:Ed in H; read_apart H; injection H as <-; unfold connection.
  - destruct (connection_fields direct a3) as (Ho & Hk & He & Hi), (egress_fields direct) as (Ho' & Hk' & Hm).
    rewrite Ho. cbn [result_bind]. rewrite Hk, He, Hi. cbn [result_bind].
    rewrite Ho'. cbn [result_bind]. rewrite Hk', Hm. cbn [result_bind]. by again.
  - destruct (connection_fields (proxy a3) a4) as (Ho & Hk & He & Hi),
      (egress_fields (proxy a3)) as (Ho' & Hk' & Hm & Hm' & Hu).
    rewrite Ho. cbn [result_bind]. rewrite Hk, He, Hi. cbn [result_bind].
    rewrite Ho'. cbn [result_bind]. rewrite Hk', Hm, Hm', Hu. cbn [result_bind negb]. by again.
Qed.

Lemma limits_fields l :
  let v := limits_js l in
  object v = Ok v /\
  keys v ["maxConcurrent"; "maxConcurrentPerPartition"; "maxQueued"; "maxQueuedPerPartition"; "maxBufferedBytes"] = Ok tt /\
  get v "maxConcurrent" = opt_js jint (l_maxConcurrent l) /\
  get v "maxConcurrentPerPartition" = opt_js jint (l_maxConcurrentPerPartition l) /\
  get v "maxQueued" = opt_js jint (l_maxQueued l) /\
  get v "maxQueuedPerPartition" = opt_js jint (l_maxQueuedPerPartition l) /\
  get v "maxBufferedBytes" = opt_js jint (l_maxBufferedBytes l).
Proof. destruct l as [[] [] [] [] []]; split_and!; reflexivity. Qed.
#[export] Instance limits_stable : Stable limits limits_js.
Proof.
  split; [|by intros []]. intros v l H. unfold limits in H. read_apart H. injection H as <-.
  match goal with |- limits (limits_js ?l) = _ => destruct (limits_fields l) as (Ho & Hk & H1 & H2 & H3 & H4 & H5) end.
  unfold limits. rewrite Ho. cbn [result_bind]. rewrite Hk, H1, H2, H3, H4, H5.
  cbn [result_bind l_maxConcurrent l_maxConcurrentPerPartition l_maxQueued l_maxQueuedPerPartition l_maxBufferedBytes].
  by again.
Qed.

(** The longest link the text reader takes. *)
Definition fits (href : jsstr) : bool := negb ((js_length href =? 0) || (js_length href >? MAX_METADATA_BYTES)).

Lemma session_request_get r :
  r_body r <> Some JUndefined ->
  let v := session_request_js r in
  object v = Ok v /\
  keys v ["url"; "method"; "headers"; "body"; "timeoutMs"; "maxResponseBytes"; "attempt"; "requestId"] = Ok tt /\
  get v "url" = JStr (r_url r) /\ get v "method" = JStr (r_method r) /\
  get v "headers" = opt_js pairs_js (r_headers r) /\ get v "body" = opt_js id (r_body r) /\
  get v "timeoutMs" = opt_js jint (r_timeoutMs r) /\
  get v "maxResponseBytes" = opt_js jint (r_maxResponseBytes r) /\
  get v "attempt" = opt_js jint (r_attempt r) /\ get v "requestId" = opt_js JStr (r_requestId r).
Proof.
  destruct r as [u m [] [b|] [] [] [] []]; intros Hb; try destruct b; try done; split_and!; reflexivity.
Qed.
Lemma request_rest q :
  r_body (q_common q) <> Some JUndefined -> rest (request_js q) = session_request_js (q_common q).
Proof.
  destruct q as [[u m [] [b|] [] [] [] []] p [c|x]]; intros Hb; try destruct b; try done; reflexivity.
Qed.
Lemma request_get q :
  r_body (q_common q) <> Some JUndefined ->
  let v := request_js q in
  object v = Ok v /\ get v "partition" = JStr (q_partition q) /\
  get v "connection" = match q_target q with ToConnection c => connection_js c | _ => JUndefined end /\
  get v "contextId" = match q_target q with ToContext x => JStr x | _ => JUndefined end.
Proof.
  destruct q as [[u m [] [b|] [] [] [] []] p [c|x]]; intros Hb; try destruct b; try done; split_and!; reflexivity.
Qed.
Lemma session_options_get o :
  let v := session_options_js o in
  object v = Ok v /\
  keys v ["partition"; "connection"; "cookieMode"; "allowedOrigins"; "ttlMs"; "timeoutMs"; "maxResponseBytes"] = Ok tt /\
  get v "partition" = JStr (o_partition o) /\ get v "connection" = connection_js (o_connection o) /\
  get v "ttlMs" = opt_js jint (o_ttlMs o) /\ get v "timeoutMs" = opt_js jint (o_timeoutMs o) /\
  get v "maxResponseBytes" = opt_js jint (o_maxResponseBytes o) /\
  get v "cookieMode" = JStr (if o_managed o then "managed" else "external") /\
  get v "allowedOrigins" = opt_js (fun l => JArray (map JStr l)) (o_allowedOrigins o).
Proof. destruct o as [p c [] [] [] [] []]; split_and!; reflexivity. Qed.

(** The object the worker reads its configuration from. *)
Definition worker_fields (b : BridgeConfig) : jsval := JObject (client_fields (b_client b) ++ bridge_fields b).
Lemma worker_object parse_url b : worker_config parse_url (config_js b) = config parse_url (worker_fields b).
Proof. destruct b as [[u t [] [] [] [] []] s o r br bb bc]; reflexivity. Qed.
Lemma worker_get b :
  let v := worker_fields b in let k := b_client b in
  object v = Ok v /\ keys v config_keys = Ok tt /\
  get v "baseUrl" = JStr (k_baseUrl k) /\ get v "token" = JStr (k_token k) /\
  get v "controlTimeoutMs" = opt_js jint (k_controlTimeoutMs k) /\
  get v "defaultTimeoutMs" = opt_js jint (k_defaultTimeoutMs k) /\
  get v "maxResponseBytes" = opt_js jint (k_maxResponseBytes k) /\
  get v "capabilitiesTtlMs" = opt_js jint (k_capabilitiesTtlMs k) /\
  get v "limits" = opt_js limits_js (k_limits k) /\
  get v "startupTimeoutMs" = jint (b_startupTimeoutMs b) /\
  get v "operationTimeoutMs" = jint (b_operationTimeoutMs b) /\
  get v "maxRequestBytes" = jint (b_maxRequestBytes b) /\
  get v "maxBatchRequests" = jint (b_maxBatchRequests b) /\
  get v "maxBatchBytes" = jint (b_maxBatchBytes b) /\
  get v "maxBatchConcurrency" = jint (b_maxBatchConcurrency b).
Proof. destruct b as [[u t [] [] [] [] []] s o r br bb bc]; split_and!; reflexivity. Qed.

Lemma header_entries_again pairs : each header_entry (map pair_js pairs) = Ok pairs.
Proof. induction pairs as [|[n c] ps IH]; cbn; [done|]. cbn in IH. by rewrite IH. Qed.
Lemma attempt_again v :
  negb (is_undefined v) && negb (attempt_ok v) = false -> opt_js jint (read_int v) = v.
Proof. destruct v as [| | |[]| | | | |]; cbn; try done. Qed.

Section reading.
Context (parse_url : jsstr -> option Link) (valid_headers : list (jsstr * jsstr) -> bool).
(** Parsing the serialization of a URL gives that URL again. *)
Context (url_idempotent : forall s l, parse_url s = Some l -> parse_url (link_href l) = Some l).

Lemma url_again v u : url parse_url v = Ok u -> url parse_url (JStr u) = if fits u then Ok u else invalid.
Proof.
  unfold url. intros H. apply bind_Ok in H as (s & _ & H). destruct (parse_url s) as [l|] eqn:El; [|done].
  destruct (_ || _) eqn:Ep in H; [done|]. injection H as <-. cbn [text].
  unfold fits. destruct ((js_length _ =? 0) || _); [done|]. cbn [result_bind negb].
  by rewrite (url_idempotent _ _ El), Ep.
Qed.
Lemma urls_again l us :
  each (url parse_url) l = Ok us -> Forall (fun u => fits u = true) us ->
  each (url parse_url) (map JStr us) = Ok us /\ length us = length l.
Proof.
  revert us. induction l as [|v l IH]; intros us; cbn; [by intros [= <-]|].
  intros (u & Hu & (us' & Hus & [= <-])%bind_Ok)%bind_Ok [Hf Hfs]%Forall_cons. cbn.
  rewrite (url_again _ _ Hu), Hf. cbn [result_bind]. destruct (IH us' Hus Hfs) as [-> ->]. done.
Qed.
Lemma headers_again v o :
  headers valid_headers v = Ok o -> headers valid_headers (opt_js pairs_js o) = Ok o.
Proof.
  unfold headers. destruct (is_undefined v); [by intros [= <-]|]. intros H.
  apply bind_Ok in H as (pairs & _ & H). destruct (_ || _) eqn:Eb in H; [done|].
  destruct (valid_headers pairs) eqn:Ev; [|done]. injection H as <-.
  cbn [opt_js pairs_js is_undefined]. rewrite header_entries_again. cbn [result_bind]. by rewrite Eb, Ev.
Qed.

Lemma sessionRequest_body v m r :
  sessionRequest parse_url valid_headers v m = Ok r -> r_body r <> Some JUndefined.
Proof.
  unfold sessionRequest. intros H. read_apart H. injection H as <-. cbn. by destruct (get a "body").
Qed.
Lemma sessionRequest_again v m r :
  sessionRequest parse_url valid_headers v m = Ok r ->
  sessionRequest parse_url valid_headers (session_request_js r) m = if fits (r_url r) then Ok r else invalid.
Proof.
  intros Hr. pose proof (sessionRequest_body _ _ _ Hr) as Hb. unfold sessionRequest in Hr. read_apart Hr.
  injection Hr as Hr. destruct (session_request_get r Hb) as (Ho & Hk & H1 & H2 & H3 & H4 & H5 & H6 & H7 & H8).
  unfold sessionRequest. rewrite Ho. cbn [result_bind]. rewrite Hk, H1, H2, H3, H4, H5, H6, H7, H8.
  assert (opt_js id (r_body r) = get a "body") as -> by (subst r; cbn; by destruct (get a "body")).
  assert (opt_js jint (r_attempt r) = get a "attempt") as -> by (subst r; by apply attempt_again).
  cbn [result_bind]. rewrite E1, E2, E3. subst r.
  cbn [r_url r_method r_headers r_body r_timeoutMs r_maxResponseBytes r_requestId].
  rewrite (headers_again _ _ E4). cbn [result_bind]. rewrite (url_again _ _ E5).
  destruct (fits _); [|done]. cbn [result_bind]. by again.
Qed.
Lemma request_again v m q :
  request parse_url valid_headers v m = Ok q ->
  request parse_url valid_headers (request_js q) m = if fits (r_url (q_common q)) then Ok q else invalid.
Proof.
  intros Hq. unfold request in Hq. apply bind_Ok in Hq as (a & Ha & Hq).
  apply bind_Ok in Hq as (common & Hc & Hq). apply bind_Ok in Hq as (part & Hp & Hq).
  assert (q_common q = common /\ q_partition q = part /\
    match q_target q with
    | ToConnection c => connection (connection_js c) = Ok c
    | ToContext x => text (JStr x) 256 = Ok x
    end) as (<- & <- & Ht).
  { destruct (_ && _) in Hq; [|destruct (_ && _) in Hq; [|done]];
      apply bind_Ok in Hq as (t & Et & [= <-]); split_and!; try done; cbn [q_target].
    - exact (stable _ _ Et).
    - exact (stable (Stable := text_stable 256) _ _ Et). }
  pose proof (sessionRequest_body _ _ _ Hc) as Hb.
  destruct (request_get q Hb) as (Ho & H1 & H2 & H3). unfold request. rewrite Ho. cbn [result_bind].
  rewrite (request_rest q Hb), (sessionRequest_again _ _ _ Hc). destruct (fits _); [|done]. cbn [result_bind].
  rewrite H1, H2, H3. again. destruct q as [? ? [c|x]]; cbn [q_target q_common q_partition] in *;
    cbn [is_undefined connection_js negb andb]; rewrite ?Ht; done.
Qed.

Definition origins_fit (o : SessionOptions) : Prop :=
  forall l, o_allowedOrigins o = Some l -> Forall (fun u => fits u = true) l.
Lemma origins_again v o :
  optional (origins parse_url) v = Ok o -> (forall l, o = Some l -> Forall (fun u => fits u = true) l) ->
  optional (origins parse_url) (opt_js (fun l => JArray (map JStr l)) o) = Ok o.
Proof.
  unfold optional. destruct (is_undefined v); [by intros [= <-]|]. intros (us & Hu & [= <-])%bind_Ok Hf.
  cbn [opt_js is_undefined]. unfold origins in Hu. destruct v; try done. destruct (zlength l >? 4096) eqn:El; [done|].
  destruct (urls_again _ _ Hu (Hf _ eq_refl)) as [Hagain Hlen]. unfold origins.
  rewrite Hagain. unfold zlength in *. by rewrite length_map, Hlen, El.
Qed.
Lemma sessionOptions_again v o :
  sessionOptions parse_url v = Ok o -> origins_fit o ->
  sessionOptions parse_url (session_options_js o) = Ok o.
Proof.
  intros Ho Hf. unfold sessionOptions in Ho. read_apart Ho.
  destruct (session_options_get o) as (Hobj & Hk & H1 & H2 & H3 & H4 & H5 & H6 & H7).
  unfold sessionOptions. rewrite Hobj. cbn [result_bind]. rewrite Hk, H1, H2, H3, H4, H5, H6, H7. cbn [result_bind].
  destruct (_ && _) eqn:Em in Ho; [|destruct (is_str _ _) in Ho; [|done]]; injection Ho as <-; unfold origins_fit in Hf;
    cbn [o_partition o_connection o_ttlMs o_timeoutMs o_maxResponseBytes o_managed o_allowedOrigins] in *;
    rewrite (origins_again _ _ E1 Hf); cbn [result_bind]; again; [|done].
  apply andb_prop in Em as [_ Hne]. by rewrite Hne.
Qed.
Lemma config_again v b :
  config parse_url v = Ok b -> fits (k_baseUrl (b_client b)) = true ->
  worker_config parse_url (config_js b) = Ok b.
Proof.
  intros Hb Hf. rewrite worker_object. unfold config in Hb. read_apart Hb.
  destruct (worker_get b) as (Ho & Hk & H1 & H2 & H3 & H4 & H5 & H6 & H7 & H8 & H9 & H10 & H11 & H12 & H13).
  unfold config. rewrite Ho. cbn [result_bind].
  rewrite Hk, H1, H2, H3, H4, H5, H6, H7, H8, H9, H10, H11, H12, H13. injection Hb as <-.
  cbn [b_client b_startupTimeoutMs b_operationTimeoutMs b_maxRequestBytes b_maxBatchRequests b_maxBatchBytes
    b_maxBatchConcurrency k_baseUrl k_token k_controlTimeoutMs k_defaultTimeoutMs k_maxResponseBytes
    k_capabilitiesTtlMs k_limits result_bind] in *.
  rewrite (url_again _ _ E1), Hf. cbn [result_bind]. by again.
Qed.
End reading.

(** ** What the worker sends back arrives *)

Lemma ipcDiagnostics_js d : well_formed d -> ipcDiagnostics (diagnostics_js d) = Ok d.
Proof.
  intros Hd. unfold ipcDiagnostics.
  by rewrite (diagnostics_any _ _ _ (diagnostics_complete d Hd)), copyDiagnostics_typed, read_diagnostics_js.
Qed.
Lemma ipcDiagnostics_sound v d : ipcDiagnostics v = Ok d -> well_formed d /\ copyDiagnostics v = diagnostics_js d.
Proof.
  unfold ipcDiagnostics. destruct (Protocol.diagnostics v None None) eqn:E; [|done].
  apply diagnostics_sound in E as (d' & Hd & -> & _). rewrite read_diagnostics_js. by intros [= <-].
Qed.
Lemma serialized_get e :
  let v := serialized_js e in
  object v = Ok v /\ get v "code" = JStr (code_string (s_code e)) /\ get v "kind" = JStr (kind_string (s_kind e)) /\
  get v "usedProxy" = JBool (s_usedProxy e) /\ get v "diagnostics" = diagnostics_js (s_diagnostics e).
Proof. done. Qed.
Lemma read_kind k : read_enum kind_string FAILURE_KINDS (JStr (kind_string k)) = Some k.
Proof. apply find_kind_string. Qed.
Definition decoded (e : SerializedError) : Ja3ProxyTransportError :=
  newTransportError (s_code e) (s_diagnostics e) (s_usedProxy e) (Some (s_kind e)) None.
Lemma decodeError_js e : well_formed (s_diagnostics e) -> decodeError (serialized_js e) = Ok (decoded e).
Proof.
  intros Hd. destruct (serialized_get e) as (Ho & Hc & Hk & Hu & Hg). unfold decodeError. rewrite Ho. cbn [result_bind].
  rewrite Hc, Hk, Hu, Hg, read_code, read_kind. by rewrite ipcDiagnostics_js.
Qed.

(** A response the asynchronous client can produce. *)
Record deliverable (r : PlainResponse) : Prop := {
  del_status : 100 <= p_status r <= 599;
  del_headers : NoDup (p_headers r).*1;
  del_elapsed : isFinite (p_elapsed r) = true /\ num_lt_Z (p_elapsed r) 0 = false;
  del_diagnostics : well_formed (p_diagnostics r) }.

Lemma assoc_set_fresh {A : Type} k (v : A) props : k ∉ props.*1 -> assoc_set k v props = props ++ [(k, v)].
Proof.
  induction props as [|[k' w] props IH]; cbn; [done|]. intros [Hne Hk]%not_elem_of_cons.
  unfold js_eqb. rewrite bool_decide_false by done. by rewrite IH.
Qed.
Lemma string_list_js es : string_list (JArray (map JStr es)) = Some es.
Proof. induction es as [|e es IH]; cbn in *; [done|]. by rewrite IH. Qed.
Lemma restore_headers_js hs restored :
  NoDup (restored ++ hs).*1 ->
  restore_headers (map (fun '(name, es) => (name, JArray (map JStr es))) hs) restored = Ok (restored ++ hs).
Proof.
  revert restored. induction hs as [|[name es] hs IH]; intros restored Hnd; cbn [restore_headers map]; [by rewrite app_nil_r|].
  rewrite string_list_js, assoc_set_fresh.
  - rewrite IH; rewrite <- app_assoc; done.
  - rewrite fmap_app, NoDup_app in Hnd. intros Hin. destruct Hnd as (_ & Hd & _). apply (Hd name Hin). cbn. set_solver.
Qed.
Lemma restore_headers_NoDup fields restored hs :
  NoDup restored.*1 -> restore_headers fields restored = Ok hs -> NoDup hs.*1.
Proof.
  revert restored. induction fields as [|[name v] fields IH]; cbn; intros restored Hnd; [by intros [= <-]|].
  destruct (string_list v); [|done]. apply IH, assoc_set_NoDup, Hnd.
Qed.
Lemma response_get r :
  let v := response_js r in
  object v = Ok v /\ get v "status" = jint (p_status r) /\ get v "headers" = header_lists_js (p_headers r) /\
  get v "body" = JBytes (p_body r) /\ get v "elapsed" = JNum (p_elapsed r) /\
  get v "diagnostics" = diagnostics_js (p_diagnostics r).
Proof. done. Qed.
Lemma response_roundtrip r : deliverable r -> response (response_js r) = Ok r.
Proof.
  intros [Hs Hn [Hf Hl] Hd]. destruct (response_get r) as (Ho & H1 & H2 & H3 & H4 & H5). unfold response.
  rewrite Ho. cbn [result_bind]. rewrite H1, H2, H3, H4, H5, Hf, Hl. cbn [jint].
  destruct (Z.ltb_spec (p_status r) 100); [lia|]. rewrite Z.gtb_ltb. destruct (Z.ltb_spec 599 (p_status r)); [lia|].
  cbn [orb negb header_lists_js object result_bind entries]. rewrite restore_headers_js by done.
  cbn [app result_bind]. rewrite ipcDiagnostics_js by done. by destruct r.
Qed.
Lemma response_sound v r : response v = Ok r -> deliverable r.
Proof.
  unfold response. intros H. apply bind_Ok in H as (input & _ & H).
  destruct (get input "status") as [| | |[| |st|]| | | | |]; try done.
  destruct (get input "body"); try done. destruct (get input "elapsed") as [| | |el| | | | |]; try done.
  destruct (_ || _) eqn:E in H; [done|]. apply orb_false_elim in E as [E Hl].
  apply orb_false_elim in E as [E Hf%negb_false_iff].
  apply bind_Ok in H as (fields & _ & H). apply bind_Ok in H as (hs & Hhs & H).
  apply bind_Ok in H as (d & [Hd _]%ipcDiagnostics_sound & [= <-]). split; cbn.
  - apply orb_false_elim in E as [E1%Z.ltb_ge E2]. rewrite Z.gtb_ltb in E2. apply Z.ltb_ge in E2. lia.
  - eapply restore_headers_NoDup; [|exact Hhs]. apply NoDup_nil_2.
  - done.
  - done.
Qed.

(** The errors of a value that is not what the worker sends. *)
Definition boundary {A : Type} (m : result exn A) : Prop :=
  forall e, m = Throw e -> e = localError PROTOCOL_ERROR None \/ e = localError INVALID_REQUEST (Some invalid_input).
Lemma boundary_bind {A B : Type} (m : result exn A) (k : A -> result exn B) :
  boundary m -> (forall a, boundary (k a)) -> boundary (result_bind m k).
Proof. intros Hm Hk e. destruct m as [a|e']; cbn; [apply Hk | by intros [= <-]; apply Hm]. Qed.
Lemma boundary_Ok {A : Type} (a : A) : boundary (Ok a).
Proof. done. Qed.
Lemma boundary_protocol {A : Type} : boundary (@protocol_error A).
Proof. intros e [= <-]. by left. Qed.
Lemma boundary_object v : boundary (object v).
Proof. intros e. destruct v; cbn; intros [= <-]; by right. Qed.
Create HintDb boundary.
#[export] Hint Resolve boundary_bind boundary_Ok boundary_protocol boundary_object : boundary.
Lemma boundary_diagnostics v : boundary (ipcDiagnostics v).
Proof. unfold ipcDiagnostics. destruct (Protocol.diagnostics v None None), (read_diagnostics (copyDiagnostics v)); auto with boundary. Qed.
Lemma boundary_headers fields restored : boundary (restore_headers fields restored).
Proof.
  revert restored. induction fields as [|[name v] fields IH]; cbn; intros; auto with boundary.
  destruct (string_list v); auto with boundary.
Qed.
#[export] Hint Resolve boundary_diagnostics boundary_headers : boundary.
Lemma boundary_error v : boundary (decodeError v).
Proof.
  apply boundary_bind; [auto with boundary|]. intros a. destruct (read_enum code_string ERROR_CODES (get a "code")), (read_enum kind_string FAILURE_KINDS (get a "kind")),
    (get a "usedProxy");
    auto with boundary.
Qed.
Lemma boundary_response v : boundary (response v).
Proof.
  apply boundary_bind; [auto with boundary|]. intros a.
  destruct (get a "status") as [| | |[]| | | | |], (get a "body"), (get a "elapsed"); auto with boundary.
  destruct (_ || _); auto 10 with boundary.
Qed.
#[export] Hint Resolve boundary_error boundary_response : boundary.
Lemma decodeError_sound v e :
  decodeError v = Ok e -> well_formed (Errors.diagnostics e) /\ error_delivery e = delivery (Errors.diagnostics e).
Proof.
  unfold decodeError. intros (a & _ & H)%bind_Ok. destruct (read_enum code_string ERROR_CODES (get a "code")), (read_enum kind_string FAILURE_KINDS (get a "kind")),
    (get a "usedProxy"); try done.
  apply bind_Ok in H as (d & [Hd _]%ipcDiagnostics_sound & [= <-]). done.
Qed.

(** ** Properties *)

(** The outcome of a call on the two sides of the port: an exception of any kind is
    an SDK error on the caller's side. *)
Definition sent (o : result exn PlainResponse) : result SerializedError PlainResponse :=
  match o with Ok r => Ok r | Throw e => Throw (encodeError e) end.
Definition received (o : result exn PlainResponse) : Outcome :=
  match o with Ok r => Ok r | Throw e => Throw (decoded (encodeError e)) end.
Definition sendable (o : result exn PlainResponse) : Prop :=
  match o with Ok r => deliverable r | Throw e => well_formed (s_diagnostics (encodeError e)) end.

(** C25: an outcome crosses the boundary unchanged.  A response arrives as it was sent;
    an SDK error keeps its code, kind, proxy flag and diagnostics, hence its delivery,
    and loses only the observer references; any other exception arrives as UNKNOWN,
    worker unavailable. *)
Theorem outcome_roundtrip o :
  sendable o ->
  result_ (outcome_js (sent o)) = Ok (received o) /\
  (forall e, o = Throw e ->
     decodeError (serialized_js (encodeError e)) = Ok (decoded (encodeError e)) /\
     match e with
     | ETransport e =>
         let e' := decoded (encodeError (ETransport e)) in
         code e' = code e /\ kind e' = kind e /\ usedProxy e' = usedProxy e /\
         Errors.diagnostics e' = Errors.diagnostics e /\
         error_delivery e' = delivery (Errors.diagnostics e) /\ references e' = None
     | _ => decoded (encodeError e) = Errors.localError UNKNOWN (Some worker_unavailable)
     end).
Proof.
  intros Ho. split.
  - destruct o as [r|e]; cbn [sent received sendable] in *; unfold result_.
    + change (object (outcome_js (Ok r))) with (@Ok exn _ (outcome_js (Ok r))). cbn [result_bind].
      change (get (outcome_js (Ok r)) "ok") with (JBool true). cbv iota.
      change (get (outcome_js (Ok r)) "value") with (response_js r). by rewrite response_roundtrip.
    + set (s := encodeError e) in *.
      change (object (outcome_js (Throw s))) with (@Ok exn _ (outcome_js (Throw s))). cbn [result_bind].
      change (get (outcome_js (Throw s)) "ok") with (JBool false). cbv iota.
      change (get (outcome_js (Throw s)) "error") with (serialized_js s). by rewrite decodeError_js.
  - intros e ->. split; [by apply decodeError_js|]. by destruct e.
Qed.
Lemma outcome_roundtrip_witness :
  let o := Throw (ETransport (newTransportError TLS_ERROR demo_diagnostics true None (Some [("trace", "1")]))) in
  result_ (outcome_js (sent o)) = Ok (received o) /\
  received o = Throw (newTransportError TLS_ERROR demo_diagnostics true (Some connection_lost) None).
Proof.
  intros o. split; [|done]. apply (outcome_roundtrip o). exact demo_well_formed.
Defined.

(** Whatever comes out of the port, the caller gets a well-formed response, an SDK
    error with well-formed diagnostics, or one of two local errors. *)
Theorem decode_sound value :
  match result_ value with
  | Ok (Ok r) => deliverable r
  | Ok (Throw e) => well_formed (Errors.diagnostics e) /\ error_delivery e = delivery (Errors.diagnostics e)
  | Throw e => e = localError PROTOCOL_ERROR None \/ e = localError INVALID_REQUEST (Some invalid_input)
  end.
Proof.
  assert (boundary (result_ value)) as Hb.
  { apply boundary_bind; [auto with boundary|]. intros a. destruct (get a "ok") as [| |[]| | | | | |]; auto with boundary. }
  destruct (result_ value) as [[r|e]|e] eqn:E; [| |by apply Hb];
    unfold result_ in E; apply bind_Ok in E as (a & _ & E); destruct (get a "ok") as [| |[]| | | | | |]; try done;
    apply bind_Ok in E as (x & Hx & [= ->]).
  - by eapply response_sound.
  - by apply decodeError_sound in Hx.
Qed.

Section reading_properties.
Context (parse_url : jsstr -> option Link) (valid_headers : list (jsstr * jsstr) -> bool).
Context (url_idempotent : forall s l, parse_url s = Some l -> parse_url (link_href l) = Some l).

(** C26: what the caller's side accepted the worker reads as the same values: the
    configuration, identities, requests with a connection or a context, session
    requests and session options.  A request is refused by the worker exactly when its
    normalized link has outgrown the longest text. *)
Theorem worker_reads_the_same :
  (forall v b, config parse_url v = Ok b -> fits (k_baseUrl (b_client b)) = true ->
     worker_config parse_url (config_js b) = Ok b) /\
  (forall v m q, request parse_url valid_headers v m = Ok q ->
     request parse_url valid_headers (request_js q) m = if fits (r_url (q_common q)) then Ok q else invalid) /\
  (forall v m r, sessionRequest parse_url valid_headers v m = Ok r ->
     sessionRequest parse_url valid_headers (session_request_js r) m = if fits (r_url r) then Ok r else invalid) /\
  (forall v o, sessionOptions parse_url v = Ok o -> origins_fit o ->
     sessionOptions parse_url (session_options_js o) = Ok o) /\
  (forall v i, identity v = Ok i -> identity (identity_js i) = Ok i).
Proof.
  split_and!; intros.
  - by eapply config_again.
  - by apply (request_again parse_url valid_headers url_idempotent v).
  - by apply (sessionRequest_again parse_url valid_headers url_idempotent v).
  - by eapply sessionOptions_again.
  - by eapply stable.
Qed.
End reading_properties.
Definition demo_url (s : jsstr) : option Link :=
  if js_includes ["http://a"; "http://a/"] s
  then Some {| link_protocol := "http:"; link_username := ""; link_password := ""; link_href := "http://a/" |}
  else None.
Lemma demo_url_idempotent s l : demo_url s = Some l -> demo_url (link_href l) = Some l.
Proof. unfold demo_url at 1. destruct (js_includes _ s); [|done]. by intros [= <-]. Qed.
Definition demo_options : jsval :=
  JObject [("baseUrl", JStr "http://a"); ("token", JStr "t"); ("capabilitiesTtlMs", jint 0);
           ("limits", JObject [("maxQueued", jint 0); ("maxConcurrent", jint 4)]); ("maxBatchRequests", jint 2)].
Definition demo_config : BridgeConfig := {|
  b_client := {| k_baseUrl := "http://a/"; k_token := "t"; k_controlTimeoutMs := None; k_defaultTimeoutMs := None;
    k_maxResponseBytes := None; k_capabilitiesTtlMs := Some 0;
    k_limits := Some {| l_maxConcurrent := Some 4; l_maxConcurrentPerPartition := None; l_maxQueued := Some 0;
      l_maxQueuedPerPartition := None; l_maxBufferedBytes := None |} |};
  b_startupTimeoutMs := 10000; b_operationTimeoutMs := 60000; b_maxRequestBytes := 16777216;
  b_maxBatchRequests := 2; b_maxBatchBytes := 16777216; b_maxBatchConcurrency := 8 |}.
Lemma demo_config_read : config demo_url demo_options = Ok demo_config.
Proof. vm_compute. reflexivity. Qed.
Lemma worker_reads_the_same_witness :
  config demo_url demo_options = Ok demo_config /\ worker_config demo_url (config_js demo_config) = Ok demo_config.
Proof.
  split; [exact demo_config_read|].
  apply (proj1 (worker_reads_the_same demo_url (fun _ => true) demo_url_idempotent) demo_options);
    [exact demo_config_read | reflexivity].
Defined.

(** The option that the asynchronous client takes and its synchronous type admits is
    refused as an unknown key. *)
Example headerOrder_refused :
  request demo_url (fun _ => true)
    (JObject [("url", JStr "http://a"); ("method", JStr "GET"); ("partition", JStr "p"); ("contextId", JStr "c");
              ("headerOrder", JStr "browser")]) 0 = invalid.
Proof. vm_compute. reflexivity. Qed.
