(* ===== verification/Batch.v ===== *)
(** * Batches (function batch of packages/typescript/src/sync/worker.ts)

    The worker runs the requests of a batch in a fixed number of lanes.  Lanes share
    the next index to claim, a budget of payload bytes, a budget of working memory
    and the array of answers.  Between two awaits a lane runs without interruption;
    at an await any other lane may go on, which a schedule of lane numbers records.
    What a lane awaits, the stream of its request, is a script. *)

From S2P Require Import Prelude Js Errors Buffering Validators Protocol Ipc.

(** ** What a request's stream does *)

Record Metadata := {
  m_status : Z; m_headers : list (jsstr * jsstr); m_diagnostics : Ja3Diagnostics }.
(** A chunk, and whether it alone makes up its buffer. *)
Record Chunk := { c_bytes : list Z; c_compact : bool }.
Record Source := {
  opened : result exn Metadata;                            (* await client.stream(...) *)
  chunks : list Chunk;                                     (* await reader.read() *)
  ending : option exn;                                     (* the last read: done, or an error *)
  completion : result Ja3ProxyTransportError Ja3Diagnostics;  (* await stream.completion *)
}.

Definition BatchResult : Type := result SerializedError PlainResponse.

(** ** One request *)

(** The local variables of [execute] after the stream has opened. *)
Record Execution := {
  metadata : Metadata;
  kept : list Chunk;                    (* chunks *)
  bytes : Z;
  reservedWorkingBytes : Z;
}.
Inductive lane_state :=
| Ready                                              (* at the head of the loop *)
| Opening (index : nat)
| Reading (index : nat) (e : Execution) (rest : list Chunk)
| Completing (index : nat) (e : Execution)
| Closing (index : nat) (answer : BatchResult)       (* await stream.close() *)
| Returned.

Record Batch := {
  next : nat;
  payloadBytes : Z;
  workingBytes : Z;
  output : list (option BatchResult);
  lanes : list lane_state;
  aborted : bool;
}.

Section batch.
Context (requests : list Request) (source : nat -> Source) (maxTotalBytes : Z).
(** The host can allocate an array of this many bytes. *)
Context (allocates : Z -> bool).

Definition maxWorkingBytes : Z := 2 * maxTotalBytes.
Definition newBatch (concurrency : Z) : Batch := {|
  next := 0; payloadBytes := 0; workingBytes := 0;
  output := replicate (length requests) None;
  lanes := replicate (Z.to_nat (Z.min concurrency (zlength requests))) Ready;
  aborted := false |}.

Definition uses_proxy (q : Request) : bool :=
  match q_target q with ToConnection c => match c_egress c with proxy _ => true | direct => false end | _ => false end.
Definition too_large (q : Request) (d : Ja3Diagnostics) : exn :=
  ETransport (newTransportError BODY_TOO_LARGE d (uses_proxy q) (Some buffer_limit) None).
(** [{ ...diagnostics, phase: 'body', delivery: 'response_started', responseBytes: bytes }] *)
Definition body_diagnostics (d : Ja3Diagnostics) (count : Z) : Ja3Diagnostics := {|
  requestId := requestId d; attempt := attempt d; phase := body_phase; delivery := response_started;
  queueMs := queueMs d; headersMs := headersMs d; bodyMs := bodyMs d; totalMs := totalMs d;
  requestBytes := requestBytes d; responseBytes := count; tlsProfile := tlsProfile d;
  traceId := traceId d; spanId := spanId d; clientReused := clientReused d; contextId := contextId d;
  cookieRevision := cookieRevision d |}.

(** One chunk, whose array serves as the body when nothing else shares its memory. *)
Definition ready_body (l : list Chunk) : option (list Z) :=
  match l with [c] => if c_compact c then Some (c_bytes c) else None | _ => None end.
Definition join (l : list Chunk) : list Z := concat (map c_bytes l).
Definition success (m : Metadata) (body : list Z) (d : Ja3Diagnostics) : BatchResult :=
  Ok {| p_status := m_status m; p_headers := group_headers (m_headers m); p_body := body;
        p_elapsed := NInt (totalMs d); p_diagnostics := d |}.
(** The [catch] clause gives back what the request holds. *)
Definition roll_back (l : nat) (i : nat) (held working : Z) (error : exn) (b : Batch) : Batch := {|
  next := next b; payloadBytes := payloadBytes b - held; workingBytes := workingBytes b - working;
  output := output b; lanes := <[l := Closing i (Throw (encodeError error))]> (lanes b); aborted := aborted b |}.
Definition move (l : nat) (s : lane_state) (b : Batch) : Batch := {|
  next := next b; payloadBytes := payloadBytes b; workingBytes := workingBytes b;
  output := output b; lanes := <[l := s]> (lanes b); aborted := aborted b |}.
Definition set_output (i : nat) (r : BatchResult) (b : Batch) : Batch := {|
  next := next b; payloadBytes := payloadBytes b; workingBytes := workingBytes b;
  output := <[i := Some r]> (output b); lanes := lanes b; aborted := aborted b |}.

(** [const index = next++] and what the loop does with it. *)
Definition claim (l : nat) (b : Batch) : Batch :=
  let i := next b in
  let b := {| next := S i; payloadBytes := payloadBytes b; workingBytes := workingBytes b;
              output := output b; lanes := lanes b; aborted := aborted b |} in
  if (length requests <=? i)%nat then move l Returned b
  else if aborted b then set_output i (Throw (encodeError (ETransport (uncertainError TIMEOUT)))) b
  else move l (Opening i) b.
Definition open_step (l i : nat) (b : Batch) : Batch :=
  match opened (source i) with
  | Throw error => roll_back l i 0 0 error b
  | Ok m => move l (Reading i {| metadata := m; kept := []; bytes := 0; reservedWorkingBytes := 0 |}
                      (chunks (source i))) b
  end.
Definition read_step (l i : nat) (q : Request) (e : Execution) (rest : list Chunk) (b : Batch) : Batch :=
  match rest with
  | [] =>
      match ending (source i) with
      | Some error => roll_back l i (bytes e) (reservedWorkingBytes e) error b
      | None => move l (Completing i e) b
      end
  | c :: rest =>
      let size := zlength (c_bytes c) in
      if (payloadBytes b + size >? maxTotalBytes) || (workingBytes b + size >? maxWorkingBytes)
      then roll_back l i (bytes e) (reservedWorkingBytes e)
             (too_large q (body_diagnostics (m_diagnostics (metadata e)) (bytes e))) b
      else
        move l (Reading i {| metadata := metadata e; kept := kept e ++ [c]; bytes := bytes e + size;
                             reservedWorkingBytes := reservedWorkingBytes e + size |} rest)
          {| next := next b; payloadBytes := payloadBytes b + size; workingBytes := workingBytes b + size;
             output := output b; lanes := lanes b; aborted := aborted b |}
  end.
(** From [await stream.completion] to the answer.  Assembling the body reserves the
    memory of a second copy and gives it back when the chunks are dropped. *)
Definition complete_step (l i : nat) (q : Request) (e : Execution) (b : Batch) : Batch :=
  match completion (source i) with
  | Throw error => roll_back l i (bytes e) (reservedWorkingBytes e) (ETransport error) b
  | Ok d =>
      match ready_body (kept e) with
      | Some body => move l (Closing i (success (metadata e) body d)) b
      | None =>
          if workingBytes b + bytes e >? maxWorkingBytes
          then roll_back l i (bytes e) (reservedWorkingBytes e) (too_large q d) b
          else
            let working := workingBytes b + bytes e in
            let reserved := reservedWorkingBytes e + bytes e in
            let reserving := {| next := next b; payloadBytes := payloadBytes b; workingBytes := working;
                                output := output b; lanes := lanes b; aborted := aborted b |} in
            if negb (allocates (bytes e)) then roll_back l i (bytes e) reserved ERangeError reserving
            else
              move l (Closing i (success (metadata e) (join (kept e)) d))
                {| next := next b; payloadBytes := payloadBytes b; workingBytes := working - bytes e;
                   output := output b; lanes := lanes b; aborted := aborted b |}
      end
  end.

(** Lane [l] goes on with what it awaits. *)
Definition lane_step (l : nat) (b : Batch) : Batch :=
  match lanes b !! l with
  | None | Some Returned => b
  | Some Ready => claim l b
  | Some (Opening i) => open_step l i b
  | Some (Reading i e rest) =>
      match requests !! i with Some q => read_step l i q e rest b | None => b end
  | Some (Completing i e) =>
      match requests !! i with Some q => complete_step l i q e b | None => b end
  | Some (Closing i answer) => move l Ready (set_output i answer b)
  end.
Inductive event := Step (l : nat) | Abort.
#[export] Instance event_eq_dec : EqDecision event.
Proof. solve_decision. Defined.
Definition batch_step (b : Batch) (ev : event) : Batch :=
  match ev with
  | Step l => lane_step l b
  | Abort => {| next := next b; payloadBytes := payloadBytes b; workingBytes := workingBytes b;
                output := output b; lanes := lanes b; aborted := true |}
  end.
Definition run (concurrency : Z) (schedule : list event) : Batch :=
  fold_left batch_step schedule (newBatch concurrency).
Definition finished (b : Batch) : bool :=
  forallb (fun s => match s with Returned => true | _ => false end) (lanes b).

(** ** The specification: a request on its own, without budgets *)

Definition alone (i : nat) : BatchResult :=
  match opened (source i) with
  | Throw error => Throw (encodeError error)
  | Ok m =>
      match ending (source i), completion (source i) with
      | Some error, _ => Throw (encodeError error)
      | None, Throw error => Throw (encodeError (ETransport error))
      | None, Ok d =>
          if negb (bool_decide (is_Some (ready_body (chunks (source i))))) &&
             negb (allocates (zlength (join (chunks (source i)))))
          then Throw (encodeError ERangeError)
          else success m (join (chunks (source i))) d
      end
  end.
Definition source_size (i : nat) : Z := zlength (join (chunks (source i))).
End batch.

(** ** Sums over lanes and indices *)

Fixpoint zsum {A : Type} (f : A -> Z) (l : list A) : Z :=
  match l with [] => 0 | a :: l => f a + zsum f l end.

Lemma zsum_app {A : Type} (f : A -> Z) l k : zsum f (l ++ k) = zsum f l + zsum f k.
Proof. induction l; cbn; lia. Qed.
Lemma zsum_le {A : Type} (f g : A -> Z) l : (forall a, a ∈ l -> f a <= g a) -> zsum f l <= zsum g l.
Proof.
  induction l as [|a l IH]; cbn; intros H; [lia|].
  pose proof (H a ltac:(set_solver)). enough (zsum f l <= zsum g l) by lia. apply IH. set_solver.
Qed.
Lemma zsum_ext {A : Type} (f g : A -> Z) l : (forall a, a ∈ l -> f a = g a) -> zsum f l = zsum g l.
Proof. intros H. apply Z.le_antisymm; apply zsum_le; intros a Ha; by rewrite H. Qed.
Lemma zsum_nonneg {A : Type} (f : A -> Z) l : (forall a, a ∈ l -> 0 <= f a) -> 0 <= zsum f l.
Proof. intros H. replace 0 with (zsum (fun _ : A => 0) l); [by apply zsum_le|]. clear H. induction l; cbn; lia. Qed.
Lemma zsum_zero {A : Type} (f : A -> Z) l : (forall a, a ∈ l -> f a = 0) -> zsum f l = 0.
Proof.
  induction l as [|a l IH]; cbn; intros H; [done|]. rewrite IH by set_solver. rewrite H; [done|set_solver].
Qed.
(** Changing one element changes the sum by the difference. *)
Lemma zsum_insert {A : Type} (f : A -> Z) l i x y :
  l !! i = Some x -> zsum f (<[i := y]> l) = zsum f l - f x + f y.
Proof.
  revert i. induction l as [|a l IH]; intros [|i]; cbn; try done; [intros [= ->]; lia|].
  intros H. change (f a + zsum f (<[i := y]> l) = f a + zsum f l - f x + f y). rewrite (IH i H). lia.
Qed.
Lemma zsum_elem_le {A : Type} (f : A -> Z) l i x :
  (forall a, a ∈ l -> 0 <= f a) -> l !! i = Some x -> f x <= zsum f l.
Proof.
  revert i. induction l as [|a l IH]; intros [|i] Hf; cbn; try done.
  - intros [= ->]. pose proof (zsum_nonneg f l ltac:(set_solver)). lia.
  - intros H. pose proof (Hf a ltac:(set_solver)). enough (f x <= zsum f l) by lia. apply (IH i); set_solver.
Qed.
(** Changing a summand at one index of a range. *)
Lemma zsum_range_update (f g : nat -> Z) n i :
  (i < n)%nat -> (forall j, j <> i -> g j = f j) ->
  zsum g (seq 0 n) = zsum f (seq 0 n) - f i + g i.
Proof.
  intros Hi Hg. replace n with (i + S (n - S i))%nat by lia. rewrite seq_app, !zsum_app. cbn [seq zsum Nat.add].
  rewrite (zsum_ext g f (seq 0 i)), (zsum_ext g f (seq (S i) _)); [lia| |];
    intros j [? ?]%elem_of_seq; apply Hg; lia.
Qed.
Lemma zsum_range_le (f : nat -> Z) n m :
  (forall i, 0 <= f i) -> (n <= m)%nat -> zsum f (seq 0 n) <= zsum f (seq 0 m).
Proof.
  intros Hf Hn. replace m with (n + (m - n))%nat by lia. rewrite seq_app, zsum_app.
  pose proof (zsum_nonneg f (seq (0 + n) (m - n)) ltac:(auto)). lia.
Qed.

(** ** What is true of every reachable state *)

Section invariant.
Context (requests : list Request) (source : nat -> Source) (maxTotalBytes : Z) (allocates : Z -> bool).
Context (positive_budget : 0 <= maxTotalBytes).
Notation n := (length requests).
Notation alone := (alone source allocates).
Notation size := (source_size source).
(** The bytes that the bodies of the batch have together. *)
Definition total_size : Z := zsum size (seq 0 n).

Definition refused (i : nat) (r : BatchResult) : Prop :=
  maxTotalBytes < total_size /\
  exists q m pre rest, requests !! i = Some q /\ opened (source i) = Ok m /\ chunks (source i) = pre ++ rest /\
    r = Throw (encodeError (too_large q (body_diagnostics (m_diagnostics m) (zlength (join pre))))).
Definition timed_out : BatchResult := Throw (encodeError (ETransport (uncertainError TIMEOUT))).
(** The answers a request can get. *)
Definition justified (ab : bool) (i : nat) (r : BatchResult) : Prop :=
  r = alone i \/ refused i r \/ (ab = true /\ r = timed_out).

Definition lane_index (s : lane_state) : option nat :=
  match s with
  | Ready | Returned => None
  | Opening i | Reading i _ _ | Completing i _ | Closing i _ => Some i
  end.
Definition answer_held (r : option BatchResult) : Z :=
  match r with Some (Ok p) => zlength (p_body p) | _ => 0 end.
(** The payload bytes that a lane holds. *)
Definition lane_held (s : lane_state) : Z :=
  match s with
  | Reading _ e _ | Completing _ e => bytes e
  | Closing _ r => answer_held (Some r)
  | _ => 0
  end.
Definition answer_at (out : list (option BatchResult)) (i : nat) : option BatchResult := mjoin (out !! i).
Definition lane_weight (w : nat -> Z) (s : lane_state) : Z :=
  match lane_index s with Some i => w i | None => 0 end.
Definition answer_weight (w : nat -> Z) (out : list (option BatchResult)) (i : nat) : Z :=
  match answer_at out i with Some _ => w i | None => 0 end.

Definition execution_ok (i : nat) (e : Execution) (rest : list Chunk) : Prop :=
  opened (source i) = Ok (metadata e) /\ chunks (source i) = kept e ++ rest /\
  bytes e = zlength (join (kept e)) /\ reservedWorkingBytes e = bytes e.
Definition lane_ok (ab : bool) (claimed : nat) (s : lane_state) : Prop :=
  match s with
  | Ready => True
  | Opening i => (i < n)%nat
  | Reading i e rest => (i < n)%nat /\ execution_ok i e rest
  | Completing i e => (i < n)%nat /\ execution_ok i e [] /\ ending (source i) = None
  | Closing i r => (i < n)%nat /\ justified ab i r
  | Returned => (n <= claimed)%nat
  end.

Record batch_inv (b : Batch) : Prop := {
  bi_length : length (output b) = n;
  (** each claimed index is in one lane or answered, and not twice *)
  bi_indices : forall w, zsum (lane_weight w) (lanes b) + zsum (answer_weight w (output b)) (seq 0 n)
                         = zsum w (seq 0 (Nat.min (next b) n));
  bi_payload : payloadBytes b = zsum lane_held (lanes b) + zsum (fun i => answer_held (answer_at (output b) i)) (seq 0 n);
  bi_working : workingBytes b = payloadBytes b;
  bi_budget : payloadBytes b <= maxTotalBytes;
  bi_lanes : forall l s, lanes b !! l = Some s -> lane_ok (aborted b) (next b) s;
  bi_answers : forall i r, answer_at (output b) i = Some r -> justified (aborted b) i r;
}.

Lemma size_nonneg i : 0 <= size i.
Proof. apply zlength_nonneg. Qed.
Lemma justified_held ab i r : justified ab i r -> 0 <= answer_held (Some r) <= size i.
Proof.
  pose proof (size_nonneg i). intros [->|[(_ & q & m & pre & rest & _ & _ & _ & ->)|[_ ->]]]; cbn; [|lia|lia].
  unfold Batch.alone. destruct (opened (source i)); cbn; [|lia].
  destruct (ending (source i)), (completion (source i)); cbn; try lia.
  destruct (_ && _); cbn; [lia|]. unfold source_size. zlen.
Qed.
Lemma execution_held i e rest : execution_ok i e rest -> 0 <= bytes e /\ bytes e + zlength (join rest) = size i.
Proof.
  intros (_ & Hc & -> & _). unfold source_size, join. rewrite Hc, map_app, concat_app. zlen.
Qed.
Lemma lane_held_bounds ab claimed s : lane_ok ab claimed s -> 0 <= lane_held s <= lane_weight size s.
Proof.
  destruct s; unfold lane_weight; cbn; intros H; try lia.
  - pose proof (size_nonneg index). lia.
  - destruct H as [_ [? ?]%execution_held]. zlen.
  - destruct H as (_ & [? ?]%execution_held & _). zlen.
  - destruct H as [_ H]. by apply justified_held in H.
Qed.
Lemma answers_held b : batch_inv b ->
  0 <= zsum (fun i => answer_held (answer_at (output b) i)) (seq 0 n) <= zsum (answer_weight size (output b)) (seq 0 n).
Proof.
  intros Hb. split.
  - apply zsum_nonneg. intros i _. destruct (answer_at (output b) i) as [r|] eqn:E; [|done].
    apply (bi_answers b Hb), justified_held in E. lia.
  - apply zsum_le. intros i _. unfold answer_weight. destruct (answer_at (output b) i) as [r|] eqn:E; cbn [answer_held]; [|lia].
    apply (bi_answers b Hb), justified_held in E. cbn in E. lia.
Qed.
Lemma lanes_ok_elem b s : batch_inv b -> s ∈ lanes b -> 0 <= lane_held s <= lane_weight size s.
Proof. intros Hb [l Hl]%list_elem_of_lookup. eapply lane_held_bounds, (bi_lanes b Hb l s Hl). Qed.
Lemma held_le_payload b l s : batch_inv b -> lanes b !! l = Some s -> lane_held s <= payloadBytes b.
Proof.
  intros Hb Hl. rewrite (bi_payload b Hb). pose proof (answers_held b Hb).
  enough (lane_held s <= zsum lane_held (lanes b)) by lia.
  apply (zsum_elem_le _ _ l); [|done]. intros a Ha. by apply (lanes_ok_elem b).
Qed.
(** A lane that reads a chunk beyond the budget shows that the batch does not fit. *)
Lemma over_budget b l i e c rest :
  batch_inv b -> lanes b !! l = Some (Reading i e (c :: rest)) ->
  maxTotalBytes < payloadBytes b + zlength (c_bytes c) -> maxTotalBytes < total_size.
Proof.
  intros Hb Hl Hover. pose proof (bi_lanes b Hb _ _ Hl) as [Hi He]. pose proof (execution_held _ _ _ He) as [Hpos Hsize].
  pose proof (answers_held b Hb) as Ha. pose proof (bi_indices b Hb size) as Hw.
  assert (zsum size (seq 0 (Nat.min (next b) n)) <= total_size) as Hle by (apply zsum_range_le; [apply size_nonneg|lia]).
  rewrite (bi_payload b Hb) in Hover.
  assert (zsum lane_held (lanes b) + zlength (c_bytes c) <= zsum (lane_weight size) (lanes b)); [|lia].
  set (full := Closing i (success (metadata e) (join (chunks (source i))) localDiagnostics)).
  pose proof (zsum_insert lane_held (lanes b) l _ full Hl) as H1.
  pose proof (zsum_insert (lane_weight size) (lanes b) l _ full Hl) as H2.
  assert (zsum lane_held (<[l:=full]> (lanes b)) <= zsum (lane_weight size) (<[l:=full]> (lanes b))) as H3.
  { apply zsum_le. intros s [k Hk]%list_elem_of_lookup. destruct (decide (k = l)) as [->|Hne].
    - rewrite list_lookup_insert_eq in Hk by (by apply (lookup_lt_Some _ _ _ Hl)). injection Hk as <-. cbn. done.
    - rewrite list_lookup_insert_ne in Hk by done. by apply (lane_held_bounds _ _ _ (bi_lanes b Hb _ _ Hk)). }
  change (lane_held full) with (size i) in H1. change (lane_held (Reading i e (c :: rest))) with (bytes e) in H1.
  change (lane_weight size full) with (size i) in H2. change (lane_weight size (Reading i e (c :: rest))) with (size i) in H2.
  unfold join in Hsize. cbn in Hsize. rewrite zlength_app in Hsize. pose proof (zlength_nonneg (concat (map c_bytes rest))). lia.
Qed.

(** ** Every step keeps it *)

Lemma lane_cases b l s s' k t :
  lanes b !! l = Some s -> <[l := s']> (lanes b) !! k = Some t -> t = s' \/ lanes b !! k = Some t.
Proof.
  intros Hl. destruct (decide (k = l)) as [->|Hne].
  - rewrite list_lookup_insert_eq by (by apply (lookup_lt_Some _ _ _ Hl)). intros [= ->]. by left.
  - rewrite list_lookup_insert_ne by done. by right.
Qed.
(** A lane that keeps its index and accounts for the bytes it holds. *)
Lemma relane b l s s' payload working :
  batch_inv b -> lanes b !! l = Some s -> lane_index s' = lane_index s -> lane_ok (aborted b) (next b) s' ->
  payload = payloadBytes b - lane_held s + lane_held s' -> working = payload -> payload <= maxTotalBytes ->
  batch_inv {| next := next b; payloadBytes := payload; workingBytes := working; output := output b;
               lanes := <[l := s']> (lanes b); aborted := aborted b |}.
Proof.
  intros Hb Hl Hi Hok -> -> Hp. destruct Hb as [Hlen Hind Hpay Hwork Hbud Hlanes Hans].
  split; cbn [next payloadBytes workingBytes output lanes aborted]; try done.
  - intros w. rewrite (zsum_insert _ _ _ _ _ Hl). rewrite <- (Hind w). unfold lane_weight. rewrite Hi. lia.
  - rewrite (zsum_insert _ _ _ _ _ Hl). lia.
  - intros k t Hk. destruct (lane_cases b l s s' k t Hl Hk) as [->|Hk']; [done | by eapply Hlanes].
Qed.
Lemma rolled_back b l s i held working e :
  batch_inv b -> lanes b !! l = Some s -> lane_index s = Some i -> (i < n)%nat ->
  lane_held s = held -> working = held -> justified (aborted b) i (Throw (encodeError e)) ->
  batch_inv (roll_back l i held working e b).
Proof.
  intros Hb Hl Hi Hlt <- -> Hj. unfold roll_back. pose proof (bi_lanes b Hb _ _ Hl) as Hok.
  pose proof (lane_held_bounds _ _ _ Hok). pose proof (bi_budget b Hb). pose proof (bi_working b Hb).
  apply (relane b l s); cbn [payloadBytes workingBytes lane_index lane_held lane_ok answer_held]; try done; try lia.
Qed.

Lemma answer_at_insert out i j r :
  (i < length out)%nat -> answer_at (<[i := Some r]> out) j = if decide (j = i) then Some r else answer_at out j.
Proof.
  intros Hi. unfold answer_at. case_decide as E; [subst; by rewrite list_lookup_insert_eq|].
  by rewrite list_lookup_insert_ne.
Qed.
Lemma weight_nonneg (i : nat) out j :
  0 <= answer_weight (fun j => if decide (j = i) then 1 else 0) out j.
Proof. unfold answer_weight. destruct (answer_at out j); [case_decide|]; lia. Qed.
(** An index that is still in hand has no answer yet. *)
Lemma unanswered b i :
  batch_inv b -> (i < n)%nat -> 0 < zsum (lane_weight (fun j => if decide (j = i) then 1 else 0)) (lanes b) ->
  answer_at (output b) i = None.
Proof.
  intros Hb Hi Hlanes. destruct (answer_at (output b) i) as [r|] eqn:E; [|done]. exfalso.
  set (w := fun j => if decide (j = i) then 1 else 0) in *.
  pose proof (bi_indices b Hb w) as Hw.
  assert (zsum w (seq 0 (Nat.min (next b) n)) <= 1) as H1.
  { etrans; [apply (zsum_range_le w _ n); [intros j; unfold w; case_decide; lia | lia]|].
    rewrite (zsum_range_update (fun _ => 0) w n i Hi) by (intros j Hj; unfold w; by rewrite decide_False).
    rewrite zsum_zero by done. unfold w. rewrite decide_True by done. done. }
  assert (1 <= zsum (answer_weight w (output b)) (seq 0 n)) as H2; [|lia].
  transitivity (answer_weight w (output b) i).
  { unfold answer_weight, w. rewrite E, decide_True by done. done. }
  apply (zsum_elem_le _ _ i); [intros j _; apply weight_nonneg | by apply lookup_seq].
Qed.
Lemma answered b i r out w :
  batch_inv b -> (i < n)%nat -> answer_at (output b) i = None -> out = <[i := Some r]> (output b) ->
  length out = n /\
  zsum (answer_weight w out) (seq 0 n) = zsum (answer_weight w (output b)) (seq 0 n) + w i /\
  zsum (fun i => answer_held (answer_at out i)) (seq 0 n)
    = zsum (fun i => answer_held (answer_at (output b) i)) (seq 0 n) + answer_held (Some r) /\
  (forall j r', answer_at out j = Some r' -> (j = i /\ r' = r) \/ answer_at (output b) j = Some r').
Proof.
  intros Hb Hi Hnone ->. pose proof (bi_length b Hb) as Hlen.
  assert (forall j, answer_at (<[i := Some r]> (output b)) j = if decide (j = i) then Some r else answer_at (output b) j) as Hat
    by (intros j; apply answer_at_insert; lia).
  split_and!.
  - by rewrite length_insert.
  - rewrite (zsum_range_update (answer_weight w (output b)) _ n i Hi).
    + unfold answer_weight at 2 3. rewrite Hat, decide_True, Hnone by done. lia.
    + intros j Hj. unfold answer_weight. by rewrite Hat, decide_False.
  - rewrite (zsum_range_update (fun i => answer_held (answer_at (output b) i)) _ n i Hi).
    + rewrite Hat, decide_True, Hnone by done. cbn [answer_held]. lia.
    + intros j Hj. by rewrite Hat, decide_False.
  - intros j r'. rewrite Hat. case_decide; [intros [= <-]; by left | by right].
Qed.

(** An index that was not claimed has no answer. *)
Lemma unclaimed b i : batch_inv b -> (next b <= i < n)%nat -> answer_at (output b) i = None.
Proof.
  intros Hb Hi. destruct (answer_at (output b) i) as [r|] eqn:E; [|done]. exfalso.
  set (w := fun j => if decide (j = i) then 1 else 0). pose proof (bi_indices b Hb w) as Hind.
  rewrite Nat.min_l, (zsum_zero w) in Hind by
    (lia || (intros j [_ ?]%elem_of_seq; unfold w; rewrite decide_False; [done|lia])).
  assert (0 <= zsum (lane_weight w) (lanes b)).
  { apply zsum_nonneg. intros s _. unfold lane_weight, w. destruct (lane_index s); [case_decide|]; lia. }
  assert (1 <= zsum (answer_weight w (output b)) (seq 0 n)); [|lia].
  transitivity (answer_weight w (output b) i).
  { unfold answer_weight, w. rewrite E, decide_True by done. done. }
  apply (zsum_elem_le _ _ i); [intros j _; apply weight_nonneg | apply lookup_seq; lia].
Qed.
Lemma later ab claimed s : lane_ok ab claimed s -> lane_ok ab (S claimed) s.
Proof. destruct s; cbn; lia || done. Qed.
Lemma claim_range (w : nat -> Z) b :
  (next b < n)%nat ->
  zsum w (seq 0 (Nat.min (S (next b)) n)) = zsum w (seq 0 (Nat.min (next b) n)) + w (next b).
Proof.
  intros H. rewrite !Nat.min_l by lia. rewrite seq_S, zsum_app. cbn. lia.
Qed.

Lemma claim_inv l b : batch_inv b -> lanes b !! l = Some Ready -> batch_inv (claim requests l b).
Proof.
  intros Hb Hl. pose proof Hb as [Hlen Hind Hpay Hwork Hbud Hlanes Hans].
  unfold claim, move, set_output. cbn [next payloadBytes workingBytes output lanes aborted].
  destruct (n <=? next b)%nat eqn:En; [apply Nat.leb_le in En | apply Nat.leb_gt in En; destruct (aborted b)].
  - split; cbn [next payloadBytes workingBytes output lanes aborted]; try done.
    + intros w. specialize (Hind w). rewrite Nat.min_r in Hind by lia. rewrite Nat.min_r by lia.
      rewrite (zsum_insert _ _ _ _ _ Hl), <- Hind.
      change (lane_weight w Returned) with 0. change (lane_weight w Ready) with 0. lia.
    + rewrite (zsum_insert _ _ _ _ _ Hl). cbn [lane_held]. lia.
    + intros k t Hk. destruct (lane_cases b l _ _ k t Hl Hk) as [->|Hk']; [unfold lane_ok; lia | eapply later, Hlanes, Hk'].
  - pose proof (fun w => answered b (next b) timed_out _ w Hb En (unclaimed b (next b) Hb ltac:(lia)) eq_refl) as Hout.
    destruct (Hout (fun _ => 0)) as (Hlen' & _ & Hheld & Hin). fold timed_out.
    split; cbn [next payloadBytes workingBytes output lanes aborted]; try done.
    + intros w. rewrite (claim_range w b En), <- (Hind w). destruct (Hout w) as (_ & -> & _). lia.
    + rewrite Hheld. cbn [answer_held timed_out]. lia.
    + intros k s Hk. eapply later, Hlanes, Hk.
    + intros j r [[-> ->]|Hold]%Hin; [right; right; done | by apply Hans].
  - split; cbn [next payloadBytes workingBytes output lanes aborted]; try done.
    + intros w. rewrite (zsum_insert _ _ _ _ _ Hl), (claim_range w b En), <- (Hind w).
      change (lane_weight w Ready) with 0. change (lane_weight w (Opening (next b))) with (w (next b)). lia.
    + rewrite (zsum_insert _ _ _ _ _ Hl). cbn [lane_held]. lia.
    + intros k t Hk. destruct (lane_cases b l _ _ k t Hl Hk) as [->|Hk']; [unfold lane_ok; lia | eapply later, Hlanes, Hk'].
Qed.

Lemma open_inv l i b :
  batch_inv b -> lanes b !! l = Some (Opening i) -> batch_inv (open_step source l i b).
Proof.
  intros Hb Hl. pose proof (bi_lanes b Hb _ _ Hl) as Hi. pose proof (bi_budget b Hb). pose proof (bi_working b Hb).
  unfold open_step. destruct (opened (source i)) as [m|e] eqn:Eo.
  - apply (relane b l (Opening i)); cbn [payloadBytes workingBytes lane_index lane_held lane_ok bytes]; try done; try lia.
  - apply (rolled_back b l (Opening i)); try done. left. unfold Batch.alone. by rewrite Eo.
Qed.
Lemma read_inv l i e rest q b :
  batch_inv b -> lanes b !! l = Some (Reading i e rest) -> requests !! i = Some q ->
  batch_inv (read_step source maxTotalBytes l i q e rest b).
Proof.
  intros Hb Hl Hq. pose proof (bi_lanes b Hb _ _ Hl) as [Hi He]. destruct He as (Ho & Hc & Hbytes & Hres) eqn:Ee. clear Ee.
  pose proof (bi_budget b Hb). pose proof (bi_working b Hb) as Hwork. unfold read_step. destruct rest as [|c rest].
  - destruct (ending (source i)) as [error|] eqn:Eend.
    + eapply rolled_back; try done. left. unfold Batch.alone. by rewrite Ho, Eend.
    + apply (relane b l (Reading i e [])); cbn [payloadBytes workingBytes lane_index lane_held]; try done; lia.
  - destruct (_ || _) eqn:Eover.
    + eapply rolled_back; try done. right; left. split.
      * apply (over_budget b l i e c rest Hb Hl). rewrite Hwork in Eover. apply orb_true_iff in Eover as [E|E];
          apply Z.gtb_lt in E; unfold maxWorkingBytes in *; lia.
      * exists q, (metadata e), (kept e), (c :: rest). by rewrite <- Hbytes.
    + apply orb_false_elim in Eover as [E _]. rewrite Z.gtb_ltb in E. apply Z.ltb_ge in E.
      apply (relane b l (Reading i e (c :: rest))); cbn [payloadBytes workingBytes lane_index lane_held lane_ok bytes]; try done; try lia.
      split; [done|]. unfold execution_ok. cbn [metadata kept bytes reservedWorkingBytes].
      rewrite <- app_assoc. split_and!; try done; [|lia].
      unfold join. rewrite map_app, concat_app, zlength_app. cbn. rewrite app_nil_r. unfold join in Hbytes. lia.
Qed.
Lemma ready_body_join l body : ready_body l = Some body -> body = join l.
Proof.
  unfold ready_body, join. destruct l as [|c [|]]; try done. destruct (c_compact c); [|done].
  intros [= <-]. cbn. by rewrite app_nil_r.
Qed.
(** Assembling never exceeds the working budget. *)
Lemma assembly_fits b l i e :
  batch_inv b -> lanes b !! l = Some (Completing i e) -> workingBytes b + bytes e <= maxWorkingBytes maxTotalBytes.
Proof.
  intros Hb Hl. pose proof (held_le_payload b l _ Hb Hl) as H. cbn in H. pose proof (bi_budget b Hb).
  rewrite (bi_working b Hb). unfold maxWorkingBytes. lia.
Qed.
Lemma complete_inv l i e q b :
  batch_inv b -> lanes b !! l = Some (Completing i e) ->
  batch_inv (complete_step source maxTotalBytes allocates l i q e b).
Proof.
  intros Hb Hl. pose proof (bi_lanes b Hb _ _ Hl) as (Hi & (Ho & Hc & Hbytes & Hres) & Hend).
  rewrite app_nil_r in Hc. pose proof (assembly_fits b l i e Hb Hl) as Hfits.
  pose proof (bi_budget b Hb). pose proof (bi_working b Hb) as Hwork.
  unfold complete_step. destruct (completion (source i)) as [d|error] eqn:Ec.
  - destruct (ready_body (kept e)) as [body|] eqn:Er.
    + pose proof (ready_body_join _ _ Er) as ->. eapply (relane b l (Completing i e)); cbn [payloadBytes workingBytes lane_index lane_held lane_ok answer_held success p_body]; try done; try lia.
      split; [done|]. left. unfold Batch.alone. rewrite Ho, Hend, Ec, Hc, bool_decide_true by (rewrite Er; eauto). done.
    + destruct (Z.gtb_spec (workingBytes b + bytes e) (maxWorkingBytes maxTotalBytes)); [lia|].
      destruct (allocates (bytes e)) eqn:Ea; cbn [negb].
      * apply (relane b l (Completing i e)); cbn [payloadBytes workingBytes lane_index lane_held lane_ok answer_held success p_body]; try done; try lia.
        split; [done|]. left. unfold Batch.alone. rewrite Ho, Hend, Ec, Hc, bool_decide_false by (rewrite Er; by intros []).
        by rewrite <- Hbytes, Ea.
      * unfold roll_back. cbn [next payloadBytes workingBytes output lanes aborted].
        apply (relane b l (Completing i e)); cbn [payloadBytes workingBytes lane_index lane_held lane_ok answer_held]; try done; try lia.
        -- split; [done|]. left. unfold Batch.alone.
           rewrite Ho, Hend, Ec, Hc, bool_decide_false by (rewrite Er; by intros []). by rewrite <- Hbytes, Ea.
        -- pose proof (lane_held_bounds _ _ _ (bi_lanes b Hb _ _ Hl)). cbn in *. lia.
  - eapply rolled_back; try done. left. unfold Batch.alone. by rewrite Ho, Hend, Ec.
Qed.
Lemma close_inv l i r b :
  batch_inv b -> lanes b !! l = Some (Closing i r) -> batch_inv (move l Ready (set_output i r b)).
Proof.
  intros Hb Hl. pose proof (bi_lanes b Hb _ _ Hl) as [Hi Hr].
  assert (answer_at (output b) i = None) as Hnone.
  { apply unanswered; try done. eapply Z.lt_le_trans; [|eapply (zsum_elem_le _ _ l); [|exact Hl]].
    - unfold lane_weight. cbn. by rewrite decide_True.
    - intros s _. unfold lane_weight. destruct (lane_index s); [case_decide|]; lia. }
  pose proof (fun w => answered b i r _ w Hb Hi Hnone eq_refl) as Hout.
  destruct (Hout (fun _ => 0)) as (Hlen' & _ & Hheld & Hin). destruct Hb as [Hlen Hind Hpay Hwork Hbud Hlanes Hans].
  unfold move, set_output. split; cbn [next payloadBytes workingBytes output lanes aborted]; try done.
  - intros w. rewrite (zsum_insert _ _ _ _ _ Hl), <- (Hind w). destruct (Hout w) as (_ & -> & _).
    change (lane_weight w Ready) with 0. change (lane_weight w (Closing i r)) with (w i). lia.
  - rewrite Hheld, (zsum_insert _ _ _ _ _ Hl). change (lane_held (Closing i r)) with (answer_held (Some r)).
    change (lane_held Ready) with 0. lia.
  - intros k t Hk. destruct (lane_cases b l _ _ k t Hl Hk) as [->|Hk']; [done | eapply Hlanes, Hk'].
  - intros j r' [[-> ->]|Hold]%Hin; [done | by apply Hans].
Qed.

Notation step := (batch_step requests source maxTotalBytes allocates).
Notation steps := (fold_left step).
Notation start := (newBatch requests).

Lemma lane_step_inv l b : batch_inv b -> batch_inv (lane_step requests source maxTotalBytes allocates l b).
Proof.
  intros Hb. unfold lane_step. destruct (lanes b !! l) as [[|i|i e rest|i e|i r|]|] eqn:Hl; try done.
  - by apply claim_inv.
  - by apply open_inv.
  - destruct (requests !! i) eqn:Hq; [by apply read_inv | done].
  - destruct (requests !! i) eqn:Hq; [by apply complete_inv | done].
  - by apply close_inv.
Qed.
Lemma justified_abort ab i r : justified ab i r -> justified true i r.
Proof. intros [?|[?|[_ ?]]]; [by left|by right; left|by right; right]. Qed.
Lemma step_inv b ev : batch_inv b -> batch_inv (step b ev).
Proof.
  intros Hb. destruct ev as [l|]; [by apply lane_step_inv|].
  destruct Hb as [Hlen Hind Hpay Hwork Hbud Hlanes Hans].
  split; cbn [batch_step next payloadBytes workingBytes output lanes aborted]; try done.
  - intros l s Hl. specialize (Hlanes l s Hl). destruct s; try done. destruct Hlanes. split; [done|].
    by eapply justified_abort.
  - intros i r Hr. by eapply justified_abort, Hans.
Qed.
Lemma answer_at_none m i : answer_at (replicate m None) i = None.
Proof.
  unfold answer_at. destruct (replicate m None !! i) eqn:E; [|done]. by apply lookup_replicate in E as [-> _].
Qed.
Lemma start_inv concurrency : batch_inv (start concurrency).
Proof.
  split; cbn [newBatch next payloadBytes workingBytes output lanes aborted]; try done.
  - apply length_replicate.
  - intros w. rewrite (zsum_zero (lane_weight w)), (zsum_zero (answer_weight w _)); [done| |].
    + intros i _. unfold answer_weight. by rewrite answer_at_none.
    + intros s Hs. by apply elem_of_replicate_inv in Hs as ->.
  - rewrite (zsum_zero lane_held), zsum_zero; [done| |].
    + intros i _. by rewrite answer_at_none.
    + intros s Hs. by apply elem_of_replicate_inv in Hs as ->.
  - intros l s Hs. by apply lookup_replicate in Hs as [-> _].
  - intros i r Hr. by rewrite answer_at_none in Hr.
Qed.
Lemma steps_inv schedule b : batch_inv b -> batch_inv (steps schedule b).
Proof. revert b. induction schedule as [|ev schedule IH]; intros b Hb; [done|]. by apply IH, step_inv. Qed.

(** ** Every batch ends *)

Definition live (s : lane_state) : bool := match s with Returned => false | _ => true end.
Definition cost (i : nat) : Z := zlength (chunks (source i)) + 5.
(** The steps a lane still has to make for the request it works on. *)
Definition lane_cost (s : lane_state) : Z :=
  match s with
  | Returned => 0
  | Ready => 1
  | Closing _ _ => 2
  | Completing _ _ => 3
  | Reading _ _ rest => zlength rest + 4
  | Opening i => zlength (chunks (source i)) + 5
  end.
Definition remaining (b : Batch) : Z :=
  zsum lane_cost (lanes b) + zsum cost (seq (next b) (n - next b)).

Lemma lane_cost_nonneg s : 0 <= lane_cost s.
Proof. destruct s; cbn; zlen. Qed.
Lemma cost_pos i : 5 <= cost i.
Proof. unfold cost. zlen. Qed.
Lemma remaining_nonneg b : 0 <= remaining b.
Proof.
  pose proof (zsum_nonneg lane_cost (lanes b) ltac:(intros; apply lane_cost_nonneg)).
  pose proof (zsum_nonneg cost (seq (next b) (n - next b)) ltac:(intros i _; pose proof (cost_pos i); lia)).
  unfold remaining. lia.
Qed.
Lemma remaining_relane b b' l s s' :
  lanes b !! l = Some s -> lanes b' = <[l := s']> (lanes b) -> next b' = next b -> lane_cost s' < lane_cost s ->
  remaining b' < remaining b.
Proof. intros Hl H1 H2 Hc. unfold remaining. rewrite H1, H2, (zsum_insert _ _ _ _ _ Hl). lia. Qed.
Lemma claim_remaining l b : lanes b !! l = Some Ready -> remaining (claim requests l b) < remaining b.
Proof.
  intros Hl. unfold claim, move, set_output, remaining. destruct (n <=? next b)%nat eqn:En.
  - apply Nat.leb_le in En. cbn [next lanes]. rewrite (zsum_insert _ _ _ _ _ Hl).
    replace (n - S (next b))%nat with 0%nat by lia. replace (n - next b)%nat with 0%nat by lia. cbn [lane_cost zsum seq]. lia.
  - apply Nat.leb_gt in En. replace (n - next b)%nat with (S (n - S (next b))) by lia. cbn [seq zsum].
    pose proof (cost_pos (next b)). cbn [aborted]. destruct (aborted b); cbn [next lanes].
    + lia.
    + rewrite (zsum_insert _ _ _ _ _ Hl). cbn [lane_cost]. unfold cost. lia.
Qed.
Lemma step_remaining b l s :
  batch_inv b -> lanes b !! l = Some s -> live s = true -> remaining (step b (Step l)) < remaining b.
Proof.
  intros Hb Hl Hlive. pose proof (bi_lanes b Hb _ _ Hl) as Hok. cbn [batch_step]. unfold lane_step. rewrite Hl.
  destruct s as [|i|i e rest|i e|i r|]; try done.
  - by apply claim_remaining.
  - unfold open_step. destruct (opened (source i));
      (eapply (remaining_relane _ _ _ _ _ Hl); [reflexivity..|]; cbn [lane_cost]; zlen).
  - destruct (lookup_lt_is_Some_2 requests i (proj1 Hok)) as [q ->]. unfold read_step.
    destruct rest as [|c rest]; [destruct (ending (source i))|destruct (_ || _)];
      (eapply (remaining_relane _ _ _ _ _ Hl); [reflexivity..|]; cbn [lane_cost]; zlen).
  - destruct (lookup_lt_is_Some_2 requests i (proj1 Hok)) as [q ->]. unfold complete_step.
    destruct (completion (source i)); [|eapply (remaining_relane _ _ _ _ _ Hl); [reflexivity..|]; cbn [lane_cost]; lia].
    destruct (ready_body (kept e)); [|destruct (_ >? _); [|destruct (negb _)]];
      (eapply (remaining_relane _ _ _ _ _ Hl); [reflexivity..|]; cbn [lane_cost]; lia).
  - eapply (remaining_relane _ _ _ _ _ Hl); [reflexivity..|]; cbn [lane_cost]; lia.
Qed.

(** The steps of a schedule that a lane can make. *)
Fixpoint effective (b : Batch) (schedule : list event) : Z :=
  match schedule with
  | [] => 0
  | ev :: schedule =>
      (match ev with
       | Step l => match lanes b !! l with Some s => if live s then 1 else 0 | None => 0 end
       | Abort => 0
       end) + effective (step b ev) schedule
  end.
Lemma idle_step b l : match lanes b !! l with Some s => live s = false | None => True end -> step b (Step l) = b.
Proof. cbn [batch_step]. unfold lane_step. by destruct (lanes b !! l) as [[]|]. Qed.
Lemma effective_bound schedule b : batch_inv b -> effective b schedule <= remaining b.
Proof.
  revert b. induction schedule as [|ev schedule IH]; intros b Hb; cbn [effective]; [apply remaining_nonneg|].
  specialize (IH (step b ev) (step_inv b ev Hb)). destruct ev as [l|].
  - destruct (lanes b !! l) as [s|] eqn:Hl; [destruct (live s) eqn:Hs|].
    + pose proof (step_remaining b l s Hb Hl Hs). lia.
    + rewrite (idle_step b l) in * by by rewrite Hl. lia.
    + rewrite (idle_step b l) in * by by rewrite Hl. lia.
  - change (remaining (step b Abort)) with (remaining b) in IH. lia.
Qed.
Lemma unfinished b : finished b = false -> exists l s, lanes b !! l = Some s /\ live s = true.
Proof.
  unfold finished. induction (lanes b) as [|s ls IH]; cbn; [done|].
  destruct s; cbn; intros H; try (by eexists 0%nat, _); []. destruct (IH H) as (l & s & Hl & Hs). by exists (S l), s.
Qed.
Lemma finishes b : batch_inv b -> exists schedule, finished (steps schedule b) = true.
Proof.
  remember (Z.to_nat (remaining b)) as k eqn:Hk. revert b Hk.
  induction (lt_wf k) as [k _ IH]; intros b Hk Hb. destruct (finished b) eqn:Hf; [by exists []|].
  destruct (unfinished b Hf) as (l & s & Hl & Hs). pose proof (step_remaining b l s Hb Hl Hs).
  pose proof (remaining_nonneg (step b (Step l))).
  destruct (IH (Z.to_nat (remaining (step b (Step l)))) ltac:(lia) (step b (Step l)) eq_refl (step_inv b _ Hb)) as [sched Hsched].
  by exists (Step l :: sched).
Qed.

(** ** The answers of a finished batch *)

Lemma run_inv concurrency schedule : batch_inv (run requests source maxTotalBytes allocates concurrency schedule).
Proof. apply steps_inv, start_inv. Qed.
Lemma run_lanes concurrency schedule :
  length (lanes (run requests source maxTotalBytes allocates concurrency schedule))
  = Z.to_nat (Z.min concurrency (zlength requests)).
Proof.
  unfold run. rewrite <- (length_replicate (Z.to_nat (Z.min concurrency (zlength requests))) Ready).
  change (replicate _ Ready) with (lanes (start concurrency)). generalize (start concurrency).
  induction schedule as [|ev schedule IH]; intros b; [done|]. cbn [fold_left]. rewrite IH. clear IH.
  destruct ev as [l|]; [|done]. cbn [batch_step]. unfold lane_step, claim, open_step, read_step, complete_step, roll_back, move, set_output.
  repeat (case_match; cbn [lanes]; rewrite ?length_insert); done.
Qed.
Lemma all_answered b :
  batch_inv b -> finished b = true -> (0 < n -> 0 < length (lanes b))%nat ->
  forall i, (i < n)%nat -> exists r, output b !! i = Some (Some r) /\ justified (aborted b) i r.
Proof.
  intros Hb Hf Hlanes i Hi. pose proof (proj1 (forallb_forall _ _) Hf) as Hret.
  assert (forall s, s ∈ lanes b -> s = Returned) as Hall.
  { intros s Hs%list_elem_of_In%Hret. by destruct s. }
  assert (n <= next b)%nat as Hnext.
  { destruct (lookup_lt_is_Some_2 (lanes b) 0 ltac:(lia)) as [s Hs].
    pose proof (bi_lanes b Hb _ _ Hs) as Hok. rewrite (Hall s) in Hok by (by eapply list_elem_of_lookup_2). done. }
  set (w := fun j => if decide (j = i) then 1 else 0). pose proof (bi_indices b Hb w) as Hind.
  rewrite (zsum_zero (lane_weight w)), Nat.min_r in Hind by (lia || (intros s Hs; by rewrite (Hall s Hs))).
  rewrite (zsum_range_update (fun _ => 0) w n i Hi), (zsum_zero (fun _ : nat => 0)) in Hind
    by (done || (intros j Hj; unfold w; by rewrite decide_False)).
  destruct (answer_at (output b) i) as [r|] eqn:E.
  - exists r. split; [|by apply (bi_answers b Hb)]. unfold answer_at in E. destruct (output b !! i) as [[]|]; by simplify_eq/=.
  - exfalso. rewrite (zsum_zero (answer_weight w (output b))) in Hind.
    + unfold w in Hind. rewrite decide_True in Hind by done. lia.
    + intros j _. unfold answer_weight, w. destruct (answer_at (output b) j) eqn:Ej; [|done]. rewrite decide_False; congruence.
Qed.
Lemma run_aborted concurrency schedule :
  Abort ∉ schedule -> aborted (run requests source maxTotalBytes allocates concurrency schedule) = false.
Proof.
  unfold run. assert (aborted (start concurrency) = false) as H by done. revert H. generalize (start concurrency).
  induction schedule as [|ev schedule IH]; intros b Hb Hno; [done|]. apply not_elem_of_cons in Hno as [Hne Hno].
  cbn [fold_left]. apply IH; [|done]. destruct ev as [l|]; [|done].
  cbn [batch_step]. unfold lane_step, claim, open_step, read_step, complete_step, roll_back, move, set_output.
  repeat (case_match; cbn [aborted]); done.
Qed.
End invariant.

(** ** Properties *)

(** C32: a batch answers every request once, in the order of the requests, and its
    answers are those the requests give on their own, whatever the interleaving of
    the lanes: a request only differs by a refusal for the batch's payload budget,
    which only happens when all the bodies together exceed it, or by the uncertain
    timeout of a request that was claimed after the abort.  So an unaborted batch
    whose bodies fit is exactly the sequence of its requests. *)
Theorem batch_refines requests source maxTotalBytes allocates concurrency schedule :
  0 <= maxTotalBytes -> 0 < concurrency ->
  let b := run requests source maxTotalBytes allocates concurrency schedule in
  finished b = true ->
  length (output b) = length requests /\
  (forall i, (i < length requests)%nat -> exists r, output b !! i = Some (Some r) /\
     (r = alone source allocates i \/
      refused requests source maxTotalBytes i r \/
      (Abort ∈ schedule /\ r = timed_out))) /\
  (total_size requests source <= maxTotalBytes -> Abort ∉ schedule ->
   output b = map (fun i => Some (alone source allocates i)) (seq 0 (length requests))).
Proof.
  intros Hmax Hc b Hf.
  pose proof (run_inv requests source maxTotalBytes allocates Hmax concurrency schedule) as Hb. fold b in Hb.
  assert (forall i, (i < length requests)%nat -> exists r, output b !! i = Some (Some r) /\
    justified requests source maxTotalBytes allocates (aborted b) i r) as Hall.
  { eapply all_answered; try done. unfold b. rewrite run_lanes. unfold zlength. lia. }
  split; [apply (bi_length _ _ _ _ b Hb)|]. split.
  - intros i Hi. destruct (Hall i Hi) as (r & Hr & [H|[H|[Hab H]]]); exists r; (split; [done|]); [by left|by right; left|].
    right; right. split; [|done]. destruct (decide (Abort ∈ schedule)) as [|Hno]; [done|].
    by rewrite (run_aborted _ _ _ _ concurrency schedule Hno : aborted b = false) in Hab.
  - intros Hfit Hno. apply list_eq. intros i. rewrite list_lookup_fmap.
    destruct (decide (i < length requests)%nat) as [Hi|Hi].
    + rewrite lookup_seq_lt by done. cbn. destruct (Hall i Hi) as (r & -> & [->|[[H _]|[Hab _]]]); [done|lia|].
      by rewrite (run_aborted _ _ _ _ concurrency schedule Hno : aborted b = false) in Hab.
    + rewrite lookup_seq_ge by lia. apply lookup_ge_None. rewrite (bi_length _ _ _ _ b Hb). lia.
Qed.

(** C33: in every state of a batch the payload budget counts exactly the body bytes that
    lanes are collecting and that successful answers keep; it is never exceeded, a
    failed request has given its bytes back, and assembling a body on top of what the
    batch holds stays within twice the budget, so it is never refused. *)
Theorem batch_memory requests source maxTotalBytes allocates concurrency schedule :
  0 <= maxTotalBytes ->
  let b := run requests source maxTotalBytes allocates concurrency schedule in
  payloadBytes b = zsum lane_held (lanes b)
                   + zsum (fun i => answer_held (answer_at (output b) i)) (seq 0 (length requests)) /\
  workingBytes b = payloadBytes b /\ payloadBytes b <= maxTotalBytes /\
  (forall l i e, lanes b !! l = Some (Completing i e) -> workingBytes b + bytes e <= maxWorkingBytes maxTotalBytes).
Proof.
  intros Hmax b.
  pose proof (run_inv requests source maxTotalBytes allocates Hmax concurrency schedule) as Hb. fold b in Hb.
  split_and!; [apply (bi_payload _ _ _ _ b Hb) | apply (bi_working _ _ _ _ b Hb) | apply (bi_budget _ _ _ _ b Hb) |].
  intros l i e Hl. by apply (assembly_fits requests source maxTotalBytes allocates b l i).
Qed.

(** Batches end.  No schedule makes more lane steps than the lanes and the chunks
    of the streams account for, and every schedule can be continued to the end. *)
Theorem batch_terminates requests source maxTotalBytes allocates concurrency schedule :
  0 <= maxTotalBytes ->
  let start := newBatch requests concurrency in
  effective requests source maxTotalBytes allocates start schedule
    <= zlength (lanes start) + zsum (fun i => zlength (chunks (source i)) + 5) (seq 0 (length requests)) /\
  exists more, finished (run requests source maxTotalBytes allocates concurrency (schedule ++ more)) = true.
Proof.
  intros Hmax start. split.
  - etrans; [by apply effective_bound, start_inv|].
    unfold remaining. change (next start) with 0%nat. rewrite Nat.sub_0_r.
    enough (zsum (lane_cost source) (lanes start) <= zlength (lanes start)) by (unfold cost; lia).
    assert (forall s, s ∈ lanes start -> lane_cost source s = 1) as H
      by (intros s Hs; by apply elem_of_replicate_inv in Hs as ->).
    induction (lanes start) as [|s ls IH]; [done|]. cbn. rewrite H by set_solver. rewrite zlength_cons.
    specialize (IH ltac:(set_solver)). lia.
  - destruct (finishes requests source maxTotalBytes allocates Hmax _
      (run_inv requests source maxTotalBytes allocates Hmax concurrency schedule)) as [more Hmore].
    exists more. unfold run. by rewrite fold_left_app.
Qed.

(** ** A batch of three requests in two lanes *)

Local Open Scope js_scope.
Definition demo_request : Request := {|
  q_common := {| r_url := "http://a/"; r_method := "GET"; r_headers := None; r_body := None; r_timeoutMs := None;
                 r_maxResponseBytes := None; r_attempt := None; r_requestId := None |};
  q_partition := "p"; q_target := ToContext "c" |}.
Definition demo_source (i : nat) : Source := {|
  opened := if decide (i = 1%nat) then Throw EOther
            else Ok {| m_status := 200; m_headers := [("X-A", "1")]; m_diagnostics := demo_diagnostics |};
  chunks := [{| c_bytes := [1; 2]; c_compact := true |}; {| c_bytes := [Z.of_nat i]; c_compact := false |}];
  ending := None; completion := Ok demo_diagnostics |}.
Definition demo_requests : list Request := [demo_request; demo_request; demo_request].
Definition demo_schedule : list event :=
  map Step ([0; 1; 0; 1; 0; 1; 1; 1; 0; 1; 0; 1; 0] ++ repeat 0 8 ++ repeat 1 8)%nat.

Lemma batch_refines_witness :
  let b := run demo_requests demo_source 9 (fun _ => true) 2 demo_schedule in
  finished b = true /\
  output b = map (fun i => Some (alone demo_source (fun _ => true) i)) (seq 0 3).
Proof.
  split; [vm_compute; reflexivity|].
  apply (batch_refines demo_requests demo_source 9 (fun _ => true) 2 demo_schedule); try lia.
  - vm_compute. reflexivity.
  - vm_compute. discriminate.
  - intros H. apply list_elem_of_fmap in H as (l & H & _). discriminate H.
Defined.
Lemma batch_memory_witness :
  let b := run demo_requests demo_source 3 (fun _ => true) 2 (take 9 demo_schedule) in
  payloadBytes b = 3 /\ workingBytes b = payloadBytes b.
Proof.
  split; [vm_compute; reflexivity|].
  apply (batch_memory demo_requests demo_source 3 (fun _ => true) 2 (take 9 demo_schedule)). lia.
Defined.
Lemma batch_terminates_witness :
  exists more, finished (run demo_requests demo_source 3 (fun _ => true) 2 ([Step 0%nat; Abort] ++ more)) = true.
Proof.
  apply (batch_terminates demo_requests demo_source 3 (fun _ => true) 2 [Step 0%nat; Abort]). lia.
Defined.
(** With a budget of four bytes the third request is refused, and keeps none of them. *)
Example batch_refusal :
  let b := run demo_requests demo_source 4 (fun _ => true) 2 demo_schedule in
  finished b = true /\ payloadBytes b = 3 /\
  exists r, output b !! 2%nat = Some (Some (Throw r)) /\ s_code r = BODY_TOO_LARGE.
Proof. vm_compute. split_and!; try reflexivity. eexists. split; reflexivity. Qed.
