(* ===== verification/Bridge.v ===== *)
(** * The bridge to the worker (packages/typescript/src/sync/index.ts and worker.ts)

    The synchronous client blocks its thread until the worker has answered.  Replies
    come over a message port; a shared generation counter, an atomic 32-bit integer,
    lets the caller sleep between them, and a shared flag says that the worker has
    stopped.  The two threads interleave at every access to what they share. *)

From S2P Require Import Prelude Js Errors Validators Protocol Service Ipc.

Local Open Scope js_scope.

(** ** Commands *)

Inductive Operation :=
| OpRequest | OpTryRequest | OpRequestMany | OpCapabilities | OpRequestStatus | OpCancelRequest
| OpCreateSession | OpSessionRequest | OpSessionTryRequest | OpSessionClose | OpGetCookies | OpSetCookies
| OpExportCookies | OpImportCookies | OpRebindIdentity | OpClose.
#[export] Instance Operation_eq_dec : EqDecision Operation.
Proof. solve_decision. Defined.
Definition operations : list Operation :=
  [OpRequest; OpTryRequest; OpRequestMany; OpCapabilities; OpRequestStatus; OpCancelRequest; OpCreateSession;
   OpSessionRequest; OpSessionTryRequest; OpSessionClose; OpGetCookies; OpSetCookies; OpExportCookies;
   OpImportCookies; OpRebindIdentity; OpClose].
Definition operation_string (o : Operation) : jsstr :=
  match o with
  | OpRequest => "request" | OpTryRequest => "tryRequest" | OpRequestMany => "requestMany"
  | OpCapabilities => "capabilities" | OpRequestStatus => "requestStatus" | OpCancelRequest => "cancelRequest"
  | OpCreateSession => "createSession" | OpSessionRequest => "sessionRequest"
  | OpSessionTryRequest => "sessionTryRequest" | OpSessionClose => "sessionClose"
  | OpGetCookies => "getCookies" | OpSetCookies => "setCookies" | OpExportCookies => "exportCookies"
  | OpImportCookies => "importCookies" | OpRebindIdentity => "rebindIdentity" | OpClose => "close"
  end.

Record Command := { c_id : Z; c_operation : Operation; c_timeoutMs : Z; c_value : jsval }.
(** [{ id, operation, value, timeoutMs }] *)
Definition command_js (c : Command) : jsval :=
  JObject [("id", jint (c_id c)); ("operation", JStr (operation_string (c_operation c)));
           ("value", c_value c); ("timeoutMs", jint (c_timeoutMs c))].
(** [command] of the worker. *)
Definition command (operationTimeoutMs : Z) (value : jsval) : result exn Command :=
  let? input := object value in
  match read_enum operation_string operations (get input "operation") with
  | None => invalid
  | Some o =>
      let? id := integer (get input "id") 0 MAX_SAFE_INTEGER in
      let? timeout := integer (get input "timeoutMs") 0 operationTimeoutMs in
      Ok {| c_id := id; c_operation := o; c_timeoutMs := timeout; c_value := get input "value" |}
  end.

(** [{ id, ok, value }] or [{ id, ok, error: encodeError(value) }] *)
Definition packet (id : Z) (r : result exn jsval) : jsval :=
  match r with
  | Ok value => JObject [("id", jint id); ("ok", JBool true); ("value", value)]
  | Throw e => JObject [("id", jint id); ("ok", JBool false); ("error", serialized_js (encodeError e))]
  end.

(** ** The shared state and the two threads *)

(** An atomic 32-bit integer wraps around. *)
Definition wrap32 (z : Z) : Z := (z + 2 ^ 31) mod 2 ^ 32 - 2 ^ 31.

(** What a handler of the worker still has to do; handlers run to their end. *)
Inductive action :=
| Post (id : Z) (r : result exn jsval)
| StoreFlag (z : Z)
| Add
| Notify
| ClosePort.
Definition reply (id : Z) (r : result exn jsval) : list action := [Post id r; Add; Notify].
Definition stop : list action := [StoreFlag 2; Add; Notify; ClosePort].

(** A call that waits in [#receive], and where it is. *)
Record Call := { k_id : Z; k_operation : option Operation; k_dispatched : bool }.
Inductive spot :=
| Load                      (* Atomics.load(signal, 0) *)
| Receive (g : Z)           (* receiveMessageOnPort *)
| CheckFlag (g : Z)
| CheckTime (g : Z)
| Wait (g : Z)              (* before Atomics.wait compares *)
| Asleep.

Record Bridge := {
  (* shared *)
  generation : Z;
  flag : Z;
  inbox : list jsval;                        (* posted by the worker *)
  commands : list jsval;                     (* posted by the caller *)
  portOpen : bool;
  (* the worker *)
  started : bool;
  todo : list action;
  activeId : Z;
  running : option (Z * Operation);          (* busy *)
  stopped : bool;
  alive : bool;
  (* the caller *)
  calling : option (Call * spot);
  sequence : Z;
  closing : bool;
  closed : bool;
  cleanupComplete : bool;
  failure : option Ja3ProxyTransportError;
  (* what the proofs observe: all additions, the results of the worker's commands, and
     the outcomes of calls *)
  additions : Z;
  since : Z;                                 (* additions at the last load *)
  answers : list (Z * result exn jsval);
  returned : list (option Z * result exn jsval);
}.

Definition receiving (id : Z) (o : option Operation) (dispatched : bool) : Call :=
  {| k_id := id; k_operation := o; k_dispatched := dispatched |}.
(** The constructor has created the worker and waits for its first reply. *)
Definition newBridge : Bridge := {|
  generation := 0; flag := 0; inbox := []; commands := []; portOpen := true;
  started := false; todo := []; activeId := 0; running := None; stopped := false; alive := true;
  calling := Some (receiving 0 None false, Load); sequence := 0; closing := false; closed := false;
  cleanupComplete := false; failure := None;
  additions := 0; since := 0; answers := []; returned := [] |}.

(** Updates of one thread's part. *)
Definition set_worker (todo' : list action) (started' : bool) (active : Z) (running' : option (Z * Operation))
    (stopped' : bool) (commands' : list jsval) (answers' : list (Z * result exn jsval)) (s : Bridge) : Bridge := {|
  generation := generation s; flag := flag s; inbox := inbox s; commands := commands'; portOpen := portOpen s;
  started := started'; todo := todo'; activeId := active; running := running'; stopped := stopped';
  alive := alive s; calling := calling s; sequence := sequence s; closing := closing s; closed := closed s;
  cleanupComplete := cleanupComplete s; failure := failure s; additions := additions s; since := since s;
  answers := answers'; returned := returned s |}.
Definition set_shared (generation' flag' : Z) (inbox' commands' : list jsval) (open' : bool) (todo' : list action)
    (calling' : option (Call * spot)) (additions' : Z) (s : Bridge) : Bridge := {|
  generation := generation'; flag := flag'; inbox := inbox'; commands := commands'; portOpen := open';
  started := started s; todo := todo'; activeId := activeId s; running := running s; stopped := stopped s;
  alive := alive s; calling := calling'; sequence := sequence s; closing := closing s; closed := closed s;
  cleanupComplete := cleanupComplete s; failure := failure s; additions := additions'; since := since s;
  answers := answers s; returned := returned s |}.
Definition set_caller (inbox' commands' : list jsval) (calling' : option (Call * spot)) (sequence' : Z)
    (closing' closed' cleanup' : bool) (failure' : option Ja3ProxyTransportError) (since' : Z)
    (returned' : list (option Z * result exn jsval)) (s : Bridge) : Bridge := {|
  generation := generation s; flag := flag s; inbox := inbox'; commands := commands'; portOpen := portOpen s;
  started := started s; todo := todo s; activeId := activeId s; running := running s; stopped := stopped s;
  alive := alive s; calling := calling'; sequence := sequence'; closing := closing'; closed := closed';
  cleanupComplete := cleanup'; failure := failure'; additions := additions s; since := since';
  answers := answers s; returned := returned' |}.

Section bridge.
Context (operationTimeoutMs : Z).

(** ** The worker *)

(** The next thing that a handler does. *)
Definition worker_action (s : Bridge) : Bridge :=
  match todo s with
  | [] => s
  | a :: rest =>
      let shared g f box cmds open calling adds := set_shared g f box cmds open rest calling adds s in
      match a with
      | Post id r =>
          shared (generation s) (flag s) (if portOpen s then inbox s ++ [packet id r] else inbox s)
            (commands s) (portOpen s) (calling s) (additions s)
      | StoreFlag z => shared (generation s) z (inbox s) (commands s) (portOpen s) (calling s) (additions s)
      | Add =>
          shared (wrap32 (generation s + 1)) (flag s) (inbox s) (commands s) (portOpen s) (calling s)
            (additions s + 1)
      | Notify =>
          shared (generation s) (flag s) (inbox s) (commands s) (portOpen s)
            (match calling s with Some (c, Asleep) => Some (c, Load) | w => w end) (additions s)
      | ClosePort => shared (generation s) (flag s) (inbox s) [] false (calling s) (additions s)
      end
  end.

Definition fatal (s : Bridge) : Bridge :=
  if stopped s then s
  else set_worker (reply (activeId s) (Throw (ETransport (uncertainError UNKNOWN))) ++ stop) (started s)
         (activeId s) (running s) true (commands s) (answers s) s.
(** The module body: the client is created, or its constructor throws. *)
Definition worker_starts (r : result exn unit) (s : Bridge) : Bridge :=
  match r with
  | Ok _ => set_worker (StoreFlag 1 :: reply 0 (Ok JNull)) true (activeId s) (running s) (stopped s) (commands s)
              (answers s) s
  | Throw e => set_worker (reply 0 (Throw e) ++ stop) true (activeId s) (running s) true (commands s) (answers s) s
  end.
Definition worker_message (s : Bridge) : Bridge :=
  match commands s with
  | [] => s
  | m :: rest =>
      let s := set_worker [] (started s) (activeId s) (running s) (stopped s) rest (answers s) s in
      if stopped s then s
      else
        match running s with
        | Some _ => fatal s
        | None =>
            match command operationTimeoutMs m with
            | Throw _ => fatal s
            | Ok c => set_worker [] (started s) (c_id c) (Some (c_id c, c_operation c)) (stopped s) rest (answers s) s
            end
        end
  end.
(** The dispatched operation settles. *)
Definition worker_finishes (r : result exn jsval) (s : Bridge) : Bridge :=
  match running s with
  | None => s
  | Some (id, o) =>
      let closes := match r with Ok _ => bool_decide (o = OpClose) && negb (stopped s) | Throw _ => false end in
      set_worker (reply id r ++ (if closes then stop else [])) (started s) (activeId s) None
        (stopped s || closes) (commands s) (answers s ++ [(id, r)]) s
  end.
(** The value of the operation cannot be cloned. *)
Definition worker_uncloneable (s : Bridge) : Bridge :=
  match running s with
  | None => s
  | Some _ => fatal (set_worker [] (started s) (activeId s) None (stopped s) (commands s) (answers s) s)
  end.

(** ** The caller *)

(** The call returns or throws; [latch] is a failure that ends the client. *)
Definition settle (c : Call) (outcome : result exn jsval) (latch : option Ja3ProxyTransportError)
    (inbox' : list jsval) (s : Bridge) : Bridge :=
  let succeeded := match outcome with Ok _ => true | Throw _ => false end in
  let closes := bool_decide (k_operation c = Some OpClose) && succeeded in
  let aborts := bool_decide (k_operation c = None) && negb succeeded in
  set_caller inbox' (commands s) None (sequence s) (closing s)
    (closed s || bool_decide (is_Some latch) || closes || aborts) (cleanupComplete s || closes)
    (match latch with Some e => Some e | None => failure s end) (since s)
    (returned s ++ [(Some (k_id c), outcome)]) s.
Definition moves (c : Call) (p : spot) (s : Bridge) : Bridge :=
  set_caller (inbox s) (commands s) (Some (c, p)) (sequence s) (closing s) (closed s) (cleanupComplete s) (failure s)
    (since s) (returned s) s.
Definition fails (c : Call) (e : Ja3ProxyTransportError) (inbox' : list jsval) (s : Bridge) : Bridge :=
  settle c (Throw (ETransport e)) (Some e) inbox' s.

Definition receive_packet (c : Call) (m : jsval) (rest : list jsval) (s : Bridge) : Bridge :=
  match object m with
  | Throw e => settle c (Throw e) None rest s
  | Ok p =>
      if negb (is_int (get p "id") (k_id c)) then fails c (Errors.localError PROTOCOL_ERROR None) rest s
      else
        match get p "ok" with
        | JBool true => settle c (Ok (get p "value")) None rest s
        | JBool false =>
            match decodeError (get p "error") with
            | Throw e => settle c (Throw e) None rest s
            | Ok e =>
                if bool_decide (kind e = worker_unavailable) || (flag s =? 2) then fails c e rest s
                else settle c (Throw (ETransport e)) None rest s
            end
        | _ => fails c (Errors.localError PROTOCOL_ERROR None) rest s
        end
  end.
(** One step of [#receive]; [expired] says that the deadline has passed. *)
Definition caller_step (expired : bool) (s : Bridge) : Bridge :=
  match calling s with
  | None => s
  | Some (c, Load) =>
      set_caller (inbox s) (commands s) (Some (c, Receive (generation s))) (sequence s) (closing s) (closed s)
        (cleanupComplete s) (failure s) (additions s) (returned s) s
  | Some (c, Receive g) =>
      match inbox s with
      | [] => moves c (CheckFlag g) s
      | m :: rest => receive_packet c m rest s
      end
  | Some (c, CheckFlag g) =>
      if bool_decide (is_Some (failure s)) || (flag s =? 2) then
        fails c (match failure s with
                 | Some e => e
                 | None => if k_dispatched c then uncertainError UNKNOWN
                           else Errors.localError UNKNOWN (Some worker_unavailable)
                 end) (inbox s) s
      else moves c (CheckTime g) s
  | Some (c, CheckTime g) =>
      if expired then
        fails c (if k_dispatched c then uncertainError TIMEOUT
                 else Errors.localError TIMEOUT (Some worker_unavailable)) (inbox s) s
      else moves c (Wait g) s
  | Some (c, Wait g) => moves c (if generation s =? g then Asleep else Load) s
  | Some (c, Asleep) => if expired then moves c Load s else s
  end.

Definition client_closed_error : Ja3ProxyTransportError := Errors.localError CANCELLED (Some client_closed).
Definition refuses (e : Ja3ProxyTransportError) (s : Bridge) : Bridge :=
  set_caller (inbox s) (commands s) (calling s) (sequence s) (closing s) (closed s) (cleanupComplete s) (failure s)
    (since s) (returned s ++ [(None, Throw (ETransport e))]) s.
(** [#call] up to [#receive]; the client's own object is not in use while it blocks. *)
Definition call_begins (o : Operation) (value : jsval) (timeoutMs : Z) (cloneable : bool) (s : Bridge) : Bridge :=
  if closed s then refuses (default client_closed_error (failure s)) s
  else if closing s && negb (bool_decide (o = OpClose)) && negb (bool_decide (o = OpSessionClose))
  then refuses client_closed_error s
  else
    let id := sequence s + 1 in
    let c := receiving id (Some o) true in
    let deadline := Z.min timeoutMs operationTimeoutMs in
    let numbered cmds calling' := set_caller (inbox s) cmds calling' id (closing s) (closed s) (cleanupComplete s)
                                    (failure s) (since s) (returned s) s in
    if negb cloneable then
      fails c (Errors.localError UNKNOWN (Some worker_unavailable)) (inbox s) (numbered (commands s) None)
    else
      numbered (if portOpen s
                then commands s ++ [command_js {| c_id := id; c_operation := o; c_timeoutMs := deadline; c_value := value |}]
                else commands s) (Some (c, Load)).
(** [close]: does nothing on a closed client, and closes it to everything else. *)
Definition close_begins (value : jsval) (timeoutMs : Z) (s : Bridge) : Bridge :=
  if closed s then s
  else call_begins OpClose value timeoutMs true
         (set_caller (inbox s) (commands s) (calling s) (sequence s) true (closed s) (cleanupComplete s) (failure s)
            (since s) (returned s) s).
(** The listeners for the worker's [error] and [exit] events. *)
Definition on_worker_event (exit : bool) (s : Bridge) : Bridge :=
  let failure' := if exit && closed s then failure s
                  else Some (default (uncertainError UNKNOWN) (failure s)) in
  let s := set_caller (inbox s) (commands s) (calling s) (sequence s) (closing s) (closed s) (cleanupComplete s)
             failure' (since s) (returned s) s in
  set_shared (wrap32 (generation s + 1)) 2 (inbox s) (commands s) (portOpen s) (todo s) (calling s) (additions s + 1) s.

(** ** Interleavings *)

Inductive event :=
| WorkerAction                                  (* the running handler goes on *)
| WorkerStarts (r : result exn unit)
| WorkerMessage
| WorkerFinishes (r : result exn jsval)
| WorkerUncloneable
| WorkerFatal                                   (* an uncaught error, at any time *)
| WorkerDies                                    (* the thread ends at any point *)
| CallerStep (expired : bool)
| CallBegins (o : Operation) (value : jsval) (timeoutMs : Z) (cloneable : bool)
| CloseBegins (value : jsval) (timeoutMs : Z)
| WorkerEvent (exit : bool).

Definition idle_worker (s : Bridge) : bool := alive s && match todo s with [] => true | _ => false end.
(** A step of either thread; one that is not possible in the state changes nothing. *)
Definition bridge_step (s : Bridge) (ev : event) : Bridge :=
  match ev with
  | WorkerAction => if alive s then worker_action s else s
  | WorkerStarts r => if idle_worker s && negb (started s) then worker_starts r s else s
  | WorkerMessage => if idle_worker s && started s then worker_message s else s
  | WorkerFinishes r => if idle_worker s then worker_finishes r s else s
  | WorkerUncloneable => if idle_worker s then worker_uncloneable s else s
  | WorkerFatal => if idle_worker s && started s then fatal s else s
  | WorkerDies => {|
      generation := generation s; flag := flag s; inbox := inbox s; commands := commands s; portOpen := portOpen s;
      started := started s; todo := []; activeId := activeId s; running := running s; stopped := stopped s;
      alive := false; calling := calling s; sequence := sequence s; closing := closing s; closed := closed s;
      cleanupComplete := cleanupComplete s; failure := failure s; additions := additions s; since := since s;
      answers := answers s; returned := returned s |}
  | CallerStep expired => caller_step expired s
  | CallBegins o value timeoutMs cloneable =>
      match calling s with None => call_begins o value timeoutMs cloneable s | Some _ => s end
  | CloseBegins value timeoutMs => match calling s with None => close_begins value timeoutMs s | Some _ => s end
  | WorkerEvent exit => match calling s with None => on_worker_event exit s | Some _ => s end
  end.
Definition run (events : list event) : Bridge := fold_left bridge_step events newBridge.
End bridge.

(** ** Messages and who they belong to *)

Definition msg_id (m : jsval) : Z := match get m "id" with JNum (NInt z) => z | _ => -1 end.
Lemma packet_get id r :
  let m := packet id r in
  object m = Ok m /\ msg_id m = id /\ (forall z, is_int (get m "id") z = (id =? z)) /\
  get m "ok" = JBool (match r with Ok _ => true | Throw _ => false end) /\
  match r with Ok v => get m "value" = v | Throw e => get m "error" = serialized_js (encodeError e) end.
Proof. destruct r; split_and!; done. Qed.
Lemma command_get c :
  let m := command_js c in
  object m = Ok m /\ msg_id m = c_id c /\ get m "id" = jint (c_id c) /\
  get m "operation" = JStr (operation_string (c_operation c)) /\ get m "value" = c_value c /\
  get m "timeoutMs" = jint (c_timeoutMs c).
Proof. done. Qed.
Lemma read_operation o : read_enum operation_string operations (JStr (operation_string o)) = Some o.
Proof. by destruct o. Qed.
Lemma integer_read z fallback maximum : 0 < z <= maximum -> z <= MAX_SAFE_INTEGER -> integer (jint z) fallback maximum = Ok z.
Proof.
  intros Hz Hs. unfold integer. cbn [is_undefined jint isSafeInteger].
  rewrite Z.gtb_ltb. destruct (Z.leb_spec (Z.abs z) MAX_SAFE_INTEGER), (Z.leb_spec z 0), (Z.ltb_spec maximum z);
    cbn [negb orb]; done || lia.
Qed.
Lemma integer_value z fallback maximum z' : integer (jint z) fallback maximum = Ok z' -> z' = z.
Proof. unfold integer. cbn. destruct (_ || _ || _); [done|]. by intros [= <-]. Qed.
(** The worker reads a command as it was posted. *)
Lemma command_read t c :
  0 < c_id c <= MAX_SAFE_INTEGER -> 0 < c_timeoutMs c <= t -> c_timeoutMs c <= MAX_SAFE_INTEGER ->
  command t (command_js c) = Ok c.
Proof.
  intros Hid Ht Hs. destruct (command_get c) as (Ho & _ & H1 & H2 & H3 & H4). unfold command. rewrite Ho. cbn [result_bind].
  rewrite H1, H2, H3, H4, read_operation, !integer_read by lia. by destruct c.
Qed.
Lemma command_same t c c' : command t (command_js c) = Ok c' -> c_id c' = c_id c /\ c_operation c' = c_operation c.
Proof.
  destruct (command_get c) as (Ho & _ & H1 & H2 & H3 & H4). unfold command. rewrite Ho. cbn [result_bind].
  rewrite H1, H2, read_operation. intros (id & Hid & (tm & _ & [= <-])%bind_Ok)%bind_Ok. cbn.
  split; [by apply integer_value in Hid | done].
Qed.

Fixpoint posts (l : list action) : nat :=
  match l with [] => 0 | Post _ _ :: l => S (posts l) | _ :: l => posts l end.
Definition tokens (s : Bridge) : nat :=
  (if started s then 0 else 1) + length (commands s) + (match running s with Some _ => 1 | None => 0 end)
  + posts (todo s) + length (inbox s).
(** A message or an operation that will lead to a reply with this number. *)
Definition token (s : Bridge) (t : Z) : Prop :=
  (started s = false /\ t = 0) \/ (exists m, m ∈ commands s /\ msg_id m = t) \/ (exists o, running s = Some (t, o)) \/
  (exists r, Post t r ∈ todo s) \/ (exists m, m ∈ inbox s /\ msg_id m = t).
(** Where a packet comes from. *)
Definition origin (answers : list (Z * result exn jsval)) (id : Z) (r : result exn jsval) : Prop :=
  (id, r) ∈ answers \/ (id = 0 /\ r = Ok JNull) \/
  (exists e, r = Throw e /\ (id = 0 \/ e = ETransport (uncertainError UNKNOWN))).
(** The numbers of the commands that were executed, run, or wait. *)
Definition issued (s : Bridge) : list Z :=
  (answers s).*1 ++ (match running s with Some (id, _) => [id] | None => [] end) ++ map msg_id (commands s).

Record served (s : Bridge) : Prop := {
  sv_tokens : (tokens s <= (match calling s with Some _ => 1 | None => if closed s then 1 else 0 end)
                           + (if stopped s then 1 else 0))%nat;
  sv_current : forall c p t, calling s = Some (c, p) -> stopped s = false -> token s t -> t = k_id c;
  sv_inbox : forall m, m ∈ inbox s -> exists id r, m = packet id r /\ origin (answers s) id r;
  sv_posts : forall id r, Post id r ∈ todo s -> origin (answers s) id r;
  sv_commands : forall m, m ∈ commands s -> exists c, m = command_js c;
  sv_issued : NoDup (issued s) /\ forall id, id ∈ issued s -> 0 < id <= sequence s;
  sv_sequence : 0 <= sequence s;
  sv_calling : forall c p, calling s = Some (c, p) -> k_id c <= sequence s;
  sv_returned : forall id v, (Some id, Ok v) ∈ returned s -> (id, Ok v) ∈ answers s \/ (id = 0 /\ v = JNull);
}.

Ltac bridge_fields :=
  cbn [generation flag inbox commands portOpen started todo activeId running stopped alive calling sequence closing closed
       cleanupComplete failure additions since answers returned set_worker set_shared set_caller] in *.
Ltac served_parts H :=
  let Ht := fresh "Ht" in let Hcur := fresh "Hcur" in let Hin := fresh "Hin" in let Hpo := fresh "Hpo" in
  let Hco := fresh "Hco" in let Hnd := fresh "Hnd" in let Hle := fresh "Hle" in let Hsq := fresh "Hsq" in
  let Hca := fresh "Hca" in let Hre := fresh "Hre" in
  destruct H as [Ht Hcur Hin Hpo Hco [Hnd Hle] Hsq Hca Hre]; unfold tokens, token, issued in *.

(** [set_solver] without the hypotheses that a membership does not need. *)
Ltac lean := repeat match goal with H : forall _ : _, _ |- _ => clear H | H : NoDup _ |- _ => clear H end.
Ltac lean_solver := lean; set_solver.

Section served.
Context (operationTimeoutMs : Z).

Lemma origin_app l l' id r : origin l id r -> origin (l ++ l') id r.
Proof. intros [H|H]; [left; set_solver | by right]. Qed.

Lemma worker_action_served s : served s -> served (worker_action s).
Proof.
  intros H. unfold worker_action. destruct (todo s) as [|a rest] eqn:Et; [done|].
  served_parts H. rewrite Et in *. destruct a; split; unfold tokens, token, issued; bridge_fields; try done.
  - destruct (portOpen s); rewrite ?length_app; cbn in *; lia.
  - intros c p t Hc Hs Htok. apply (Hcur c p t Hc Hs). destruct (portOpen s); [|lean_solver].
    destruct Htok as [?|[?|[?|[?|(m & [Hm|Hm]%elem_of_app & Hid)]]]]; [tauto|tauto|tauto|lean_solver|lean_solver|].
    apply list_elem_of_singleton in Hm as ->. right; right; right; left. exists r.
    rewrite <- Hid. destruct (packet_get id r) as (_ & -> & _). set_solver.
  - intros m Hm. destruct (portOpen s); [|by apply Hin]. apply elem_of_app in Hm as [Hm|Hm]; [by apply Hin|].
    apply list_elem_of_singleton in Hm as ->. exists id, r. split; [done|]. apply Hpo. set_solver.
  - intros id' r' Hm. apply Hpo. set_solver.
  - intros c p t Hc Hs Htok. apply (Hcur c p t Hc Hs). lean_solver.
  - intros id' r' Hm. apply Hpo. set_solver.
  - intros c p t Hc Hs Htok. apply (Hcur c p t Hc Hs). lean_solver.
  - intros id' r' Hm. apply Hpo. set_solver.
  - destruct (calling s) as [[c []]|]; done.
  - intros c p t Hc Hs Htok. destruct (calling s) as [[c' p']|] eqn:Ec; [|done].
    apply (Hcur c' p'); [done|done|set_solver] || idtac.
    assert (c = c') as -> by (destruct p'; congruence). apply (Hcur c' p' t); [done|done|lean_solver].
  - intros id' r' Hm. apply Hpo. set_solver.
  - intros c p Hc. destruct (calling s) as [[c' p']|] eqn:Ec; [|done].
    assert (c = c') as -> by (destruct p'; congruence). by eapply Hca.
  - cbn in *. destruct (started s), (running s); cbn in *; lia.
  - intros c p t Hc Hs Htok. apply (Hcur c p t Hc Hs). lean_solver.
  - intros id' r' Hm. apply Hpo. set_solver.
  - set_solver.
  - cbn [map]. rewrite app_nil_r. split; [|set_solver]. rewrite app_assoc in Hnd. by apply NoDup_app in Hnd as [? _].
Qed.

(** A handler starts when the last one has ended. *)
Lemma fatal_served s : todo s = [] -> served s -> served (fatal s).
Proof.
  intros Et H. unfold fatal. destruct (stopped s) eqn:Es; [done|]. served_parts H. rewrite Et, Es in *.
  split; unfold tokens, token, issued; bridge_fields; try done; cbn [reply stop app posts] in *.
  - lia.
  - intros id r Hm. right; right. exists (ETransport (uncertainError UNKNOWN)). split; [|by right]. set_solver.
Qed.
Lemma worker_starts_served r s : todo s = [] -> started s = false -> served s -> served (worker_starts r s).
Proof.
  intros Et Est H. unfold worker_starts. destruct r as [x|e]; served_parts H; rewrite Et, Est in *;
    split; unfold tokens, token, issued; bridge_fields; try done; cbn [reply stop app posts] in *; try lia.
  - intros c p t Hc Hs Htok. apply (Hcur c p t Hc Hs).
    destruct Htok as [[??]|[?|[?|[[r Hr]|?]]]]; [done|tauto|tauto| |tauto]. left. split; [done|]. set_solver.
  - intros id r Hm. right; left. set_solver.
  - destruct (stopped s); lia.
  - intros id r Hm. right; right. exists e. split; [|left]; set_solver.
Qed.
Lemma finish_served r s : todo s = [] -> served s -> served (worker_finishes r s).
Proof.
  intros Et H. unfold worker_finishes. destruct (running s) as [[id o]|] eqn:Er; [|done].
  set (closes := match r with Ok _ => _ | _ => _ end). served_parts H. rewrite Et, Er in *.
  assert (forall t x, Post t x ∈ (reply id r ++ (if closes then stop else [])) -> t = id /\ x = r) as Hpost
    by (intros t x; destruct closes; cbn; set_solver).
  split; unfold tokens, token, issued; bridge_fields; try done.
  - destruct closes; cbn [reply stop app posts] in *; destruct (stopped s); cbn in *; lia.
  - intros c p t Hc [Hs _]%orb_false_elim Htok. apply (Hcur c p t Hc Hs).
    destruct Htok as [?|[?|[[? ?]|[[x [-> ->]%Hpost]|?]]]]; try tauto; try done. eauto 10.
  - intros m Hm. destruct (Hin m Hm) as (id' & x & ? & ?). exists id', x. split; [done|]. by apply origin_app.
  - intros t x [-> ->]%Hpost. left. set_solver.
  - rewrite fmap_app, <- app_assoc. cbn. cbn in Hnd. split; [done|]. intros t Ht'. apply Hle. set_solver.
  - intros t v [H|H]%Hre; [left; set_solver | by right].
Qed.
Lemma uncloneable_served s : todo s = [] -> served s -> served (worker_uncloneable s).
Proof.
  intros Et H. unfold worker_uncloneable. destruct (running s) as [[id o]|] eqn:Er; [|done].
  apply fatal_served; [done|]. served_parts H. rewrite Et, Er in *.
  split; unfold tokens, token, issued; bridge_fields; try done.
  - lia.
  - intros c p t Hc Hs Htok. apply (Hcur c p t Hc Hs). lean_solver.
  - cbn [app] in *. split; [|set_solver]. apply NoDup_app in Hnd as (? & Hd & Hn). apply NoDup_app.
    apply NoDup_cons in Hn as [? ?]. split_and!; try done. set_solver.
Qed.
Lemma message_served s : todo s = [] -> started s = true -> served s -> served (worker_message operationTimeoutMs s).
Proof.
  intros Et Est H. unfold worker_message. destruct (commands s) as [|m rest] eqn:Ec; [done|].
  set (s' := set_worker [] (started s) (activeId s) (running s) (stopped s) rest (answers s) s).
  assert (served s') as Hs'.
  { served_parts H. rewrite Et, Ec in *. split; unfold tokens, token, issued; bridge_fields; try done; cbn in *.
    - lia.
    - intros c p t Hc Hs Htok. apply (Hcur c p t Hc Hs). lean_solver.
    - set_solver.
    - split; [|set_solver]. destruct (running s) as [[id o]|]; cbn in *; rewrite !NoDup_app, ?NoDup_cons in *; set_solver. }
  destruct (stopped s') eqn:Es; [done|]. destruct (running s') as [[id o]|] eqn:Er; [by apply fatal_served|].
  destruct (command operationTimeoutMs m) as [c|e] eqn:Em; [|by apply fatal_served].
  destruct (sv_commands s H m ltac:(rewrite Ec; set_solver)) as [c' ->].
  destruct (command_same _ _ _ Em) as [Hid _]. destruct (command_get c') as (_ & Hmid & _).
  unfold s' in *. served_parts H. rewrite Et, Ec in *. bridge_fields. rewrite Er, Es in *.
  split; unfold tokens, token, issued; bridge_fields; try done; cbn [map app] in *; try rewrite Hid.
  - cbn in *. lia.
  - intros k p t Hc Hs Htok. apply (Hcur k p t Hc Hs). destruct Htok as [?|[?|[[? [= <- _]]|?]]]; [tauto|lean_solver| |tauto].
    right; left. exists (command_js c'). set_solver.
  - set_solver.
  - by rewrite <- Hmid.
Qed.

(** A call that ends takes a packet with it, or closes the client. *)
Lemma settle_served c p outcome latch inbox' s :
  served s -> calling s = Some (c, p) ->
  ((inbox' = inbox s /\ is_Some latch) \/ exists m, inbox s = m :: inbox') ->
  (forall v, outcome = Ok v -> (k_id c, Ok v) ∈ answers s \/ (k_id c = 0 /\ v = JNull)) ->
  served (settle c outcome latch inbox' s).
Proof.
  intros H Ec Hbox Hout. assert (forall m, m ∈ inbox' -> m ∈ inbox s) as Hsub
    by (destruct Hbox as [[-> _]|[m ->]]; set_solver).
  served_parts H. rewrite Ec in *. unfold settle.
  split; unfold tokens, token, issued; bridge_fields; try done.
  - destruct Hbox as [[-> Hl]|[m Hm]].
    + rewrite (bool_decide_true _ Hl), orb_true_r. cbn. lia.
    + rewrite Hm in Ht. cbn in Ht. lia.
  - intros m Hm. by apply Hin, Hsub.
  - intros id v [H|H]%elem_of_app; [by apply Hre|]. apply list_elem_of_singleton in H as [= -> <-]. by apply Hout.
Qed.
Lemma moves_served c p q s : served s -> calling s = Some (c, p) -> served (moves c q s).
Proof.
  intros H Ec. served_parts H. rewrite Ec in *. split; unfold moves, tokens, token, issued; bridge_fields; try done.
  - intros c' p' t [= <- <-]. by apply (Hcur c p).
  - intros c' p' [= <- <-]. by apply (Hca c p).
Qed.
Lemma receive_served c p m rest s :
  served s -> calling s = Some (c, p) -> inbox s = m :: rest -> served (receive_packet c m rest s).
Proof.
  intros H Ec Em. destruct (sv_inbox s H m ltac:(rewrite Em; set_solver)) as (id & r & -> & Horigin).
  destruct (packet_get id r) as (Ho & _ & Hid & Hok & Hval). unfold receive_packet, fails.
  rewrite Ho, Hid, Hok. assert (exists m, inbox s = m :: rest) as Hbox by eauto.
  destruct (Z.eqb_spec id (k_id c)) as [->|]; cbn [negb]; [|by apply (settle_served c p); auto].
  destruct r as [v|e].
  - rewrite Hval. apply (settle_served c p); auto. intros v' [= <-].
    destruct Horigin as [?|[[? [= ->]]|(e & ? & _)]]; [by left|by right|done].
  - destruct (decodeError _) as [e'|e']; [destruct (_ || _)|]; apply (settle_served c p); auto; done.
Qed.
Lemma caller_served expired s : served s -> served (caller_step expired s).
Proof.
  intros H. unfold caller_step, fails. destruct (calling s) as [[c [|g|g|g|g|]]|] eqn:Ec; try done.
  - served_parts H. rewrite Ec in *. split; unfold tokens, token, issued; bridge_fields; try done.
    + intros c' p' t [= <- <-]. by apply (Hcur c Load).
    + intros c' p' [= <- <-]. by apply (Hca c Load).
  - destruct (inbox s) eqn:Eb; [by eapply moves_served | by eapply receive_served].
  - destruct (_ || _); [|by eapply moves_served]. eapply settle_served; try done. left. eauto.
  - destruct expired; [|by eapply moves_served]. eapply settle_served; try done. left. eauto.
  - by eapply moves_served.
  - destruct expired; [by eapply moves_served | done].
Qed.
Lemma call_served o value timeoutMs cloneable s :
  calling s = None -> served s -> served (call_begins operationTimeoutMs o value timeoutMs cloneable s).
Proof.
  intros Ec H. unfold call_begins, refuses, fails. destruct (closed s) eqn:Ecl; [|destruct (_ && _ && _)].
  - served_parts H. rewrite Ec, Ecl in *. split; unfold tokens, token, issued; bridge_fields; try done.
    intros id v [Hx|Hx%list_elem_of_singleton]%elem_of_app; [by apply Hre | done].
  - served_parts H. rewrite Ec, Ecl in *. split; unfold tokens, token, issued; bridge_fields; try done.
    intros id v [Hx|Hx%list_elem_of_singleton]%elem_of_app; [by apply Hre | done].
  - served_parts H. rewrite Ec, Ecl in *. destruct cloneable; cbn [negb]; unfold settle;
      split; unfold tokens, token, issued; bridge_fields; try done.
    + destruct (portOpen s); rewrite ?length_app; cbn; lia.
    + intros c p t [= <- <-] Hs Htok. rewrite Hs in Ht.
      destruct Htok as [[Hst _]|[(m & Hm & Hmid)|[[o' Hr]|[[r Hr]|(m & Hm & _)]]]].
      * rewrite Hst in Ht. lia.
      * destruct (portOpen s); [apply elem_of_app in Hm as [Hm|Hm]|];
          try (destruct (commands s); [by apply not_elem_of_nil in Hm | cbn in Ht; lia]).
        apply list_elem_of_singleton in Hm as ->. done.
      * rewrite Hr in Ht. lia.
      * assert (0 < posts (todo s))%nat; [|lia]. clear -Hr. induction (todo s) as [|a l IH]; [by apply not_elem_of_nil in Hr|].
        apply elem_of_cons in Hr as [<-|Hr]; [cbn; lia|]. destruct a; cbn; auto with lia.
      * destruct (inbox s); [by apply not_elem_of_nil in Hm | cbn in Ht; lia].
    + destruct (portOpen s); [|done]. intros m [Hm|Hm%list_elem_of_singleton]%elem_of_app; [by apply Hco | eauto].
    + destruct (portOpen s); [|split; [done|]; intros id Hid; specialize (Hle id Hid); lia].
      rewrite map_app, !app_assoc. cbn [map]. rewrite app_assoc in Hnd, Hle.
      assert (sequence s + 1 ∉ ((answers s).*1 ++ match running s with Some (id, _) => [id] | None => [] end) ++ map msg_id (commands s)) as Hnew
        by (intros Hx%Hle; lia).
      split.
      * apply NoDup_app. split_and!; [done| |apply NoDup_singleton]. intros x Hx Hx1.
        by apply list_elem_of_singleton in Hx1 as ->.
      * intros id [Hx%Hle|Hx]%elem_of_app; [lia|]. apply list_elem_of_singleton in Hx as ->.
        change (0 < sequence s + 1 <= sequence s + 1). lia.
    + lia.
    + intros c p [= <- <-]. cbn. lia.
    + destruct (stopped s); cbn in *; lia.
    + split; [done|]. intros id Hid. specialize (Hle id Hid). lia.
    + lia.
    + intros id v [Hx|Hx%list_elem_of_singleton]%elem_of_app; [by apply Hre | done].
Qed.
Lemma close_served value timeoutMs s :
  calling s = None -> served s -> served (close_begins operationTimeoutMs value timeoutMs s).
Proof.
  intros Ec H. unfold close_begins. destruct (closed s) eqn:Ecl; [done|]. apply call_served; [done|].
  served_parts H. split; unfold tokens, token, issued; bridge_fields; rewrite ?Ec, ?Ecl in *; try done.
Qed.
Lemma worker_event_served exit s : calling s = None -> served s -> served (on_worker_event exit s).
Proof.
  intros Ec H. served_parts H. unfold on_worker_event. split; unfold tokens, token, issued; bridge_fields; done.
Qed.
Lemma step_served s ev : served s -> served (bridge_step operationTimeoutMs s ev).
Proof.
  intros H. destruct ev; cbn [bridge_step]; unfold idle_worker.
  - destruct (alive s); [by apply worker_action_served | done].
  - destruct (alive s); [|done]. destruct (todo s) eqn:Et; [|done]. destruct (started s) eqn:Es; [done|].
    by apply worker_starts_served.
  - destruct (alive s); [|done]. destruct (todo s) eqn:Et; [|done]. destruct (started s) eqn:Es; [|done].
    by apply message_served.
  - destruct (alive s); [|done]. destruct (todo s) eqn:Et; [|done]. by apply finish_served.
  - destruct (alive s); [|done]. destruct (todo s) eqn:Et; [|done]. by apply uncloneable_served.
  - destruct (alive s); [|done]. destruct (todo s) eqn:Et; [|done]. destruct (started s); [|done]. by apply fatal_served.
  - served_parts H. split; unfold tokens, token, issued; bridge_fields; try done.
    + cbn [posts]. lia.
    + intros c p t Hc Hs Htok. apply (Hcur c p t Hc Hs). lean_solver.
    + set_solver.
  - by apply caller_served.
  - destruct (calling s) eqn:Ec; [done | by apply call_served].
  - destruct (calling s) eqn:Ec; [done | by apply close_served].
  - destruct (calling s) eqn:Ec; [done | by apply worker_event_served].
Qed.
Lemma run_served events : served (run operationTimeoutMs events).
Proof.
  unfold run. assert (served newBridge) as H.
  { split; unfold tokens, token, issued; cbn; try set_solver; try lia.
    split; [constructor|set_solver]. }
  revert H. generalize newBridge. induction events as [|ev events IH]; intros s H; [done|]. by apply IH, step_served.
Qed.
End served.

(** ** No wake-up is lost *)

Fixpoint adds (l : list action) : Z :=
  match l with [] => 0 | Add :: l => 1 + adds l | _ :: l => adds l end.
(** After a packet or the stop flag the counter moves and the caller is notified. *)
Fixpoint flows (l : list action) : Prop :=
  match l with
  | [] => True
  | Post _ _ :: l => head l = Some Add /\ flows l
  | StoreFlag z :: l => (z = 2 -> head l = Some Add) /\ flows l
  | Add :: l => head l = Some Notify /\ flows l
  | _ :: l => flows l
  end.
(** How often the worker can still count up before the next command is posted. *)
Definition potential (s : Bridge) : Z :=
  adds (todo s) + (if started s then 0 else 1) + zlength (commands s)
  + (match running s with Some _ => 1 | None => 0 end) + (if stopped s then 0 else 2).
Definition spot_generation (p : spot) : option Z :=
  match p with Receive g | CheckFlag g | CheckTime g | Wait g => Some g | _ => None end.
Definition received_nothing (p : spot) : bool :=
  match p with CheckFlag _ | CheckTime _ | Wait _ => true | _ => false end.
Definition saw_no_flag (p : spot) : bool := match p with CheckTime _ | Wait _ => true | _ => false end.

Record wakes (s : Bridge) : Prop := {
  wk_started : started s = false -> stopped s = false /\ running s = None;
  wk_generation : generation s = wrap32 (additions s);
  wk_flows : flows (todo s);
  wk_adds : 0 <= adds (todo s) <= 2;
  wk_loaded : forall c p g, calling s = Some (c, p) -> spot_generation p = Some g ->
    g = wrap32 (since s) /\ since s <= additions s /\ additions s + potential s <= since s + 8;
  wk_inbox : forall c p, calling s = Some (c, p) -> received_nothing p = true -> alive s = true -> inbox s <> [] ->
    since s < additions s \/ Add ∈ todo s;
  wk_flag : forall c p, calling s = Some (c, p) -> saw_no_flag p = true -> alive s = true -> flag s = 2 ->
    since s < additions s \/ Add ∈ todo s;
  wk_asleep : forall c, calling s = Some (c, Asleep) -> alive s = true -> inbox s <> [] \/ flag s = 2 ->
    Notify ∈ todo s;
}.
Ltac wakes_parts H :=
  let Hst := fresh "Hst" in let Hg := fresh "Hg" in let Hf := fresh "Hf" in let Ha := fresh "Ha" in let Hl := fresh "Hl" in
  let Hi := fresh "Hi" in let Hfl := fresh "Hfl" in let Has := fresh "Has" in
  destruct H as [Hst Hg Hf Ha Hl Hi Hfl Has]; unfold potential in *.
Ltac wakes_split := split; unfold potential; bridge_fields; try done.

Lemma wrap32_next a : wrap32 (wrap32 a + 1) = wrap32 (a + 1).
Proof.
  unfold wrap32. f_equal. replace ((a + 2 ^ 31) mod 2 ^ 32 - 2 ^ 31 + 1 + 2 ^ 31) with ((a + 2 ^ 31) mod 2 ^ 32 + 1) by lia.
  rewrite Zplus_mod_idemp_l. f_equal. lia.
Qed.
Lemma wrap32_near a b : a <= b < a + 2 ^ 32 -> wrap32 a = wrap32 b -> a = b.
Proof.
  intros Hab H. unfold wrap32 in H. assert (((b + 2 ^ 31) - (a + 2 ^ 31)) mod 2 ^ 32 = 0) as Hm.
  { rewrite Zminus_mod. replace ((b + 2 ^ 31) mod 2 ^ 32) with ((a + 2 ^ 31) mod 2 ^ 32) by lia. by rewrite Z.sub_diag. }
  rewrite Z.mod_small in Hm by lia. lia.
Qed.
Lemma adds_nonneg l : 0 <= adds l.
Proof. induction l as [|[] l IH]; cbn; lia. Qed.
Lemma adds_in l : Add ∈ l -> 1 <= adds l.
Proof.
  induction l as [|a l IH]; [by intros ?%not_elem_of_nil|]. pose proof (adds_nonneg l).
  intros [<-|H']%elem_of_cons; [cbn; lia|]. destruct a; cbn; auto with lia.
Qed.
Lemma flows_notify l : flows l -> Add ∈ l -> Notify ∈ l.
Proof.
  induction l as [|a l IH]; [by intros _ ?%not_elem_of_nil|]. intros Hf [<-|Hin]%elem_of_cons.
  - destruct Hf as [Hh _]. destruct l as [|b l]; [done|]. injection Hh as ->. set_solver.
  - right. apply IH; [destruct a; cbn in Hf; tauto | done].
Qed.
Lemma head_in {A : Type} (l : list A) a : head l = Some a -> a ∈ l.
Proof. destruct l; [done|]. intros [= ->]. set_solver. Qed.

Section wakes.
Context (operationTimeoutMs : Z).

Lemma worker_action_wakes s : wakes s -> wakes (worker_action s).
Proof.
  intros H. unfold worker_action. destruct (todo s) as [|a rest] eqn:Et; [done|].
  wakes_parts H. rewrite Et in *. pose proof (adds_nonneg rest).
  destruct a as [id r|z| | |]; cbn [flows adds] in *.
  - destruct Hf as [Hh Hf]. apply head_in in Hh. wakes_split.
    + intros c p Hc Hp _ _. by right.
    + intros c p Hc Hp Hal Hflag. right. done.
    + intros c Hc Hal _. by apply flows_notify.
  - destruct Hf as [Hh Hf]. wakes_split.
    + intros c p Hc Hp Hal Hbox. destruct (Hi c p Hc Hp Hal Hbox); [by left|right; set_solver].
    + intros c p Hc Hp Hal ->. right. by apply head_in, Hh.
    + intros c Hc Hal [Hbox| ->]; [specialize (Has c Hc Hal (or_introl Hbox)); set_solver|].
      apply flows_notify; [done|]. by apply head_in, Hh.
  - destruct Hf as [Hh Hf]. wakes_split.
    + by rewrite Hg, wrap32_next.
    + lia.
    + intros c p g Hc Hp. destruct (Hl c p g Hc Hp) as (? & ? & ?). split_and!; [done|lia|lia].
    + intros c p Hc Hp Hal Hbox. left. destruct p; try done; destruct (Hl _ _ _ Hc eq_refl); lia.
    + intros c p Hc Hp Hal Hflag. left. destruct p; try done; destruct (Hl _ _ _ Hc eq_refl); lia.
    + intros c Hc Hal Hsee. by apply head_in.
  - assert (forall c p, match calling s with Some (c, Asleep) => Some (c, Load) | w => w end = Some (c, p) ->
      p = Load \/ (calling s = Some (c, p) /\ p <> Asleep)) as Hcase
      by (intros c p; destruct (calling s) as [[c' []]|]; intros [= <- <-]; by auto).
    wakes_split.
    + intros c p g [->|[Hc _]]%Hcase Hp; [done | by apply (Hl c p)].
    + intros c p [->|[Hc _]]%Hcase Hp Hal Hbox; [done|]. destruct (Hi c p Hc Hp Hal Hbox); [by left|right; set_solver].
    + intros c p [->|[Hc _]]%Hcase Hp Hal Hflag; [done|]. destruct (Hfl c p Hc Hp Hal Hflag); [by left|right; set_solver].
    + by intros c [?|[_ ?]]%Hcase.
  - wakes_split.
    + intros c p g Hc Hp. destruct (Hl c p g Hc Hp) as (? & ? & ?). split_and!; [done|lia|]. zlen.
    + intros c p Hc Hp Hal Hbox. destruct (Hi c p Hc Hp Hal Hbox); [by left|right; set_solver].
    + intros c p Hc Hp Hal Hflag. destruct (Hfl c p Hc Hp Hal Hflag); [by left|right; set_solver].
    + intros c Hc Hal Hsee. specialize (Has c Hc Hal Hsee). set_solver.
Qed.

(** A handler that starts adds no more to the counter than was accounted for. *)
Lemma handler_wakes todo' started' active running' stopped' commands' answers' s :
  wakes s -> todo s = [] -> flows todo' -> adds todo' <= 2 ->
  (started' = false -> stopped' = false /\ running' = None) ->
  potential (set_worker todo' started' active running' stopped' commands' answers' s) <= potential s ->
  wakes (set_worker todo' started' active running' stopped' commands' answers' s).
Proof.
  intros H Et Hflows Hadds Hst' Hp. wakes_parts H. bridge_fields. rewrite Et in *.
  assert (forall c p, calling s = Some (c, p) -> received_nothing p = true -> alive s = true -> inbox s <> [] ->
    since s < additions s) as Hi' by (intros c p Hc Hr Hal Hb; destruct (Hi c p Hc Hr Hal Hb); [done|set_solver]).
  assert (forall c p, calling s = Some (c, p) -> saw_no_flag p = true -> alive s = true -> flag s = 2 ->
    since s < additions s) as Hfl' by (intros c p Hc Hr Hal Hb; destruct (Hfl c p Hc Hr Hal Hb); [done|set_solver]).
  wakes_split.
  - split; [apply adds_nonneg | done].
  - intros c p g Hc Hg'. destruct (Hl c p g Hc Hg') as (? & ? & ?). cbn [adds] in *. split_and!; [done|lia|lia].
  - intros c p Hc Hr Hal Hb. left. by eapply Hi'.
  - intros c p Hc Hr Hal Hb. left. by eapply Hfl'.
  - intros c Hc Hal Hsee. exfalso. by apply (not_elem_of_nil Notify), (Has c).
Qed.
Lemma fatal_wakes s : wakes s -> todo s = [] -> started s = true -> wakes (fatal s).
Proof.
  intros H Et Est. unfold fatal. destruct (stopped s) eqn:Es; [done|].
  apply handler_wakes; try done; [by rewrite Est|]. unfold potential. bridge_fields. rewrite Et, Es. cbn. lia.
Qed.
Lemma worker_starts_wakes r s : wakes s -> todo s = [] -> started s = false -> wakes (worker_starts r s).
Proof.
  intros H Et Es. destruct (wk_started s H Es) as [Hs Hr]. unfold worker_starts. rewrite Hs, Hr.
  destruct r; apply handler_wakes; try done; unfold potential; bridge_fields; rewrite ?Et, ?Es, ?Hs, ?Hr; cbn; lia.
Qed.
Lemma running_started s : wakes s -> running s <> None -> started s = true.
Proof. intros H Hr. destruct (started s) eqn:Es; [done|]. by destruct (wk_started s H Es). Qed.
Lemma finishes_wakes r s : wakes s -> todo s = [] -> wakes (worker_finishes r s).
Proof.
  intros H Et. unfold worker_finishes. destruct (running s) as [[id o]|] eqn:Er; [|done].
  assert (started s = true) as Est by (apply running_started; [done|by rewrite Er]).
  destruct r as [v|e]; [destruct (decide (o = OpClose)) as [->|Hne]; [destruct (stopped s) eqn:Es|]|];
    rewrite ?(bool_decide_false (o = OpClose)), ?(bool_decide_true (OpClose = OpClose)) by done; cbn [andb negb app];
    apply handler_wakes; try (by rewrite Est); try done; unfold potential; bridge_fields;
    rewrite ?Et, ?Er, ?Es, ?orb_false_r; cbn; try done; try lia.
Qed.
Lemma uncloneable_wakes s : wakes s -> todo s = [] -> wakes (worker_uncloneable s).
Proof.
  intros H Et. unfold worker_uncloneable. destruct (running s) eqn:Er; [|done].
  assert (started s = true) as Est by (apply running_started; [done|by rewrite Er]).
  apply fatal_wakes; [|done|done]. apply handler_wakes; try (by rewrite Est); try done; unfold potential; bridge_fields; rewrite ?Et, ?Er; cbn; lia.
Qed.
Lemma message_wakes s : wakes s -> todo s = [] -> started s = true -> wakes (worker_message operationTimeoutMs s).
Proof.
  intros H Et Est. unfold worker_message. destruct (commands s) as [|m rest] eqn:Ec; [done|].
  set (s' := set_worker [] (started s) (activeId s) (running s) (stopped s) rest (answers s) s).
  assert (wakes s') as Hs'.
  { apply handler_wakes; try (by rewrite Est); try done. unfold potential. bridge_fields. rewrite Et, Ec. cbn [adds]. zlen. }
  destruct (stopped s') eqn:Estop; [done|]. destruct (running s') eqn:Er; [by apply fatal_wakes|].
  destruct (command operationTimeoutMs m) as [c|]; [|by apply fatal_wakes].
  change (wakes (set_worker [] (started s) (c_id c) (Some (c_id c, c_operation c)) false rest (answers s) s)).
  change (running s = None) in Er. change (stopped s = false) in Estop.
  apply handler_wakes; try (by rewrite Est); try done. unfold potential. bridge_fields. rewrite Et, Ec, Er, Estop. cbn [adds]. zlen.
Qed.

(** The caller's own steps. *)
Lemma idle_wakes inbox' commands' sequence' closing' closed' cleanup' failure' since' returned' s :
  wakes s ->
  wakes (set_caller inbox' commands' None sequence' closing' closed' cleanup' failure' since' returned' s).
Proof. intros H. wakes_parts H. wakes_split. Qed.
Lemma load_wakes c inbox' commands' sequence' closing' closed' cleanup' failure' since' returned' s :
  wakes s ->
  wakes (set_caller inbox' commands' (Some (c, Load)) sequence' closing' closed' cleanup' failure' since' returned' s).
Proof. intros H. wakes_parts H. wakes_split; intros; by simplify_eq. Qed.
Lemma potential_bound s : served s -> wakes s -> potential s <= 6.
Proof.
  intros Hs Hw. pose proof (sv_tokens s Hs) as Ht. pose proof (wk_adds s Hw). unfold tokens, potential, zlength in *.
  destruct (calling s), (closed s), (started s), (running s), (stopped s); cbn in *; lia.
Qed.
Lemma caller_wakes expired s : served s -> wakes s -> wakes (caller_step expired s).
Proof.
  intros Hs H. pose proof (potential_bound s Hs H) as Hbound. unfold caller_step, fails, settle, moves, receive_packet.
  destruct (calling s) as [[c p]|] eqn:Ec; [|done].
  assert (forall g, spot_generation p = Some g ->
    g = wrap32 (since s) /\ since s <= additions s /\ additions s + potential s <= since s + 8) as Hloaded
    by (intros g Hg; by apply (wk_loaded s H c p)).
  destruct p as [|g|g|g|g|]; try specialize (Hloaded g eq_refl).
  - wakes_parts H. wakes_split; intros; simplify_eq/=; try done. split_and!; [done|lia|lia].
  - destruct (inbox s) as [|m rest] eqn:Eb.
    + wakes_parts H. wakes_split; intros; simplify_eq/=; done.
    + repeat case_match; by apply idle_wakes.
  - destruct (_ || _) eqn:Efl; [by apply idle_wakes|]. apply orb_false_elim in Efl as [_ Efl%Z.eqb_neq].
    wakes_parts H. rewrite Ec in *. wakes_split; intros; simplify_eq/=; try done. by eapply Hi.
  - destruct expired; [by apply idle_wakes|].
    wakes_parts H. rewrite Ec in *. wakes_split; intros; simplify_eq/=; try done; [by eapply Hi | by eapply Hfl].
  - destruct (Z.eqb_spec (generation s) g) as [Eg|]; [|by apply load_wakes].
    destruct Hloaded as (-> & Hle & Hpot). pose proof (wk_generation s H) as Hg. rewrite Hg in Eg.
    assert (0 <= potential s) by (pose proof (adds_nonneg (todo s)); unfold potential; destruct (started s), (running s), (stopped s); zlen).
    symmetry in Eg. apply wrap32_near in Eg; [|lia].
    wakes_parts H. rewrite Ec in *. wakes_split; intros; simplify_eq/=; try done.
    apply flows_notify; [done|]. select (inbox s <> [] \/ flag s = 2) (fun H => destruct H as [Hb|Hb]).
    + destruct (Hi _ _ eq_refl eq_refl ltac:(done) Hb); [lia|done].
    + destruct (Hfl _ _ eq_refl eq_refl ltac:(done) Hb); [lia|done].
  - destruct expired; [by apply load_wakes | done].
Qed.
Lemma call_wakes o value timeoutMs cloneable s :
  wakes s -> calling s = None -> wakes (call_begins operationTimeoutMs o value timeoutMs cloneable s).
Proof.
  intros H Ec. unfold call_begins, refuses, fails, settle. rewrite Ec.
  destruct (closed s); [by apply idle_wakes|]. destruct (_ && _ && _); [by apply idle_wakes|].
  destruct cloneable; cbn [negb]; [by apply load_wakes | by repeat apply idle_wakes].
Qed.
Lemma step_wakes s ev : served s -> wakes s -> wakes (bridge_step operationTimeoutMs s ev).
Proof.
  intros Hs H. destruct ev; cbn [bridge_step]; unfold idle_worker.
  - destruct (alive s); [by apply worker_action_wakes | done].
  - destruct (alive s); [|done]. destruct (todo s) eqn:Et; [|done]. destruct (started s) eqn:Es; [done|].
    by apply worker_starts_wakes.
  - destruct (alive s); [|done]. destruct (todo s) eqn:Et; [|done]. destruct (started s) eqn:Es; [|done].
    by apply message_wakes.
  - destruct (alive s); [|done]. destruct (todo s) eqn:Et; [|done]. by apply finishes_wakes.
  - destruct (alive s); [|done]. destruct (todo s) eqn:Et; [|done]. by apply uncloneable_wakes.
  - destruct (alive s); [|done]. destruct (todo s) eqn:Et; [|done]. destruct (started s) eqn:Es; [|done].
    by apply fatal_wakes.
  - wakes_parts H. wakes_split.
    intros c p g Hc Hp. destruct (Hl c p g Hc Hp) as (? & ? & ?). cbn [adds]. split_and!; [done|lia|lia].
  - by apply caller_wakes.
  - destruct (calling s) eqn:Ec; [done | by apply call_wakes].
  - destruct (calling s) eqn:Ec; [done|]. unfold close_begins. destruct (closed s); [done|].
    rewrite Ec. apply call_wakes; [by apply idle_wakes | done].
  - destruct (calling s) eqn:Ec; [done|]. unfold on_worker_event. wakes_parts H. wakes_split; rewrite ?Ec; try done.
    by rewrite Hg, wrap32_next.
Qed.
Lemma run_wakes events : wakes (run operationTimeoutMs events).
Proof.
  assert (wakes newBridge) as H.
  { split; unfold potential; cbn; try done. intros c p g [= <- <-]. done. }
  assert (served newBridge) as Hs by apply (run_served operationTimeoutMs []).
  unfold run. revert H Hs. generalize newBridge. induction events as [|ev events IH]; intros s H Hs; [done|].
  apply IH; [by apply step_wakes | by apply step_served].
Qed.

(** ** A call that can return does *)

(** The running handler ends. *)
Definition worker_rests (s : Bridge) : Bridge := Nat.iter (length (todo s)) worker_action s.
(** The caller goes on until the call has returned; seven steps are enough. *)
Definition caller_returns (s : Bridge) : Bridge := Nat.iter 7 (caller_step false) s.
(** There is a packet to read, or the worker has stopped. *)
Definition something_to_see (s : Bridge) : Prop := inbox s <> [] \/ flag s = 2.

Lemma receive_returns c m rest s : calling (receive_packet c m rest s) = None.
Proof. unfold receive_packet, fails, settle. by repeat case_match. Qed.
Lemma caller_idle n s : calling s = None -> calling (Nat.iter n (caller_step false) s) = None.
Proof.
  intros H. induction n as [|n IH]; [done|]. rewrite Nat.iter_succ. unfold caller_step at 1. by rewrite IH.
Qed.

(** The caller's next steps, when the worker is at rest. *)
Lemma caller_next s : caller_returns s = Nat.iter 6 (caller_step false) (caller_step false s).
Proof. unfold caller_returns. by rewrite Nat.iter_succ_r. Qed.
Lemma from_receive n c g s :
  calling s = Some (c, Receive g) -> something_to_see s ->
  calling (Nat.iter (2 + n) (caller_step false) s) = None.
Proof.
  intros Hc Hsee. replace (2 + n)%nat with (S (S n)) by lia. rewrite Nat.iter_succ_r.
  unfold caller_step at 2. rewrite Hc. destruct (inbox s) as [|m rest] eqn:Eb; [|apply caller_idle, receive_returns].
  destruct Hsee as [|Hf]; [done|]. rewrite Nat.iter_succ_r. unfold caller_step at 2, moves. bridge_fields.
  rewrite Hf, Z.eqb_refl, orb_true_r. by apply caller_idle.
Qed.
Lemma from_load n c s :
  calling s = Some (c, Load) -> something_to_see s -> calling (Nat.iter (3 + n) (caller_step false) s) = None.
Proof.
  intros Hc Hsee. replace (3 + n)%nat with (S (2 + n)) by lia. rewrite Nat.iter_succ_r.
  unfold caller_step at 2. rewrite Hc. by eapply from_receive.
Qed.
Lemma from_wait n c g s :
  calling s = Some (c, Wait g) -> generation s <> g -> something_to_see s ->
  calling (Nat.iter (4 + n) (caller_step false) s) = None.
Proof.
  intros Hc Hg Hsee. replace (4 + n)%nat with (S (3 + n)) by lia. rewrite Nat.iter_succ_r.
  unfold caller_step at 2. rewrite Hc. destruct (Z.eqb_spec (generation s) g); [done|]. by eapply from_load.
Qed.
Lemma rested_returns s :
  served s -> wakes s -> alive s = true -> todo s = [] -> something_to_see s -> calling (caller_returns s) = None.
Proof.
  intros Hs Hw Hal Et Hsee. destruct (calling s) as [[c p]|] eqn:Ec; [|by apply caller_idle].
  assert (Add ∉ todo s /\ Notify ∉ todo s) as [Hna Hnn] by (rewrite Et; set_solver).
  assert (forall g, received_nothing p = true -> spot_generation p = Some g -> since s < additions s -> generation s <> g) as Hgen.
  { intros g Hr Hg Hlt Heq. destruct (wk_loaded s Hw c p g Ec Hg) as (-> & Hle & Hpot).
    rewrite (wk_generation s Hw) in Heq. symmetry in Heq. apply wrap32_near in Heq; [lia|].
    pose proof (adds_nonneg (todo s)). unfold potential in Hpot. destruct (started s), (running s), (stopped s); zlen. }
  assert (inbox s <> [] -> received_nothing p = true -> since s < additions s) as Hbox
    by (intros Hb Hr; by destruct (wk_inbox s Hw c p Ec Hr Hal Hb)).
  assert (flag s = 2 -> saw_no_flag p = true -> since s < additions s) as Hflag
    by (intros Hb Hr; by destruct (wk_flag s Hw c p Ec Hr Hal Hb)).
  unfold caller_returns. destruct p as [|g|g|g|g|].
  - by apply (from_load 4 c).
  - by apply (from_receive 5 c g).
  - rewrite (Nat.iter_succ_r 6). unfold caller_step at 2. rewrite Ec. destruct (_ || _) eqn:Eor; [by apply caller_idle|].
    apply orb_false_elim in Eor as [_ Enf%Z.eqb_neq]. destruct Hsee as [Hb|]; [|done].
    rewrite (Nat.iter_succ_r 5). unfold caller_step at 2. unfold moves at 2. bridge_fields.
    apply (from_wait 1 c g); [done|by apply Hgen, Hbox|by left].
  - rewrite (Nat.iter_succ_r 6). unfold caller_step at 2. rewrite Ec.
    apply (from_wait 2 c g); [done| |done]. apply Hgen; try done. destruct Hsee; auto.
  - apply (from_wait 3 c g); [done| |done]. apply Hgen; try done. destruct Hsee; auto.
  - by destruct Hnn; apply (wk_asleep s Hw c).
Qed.

Lemma worker_action_rest s : alive (worker_action s) = alive s /\ todo (worker_action s) = tail (todo s).
Proof. unfold worker_action. by destruct (todo s) as [|[] ?] eqn:Et. Qed.
Lemma rests_invariant n s :
  served s -> wakes s -> alive s = true ->
  let s' := Nat.iter n worker_action s in
  served s' /\ wakes s' /\ alive s' = true /\ todo s' = drop n (todo s).
Proof.
  intros Hs Hw Hal. induction n as [|n IH]; [done|]. rewrite Nat.iter_succ. cbn zeta in *.
  destruct IH as (IHs & IHw & IHal & IHt). destruct (worker_action_rest (Nat.iter n worker_action s)) as [Ha Ht].
  split_and!; [by apply worker_action_served|by apply worker_action_wakes|by rewrite Ha|].
  rewrite Ht, IHt. replace (S n) with (n + 1)%nat by lia. rewrite <- drop_drop. by destruct (drop n (todo s)).
Qed.

(** ** A closed client stays as it is *)

Definition at_rest (s : Bridge) : Prop := closed s = true -> calling s = None.
Lemma worker_action_caller s :
  closed (worker_action s) = closed s /\ (calling s = None -> calling (worker_action s) = None) /\
  failure (worker_action s) = failure s /\ returned (worker_action s) = returned s.
Proof. unfold worker_action. destruct (todo s) as [|[] ?]; cbn; try done. split_and!; try done. by intros ->. Qed.
(** Steps of the worker's handlers do not touch the caller. *)
Definition same_caller (s s' : Bridge) : Prop :=
  closed s' = closed s /\ calling s' = calling s /\ failure s' = failure s /\ returned s' = returned s.
Lemma handlers_caller s :
  same_caller s (fatal s) /\ (forall r, same_caller s (worker_starts r s)) /\
  same_caller s (worker_message operationTimeoutMs s) /\ (forall r, same_caller s (worker_finishes r s)) /\
  same_caller s (worker_uncloneable s).
Proof.
  unfold same_caller, worker_starts, worker_message, worker_finishes, worker_uncloneable, fatal.
  split_and!; intros; repeat case_match; done.
Qed.
Lemma step_at_rest s ev : at_rest s -> at_rest (bridge_step operationTimeoutMs s ev).
Proof.
  intros H. destruct (handlers_caller s) as ((F1 & F2 & _) & Hst & (M1 & M2 & _) & Hfi & (U1 & U2 & _)).
  unfold at_rest. destruct ev; cbn [bridge_step].
  - destruct (alive s); [|done]. destruct (worker_action_caller s) as (-> & Hc & _). auto.
  - destruct (_ && _); [by destruct (Hst r) as (-> & -> & _) | done].
  - destruct (_ && _); [by rewrite M1, M2 | done].
  - destruct (idle_worker s); [by destruct (Hfi r) as (-> & -> & _) | done].
  - destruct (idle_worker s); [by rewrite U1, U2 | done].
  - destruct (_ && _); [by rewrite F1, F2 | done].
  - done.
  - unfold caller_step, fails, settle, moves, receive_packet. unfold at_rest in H.
    destruct (calling s) as [[c p]|] eqn:Ec; [|done]. assert (closed s = false) as Hc by (destruct (closed s) eqn:E; [by specialize (H eq_refl)|done]).
    destruct p; bridge_fields; repeat case_match; bridge_fields; done || congruence.
  - destruct (calling s) eqn:Ec; [intros Hcl; by rewrite (H Hcl) in Ec|]. unfold call_begins, refuses, fails, settle. 
    destruct (closed s) eqn:Ecl; [done|]. destruct (_ && _ && _); [done|]. destruct cloneable; cbn; congruence.
  - destruct (calling s) eqn:Ec; [intros Hcl; by rewrite (H Hcl) in Ec|]. unfold close_begins, call_begins, refuses, fails, settle.
    destruct (closed s) eqn:Ecl; [done|]. bridge_fields. destruct (_ && negb _); cbn; congruence.
  - destruct (calling s) eqn:Ec; [intros Hcl; by rewrite (H Hcl) in Ec | done].
Qed.
Lemma run_at_rest events : at_rest (run operationTimeoutMs events).
Proof.
  unfold run. assert (at_rest newBridge) as H by done. revert H. generalize newBridge.
  induction events as [|ev events IH]; intros s H; [done|]. by apply IH, step_at_rest.
Qed.
(** What later events leave of a client that is closed for a failure. *)
Record latched (e : Ja3ProxyTransportError) (log : list (option Z * result exn jsval)) (s : Bridge) : Prop := {
  la_closed : closed s = true;
  la_calling : calling s = None;
  la_failure : failure s = Some e;
  la_returned : exists n, returned s = log ++ replicate n (None, Throw (ETransport e)) }.
Lemma latched_same e log s s' : same_caller s s' -> latched e log s -> latched e log s'.
Proof. intros (H1 & H2 & H3 & H4) [? ? ? [n ?]]. split; [congruence..|exists n; congruence]. Qed.
Lemma latched_step e log s ev : latched e log s -> latched e log (bridge_step operationTimeoutMs s ev).
Proof.
  intros H. destruct (handlers_caller s) as (Hfa & Hst & Hme & Hfi & Hun). pose proof H as [Hc Hk Hf (n & Hr)].
  destruct ev; cbn [bridge_step].
  - destruct (alive s); [|done]. destruct (worker_action_caller s) as (H1 & H2 & H3 & H4).
    split; [congruence|auto|congruence|exists n; congruence].
  - destruct (_ && _); [by eapply latched_same | done].
  - destruct (_ && _); [by eapply latched_same | done].
  - destruct (idle_worker s); [by eapply latched_same | done].
  - destruct (idle_worker s); [by eapply latched_same | done].
  - destruct (_ && _); [by eapply latched_same | done].
  - split; [done..|by exists n].
  - unfold caller_step. by rewrite Hk.
  - rewrite Hk. unfold call_begins, refuses. rewrite Hc, Hf. split; bridge_fields; try done.
    exists (n + 1)%nat. by rewrite Hr, replicate_add, app_assoc.
  - rewrite Hk. unfold close_begins. by rewrite Hc.
  - rewrite Hk. unfold on_worker_event. split; bridge_fields; try done; [|by exists n].
    rewrite Hf, Hc. by destruct exit.
Qed.
End wakes.

(** ** Properties *)

(** C27: no wake-up is lost.  While the worker thread lives, a caller that sleeps although
    a packet waits or the worker has stopped is about to be notified, also when the
    32-bit counter wraps around; and as soon as the worker has ended the handler it
    runs, with a packet posted or the stop flag set, the blocked call returns within
    seven steps of its own. *)
Theorem bridge_wakes operationTimeoutMs events :
  let s := run operationTimeoutMs events in
  alive s = true ->
  (forall c, calling s = Some (c, Asleep) -> something_to_see s -> Notify ∈ todo s) /\
  (something_to_see (worker_rests s) -> calling (caller_returns (worker_rests s)) = None).
Proof.
  intros s Hal. pose proof (run_served operationTimeoutMs events) as Hs. pose proof (run_wakes operationTimeoutMs events) as Hw.
  fold s in Hs, Hw. split.
  - intros c Hc Hsee. by apply (wk_asleep s Hw c).
  - intros Hsee. destruct (rests_invariant (length (todo s)) s Hs Hw Hal) as (Hs' & Hw' & Hal' & Ht).
    fold (worker_rests s) in *. apply rested_returns; try done. by rewrite Ht, drop_ge.
Qed.
Definition demo_start : list event := WorkerStarts (Ok tt) :: repeat WorkerAction 4.
Definition demo_call : list event :=
  repeat (CallerStep false) 2 ++ [CallBegins OpCapabilities JNull 10 true; WorkerMessage]
  ++ repeat (CallerStep false) 5 ++ [WorkerFinishes (Ok JNull); WorkerAction].
Lemma bridge_wakes_witness :
  let s := run 100 (demo_start ++ demo_call) in
  calling s = Some (receiving 1 (Some OpCapabilities) true, Asleep) /\ Notify ∈ todo s /\
  calling (caller_returns (worker_rests s)) = None.
Proof.
  split; [vm_compute; reflexivity|]. split.
  - eapply (bridge_wakes 100 (demo_start ++ demo_call)); [reflexivity|vm_compute; reflexivity|].
    left. vm_compute. discriminate.
  - apply (bridge_wakes 100 (demo_start ++ demo_call)); [reflexivity|]. left. vm_compute. discriminate.
Defined.

(** C28: calls and answers belong together.  A call that returns a value returns the result
    of the operation the worker ran for its own number; no command is run twice; and
    until the worker stops, it is never given a command while it works on another one,
    and the packets in the port are for the call that waits. *)
Theorem bridge_answers operationTimeoutMs events :
  let s := run operationTimeoutMs events in
  (forall id v, (Some id, Ok v) ∈ returned s -> (id, Ok v) ∈ answers s \/ (id = 0 /\ v = JNull)) /\
  NoDup (answers s).*1 /\
  (stopped s = false -> running s <> None -> commands s = []) /\
  (forall c p m, calling s = Some (c, p) -> stopped s = false -> m ∈ inbox s -> msg_id m = k_id c).
Proof.
  intros s. pose proof (run_served operationTimeoutMs events) as H. fold s in H. destruct (sv_issued s H) as [Hnd _].
  split_and!.
  - apply (sv_returned s H).
  - by apply NoDup_app in Hnd as [? _].
  - intros Hs Hr. pose proof (sv_tokens s H) as Ht. unfold tokens in Ht. rewrite Hs in Ht.
    destruct (running s); [|done]. destruct (commands s); [done|]. cbn in Ht.
    destruct (calling s), (closed s); lia.
  - intros c p m Hc Hs Hm. apply (sv_current s H c p); [done..|]. right; right; right; right. by exists m.
Qed.
Lemma bridge_answers_witness :
  let s := run 100 (demo_start ++ demo_call ++ repeat WorkerAction 2 ++ repeat (CallerStep false) 2) in
  returned s = [(Some 0, Ok JNull); (Some 1, Ok JNull)] /\ ((1, Ok JNull) ∈ answers s \/ (1 = 0 /\ JNull = JNull)).
Proof.
  split; [vm_compute; reflexivity|].
  apply (bridge_answers 100 (demo_start ++ demo_call ++ repeat WorkerAction 2 ++ repeat (CallerStep false) 2)).
  vm_compute. apply list_elem_of_further, list_elem_of_here.
Defined.

(** A failure of the bridge is final.  Once a client is closed for a failure, no later
    event opens it or changes the failure, and every later call is refused with it. *)
Theorem bridge_latched operationTimeoutMs events more e :
  closed (run operationTimeoutMs events) = true -> failure (run operationTimeoutMs events) = Some e ->
  latched e (returned (run operationTimeoutMs events)) (run operationTimeoutMs (events ++ more)).
Proof.
  intros Hc Hf. unfold run. rewrite fold_left_app. fold (run operationTimeoutMs events).
  assert (latched e (returned (run operationTimeoutMs events)) (run operationTimeoutMs events)) as H.
  { split; try done; [by apply run_at_rest | exists 0%nat; by rewrite app_nil_r]. }
  revert H. generalize (returned (run operationTimeoutMs events)) as log.
  generalize (run operationTimeoutMs events) as s. clear. intros s log. revert s. induction more as [|ev more IH]; intros s H; [done|].
  by apply IH, latched_step.
Qed.
Lemma bridge_latched_witness :
  let events := demo_start ++ repeat (CallerStep false) 2 ++ [CallBegins OpCapabilities JNull 10 true]
                ++ repeat (CallerStep false) 3 ++ [CallerStep true] in
  latched (uncertainError TIMEOUT) (returned (run 100 events))
    (run 100 (events ++ [CallBegins OpRequest JNull 10 true; WorkerMessage])).
Proof. intros events. apply (bridge_latched 100 events); vm_compute; reflexivity. Defined.

(** *** The answer of [close] *)

(** What holds while the worker serves: it stops only after it was told to. *)
Record serving (s : Bridge) : Prop := {
  se_port : stopped s = false -> portOpen s = true /\ StoreFlag 2 ∉ todo s /\ ClosePort ∉ todo s;
  se_flag : stopped s = false -> flag s = 2 -> closed s = true \/ is_Some (failure s);
  se_call : forall c p, calling s = Some (c, p) -> is_Some (k_operation c) -> k_dispatched c = true;
  se_cleanup : cleanupComplete s = true -> closed s = true;
}.
Lemma serving_settle c outcome latch inbox' s : serving s -> serving (settle c outcome latch inbox' s).
Proof.
  intros [Hp Hf Hc Hcl]. unfold settle. split; bridge_fields; try done.
  - intros Hs Hfl. destruct (Hf Hs Hfl) as [->|[e He]]; [by left|]. right. rewrite He. by destruct latch.
  - rewrite !orb_true_iff. intros [?|?]; [left; left; left; auto | left; by right].
Qed.
Lemma serving_worker todo' started' active running' stopped' commands' answers' s :
  serving s -> (stopped' = false -> stopped s = false /\ StoreFlag 2 ∉ todo' /\ ClosePort ∉ todo') ->
  serving (set_worker todo' started' active running' stopped' commands' answers' s).
Proof.
  intros [Hp Hf Hc Hcl] Hs. split; bridge_fields; try done.
  - intros Hs'. destruct (Hs Hs') as (Hst & ? & ?). by destruct (Hp Hst).
  - intros Hs' Hfl. destruct (Hs Hs') as (Hst & _). by apply Hf.
Qed.
Lemma serving_handlers t s :
  serving s ->
  serving (fatal s) /\ (forall r, serving (worker_starts r s)) /\ serving (worker_message t s) /\
  (forall r, serving (worker_finishes r s)) /\ serving (worker_uncloneable s).
Proof.
  intros H. assert (forall s, serving s -> serving (fatal s)) as Hfatal.
  { intros s' Hs'. unfold fatal. destruct (stopped s') eqn:Es; [done|]. by apply serving_worker. }
  split_and!; [by apply Hfatal|intros r| |intros r|].
  - unfold worker_starts. destruct r; apply serving_worker; try done. intros Hs. split; [done|]. set_solver.
  - unfold worker_message. destruct (commands s) as [|m rest]; [done|].
    assert (serving (set_worker [] (started s) (activeId s) (running s) (stopped s) rest (answers s) s)) as H'
      by (apply serving_worker; [done|]; intros; split; [done|]; set_solver).
    bridge_fields. destruct (stopped s) eqn:Es; [done|]. destruct (running s); [by apply Hfatal|].
    destruct (command t m); [|by apply Hfatal]. apply serving_worker; [done|]. intros _.
    split; [done|]. set_solver.
  - unfold worker_finishes. destruct (running s) as [[id o]|]; [|done]. apply serving_worker; [done|].
    intros [Hs Hc]%orb_false_elim. rewrite Hc. split; [done|]. cbn [app reply]. set_solver.
  - unfold worker_uncloneable. destruct (running s); [|done]. apply Hfatal, serving_worker; [done|].
    intros. split; [done|]. set_solver.
Qed.
Lemma serving_action s : serving s -> serving (worker_action s).
Proof.
  intros H. unfold worker_action. destruct (todo s) as [|a rest] eqn:Et; [done|].
  destruct H as [Hp Hf Hc Hcl]. rewrite Et in Hp. destruct a as [id r|z| | |]; split; bridge_fields; try done; intros Hs; try (destruct (Hp Hs) as (? & Hn1 & Hn2); set_solver).
  intros p. rename Hs into c. destruct (calling s) as [[c' []]|]; intros [= <- <-]; by eapply Hc.
Qed.
Lemma serving_idle inbox' commands' calling' sequence' closing' since' returned' s :
  serving s -> (forall c p, calling' = Some (c, p) -> is_Some (k_operation c) -> k_dispatched c = true) ->
  serving (set_caller inbox' commands' calling' sequence' closing' (closed s) (cleanupComplete s) (failure s)
             since' returned' s).
Proof. by intros [Hp Hf Hc Hcl] Hk. Qed.
Lemma serving_caller expired s : serving s -> serving (caller_step expired s).
Proof.
  intros H. unfold caller_step, fails. destruct (calling s) as [[c p]|] eqn:Ec; [|done].
  assert (forall p', serving (moves c p' s)) as Hm.
  { intros p'. apply serving_idle; [done|]. intros c' ? [= <- _]. by apply (se_call s H c p). }
  destruct p as [|g|g|g|g|]; try (by repeat case_match; auto using serving_settle).
  - apply serving_idle; [done|]. intros c' ? [= <- _]. by apply (se_call s H c Load).
  - destruct (inbox s); [done|]. unfold receive_packet, fails. by repeat case_match; auto using serving_settle.
Qed.
Lemma serving_call t o value timeoutMs cloneable s :
  serving s -> calling s = None -> serving (call_begins t o value timeoutMs cloneable s).
Proof.
  intros H Ec. unfold call_begins, refuses, fails. destruct (closed s) eqn:Ecl.
  { rewrite <- Ecl. apply serving_idle; [done|]. by rewrite Ec. }
  rewrite <- Ecl. destruct (_ && _ && _); [apply serving_idle; [done|]; by rewrite Ec|].
  destruct cloneable; cbn [negb]; [|apply serving_settle]; apply serving_idle; try done. by intros c p [= <- _].
Qed.
Lemma serving_step t s ev : serving s -> serving (bridge_step t s ev).
Proof.
  intros H. destruct (serving_handlers t s H) as (Hfa & Hst & Hme & Hfi & Hun).
  destruct ev; cbn [bridge_step]; try (by case_match; auto using serving_action).
  - by destruct H as [Hp Hf Hc Hcl]; split; bridge_fields; try done; intros Hs; destruct (Hp Hs); set_solver.
  - by apply serving_caller.
  - destruct (calling s) eqn:Ec; [done|]. by apply serving_call.
  - destruct (calling s) eqn:Ec; [done|]. unfold close_begins. destruct (closed s) eqn:Ecl; [done|].
    apply serving_call; [|done]. rewrite <- Ecl. apply serving_idle; [done|]. by rewrite Ec.
  - destruct (calling s) eqn:Ec; [done|]. unfold on_worker_event. destruct H as [Hp Hf Hc Hcl].
    split; bridge_fields; try done. intros _ _. destruct exit, (closed s); cbn; eauto.
Qed.
Lemma run_serving t events : serving (run t events).
Proof.
  unfold run. assert (serving newBridge) as H.
  { split; cbn; try done; [intros _; split_and!; [done|apply not_elem_of_nil..]|]. intros c p [= <- _] [? [=]]. }
  revert H. generalize newBridge. induction events as [|ev events IH]; intros s H; [done|]. by apply IH, serving_step.
Qed.

(** Nothing that follows a failure completes the cleanup. *)
Lemma latched_more t e log more s :
  latched e log s -> cleanupComplete s = false ->
  latched e log (fold_left (bridge_step t) more s) /\ cleanupComplete (fold_left (bridge_step t) more s) = false.
Proof.
  revert s. induction more as [|ev more IH]; intros s H Hcl; [done|]. cbn [fold_left]. apply IH; [by apply latched_step|].
  destruct H as [Hc Hk Hf _].
  destruct ev; cbn [bridge_step]; try (case_match; [|done]); try done.
  - unfold worker_action. by repeat case_match.
  - unfold worker_starts. by repeat case_match.
  - unfold worker_message, fatal. by repeat case_match.
  - unfold worker_finishes. by repeat case_match.
  - unfold worker_uncloneable, fatal. by repeat case_match.
  - unfold fatal. by case_match.
  - unfold caller_step. by rewrite Hk.
  - rewrite Hk. unfold call_begins, refuses. by rewrite Hc.
  - rewrite Hk. unfold close_begins. by rewrite Hc.
Qed.
Lemma run_actions t k s :
  alive s = true -> fold_left (bridge_step t) (repeat WorkerAction k) s = Nat.iter k worker_action s.
Proof.
  revert s. induction k as [|k IH]; intros s Hal; [done|]. cbn [repeat fold_left bridge_step]. rewrite Hal.
  rewrite IH by by rewrite (proj1 (worker_action_rest s)). by rewrite Nat.iter_succ_r.
Qed.
Lemma iter_rests n s : todo s = [] -> Nat.iter n worker_action s = s.
Proof. intros H. induction n as [|n IH]; [done|]. rewrite Nat.iter_succ, IH. unfold worker_action. by rewrite H. Qed.

(** The worker runs [close] for the call [c], which found the port empty and goes on to
    read the flag. *)
Record closing_window (s : Bridge) (c : Call) (g : Z) : Prop := {
  cw_calling : calling s = Some (c, CheckFlag g);
  cw_operation : k_operation c = Some OpClose;
  cw_running : running s = Some (k_id c, OpClose);
  cw_stopped : stopped s = false;
  cw_failure : failure s = None;
  cw_alive : alive s = true;
  cw_todo : todo s = [];
}.
Section window.
Context (t : Z) (events : list event) (c : Call) (g : Z) (v : jsval).
Local Abbreviation s := (run t events).
Context (Hw : closing_window s c g).

Lemma window_facts :
  inbox s = [] /\ portOpen s = true /\ (flag s =? 2) = false /\ k_dispatched c = true /\ closed s = false /\
  cleanupComplete s = false /\ wrap32 (wrap32 (generation s + 1) + 1) <> g.
Proof.
  destruct Hw as [Hc Ho Hr Hs Hf Hal Ht]. pose proof (run_served t events) as Hsv. pose proof (run_serving t events) as Hse.
  pose proof (run_wakes t events) as Hwk.
  assert (closed s = false) as Hcl.
  { destruct (closed s) eqn:E; [|done]. apply run_at_rest in E. congruence. }
  split_and!.
  - pose proof (sv_tokens s Hsv) as Htok. unfold tokens in Htok. rewrite Hc, Hr, Hs in Htok.
    destruct (inbox s); [done|]. cbn in Htok. lia.
  - by apply (se_port s Hse).
  - apply Z.eqb_neq. intros E. destruct (se_flag s Hse Hs E) as [?|[? ?]]; congruence.
  - apply (se_call s Hse c _ Hc). by rewrite Ho.
  - done.
  - destruct (cleanupComplete s) eqn:E; [|done]. apply (se_cleanup s Hse) in E. congruence.
  - destruct (wk_loaded s Hwk c _ g Hc eq_refl) as (-> & Hle & Hpot). rewrite (wk_generation s Hwk), (wrap32_next (additions s)), wrap32_next.
    intros E. symmetry in E.
    pose proof (adds_nonneg (todo s)). unfold potential in Hpot.
    apply wrap32_near in E; [lia|]. destruct (started s), (running s), (stopped s); zlen.
Qed.

(** After [k] things of the handler that posts the answer of [close] and stops. *)
Definition answered (k : nat) : Bridge := Nat.iter k worker_action (worker_finishes (Ok v) s).
Lemma answered_is k :
  run t (events ++ WorkerFinishes (Ok v) :: repeat WorkerAction k) = answered k /\
  answered k = answered (Nat.min k 7).
Proof.
  destruct Hw as [Hc Ho Hr Hs Hf Hal Ht]. split.
  - unfold run. rewrite fold_left_app. cbn [fold_left]. fold s. cbn [bridge_step]. unfold idle_worker at 1.
    rewrite Hal, Ht. cbn [andb]. apply run_actions. unfold worker_finishes. by rewrite Hr.
  - destruct (decide (k <= 7)%nat); [by rewrite Nat.min_l|]. rewrite Nat.min_r by lia.
    destruct (Nat.le_exists_sub 7 k) as (m & -> & _); [lia|]. unfold answered. rewrite Nat.iter_add. apply iter_rests.
    unfold worker_finishes. rewrite Hr, Hs, bool_decide_true by done. reflexivity.
Qed.
Ltac actions :=
  destruct Hw as [Hc Ho Hr Hs Hf Hal Ht]; destruct window_facts as (Hbox & Hport & Hflag & Hdisp & Hcl & Hclean & Hgen);
  unfold answered, worker_finishes, worker_action; rewrite Hr, Hs, bool_decide_true by done;
  cbn -[packet wrap32 uncertainError run]; rewrite ?Hbox, ?Hport, ?Hc.
Lemma answered_fields k :
  (k <= 7)%nat ->
  calling (answered k) = Some (c, CheckFlag g) /\ failure (answered k) = None /\
  returned (answered k) = returned s /\ closed (answered k) = false /\ cleanupComplete (answered k) = false /\
  answers (answered k) = answers s ++ [(k_id c, Ok v)] /\
  inbox (answered k) = (if (k =? 0)%nat then [] else [packet (k_id c) (Ok v)]) /\
  (flag (answered k) =? 2) = (4 <=? k)%nat.
Proof. intros Hk. do 8 (destruct k as [|k]; [actions; split_and!; done|]). lia. Qed.
(** The call that goes on has read the answer once the worker is at rest. *)
Lemma answered_goes_on k :
  (k < 4)%nat ->
  let s' := Nat.iter (7 - k) worker_action (moves c (CheckTime g) (answered k)) in
  alive (moves c (CheckTime g) (answered k)) = true /\
  calling s' = Some (c, CheckTime g) /\ generation s' <> g /\ failure s' = None /\
  returned s' = returned s /\ inbox s' = [packet (k_id c) (Ok v)].
Proof.
  intros Hk. unfold moves. do 4 (destruct k as [|k]; [actions; rewrite ?Hal, ?Hf; split_and!; done|]). lia.
Qed.
Lemma reads_answer s' :
  calling s' = Some (c, CheckTime g) -> generation s' <> g -> failure s' = None ->
  inbox s' = [packet (k_id c) (Ok v)] ->
  let r := Nat.iter 4 (caller_step false) s' in
  returned r = returned s' ++ [(Some (k_id c), Ok v)] /\ cleanupComplete r = true /\ closed r = true /\ failure r = None.
Proof.
  intros Hc Hg Hf Hb. cbv zeta.
  change (Nat.iter 4 (caller_step false) s') with
    (caller_step false (caller_step false (caller_step false (caller_step false s')))).
  assert (caller_step false s' = moves c (Wait g) s') as -> by (unfold caller_step; by rewrite Hc).
  assert (caller_step false (moves c (Wait g) s') = moves c Load (moves c (Wait g) s')) as ->.
  { rewrite <- (Z.eqb_neq (generation s') g) in Hg. unfold caller_step. cbn. by rewrite Hg. }
  unfold caller_step, moves. bridge_fields. rewrite Hb. unfold receive_packet.
  destruct (packet_get (k_id c) (Ok v)) as (-> & _ & Hid & Hok & Hv). rewrite Hid, Hok, Hv, Z.eqb_refl. cbn [negb].
  unfold settle. bridge_fields. rewrite (cw_operation _ _ _ Hw), Hf. cbn. rewrite !orb_true_r. done.
Qed.
End window.

(** C29: the answer of [close] and the stop flag race.  Take any state in which the worker
    runs [close] and the caller has found the port empty and goes on to read the flag.
    The worker answers and stops, seven things of one handler, of which the fourth sets
    the flag.  When the caller reads the flag after fewer than four of them, the call
    reads the answer within four more steps and the client is closed in order.  When it
    reads the flag later, the call throws an uncertain failure while the answer is in the
    port, and nothing that happens afterwards returns the answer or completes the
    cleanup. *)
Theorem close_answer_masked t events c g v k expired :
  let s := run t events in
  closing_window s c g ->
  let s' := bridge_step t (run t (events ++ WorkerFinishes (Ok v) :: repeat WorkerAction k)) (CallerStep expired) in
  if (k <? 4)%nat
  then
    let r := fold_left (bridge_step t) (repeat WorkerAction (7 - k) ++ repeat (CallerStep false) 4) s' in
    returned r = returned s ++ [(Some (k_id c), Ok v)] /\ cleanupComplete r = true /\ closed r = true /\ failure r = None
  else
    (k_id c, Ok v) ∈ answers s' /\ inbox s' = [packet (k_id c) (Ok v)] /\
    returned s' = returned s ++ [(Some (k_id c), Throw (ETransport (uncertainError UNKNOWN)))] /\
    forall more, let r := fold_left (bridge_step t) more s' in
      latched (uncertainError UNKNOWN) (returned s') r /\ cleanupComplete r = false.
Proof.
  intros s Hw. destruct (answered_is t events c g v Hw k) as [-> Hmin]. cbn [bridge_step].
  destruct (Nat.ltb_spec k 4) as [Hk|Hk].
  - destruct (answered_fields t events c g v Hw k ltac:(lia)) as (Ec & Ef & _ & _ & _ & _ & _ & Efl).
    destruct (answered_goes_on t events c g v Hw k Hk) as (Hal & Hc' & Hg' & Hf' & Hr' & Hb').
    assert (caller_step expired (answered t events v k) = moves c (CheckTime g) (answered t events v k)) as ->.
    { unfold caller_step. rewrite Ec, Ef, Efl, (proj2 (Nat.leb_gt 4 k)) by lia. done. }
    cbv zeta. unfold s. rewrite fold_left_app, run_actions, <- Hr' by done.
    assert (forall n x, fold_left (bridge_step t) (repeat (CallerStep false) n) x = Nat.iter n (caller_step false) x) as ->.
    { intros n. induction n as [|n IH]; intros x; [done|]. by rewrite Nat.iter_succ_r, <- IH. }
    by apply (reads_answer t events c g v Hw).
  - rewrite Hmin. destruct (answered_fields t events c g v Hw (Nat.min k 7) ltac:(lia))
      as (Ec & Ef & Er & Ecl & Eclean & Ea & Eb & Efl).
    destruct (window_facts t events c g Hw) as (_ & _ & _ & Hdisp & _).
    unfold caller_step. rewrite Ec, Ef, Efl, (proj2 (Nat.leb_le 4 _)), orb_true_r, Hdisp by lia.
    unfold fails, settle. bridge_fields. rewrite Ea, Eb, Er.
    rewrite (proj2 (Nat.eqb_neq (Nat.min k 7) 0)) by lia.
    split; [apply elem_of_app; right; by apply list_elem_of_singleton|]. split; [done|]. split; [done|].
    intros more. apply latched_more.
    + split; bridge_fields; try done; [|by exists 0%nat; rewrite app_nil_r].
      by rewrite (bool_decide_true (is_Some (Some _))), orb_true_r by done.
    + bridge_fields. by rewrite Eclean, andb_false_r.
Qed.
Definition demo_close : list event :=
  demo_start ++ repeat (CallerStep false) 2 ++ [CloseBegins JNull 10; CallerStep false; CallerStep false; WorkerMessage].
Lemma close_answer_masked_witness :
  let c := receiving 1 (Some OpClose) true in
  let s' := bridge_step 100 (run 100 (demo_close ++ WorkerFinishes (Ok JNull) :: repeat WorkerAction 4)) (CallerStep false) in
  closing_window (run 100 demo_close) c 1 /\
  (1, Ok JNull) ∈ answers s' /\ inbox s' = [packet 1 (Ok JNull)] /\
  returned s' = [(Some 0, Ok JNull); (Some 1, Throw (ETransport (uncertainError UNKNOWN)))].
Proof.
  intros c s'. assert (closing_window (run 100 demo_close) c 1) as Hw by (split; vm_compute; reflexivity).
  split; [exact Hw|].
  destruct (close_answer_masked 100 demo_close c 1 JNull 4 false Hw) as (H1 & H2 & H3 & _).
  split; [exact H1|]. split; [exact H2|].
  transitivity (returned (run 100 demo_close) ++ [(Some (k_id c), Throw (ETransport (uncertainError UNKNOWN)))]);
    [exact H3 | vm_compute; reflexivity].
Defined.
