(* ===== verification/Remote.v ===== *)
(** * The synchronous client (packages/typescript/src/sync/index.ts and worker.ts)

    The methods of the synchronous client and of its sessions, and the dispatch of their
    commands in the worker to the asynchronous client, which is an interface here.  A call
    is one step: Bridge.v has the protocol between the threads and shows that a call that
    gets an answer gets the one the worker has given to it.  That the bridge gives up on a
    call is an input of this model. *)

From S2P Require Import Prelude Js Errors Buffering Validators Protocol Service Client Ipc Batch Bridge.

Local Open Scope js_scope.

(** ** Actions that may throw *)

Definition act (S A : Type) : Type := S -> S * result exn A.
Definition act_of {S A : Type} (r : result exn A) : act S A := fun s => (s, r).
Definition act_bind {S A B : Type} (m : act S A) (k : A -> act S B) : act S B :=
  fun s => match m s with (s, Ok a) => k a s | (s, Throw e) => (s, Throw e) end.
(** [try { return m } catch (e) { return h(e) }] *)
Definition act_catch {S A : Type} (m : act S A) (h : exn -> result exn A) : act S A :=
  fun s => match m s with (s, Throw e) => (s, h e) | r => r end.
Notation "'let!' x ':=' m 'in' k" := (act_bind m (fun x => k))
  (at level 10, x pattern, m at level 100, k at level 200) : ts_scope.

(** ** The asynchronous client, seen from the worker *)

Record CloseOptions := { drain : option bool; closeTimeoutMs : Z }.
Definition close_options_js (o : CloseOptions) : jsval :=
  JObject (optional_field "drain" (opt_js JBool (drain o)) ++ [("timeoutMs", jint (closeTimeoutMs o))]).
Inductive Rebound :=
| Committed (previous current : jsstr)
| CommittedCleanupPending (previous current : jsstr) (cleanupError : Ja3ProxyTransportError).

Class AsyncClient (W : Type) := {
  a_request : Request -> act W BufferedResponse;
  a_batch : list Request -> Z -> Z -> act W (list BatchResult);
  a_capabilities : act W jsval;
  a_status : jsstr -> jsstr -> act W RequestStatus;
  a_cancel : jsstr -> jsstr -> act W unit;
  a_createSession : SessionOptions -> act W nat;
  a_close : CloseOptions -> act W unit;
  s_info : nat -> W -> jsval;
  s_request : nat -> SessionRequest -> act W BufferedResponse;
  s_close : nat -> CloseOptions -> act W unit;
  s_getCookies : nat -> jsstr -> act W jsval;
  s_setCookies : nat -> jsstr -> list jsstr -> act W unit;
  s_exportCookies : nat -> act W jsval;
  s_importCookies : nat -> jsval -> act W unit;
  s_rebind : nat -> Identity -> act W Rebound;
}.

Section remote.
Context {W : Type} `{AsyncClient W}.
Context (parse_url : jsstr -> option Link) (valid_headers : list (jsstr * jsstr) -> bool).
Context (settings : BridgeConfig) (gives_up : Z -> option Ja3ProxyTransportError).
Notation operationTimeoutMs := (b_operationTimeoutMs settings).
Notation maxRequestBytes := (b_maxRequestBytes settings).

(** ** The worker *)

Record Worker := { world : W; sessions : list (jsstr * (nat * bool)); sessionSequence : Z }.
Definition perform {A : Type} (m : act W A) : act Worker A := fun w =>
  let '(x, r) := m (world w) in ({| world := x; sessions := sessions w; sessionSequence := sessionSequence w |}, r).
Definition set_sessions (l : list (jsstr * (nat * bool))) (n : Z) : act Worker unit := fun w =>
  ({| world := world w; sessions := l; sessionSequence := n |}, Ok tt).
Definition session_delete (id : jsstr) : act Worker unit := fun w =>
  set_sessions (List.filter (fun entry => negb (js_eqb id entry.1)) (sessions w)) (sessionSequence w) w.

Definition owned (value : jsval) : act Worker (nat * bool * jsstr * jsval) := fun w =>
  (w, let? input := object value in
      let? id := text (get input "id") 128 in
      match assoc id (sessions w) with
      | None => Throw (localError CONTEXT_NOT_FOUND None)
      | Some (session, managed) => Ok (session, managed, id, get input "value")
      end).
Definition managed_session (managed : bool) : result exn unit := if managed then Ok tt else invalid.
Definition closeSettings (value : jsval) : result exn CloseOptions :=
  let? input := object value in
  let? d := optional boolean (get input "drain") in
  let? t := integer (get input "timeoutMs") operationTimeoutMs MAX_SAFE_INTEGER in
  Ok {| drain := d; closeTimeoutMs := Z.min t operationTimeoutMs |}.
(** The checks of [batch]. *)
Definition batch_input (value : jsval) : result exn (list Request * Z * Z) :=
  let? input := object value in
  match get input "requests" with
  | JArray l =>
      if zlength l >? b_maxBatchRequests settings then invalid
      else
        let? requests := each (fun v => request parse_url valid_headers v maxRequestBytes) l in
        let? concurrency := integer (get input "concurrency") 1 (b_maxBatchConcurrency settings) in
        let? total := integer (get input "maxTotalBytes") 1 (b_maxBatchBytes settings) in
        Ok (requests, concurrency, total)
  | _ => invalid
  end.
Definition status_js (s : RequestStatus) : jsval :=
  JObject ([("state", JStr (state s)); ("diagnostics", diagnostics_js (status_diagnostics s))]
           ++ optional_field "error" (opt_js (fun e => serialized_js (encodeError (ETransport e))) (status_error s))).
Definition rebound_js (r : Rebound) : jsval :=
  match r with
  | Committed previous current =>
      JObject [("state", JStr "committed"); ("previousContextId", JStr previous); ("contextId", JStr current)]
  | CommittedCleanupPending previous current e =>
      JObject [("state", JStr "committed_cleanup_pending"); ("contextId", JStr current);
               ("previousContextId", JStr previous); ("cleanupError", serialized_js (encodeError (ETransport e)))]
  end.

(** The operations of one session. *)
Definition session_dispatch (o : Operation) (session : nat) (managed : bool) (id : jsstr) (input : jsval) : act Worker jsval :=
  let respond := act_bind (act_of (sessionRequest parse_url valid_headers input maxRequestBytes))
                   (fun r => perform (s_request session r)) in
  match o with
  | OpSessionRequest => let! b := respond in act_of (Ok (response_js (plainResponse b)))
  | OpSessionTryRequest =>
      act_catch (let! b := respond in act_of (Ok (outcome_js (Ok (plainResponse b)))))
        (fun e => Ok (outcome_js (Throw (encodeError e))))
  | OpSessionClose =>
      let! options := act_of (closeSettings input) in
      let! _ := perform (s_close session options) in
      let! _ := session_delete id in act_of (Ok JNull)
  | OpGetCookies =>
      let! _ := act_of (managed_session managed) in
      let! u := act_of (url parse_url input) in perform (s_getCookies session u)
  | OpSetCookies =>
      let! cookies := act_of (object input) in
      match string_list (get cookies "values") with
      | None => act_of invalid
      | Some values =>
          let! _ := act_of (managed_session managed) in
          let! u := act_of (url parse_url (get cookies "url")) in
          let! _ := perform (s_setCookies session u values) in act_of (Ok JNull)
      end
  | OpExportCookies => let! _ := act_of (managed_session managed) in perform (s_exportCookies session)
  | OpImportCookies =>
      let! _ := act_of (managed_session managed) in
      let! snapshot := act_of (wire Validators.cookieSnapshot input) in
      let! _ := perform (s_importCookies session snapshot) in act_of (Ok JNull)
  | OpRebindIdentity =>
      let! _ := act_of (managed_session managed) in
      let! i := act_of (identity input) in
      let! outcome := perform (s_rebind session i) in
      fun w => (w, Ok (JObject [("info", s_info session (world w)); ("outcome", rebound_js outcome)]))
  | _ => act_of (Ok JUndefined)
  end.
(** [{ info, result }]: an error of the session's operation is part of its answer. *)
Definition session_reply (o : Operation) (value : jsval) : act Worker jsval :=
  let! (session, managed, id, input) := owned value in
  fun w =>
    let '(w, r) := session_dispatch o session managed id input w in
    (w, Ok (JObject [("info", s_info session (world w));
                     ("result", match r with
                                | Ok v => JObject [("ok", JBool true); ("value", v)]
                                | Throw e => JObject [("ok", JBool false); ("error", serialized_js (encodeError e))]
                                end)])).
Definition dispatch (o : Operation) (value : jsval) : act Worker jsval :=
  match o with
  | OpRequest =>
      let! q := act_of (request parse_url valid_headers value maxRequestBytes) in
      let! b := perform (a_request q) in act_of (Ok (response_js (plainResponse b)))
  | OpTryRequest =>
      let! q := act_of (request parse_url valid_headers value maxRequestBytes) in
      fun w => match perform (a_request q) w with
               | (w, Ok b) => (w, Ok (outcome_js (Ok (plainResponse b))))
               | (w, Throw e) => (w, Ok (outcome_js (Throw (encodeError (ETransport (safeError e localDiagnostics false))))))
               end
  | OpRequestMany =>
      let! (requests, concurrency, total) := act_of (batch_input value) in
      let! answers := perform (a_batch requests concurrency total) in act_of (Ok (JArray (map outcome_js answers)))
  | OpCapabilities => perform a_capabilities
  | OpRequestStatus =>
      let! input := act_of (object value) in
      let! id := act_of (text (get input "requestId") 128) in
      let! partition := act_of (text (get input "partition") 1024) in
      let! s := perform (a_status id partition) in act_of (Ok (status_js s))
  | OpCancelRequest =>
      let! input := act_of (object value) in
      let! id := act_of (text (get input "requestId") 128) in
      let! partition := act_of (text (get input "partition") 1024) in
      let! _ := perform (a_cancel id partition) in act_of (Ok JNull)
  | OpCreateSession =>
      let! options := act_of (sessionOptions parse_url value) in
      let! session := perform (a_createSession options) in
      fun w =>
        let id := number_string (sessionSequence w + 1) in
        let info := s_info session (world w) in
        (fst (set_sessions (assoc_set id (session, o_managed options) (sessions w)) (sessionSequence w + 1) w),
         Ok (JObject [("id", JStr id); ("info", info)]))
  | OpClose =>
      let! options := act_of (closeSettings value) in
      let! _ := perform (a_close options) in
      fun w => (fst (set_sessions [] (sessionSequence w) w), Ok JNull)
  | _ => session_reply o value
  end.

(** ** The client of the calling thread *)

(** A session object; [m_session] is the session of the worker it was created for, which
    only the proofs observe. *)
Record Remote := { m_id : jsstr; m_managed : bool; m_info : jsval; m_closing : bool; m_closed : bool; m_session : option nat }.
Record Facade := {
  worker : Worker;
  f_sequence : Z;
  f_closing : bool;
  f_closed : bool;
  cleanupComplete : bool;
  f_failure : option Ja3ProxyTransportError;
  remotes : list Remote;
}.
Definition with_worker (w : Worker) (id : Z) (f : Facade) : Facade := {|
  worker := w; f_sequence := id; f_closing := f_closing f; f_closed := f_closed f; cleanupComplete := cleanupComplete f;
  f_failure := f_failure f; remotes := remotes f |}.
Definition with_flags (closing closed cleanup : bool) (failed : option Ja3ProxyTransportError) (f : Facade) : Facade := {|
  worker := worker f; f_sequence := f_sequence f; f_closing := closing; f_closed := closed; cleanupComplete := cleanup;
  f_failure := failed; remotes := remotes f |}.
Definition with_remotes (l : list Remote) (f : Facade) : Facade := {|
  worker := worker f; f_sequence := f_sequence f; f_closing := f_closing f; f_closed := f_closed f;
  cleanupComplete := cleanupComplete f; f_failure := f_failure f; remotes := l |}.
(** [#release] after a failure. *)
Definition fail_client (e : Ja3ProxyTransportError) (f : Facade) : Facade :=
  with_flags (f_closing f) true (cleanupComplete f) (Some e) f.

(** What a call makes of the answer of the worker: an error has crossed the port. *)
Definition delivered (r : result exn jsval) : result exn jsval :=
  match r with
  | Ok v => Ok v
  | Throw e => match decodeError (serialized_js (encodeError e)) with
               | Ok e => Throw (ETransport e)
               | Throw e => Throw e
               end
  end.
(** [#call].  The exchange over the bridge is one step; whether the worker has run a
    command that the bridge gives up on does not matter: nothing reads the worker again. *)
Definition call (o : Operation) (value : jsval) : act Facade jsval := fun f =>
  if f_closed f then (f, Throw (ETransport (default client_closed_error (f_failure f))))
  else if f_closing f && negb (bool_decide (o = OpClose)) && negb (bool_decide (o = OpSessionClose))
  then (f, Throw (ETransport client_closed_error))
  else
    let id := f_sequence f + 1 in
    let '(w, r) := dispatch o value (worker f) in
    let f := with_worker w id f in
    match gives_up id with
    | Some e => (fail_client e f, Throw (ETransport e))
    | None =>
        match delivered r with
        | Throw (ETransport e) =>
            (if bool_decide (kind e = worker_unavailable) then fail_client e f else f, Throw (ETransport e))
        | d => (f, d)
        end
    end.

Definition closeOptions (value : jsval) (maximum : Z) : result exn CloseOptions :=
  let? input := object (or_else value (JObject [])) in
  let? _ := keys input ["drain"; "timeoutMs"] in
  let? d := optional boolean (get input "drain") in
  let? t := integer (get input "timeoutMs") maximum MAX_TIMEOUT_MS in
  Ok {| drain := d; closeTimeoutMs := Z.min t maximum |}.
(** [isJa3ProxyError(error) ? error : localError('INVALID_REQUEST', 'invalid_input')] *)
Definition as_error (e : exn) : Ja3ProxyTransportError :=
  match e with ETransport e => e | _ => Errors.localError INVALID_REQUEST (Some invalid_input) end.

Definition sync_request (options : jsval) : act Facade PlainResponse :=
  let! q := act_of (request parse_url valid_headers options maxRequestBytes) in
  let! v := call OpRequest (request_js q) in act_of (response v).
Definition sync_tryRequest (options : jsval) : act Facade Outcome :=
  act_catch
    (let! q := act_of (request parse_url valid_headers options maxRequestBytes) in
     let! v := call OpTryRequest (request_js q) in act_of (result_ v))
    (fun e => Ok (Throw (as_error e))).
(** The requests of a batch and their bytes, up to the limit. *)
Fixpoint batch_requests (l : list jsval) (inputBytes : Z) : result exn (list Request) :=
  match l with
  | [] => Ok []
  | v :: l =>
      let? q := request parse_url valid_headers v maxRequestBytes in
      let inputBytes := inputBytes + body_bytes (default JUndefined (r_body (q_common q))) in
      if inputBytes >? maxRequestBytes then Throw (localError BODY_TOO_LARGE (Some buffer_limit))
      else let? qs := batch_requests l inputBytes in Ok (q :: qs)
  end.
Definition sync_requestMany (options batch : jsval) : act Facade (list Outcome) :=
  match options with
  | JArray l =>
      if zlength l >? b_maxBatchRequests settings then act_of invalid
      else
        let! input := act_of (object (if is_undefined batch then JObject [] else batch)) in
        let! _ := act_of (keys input ["concurrency"; "maxTotalBytes"; "timeoutMs"]) in
        let! concurrency := act_of (integer (get input "concurrency") (b_maxBatchConcurrency settings) (b_maxBatchConcurrency settings)) in
        let! total := act_of (integer (get input "maxTotalBytes") (b_maxBatchBytes settings) (b_maxBatchBytes settings)) in
        let! _ := act_of (integer (get input "timeoutMs") operationTimeoutMs operationTimeoutMs) in
        let! requests := act_of (batch_requests l 0) in
        let! output := call OpRequestMany
          (JObject [("requests", JArray (map request_js requests)); ("concurrency", jint concurrency); ("maxTotalBytes", jint total)]) in
        match output with
        | JArray answers =>
            if zlength answers =? zlength requests then act_of (each result_ answers) else act_of protocol_error
        | _ => act_of protocol_error
        end
  | _ => act_of invalid
  end.
Definition sync_capabilities : act Facade jsval :=
  let! v := call OpCapabilities JNull in act_of (wire Validators.capabilities v).
Definition about_request (o : Operation) (requestId partition : jsval) : act Facade jsval :=
  let! id := act_of (text requestId 128) in
  let! part := act_of (text partition 1024) in
  call o (JObject [("requestId", JStr id); ("partition", JStr part)]).
Definition sync_requestStatus (requestId partition : jsval) : act Facade RequestStatus :=
  let! v := about_request OpRequestStatus requestId partition in
  act_of
    (let? output := object v in
     match get output "state" with
     | JStr s =>
         if negb (js_includes status_states s) then protocol_error
         else
           let? d := ipcDiagnostics (get output "diagnostics") in
           let? e := optional decodeError (get output "error") in
           Ok {| state := s; status_diagnostics := d; status_error := e |}
     | _ => protocol_error
     end).
Definition sync_cancelRequest (requestId partition : jsval) : act Facade unit :=
  let! _ := about_request OpCancelRequest requestId partition in act_of (Ok tt).
Definition sync_createSession (options : jsval) : act Facade nat :=
  let! converted := act_of (sessionOptions parse_url options) in
  let! v := call OpCreateSession (session_options_js converted) in
  let! output := act_of (object v) in
  let! id := act_of (text (get output "id") 128) in
  let! info := act_of (wire Validators.contextInfo (get output "info")) in
  fun f =>
    (with_remotes (remotes f ++ [{| m_id := id; m_managed := o_managed converted; m_info := info; m_closing := false;
                                    m_closed := false; m_session := fst <$> assoc id (sessions (worker f)) |}]) f,
     Ok (length (remotes f))).
Definition sync_close (options : jsval) : act Facade unit := fun f =>
  if f_closed f then (f, Ok tt)
  else
    (let! converted := act_of (closeOptions options operationTimeoutMs) in
     fun f => (let! _ := call OpClose (close_options_js converted) in
               fun f => (with_flags (f_closing f) true true (f_failure f) f, Ok tt))
              (with_flags true (f_closed f) (cleanupComplete f) (f_failure f) f)) f.

(** ** The sessions of the calling thread *)

Definition set_remote (i : nat) (info : jsval) (closing closed : bool) (r : Remote) (f : Facade) : Facade :=
  with_remotes (<[i := {| m_id := m_id r; m_managed := m_managed r; m_info := info; m_closing := closing;
                          m_closed := closed; m_session := m_session r |}]> (remotes f)) f.
(** The function [invoke] of [createSession]. *)
Definition invoke_call (o : Operation) (id : jsstr) (value : jsval) : act Facade jsval := fun f =>
  if bool_decide (o = OpSessionClose) && cleanupComplete f
  then (f, Ok (JObject [("cleanupComplete", JBool true)]))
  else call o (JObject [("id", JStr id); ("value", value)]) f.
Definition updateInfo (i : nat) (info : jsval) : act Facade unit :=
  let! info := act_of (wire Validators.contextInfo info) in
  fun f => match remotes f !! i with
           | Some r => (set_remote i info (m_closing r) (m_closed r) r f, Ok tt)
           | None => (f, Ok tt)
           end.
(** [RemoteSession.invoke]: what it makes of the answer, and the whole. *)
Definition answered (i : nat) (o : Operation) (v : jsval) : act Facade jsval :=
  let! output := act_of (object v) in
  if bool_decide (o = OpSessionClose) && match get output "cleanupComplete" with JBool true => true | _ => false end
  then act_of (Ok JUndefined)
  else
    let! outcome := act_of (object (get output "result")) in
    let! _ := updateInfo i (get output "info") in
    act_of match get outcome "ok" with
           | JBool true => Ok (get outcome "value")
           | JBool false => let? e := decodeError (get outcome "error") in Throw (ETransport e)
           | _ => protocol_error
           end.
Definition invoke (i : nat) (o : Operation) (value : jsval) : act Facade jsval := fun f =>
  match remotes f !! i with
  | None => (f, invalid)                          (* there is no such object *)
  | Some r =>
      if m_closed r || (m_closing r && negb (bool_decide (o = OpSessionClose)))
      then (f, Throw (ETransport client_closed_error))
      else (let! v := invoke_call o (m_id r) value in answered i o v) f
  end.
Definition remote_request (i : nat) (options : jsval) : act Facade PlainResponse :=
  let! r := act_of (sessionRequest parse_url valid_headers options maxRequestBytes) in
  let! v := invoke i OpSessionRequest (session_request_js r) in act_of (response v).
Definition remote_tryRequest (i : nat) (options : jsval) : act Facade Outcome :=
  act_catch
    (let! r := act_of (sessionRequest parse_url valid_headers options maxRequestBytes) in
     let! v := invoke i OpSessionTryRequest (session_request_js r) in act_of (result_ v))
    (fun e => Ok (Throw (as_error e))).
Definition mark_remote (i : nat) (closing closed : bool) : act Facade unit := fun f =>
  match remotes f !! i with
  | Some r => (set_remote i (m_info r) (m_closing r || closing) (m_closed r || closed) r f, Ok tt)
  | None => (f, Ok tt)
  end.
Definition remote_close (i : nat) (options : jsval) : act Facade unit := fun f =>
  match remotes f !! i with
  | Some r =>
      if m_closed r then (f, Ok tt)
      else
        (let! converted := act_of (closeOptions options operationTimeoutMs) in
         let! _ := mark_remote i true false in
         let! _ := invoke i OpSessionClose (close_options_js converted) in mark_remote i false true) f
  | None => (f, invalid)
  end.
Definition remote_getCookies (i : nat) (value : jsval) : act Facade (list jsval) :=
  let! u := act_of (url parse_url value) in
  let! output := invoke i OpGetCookies (JStr u) in
  match output with
  | JArray l => act_of (each (wire Validators.cookieRecord) l)
  | _ => act_of protocol_error
  end.
Definition remote_setCookies (i : nat) (value values : jsval) : act Facade unit :=
  match string_list values with
  | None => act_of invalid
  | Some l =>
      if (zlength l >? 4096) || (fold_left (fun size s => size + byte_length s) l 0 >? MAX_METADATA_BYTES) then act_of invalid
      else
        let! u := act_of (url parse_url value) in
        let! _ := invoke i OpSetCookies (JObject [("url", JStr u); ("values", JArray (map JStr l))]) in act_of (Ok tt)
  end.
Definition remote_exportCookies (i : nat) : act Facade jsval :=
  let! v := invoke i OpExportCookies JNull in act_of (wire Validators.cookieSnapshot v).
Definition cookie_keys : list jsstr :=
  ["name"; "value"; "domain"; "path"; "secure"; "httpOnly"; "hostOnly"; "partitioned"; "sameSite"; "expiresAtMs"].
Fixpoint cookie_bytes (fields : list (jsstr * jsval)) (bytes : Z) : result exn Z :=
  match fields with
  | [] => Ok bytes
  | (_, field) :: fields =>
      match field with
      | JStr s => cookie_bytes fields (bytes + byte_length s)
      | JUndefined | JBool _ | JNum _ => cookie_bytes fields bytes
      | _ => invalid
      end
  end.
Fixpoint import_cookies (l : list jsval) (bytes : Z) : result exn (list jsval) :=
  match l with
  | [] => Ok []
  | v :: l =>
      let? cookie := object v in
      let? _ := keys cookie cookie_keys in
      let? bytes := cookie_bytes (entries cookie) bytes in
      if bytes >? MAX_METADATA_BYTES then Throw (localError BODY_TOO_LARGE (Some buffer_limit))
      else
        let? c := wire Validators.cookieRecord cookie in
        let? cs := import_cookies l bytes in Ok (c :: cs)
  end.
Definition remote_importCookies (i : nat) (snapshot : jsval) : act Facade unit :=
  let! input := act_of (object snapshot) in
  let! _ := act_of (keys input ["partitionKey"; "cookies"]) in
  match get input "cookies" with
  | JArray l =>
      if zlength l >? 4096 then act_of invalid
      else
        let! cookies := act_of (import_cookies l 0) in
        let! key := act_of (text (get input "partitionKey") 1024) in
        let! converted := act_of (wire Validators.cookieSnapshot
                                    (JObject [("partitionKey", JStr key); ("cookies", JArray cookies)])) in
        let! _ := invoke i OpImportCookies converted in act_of (Ok tt)
  | _ => act_of invalid
  end.
Definition remote_rebindIdentity (i : nat) (value : jsval) : act Facade Rebound :=
  let! id := act_of (identity value) in
  let! v := invoke i OpRebindIdentity (identity_js id) in
  let! output := act_of (object v) in
  let! outcome := act_of (object (get output "outcome")) in
  let! previous := act_of (text (get outcome "previousContextId") 256) in
  let! current := act_of (text (get outcome "contextId") 256) in
  let! _ := updateInfo i (get output "info") in
  act_of (if is_str (get outcome "state") "committed" then Ok (Committed previous current)
          else if is_str (get outcome "state") "committed_cleanup_pending" then
            let? e := decodeError (get outcome "cleanupError") in Ok (CommittedCleanupPending previous current e)
          else protocol_error).

(** ** A program that uses the client *)

Inductive facade_op :=
| DoRequest (options : jsval)
| DoTryRequest (options : jsval)
| DoRequestMany (options batch : jsval)
| DoCapabilities
| DoRequestStatus (requestId partition : jsval)
| DoCancelRequest (requestId partition : jsval)
| DoCreateSession (options : jsval)
| DoClose (options : jsval)
| DoSessionRequest (i : nat) (options : jsval)
| DoSessionTryRequest (i : nat) (options : jsval)
| DoSessionClose (i : nat) (options : jsval)
| DoGetCookies (i : nat) (value : jsval)
| DoSetCookies (i : nat) (value values : jsval)
| DoExportCookies (i : nat)
| DoImportCookies (i : nat) (snapshot : jsval)
| DoRebindIdentity (i : nat) (value : jsval).
Definition facade_step (f : Facade) (o : facade_op) : Facade :=
  match o with
  | DoRequest options => fst (sync_request options f)
  | DoTryRequest options => fst (sync_tryRequest options f)
  | DoRequestMany options batch => fst (sync_requestMany options batch f)
  | DoCapabilities => fst (sync_capabilities f)
  | DoRequestStatus id partition => fst (sync_requestStatus id partition f)
  | DoCancelRequest id partition => fst (sync_cancelRequest id partition f)
  | DoCreateSession options => fst (sync_createSession options f)
  | DoClose options => fst (sync_close options f)
  | DoSessionRequest i options => fst (remote_request i options f)
  | DoSessionTryRequest i options => fst (remote_tryRequest i options f)
  | DoSessionClose i options => fst (remote_close i options f)
  | DoGetCookies i value => fst (remote_getCookies i value f)
  | DoSetCookies i value values => fst (remote_setCookies i value values f)
  | DoExportCookies i => fst (remote_exportCookies i f)
  | DoImportCookies i snapshot => fst (remote_importCookies i snapshot f)
  | DoRebindIdentity i value => fst (remote_rebindIdentity i value f)
  end.
(** The client after its constructor. *)
Definition newFacade (x : W) : Facade := {|
  worker := {| world := x; sessions := []; sessionSequence := 0 |}; f_sequence := 0; f_closing := false;
  f_closed := false; cleanupComplete := false; f_failure := None; remotes := [] |}.
Definition facade_run (x : W) (ops : list facade_op) : Facade := fold_left facade_step ops (newFacade x).
End remote.

Lemma number_text z : text (JStr (number_string z)) 128 = Ok (number_string z).
Proof.
  unfold text, js_length, number_string, zlength. cbn [units]. pose proof (digits_length 17 z).
  destruct (Z.eqb_spec (Z.of_nat (length (digits 17 z []))) 0); [lia|]. rewrite Z.gtb_ltb.
  destruct (Z.ltb_spec 128 (Z.of_nat (length (digits 17 z [])))); [lia|done].
Qed.

Section properties.
Context {W : Type} `{AsyncClient W}.
Context (parse_url : jsstr -> option Link) (valid_headers : list (jsstr * jsstr) -> bool).
Context (settings : BridgeConfig) (gives_up : Z -> option Ja3ProxyTransportError).
Notation Worker := (Worker (W := W)).
Notation Facade := (Facade (W := W)).
Notation dispatch := (dispatch parse_url valid_headers settings).
Notation call := (call parse_url valid_headers settings gives_up).
Notation invoke := (invoke parse_url valid_headers settings gives_up).
Notation sync_request := (sync_request parse_url valid_headers settings gives_up).
Notation sync_tryRequest := (sync_tryRequest parse_url valid_headers settings gives_up).
Notation remote_request := (remote_request parse_url valid_headers settings gives_up).
Notation read_request := (fun v => request parse_url valid_headers v (b_maxRequestBytes settings)).
Notation read_session_request := (fun v => sessionRequest parse_url valid_headers v (b_maxRequestBytes settings)).

(** ** The sessions of the worker *)

(** An operation that creates and ends no session. *)
Definition quiet (o : Operation) : bool :=
  match o with OpCreateSession | OpSessionClose | OpClose => false | _ => true end.
Definition same_sessions (w w' : Worker) : Prop :=
  sessions w' = sessions w /\ sessionSequence w' = sessionSequence w.
(** An action of the worker that leaves its sessions alone. *)
Definition still {A : Type} (m : act Worker A) : Prop := forall w, same_sessions w (fst (m w)).

Lemma still_of {A : Type} (r : result exn A) : still (act_of r).
Proof. done. Qed.
Lemma still_perform {A : Type} (m : act W A) : still (perform m).
Proof. intros w. unfold perform. by destruct (m (world w)). Qed.
Lemma still_bind {A B : Type} (m : act Worker A) (k : A -> act Worker B) :
  still m -> (forall a, still (k a)) -> still (act_bind m k).
Proof.
  intros Hm Hk w. unfold act_bind. specialize (Hm w). destruct (m w) as [w' [a|e]]; [|done]. cbn in Hm.
  destruct (Hk a w'), Hm. split; congruence.
Qed.
Lemma still_catch {A : Type} (m : act Worker A) h : still m -> still (act_catch m h).
Proof. intros Hm w. specialize (Hm w). unfold act_catch. by destruct (m w) as [w' [a|e]]. Qed.
Lemma still_owned v : still (owned v).
Proof. done. Qed.
Create HintDb still.
Hint Resolve still_of still_perform still_bind still_catch still_owned : still.

Lemma session_dispatch_still o h mg id v : quiet o = true -> still (session_dispatch parse_url valid_headers settings o h mg id v).
Proof.
  destruct o; try done; intros _; cbn [session_dispatch]; auto 10 with still.
  - apply still_bind; [auto with still|]. intros a. destruct (string_list (get a "values")); auto 10 with still.
  - do 3 (apply still_bind; [auto with still|]; intros ?). intros w. by split.
Qed.
Lemma session_reply_sessions o v w :
  quiet o = true -> same_sessions w (fst (session_reply parse_url valid_headers settings o v w)).
Proof.
  intros Hq. revert w. apply still_bind; [apply still_owned|]. intros [[[h mg] id] input] w.
  pose proof (session_dispatch_still o h mg id input Hq w) as Hs. by destruct (session_dispatch _ _ _ _ _ _ _ _ w).
Qed.
Lemma dispatch_still o v : quiet o = true -> still (dispatch o v).
Proof.
  intros Hq. destruct o; try done; try (intros w; by apply session_reply_sessions); cbn [Remote.dispatch]; auto 10 with still.
  - apply still_bind; [auto with still|]. intros q w. pose proof (still_perform (a_request q) w) as Hs.
    destruct (perform (a_request q) w) as [w' [b|e]]; exact Hs.
  - apply still_bind; [auto with still|]. intros [[requests c] t]. auto with still.
Qed.

(** [sessionClose] removes at most its own session. *)
Lemma dispatch_session_close v w :
  let w' := fst (dispatch OpSessionClose v w) in
  sessionSequence w' = sessionSequence w /\
  (sessions w' = sessions w \/
   exists id, get v "id" = JStr id /\ sessions w' = List.filter (fun entry => negb (js_eqb id entry.1)) (sessions w)).
Proof.
  cbn [Remote.dispatch]. unfold session_reply, act_bind, owned. destruct (object v) as [input|e] eqn:Eo; cbn [result_bind]; [|auto].
  assert (input = v) as -> by (destruct v; naive_solver).
  destruct (text (get v "id") 128) as [id|e] eqn:Et; cbn [result_bind]; [|auto].
  assert (get v "id" = JStr id) as Hid by (unfold text in Et; destruct (get v "id"); try done; destruct (_ || _); naive_solver).
  destruct (assoc id (sessions w)) as [[h mg]|]; [|auto].
  cbn [session_dispatch]. unfold act_bind, act_of. destruct (closeSettings settings _) as [c|e]; [|auto].
  unfold perform. destruct (s_close h c (world w)) as [x [[]|e]]; cbn; [|auto]. split; [done|]. right. by exists id.
Qed.
Lemma dispatch_close v w :
  let w' := fst (dispatch OpClose v w) in
  sessionSequence w' = sessionSequence w /\ (sessions w' = sessions w \/ sessions w' = []).
Proof.
  cbn [Remote.dispatch]. unfold act_bind, act_of. destruct (closeSettings settings _) as [c|e]; [|auto].
  unfold perform. destruct (a_close c (world w)) as [x [[]|e]]; cbn; auto.
Qed.
(** [createSession] opens one session under a new identifier, or none. *)
Lemma dispatch_create v w :
  (exists w' e, dispatch OpCreateSession v w = (w', Throw e) /\ same_sessions w w') \/
  (exists w' o h info, sessionOptions parse_url v = Ok o /\
     dispatch OpCreateSession v w =
       (w', Ok (JObject [("id", JStr (number_string (sessionSequence w + 1))); ("info", info)])) /\
     sessions w' = assoc_set (number_string (sessionSequence w + 1)) (h, o_managed o) (sessions w) /\
     sessionSequence w' = sessionSequence w + 1).
Proof.
  cbn [Remote.dispatch]. unfold act_bind, act_of. destruct (sessionOptions parse_url v) as [o|e]; [|left; by exists w, e].
  unfold perform. destruct (a_createSession o (world w)) as [x [h|e]]; [right | left; by eexists _, e].
  eexists _, o, h, _. cbn. eauto.
Qed.
Lemma options_managed o o' : sessionOptions parse_url (session_options_js o) = Ok o' -> o_managed o' = o_managed o.
Proof.
  intros Ho. unfold sessionOptions in Ho. read_apart Ho.
  assert (object (session_options_js o) = Ok (session_options_js o) /\
    get (session_options_js o) "cookieMode" = JStr (if o_managed o then "managed" else "external")) as [Hobj Hm]
    by (pose proof (session_options_get o) as Hg; cbn zeta in Hg; by destruct_and! Hg).
  injection (eq_trans (eq_sym Hobj) E) as <-. rewrite Hm in Ho. destruct (o_managed o).
  - change (is_str (JStr "managed") "external") with false in Ho. destruct (_ && _) in Ho; [|done]. by injection Ho as <-.
  - change (is_str (JStr "external") "managed") with false in Ho. cbn [andb] in Ho.
    change (is_str (JStr "external") "external") with true in Ho. by injection Ho as <-.
Qed.

(** ** Every session object speaks to its own session *)

Notation assigned w id := (exists k, 1 <= k <= sessionSequence w /\ id = number_string k).
Record routed (f : Facade) : Prop := {
  rt_sequence : 0 <= sessionSequence (worker f) <= f_sequence f;
  rt_remote : forall m, m ∈ remotes f -> assigned (worker f) (m_id m);
  rt_distinct : NoDup (m_id <$> remotes f);
  rt_own : forall m h mg, m ∈ remotes f -> assoc (m_id m) (sessions (worker f)) = Some (h, mg) ->
    m_session m = Some h /\ m_managed m = mg;
  rt_present : f_closing f = false -> f_closed f = false ->
    forall m, m ∈ remotes f -> m_closing m = false -> is_Some (assoc (m_id m) (sessions (worker f))) }.
(** Identifiers are exact while the counter of the calls is. *)
Definition routes (f : Facade) : Prop := f_sequence f <= MAX_SAFE_INTEGER -> routed f.
(** What a step leaves of the client. *)
Record later (f f' : Facade) : Prop := {
  lt_sequence : f_sequence f <= f_sequence f';
  lt_closing : f_closing f' = false -> f_closing f = false;
  lt_closed : f_closed f' = false -> f_closed f = false }.

Lemma filter_assoc {A : Type} (id id' : jsstr) (l : list (jsstr * A)) :
  assoc id' (List.filter (fun entry => negb (js_eqb id entry.1)) l) = if js_eqb id id' then None else assoc id' l.
Proof.
  induction l as [|[k a] l IH]; cbn; [by destruct (js_eqb id id')|]. unfold js_eqb in *.
  repeat (case_bool_decide; subst; cbn); try done; rewrite ?IH; unfold js_eqb; repeat case_bool_decide; congruence.
Qed.

Lemma routes_step (f f' : Facade) :
  f_sequence f <= f_sequence f' -> (f_sequence f' <= MAX_SAFE_INTEGER -> routed f -> routed f') -> routes f -> routes f'.
Proof. intros Hl Hs Hf Hb. apply Hs; [done|]. apply Hf. lia. Qed.
(** The worker has done something, and the flags of the client have changed. *)
Lemma routed_worker f w n closing closed cleanup failed :
  sessionSequence (worker f) <= sessionSequence w <= n ->
  (forall m x, m ∈ remotes f -> assoc (m_id m) (sessions w) = Some x -> assoc (m_id m) (sessions (worker f)) = Some x) ->
  (closing = false -> closed = false ->
   f_closing f = false /\ f_closed f = false /\
   forall m, m ∈ remotes f -> m_closing m = false -> assoc (m_id m) (sessions w) = assoc (m_id m) (sessions (worker f))) ->
  routed f -> routed (with_flags closing closed cleanup failed (with_worker w n f)).
Proof.
  intros Hs Ho Hp [H1 H2 H3 H4 H5]. split; cbn.
  - lia.
  - intros m (k & ? & Hk)%H2. exists k. split; [lia|done].
  - done.
  - intros m h mg Hm Hx. by apply (H4 m h mg Hm), Ho.
  - intros Hc Hd m Hm Hg. destruct (Hp Hc Hd) as (? & ? & Hsame). rewrite Hsame by done. by apply H5.
Qed.
Lemma insert_elem {A : Type} (l : list A) i x y : y ∈ <[i := x]> l -> y = x \/ y ∈ l.
Proof. intros (j & Hj)%list_elem_of_lookup. apply list_lookup_insert_Some in Hj as [(_ & <- & _)|[_ Hj]]; [by left|].
  right. by eapply list_elem_of_lookup_2. Qed.
Lemma routed_set f i r info closing closed :
  remotes f !! i = Some r -> (closing = false -> m_closing r = false) ->
  routed f -> routed (set_remote i info closing closed r f).
Proof.
  intros Hi Hc [H1 H2 H3 H4 H5]. pose proof (list_elem_of_lookup_2 _ _ _ Hi) as Hr. split; cbn.
  - done.
  - intros m [->|Hm]%insert_elem; [by apply (H2 r)|by apply (H2 m)].
  - rewrite list_fmap_insert. cbn. by rewrite list_insert_id by (by rewrite list_lookup_fmap, Hi).
  - intros m h mg [->|Hm]%insert_elem; cbn; [by apply (H4 r)|by apply (H4 m)].
  - intros Ha Hb m [->|Hm]%insert_elem; cbn; intros Hg; [apply (H5 Ha Hb r); auto|by apply (H5 Ha Hb m)].
Qed.
Lemma routed_flags f closing closed cleanup failed :
  (closing = false -> f_closing f = false) -> (closed = false -> f_closed f = false) ->
  routed f -> routed (with_flags closing closed cleanup failed f).
Proof. intros Hc Hd [H1 H2 H3 H4 H5]. split; cbn; auto. Qed.

Lemma call_cases o v f :
  let '(f', r) := call o v f in
  (f' = f /\ exists e, r = Throw e) \/
  exists w d closed failed,
    dispatch o v (worker f) = (w, d) /\ (closed = false -> f_closed f = false) /\ (forall a, r = Ok a -> d = Ok a) /\
    f' = with_flags (f_closing f) closed (cleanupComplete f) failed (with_worker w (f_sequence f + 1) f).
Proof.
  unfold Remote.call. destruct (f_closed f) eqn:Ed; [left; eauto|]. destruct (_ && _ && _); [left; eauto|].
  destruct (dispatch o v (worker f)) as [w d]. destruct (gives_up _) as [e|].
  { right. eexists w, d, true, _. by split_and!. }
  destruct (delivered d) as [a|e] eqn:E.
  - right. exists w, d, (f_closed f), (f_failure f). split_and!; try done. intros a' [= <-].
    unfold delivered in E. destruct d as [|e]; [congruence|]. by destruct (decodeError (serialized_js (encodeError e))).
  - destruct e as [t| | |]; right; exists w, d; try (exists (f_closed f), (f_failure f); by split_and!).
    case_bool_decide; [eexists true, _|exists (f_closed f), (f_failure f)]; by split_and!.
Qed.

(** ** Every method keeps the sessions apart *)

Definition keeps {A : Type} (m : act Facade A) : Prop := forall f, routes f -> routes (fst (m f)).
Lemma keeps_of {A : Type} (r : result exn A) : keeps (act_of r).
Proof. by intros f Hf. Qed.
Lemma keeps_bind {A B : Type} (m : act Facade A) (k : A -> act Facade B) :
  keeps m -> (forall a, keeps (k a)) -> keeps (act_bind m k).
Proof. intros Hm Hk f Hf%Hm. unfold act_bind. destruct (m f) as [f' [a|e]]; [by apply Hk|done]. Qed.
Lemma keeps_catch {A : Type} (m : act Facade A) h : keeps m -> keeps (act_catch m h).
Proof. intros Hm f Hf%Hm. unfold act_catch. by destruct (m f) as [f' [a|e]]. Qed.
Lemma keeps_quiet o v : quiet o = true -> keeps (call o v).
Proof.
  intros Hq f Hf. pose proof (call_cases o v f) as Hc. destruct (call o v f) as [f' r].
  destruct Hc as [[-> _]|(w & d & closed & failed & Hd & Hclosed & _ & ->)]; [done|].
  pose proof (dispatch_still o v Hq (worker f)) as [Hs Hn]. rewrite Hd in Hs, Hn. cbn in Hs, Hn |- *.
  revert Hf. apply routes_step; [cbn; lia|]. intros _ Hf. pose proof (rt_sequence f Hf).
  apply routed_worker; [lia| | |done]; rewrite Hs; auto.
Qed.
Lemma keeps_session_close i r v f :
  remotes f !! i = Some r -> m_closing r = true -> get v "id" = JStr (m_id r) ->
  routes f -> routes (fst (call OpSessionClose v f)).
Proof.
  intros Hi Hr Hid Hf. pose proof (call_cases OpSessionClose v f) as Hc. destruct (call OpSessionClose v f) as [f' r'].
  destruct Hc as [[-> _]|(w & d & closed & failed & Hd & Hclosed & _ & ->)]; [done|].
  pose proof (dispatch_session_close v (worker f)) as [Hn Hs]. rewrite Hd in Hs, Hn. cbn in Hs, Hn |- *.
  revert Hf. apply routes_step; [cbn; lia|]. intros _ Hf. pose proof (rt_sequence f Hf).
  destruct Hs as [Hs|(id & Hid' & Hs)]; (apply routed_worker; [lia| | |done]); rewrite Hs; auto.
  all: rewrite Hid in Hid'; injection Hid' as <-.
  - intros m x Hm. rewrite filter_assoc. by destruct (js_eqb _ _).
  - intros Hg Hc. split_and!; [done|auto|]. intros m Hm Hmc. rewrite filter_assoc.
    destruct (js_eqb _ _) eqn:E; [|done]. apply js_eqb_eq in E. exfalso.
    apply list_elem_of_lookup in Hm as (j & Hj).
    assert (j = i) as -> by (eapply (NoDup_lookup _ _ _ _ (rt_distinct f Hf)); rewrite list_lookup_fmap, ?Hj, ?Hi; cbn; by rewrite ?E).
    congruence.
Qed.
Lemma keeps_close v f : f_closing f = true -> routes f -> routes (fst (call OpClose v f)).
Proof.
  intros Hg Hf. pose proof (call_cases OpClose v f) as Hc. destruct (call OpClose v f) as [f' r'].
  destruct Hc as [[-> _]|(w & d & closed & failed & Hd & _ & _ & ->)]; [done|].
  pose proof (dispatch_close v (worker f)) as [Hn Hs]. rewrite Hd in Hs, Hn. cbn in Hs, Hn |- *.
  revert Hf. apply routes_step; [cbn; lia|]. intros _ Hf. pose proof (rt_sequence f Hf).
  apply routed_worker; [lia| |congruence|done]. intros m x Hm. by destruct Hs as [->| ->].
Qed.
Lemma keeps_update i info : keeps (updateInfo i info).
Proof.
  apply keeps_bind; [apply keeps_of|]. intros v f Hf. destruct (remotes f !! i) as [r|] eqn:E; [|done].
  intros Hb. by apply routed_set, Hf.
Qed.
Hint Resolve keeps_of keeps_bind keeps_catch keeps_quiet keeps_update : keeps.
Lemma keeps_answered i o v : keeps (answered i o v).
Proof. apply keeps_bind; [auto with keeps|]. intros output. destruct (_ && _); auto 6 with keeps. Qed.
Hint Resolve keeps_answered : keeps.
Lemma keeps_invoke i o v : quiet o = true -> keeps (invoke i o v).
Proof.
  intros Hq f. unfold Remote.invoke. destruct (remotes f !! i) as [r|]; [|done]. destruct (_ || _); [done|]. revert f.
  apply keeps_bind; [|auto with keeps].
  intros f. unfold invoke_call. rewrite (bool_decide_false (o = OpSessionClose)) by (intros ->; done). by apply keeps_quiet.
Qed.
Hint Resolve keeps_invoke : keeps.

(** The same, where the session object is closing. *)
Lemma invoke_close i r v f :
  remotes f !! i = Some r -> m_closing r = true -> routes f -> routes (fst (invoke i OpSessionClose v f)).
Proof.
  intros Hi Hr Hf. unfold Remote.invoke. rewrite Hi, Hr. destruct (_ || _); [done|]. unfold act_bind, invoke_call.
  destruct (_ && _); [by apply keeps_answered|].
  pose proof (keeps_session_close i r (JObject [("id", JStr (m_id r)); ("value", v)]) f Hi Hr eq_refl Hf) as Hk.
  destruct (call OpSessionClose _ f) as [f' [a|e]]; [by apply keeps_answered|done].
Qed.
Lemma keeps_mark i closed : keeps (mark_remote i false closed).
Proof.
  intros f Hf. unfold mark_remote. destruct (remotes f !! i) as [r|] eqn:Hi; [|done]. intros Hb.
  rewrite orb_false_r. by apply routed_set, Hf.
Qed.
Lemma keeps_remote_close i options : keeps (remote_close parse_url valid_headers settings gives_up i options).
Proof.
  intros f Hf. unfold remote_close. destruct (remotes f !! i) as [r|] eqn:Hi; [|done]. destruct (m_closed r); [done|].
  unfold act_of, act_bind at 1. destruct (closeOptions _ _) as [converted|e]; [|exact Hf].
  unfold act_bind at 1, mark_remote at 1. rewrite Hi, orb_true_r. set (f1 := set_remote _ _ _ _ _ f).
  assert (routes f1) as Hm by (intros Hb; by apply routed_set, Hf).
  pose proof (invoke_close i _ (close_options_js converted) f1
    (list_lookup_insert_eq (remotes f) i _ (lookup_lt_Some _ _ _ Hi)) eq_refl Hm) as He.
  unfold act_bind. destruct (invoke _ _ _ f1) as [f2 [v|e]]; [by apply keeps_mark|exact He].
Qed.
Lemma keeps_sync_close options : keeps (sync_close parse_url valid_headers settings gives_up options).
Proof.
  intros f Hf. unfold sync_close. destruct (f_closed f); [done|]. unfold act_of, act_bind at 1.
  destruct (closeOptions _ _) as [converted|e]; [|exact Hf]. set (f1 := with_flags true _ _ _ f).
  assert (routes f1) as Hm by (intros Hb; by apply routed_flags, Hf).
  pose proof (keeps_close (close_options_js converted) f1 eq_refl Hm) as He.
  unfold act_bind. destruct (call _ _ f1) as [f2 [v|e]]; [|exact He]. intros Hb. by apply routed_flags, He.
Qed.
Lemma fresh_id f m k : routed f -> m ∈ remotes f -> sessionSequence (worker f) < k <= MAX_SAFE_INTEGER -> number_string k <> m_id m.
Proof. intros Hf (k' & Hk & ->)%(rt_remote f Hf) Hb E%number_string_inj; lia. Qed.
(** The session that the worker has created for a call. *)
Record created (f : Facade) (o : SessionOptions) (answer : jsval) (id : jsstr) (h : nat) : Prop := {
  cr_answer : exists info, answer = JObject [("id", JStr id); ("info", info)];
  cr_entry : assoc id (sessions (worker f)) = Some (h, o_managed o);
  cr_assigned : assigned (worker f) id;
  cr_fresh : forall m, m ∈ remotes f -> id <> m_id m }.
Lemma create_call v f :
  let '(f', r) := call OpCreateSession v f in
  routes f -> routes f' /\
  forall a, r = Ok a -> f_sequence f' <= MAX_SAFE_INTEGER ->
    exists o id h, sessionOptions parse_url v = Ok o /\ created f' o a id h.
Proof.
  pose proof (call_cases OpCreateSession v f) as Hc. destruct (call OpCreateSession v f) as [f' r]. intros Hf.
  destruct Hc as [[-> [e ->]]|(w & d & closed & failed & Hd & Hclosed & Hr & ->)]; [done|].
  destruct (dispatch_create v (worker f)) as [(w' & e & Hd' & Hs & Hn)|(w' & o & h & info & Ho & Hd' & Hs & Hn)];
    rewrite Hd in Hd'; injection Hd' as <- ->.
  - split; [|by intros a Ha%Hr]. revert Hf. apply routes_step; [cbn; lia|]. intros _ Hf. pose proof (rt_sequence f Hf).
    apply routed_worker; [lia| | |done]; rewrite Hs; auto.
  - assert (f_sequence f + 1 <= MAX_SAFE_INTEGER -> forall m, m ∈ remotes f ->
      number_string (sessionSequence (worker f) + 1) <> m_id m) as Hfresh.
    { intros Hb m Hm. assert (routed f) as Hrt by (apply Hf; lia). pose proof (rt_sequence f Hrt).
      apply (fresh_id f); [done..|lia]. }
    split.
    + revert Hf. apply routes_step; [cbn; lia|]. cbn [f_sequence with_flags with_worker]. intros Hb Hf. pose proof (rt_sequence f Hf).
      apply routed_worker; [lia| | |done]; rewrite Hs.
      * intros m x Hm. by rewrite assoc_set_ne by auto.
      * intros Hg Hc. split_and!; [done|auto|]. intros m Hm _. by apply assoc_set_ne, Hfresh.
    + intros a [= <-]%Hr Hb. cbn [f_sequence with_flags with_worker] in Hb. assert (routed f) as Hrt by (apply Hf; lia).
      pose proof (rt_sequence f Hrt). eexists o, _, h. split; [done|]. split; cbn.
      * eauto.
      * rewrite Hs. apply assoc_set_eq.
      * eexists. split; [|done]. lia.
      * by apply Hfresh.
Qed.
Lemma routed_created f o answer id h info :
  created f o answer id h -> routed f ->
  routed (with_remotes (remotes f ++ [{| m_id := id; m_managed := o_managed o; m_info := info; m_closing := false;
    m_closed := false; m_session := Some h |}]) f).
Proof.
  intros [_ He Ha Hn] [H1 H2 H3 H4 H5]. split; cbn; try done.
  - intros m [Hm|Hm]%elem_of_app; [by apply H2|]. by apply list_elem_of_singleton in Hm as ->.
  - rewrite fmap_app. apply NoDup_app. split_and!; [done| |apply NoDup_singleton].
    intros x (m & -> & Hm)%list_elem_of_fmap Hx%list_elem_of_singleton. by destruct (Hn m Hm).
  - intros m h' mg [Hm|Hm]%elem_of_app Hx; [by apply (H4 m)|]. apply list_elem_of_singleton in Hm as ->. cbn in *. naive_solver.
  - intros Hc Hd m [Hm|Hm]%elem_of_app Hg; [by apply H5|]. apply list_elem_of_singleton in Hm as ->. cbn. by rewrite He.
Qed.
Lemma keeps_createSession options : keeps (sync_createSession parse_url valid_headers settings gives_up options).
Proof.
  intros f Hf. unfold sync_createSession, act_of, act_bind. destruct (sessionOptions parse_url options) as [c|e]; [|exact Hf].
  pose proof (create_call (session_options_js c) f) as Hc. destruct (call _ _ f) as [f' [a|e]]; [|by apply Hc].
  destruct (Hc Hf) as [Hf' Hcr]. destruct (object a) as [output|e] eqn:Eo; [|exact Hf'].
  destruct (text (get output "id") 128) as [id|e] eqn:Et; [|exact Hf'].
  destruct (wire _ _) as [info|e]; [|exact Hf']. cbn [fst]. intros Hb.
  destruct (Hcr a eq_refl Hb) as (o & id' & h & Ho%options_managed & Hcreated).
  destruct (cr_answer _ _ _ _ _ Hcreated) as [info' ->]. injection Eo as <-.
  destruct (cr_assigned _ _ _ _ _ Hcreated) as (k & _ & Hk).
  assert (id = id') as ->.
  { change (get _ "id") with (JStr id') in Et. rewrite Hk, number_text in Et. congruence. }
  rewrite (cr_entry _ _ _ _ _ Hcreated), <- Ho. eapply routed_created; [done|by apply Hf'].
Qed.
Ltac keep := repeat first
  [ apply keeps_update | by apply keeps_quiet | by apply keeps_invoke | apply keeps_of | apply keeps_catch
  | apply keeps_bind; [|intros ?] | match goal with |- keeps (match ?x with _ => _ end) => destruct x end ].
Lemma keeps_step f o : routes f -> routes (facade_step parse_url valid_headers settings gives_up f o).
Proof.
  intros Hf. destruct o; cbn [facade_step]; refine ((_ : keeps _) f Hf);
    first [apply keeps_createSession | apply keeps_sync_close | apply keeps_remote_close | idtac];
    unfold Remote.sync_request, Remote.sync_tryRequest, sync_requestMany, sync_capabilities, sync_requestStatus,
      sync_cancelRequest, about_request, Remote.remote_request, remote_tryRequest, remote_getCookies, remote_setCookies,
      remote_exportCookies, remote_importCookies, remote_rebindIdentity; keep.
Qed.
Lemma run_routed x ops :
  let f := facade_run parse_url valid_headers settings gives_up x ops in f_sequence f <= MAX_SAFE_INTEGER -> routed f.
Proof.
  cbn zeta. change (routes (facade_run parse_url valid_headers settings gives_up x ops)). unfold facade_run.
  assert (routes (newFacade x)) as Hf.
  { intros _. split; cbn; [lia| |apply NoDup_nil_2| |]; try (intros m Hm; by apply not_elem_of_nil in Hm).
    - intros m h mg Hm. by apply not_elem_of_nil in Hm.
    - intros _ _ m Hm. by apply not_elem_of_nil in Hm. }
  revert Hf. generalize (newFacade x). induction ops as [|o ops IH]; intros f Hf; [done|]. by apply IH, keeps_step.
Qed.

(** ** Requests go through unchanged *)

Context (url_idempotent : forall s l, parse_url s = Some l -> parse_url (link_href l) = Some l).

Definition plain (r : result exn BufferedResponse) : result exn PlainResponse :=
  match r with Ok b => Ok (plainResponse b) | Throw e => Throw e end.
(** The outcome of a request in the thread of the caller; [received] is its result. *)
Definition arrives (r : result exn BufferedResponse) : result exn PlainResponse :=
  match r with Ok b => Ok (plainResponse b) | Throw e => Throw (ETransport (decoded (encodeError e))) end.
(** [tryRequest] of the asynchronous client makes its errors safe. *)
Definition safe (r : result exn BufferedResponse) : result exn BufferedResponse :=
  match r with Ok b => Ok b | Throw e => Throw (ETransport (safeError e localDiagnostics false)) end.
(** The client after a call that has led the worker into [x]. *)
Definition called (x : W) (f : Facade) : Facade :=
  with_worker {| world := x; sessions := sessions (worker f); sessionSequence := sessionSequence (worker f) |}
    (f_sequence f + 1) f.
(** An unknown exception of the worker ends the client. *)
Definition unless_unavailable (r : result exn BufferedResponse) (f : Facade) : Facade :=
  match r with
  | Ok _ => f
  | Throw e => let e := decoded (encodeError e) in if bool_decide (kind e = worker_unavailable) then fail_client e f else f
  end.

Lemma delivered_error e :
  well_formed (s_diagnostics (encodeError e)) -> delivered (Throw e) = Throw (ETransport (decoded (encodeError e))).
Proof. intros Hd. unfold delivered. by rewrite decodeError_js. Qed.
Lemma result_sent o : sendable o -> result_ (outcome_js (sent o)) = Ok (received o).
Proof.
  destruct o as [b|e]; cbn [sendable sent received]; intros Hs; unfold result_; change (object (outcome_js ?o)) with (@Ok exn _ (outcome_js o)); cbn [result_bind].
  - change (get _ "ok") with (JBool true). cbv iota. change (get _ "value") with (response_js b). by rewrite response_roundtrip.
  - change (get _ "ok") with (JBool false). cbv iota. change (get _ "error") with (serialized_js (encodeError e)).
    by rewrite decodeError_js.
Qed.
(** The client takes calls, and the bridge answers the next one. *)
Record open (f : Facade) : Prop := {
  op_closed : f_closed f = false;
  op_closing : f_closing f = false;
  op_answers : gives_up (f_sequence f + 1) = None }.
Lemma call_open o v f w d : open f -> dispatch o v (worker f) = (w, d) ->
  call o v f =
    let f' := with_worker w (f_sequence f + 1) f in
    match delivered d with
    | Throw (ETransport e) => (if bool_decide (kind e = worker_unavailable) then fail_client e f' else f', Throw (ETransport e))
    | d => (f', d)
    end.
Proof. intros [Hc Hg Ha] Hd. unfold Remote.call. by rewrite Hc, Hg, Hd, Ha. Qed.

(** What the worker answers to a session's command, and what the session object makes of it. *)
Definition session_answer (info : jsval) (r : result exn jsval) : jsval :=
  JObject [("info", info);
           ("result", match r with
                      | Ok v => JObject [("ok", JBool true); ("value", v)]
                      | Throw e => JObject [("ok", JBool false); ("error", serialized_js (encodeError e))]
                      end)].
Lemma answer_taken i o info r m (f : Facade) :
  o <> OpSessionClose -> remotes f !! i = Some m -> validateWire Validators.contextInfo info = true ->
  answered i o (session_answer info r) f = (set_remote i info (m_closing m) (m_closed m) m f, delivered r).
Proof.
  intros Ho Hi Hv. unfold answered, act_bind, act_of. rewrite (bool_decide_false (o = _)) by done. cbn [andb].
  change (object (session_answer ?i ?r)) with (@Ok exn _ (session_answer i r)). cbn iota beta.
  change (get (session_answer info ?r) "info") with info. unfold updateInfo, act_bind, act_of, wire. rewrite Hv.
  destruct r as [v|e]; cbn [delivered].
  - change (get (session_answer _ _) "result") with (JObject [("ok", JBool true); ("value", v)]).
    change (object (JObject ?l)) with (@Ok exn _ (JObject l)). cbn iota beta. by rewrite Hi.
  - change (get (session_answer _ _) "result") with (JObject [("ok", JBool false); ("error", serialized_js (encodeError e))]).
    change (object (JObject ?l)) with (@Ok exn _ (JObject l)). cbn iota beta. by rewrite Hi.
Qed.
Lemma session_reply_spec o m h mg input w :
  text (JStr (m_id m)) 128 = Ok (m_id m) -> assoc (m_id m) (sessions w) = Some (h, mg) ->
  session_reply parse_url valid_headers settings o (JObject [("id", JStr (m_id m)); ("value", input)]) w =
    let '(w', r) := session_dispatch parse_url valid_headers settings o h mg (m_id m) input w in
    (w', Ok (session_answer (s_info h (world w')) r)).
Proof.
  intros Hid Ho. unfold session_reply, act_bind, owned. change (object (JObject ?l)) with (@Ok exn _ (JObject l)).
  cbn [result_bind]. change (get (JObject _) "id") with (JStr (m_id m)). rewrite Hid. cbn [result_bind]. by rewrite Ho.
Qed.
(** One command of a session object that is open, at the session of the worker. *)
Lemma invoke_open i o m h mg input f w r :
  quiet o = true -> (forall v, dispatch o v = session_reply parse_url valid_headers settings o v) ->
  open f -> remotes f !! i = Some m -> m_closed m = false -> m_closing m = false ->
  text (JStr (m_id m)) 128 = Ok (m_id m) -> assoc (m_id m) (sessions (worker f)) = Some (h, mg) ->
  session_dispatch parse_url valid_headers settings o h mg (m_id m) input (worker f) = (w, r) ->
  validateWire Validators.contextInfo (s_info h (world w)) = true ->
  invoke i o input f =
    (set_remote i (s_info h (world w)) false false m (with_worker w (f_sequence f + 1) f), delivered r).
Proof.
  intros Hq Hd Ho Hi Hc Hg Hid Hown Hs Hv. unfold Remote.invoke, act_bind, invoke_call. rewrite Hi, Hc, Hg. cbn [orb andb].
  assert (o <> OpSessionClose) as Hne by (by intros ->). rewrite bool_decide_false by done. cbn [andb].
  pose proof (session_reply_spec o m h mg input (worker f) Hid Hown) as Hr. rewrite Hs, <- Hd in Hr.
  rewrite (call_open _ _ _ _ _ Ho Hr). cbn [delivered]. cbv zeta iota.
  rewrite (answer_taken i o _ _ m) by done. by rewrite Hc, Hg.
Qed.

(** C31: a request of the synchronous client ends as the request of the asynchronous
    client in the worker ends: the same response, or an error with the same code, phase
    and diagnostics, and [tryRequest] gives the same as a value.  The worker executes the
    request that the caller's thread has read from its options, and it executes it once.
    The client stays open, unless the worker met an exception that it does not know. *)
Theorem sync_request_crosses f options q x r :
  open f -> read_request options = Ok q -> fits (r_url (q_common q)) = true ->
  a_request q (world (worker f)) = (x, r) -> sendable (plain r) ->
  sync_request options f = (unless_unavailable r (called x f), arrives r) /\
  sync_tryRequest options f = (called x f, Ok (received (plain (safe r)))).
Proof.
  intros Ho Hq Hf Ha Hs. pose proof (request_again parse_url valid_headers url_idempotent _ _ _ Hq) as Hagain. rewrite Hf in Hagain.
  unfold Remote.sync_request, Remote.sync_tryRequest, act_catch, act_bind, act_of. cbn beta in Hq. rewrite Hq.
  assert (sendable (plain (safe r))) as Hsafe by (destruct r as [b|[]]; exact Hs).
  assert (dispatch OpRequest (request_js q) (worker f) =
    ({| world := x; sessions := sessions (worker f); sessionSequence := sessionSequence (worker f) |},
     match r with Ok b => Ok (response_js (plainResponse b)) | Throw e => Throw e end)) as H1.
  { cbn [Remote.dispatch]. unfold act_bind, act_of, perform. rewrite Hagain, Ha. by destruct r. }
  assert (dispatch OpTryRequest (request_js q) (worker f) =
    ({| world := x; sessions := sessions (worker f); sessionSequence := sessionSequence (worker f) |},
     Ok (outcome_js (sent (plain (safe r)))))) as H2.
  { cbn [Remote.dispatch]. unfold act_bind, act_of, perform. rewrite Hagain, Ha. by destruct r. }
  rewrite (call_open _ _ _ _ _ Ho H1), (call_open _ _ _ _ _ Ho H2). split.
  - destruct r as [b|e]; cbn [sendable plain] in Hs; [cbn [delivered]|rewrite delivered_error by done; done].
    by rewrite response_roundtrip.
  - cbn [delivered]. cbv zeta iota. by rewrite result_sent.
Qed.

Lemma session_request_dispatch h mg id q w x r :
  read_session_request (session_request_js q) = Ok q -> s_request h q (world w) = (x, r) ->
  let w' := {| world := x; sessions := sessions w; sessionSequence := sessionSequence w |} in
  let run o := session_dispatch parse_url valid_headers settings o h mg id (session_request_js q) w in
  run OpSessionRequest = (w', match r with Ok b => Ok (response_js (plainResponse b)) | Throw e => Throw e end) /\
  run OpSessionTryRequest = (w', Ok (outcome_js (sent (plain r)))).
Proof.
  cbn beta. intros Hq Ha. cbn zeta. unfold session_dispatch, act_catch, act_bind, act_of, perform. rewrite Hq, Ha. by destruct r.
Qed.

(** C30: in every program that uses the client, a session object of the calling thread
    speaks to the session of the worker it was created for, and to no other one: there is
    such a session [h] for each object, and a request of an object that is not closed is
    one request of [h]; its response, its error and the session's new state arrive at the
    caller.  The same holds for [tryRequest]. *)
Theorem session_object_own x0 ops i m :
  let f := facade_run parse_url valid_headers settings gives_up x0 ops in
  f_sequence f <= MAX_SAFE_INTEGER -> open f -> remotes f !! i = Some m -> m_closing m = false -> m_closed m = false ->
  exists h, m_session m = Some h /\
    (forall options q x r, read_session_request options = Ok q -> fits (r_url q) = true ->
       s_request h q (world (worker f)) = (x, r) -> sendable (plain r) ->
       validateWire Validators.contextInfo (s_info h x) = true ->
       let f' := set_remote i (s_info h x) false false m (called x f) in
       remote_request i options f = (f', arrives r) /\
       remote_tryRequest parse_url valid_headers settings gives_up i options f = (f', Ok (received (plain r)))).
Proof.
  intros f Hb Ho Hi Hg Hc. assert (routed f) as Hrt by by apply run_routed.
  pose proof (list_elem_of_lookup_2 _ _ _ Hi) as Hm.
  destruct (rt_present f Hrt (op_closing f Ho) (op_closed f Ho) m Hm Hg) as [[h mg] Hown].
  destruct (rt_own f Hrt m h mg Hm Hown) as [Hs _]. exists h. split; [done|].
  assert (text (JStr (m_id m)) 128 = Ok (m_id m)) as Hid by (destruct (rt_remote f Hrt m Hm) as (k & _ & ->); apply number_text).
  intros options q x r Hq Hf Ha Hsend Hv f'.
  pose proof (sessionRequest_again parse_url valid_headers url_idempotent _ _ _ Hq) as Hagain. rewrite Hf in Hagain.
  destruct (session_request_dispatch h mg (m_id m) q (worker f) x r Hagain Ha) as [H1 H2].
  cbn beta in Hq. unfold Remote.remote_request, remote_tryRequest, act_catch, act_bind, act_of. rewrite Hq.
  rewrite (invoke_open i OpSessionRequest m h mg _ f _ _ eq_refl (fun _ => eq_refl) Ho Hi Hc Hg Hid Hown H1 Hv).
  rewrite (invoke_open i OpSessionTryRequest m h mg _ f _ _ eq_refl (fun _ => eq_refl) Ho Hi Hc Hg Hid Hown H2 Hv).
  split.
  - destruct r as [b|e]; cbn [sendable plain] in Hsend; [cbn [delivered]|by rewrite delivered_error].
    by rewrite response_roundtrip.
  - cbn [delivered]. cbv zeta iota. by rewrite result_sent.
Qed.
End properties.

(** The step of [call] is the one the bridge makes of a packet while the worker runs. *)
Lemma bridge_delivers (c : Bridge.Call) d rest (b : Bridge) : flag b <> 2 ->
  receive_packet c (packet (k_id c) d) rest b =
    match delivered d with
    | Throw (ETransport e) =>
        if bool_decide (kind e = worker_unavailable) then fails c e rest b else settle c (Throw (ETransport e)) None rest b
    | r => settle c r None rest b
    end.
Proof.
  intros Hf%Z.eqb_neq. unfold receive_packet. destruct (packet_get (k_id c) d) as (Ho & _ & Hid & Hok & Hr).
  rewrite Ho, Hid, Z.eqb_refl, Hok. cbn [negb]. destruct d as [v|e]; rewrite Hr; [done|]. unfold delivered.
  destruct (decodeError (serialized_js (encodeError e))) as [t|t] eqn:E.
  - rewrite Hf, orb_false_r. done.
  - destruct (boundary_error _ _ E) as [->| ->]; done.
Qed.

(** ** A demonstration client: sessions are numbered, and requests of sessions are logged *)

Definition demo_response : BufferedResponse := {|
  Buffering.status := 204; response_headers := [("x-a", ["1"; "2"])]; response_body := []; Buffering.elapsed := 3;
  response_diagnostics := demo_diagnostics; response_references := None |}.
Definition demo_session_info (h : nat) (x : nat * list nat) : jsval := JObject
  [("contextId", JStr "c"); ("partition", JStr "p"); ("expiresAtMs", jint 9); ("revision", jint (zlength x.2));
   ("cookieMode", JStr "external");
   ("identity", JObject [("tlsProfile", JStr "chrome_131"); ("emulateHeaders", JBool true)])].
Definition nothing {A : Type} : act (nat * list nat) A := fun x => (x, Throw ETypeError).
Definition done_nothing : act (nat * list nat) unit := fun x => (x, Ok tt).
#[local] Instance demo_async : AsyncClient (nat * list nat) := {|
  a_request _ := fun x => (x, Ok demo_response);
  a_batch _ _ _ := nothing; a_capabilities := nothing; a_status _ _ := nothing; a_cancel _ _ := nothing;
  a_createSession _ := fun '(n, log) => ((S n, log), Ok n);
  a_close _ := done_nothing;
  s_info := demo_session_info;
  s_request h _ := fun '(n, log) => ((n, log ++ [h]), Ok demo_response);
  s_close _ _ := done_nothing;
  s_getCookies _ _ := nothing; s_setCookies _ _ _ := nothing; s_exportCookies _ := nothing;
  s_importCookies _ _ := nothing; s_rebind _ _ := nothing |}.
Definition demo_get : jsval := JObject [("url", JStr "http://a"); ("method", JStr "GET")].
Definition demo_session_options : jsval := JObject
  [("partition", JStr "p"); ("cookieMode", JStr "external");
   ("connection", JObject [("egress", JObject [("mode", JStr "direct")]);
                           ("identity", JObject [("tlsProfile", JStr "chrome_131"); ("emulateHeaders", JBool true)])])].
Definition demo_request : jsval := JObject
  [("url", JStr "http://a"); ("method", JStr "GET"); ("partition", JStr "p"); ("contextId", JStr "c")].
(** Two sessions; the first one is closed. *)
Definition demo_ops : list facade_op :=
  [DoCreateSession demo_session_options; DoCreateSession demo_session_options; DoSessionClose 0 JUndefined].
Definition demo_facade : Facade (W := nat * list nat) :=
  facade_run demo_url (fun _ => true) demo_config (fun _ => None) (0%nat, []) demo_ops.
Definition demo_q : SessionRequest := {|
  r_url := "http://a/"; r_method := "GET"; r_headers := None; r_body := None; r_timeoutMs := None;
  r_maxResponseBytes := None; r_attempt := None; r_requestId := None |}.

Lemma demo_deliverable : deliverable (plainResponse demo_response).
Proof. split; cbn; [lia | apply NoDup_singleton | done | apply demo_well_formed]. Qed.
Lemma sync_request_crosses_witness :
  sync_request demo_url (fun _ => true) demo_config (fun _ => None) demo_request demo_facade = (called (2%nat, []) demo_facade, Ok (plainResponse demo_response)) /\
  sync_tryRequest demo_url (fun _ => true) demo_config (fun _ => None) demo_request demo_facade = (called (2%nat, []) demo_facade, Ok (Ok (plainResponse demo_response))).
Proof.
  apply (sync_request_crosses demo_url (fun _ => true) demo_config (fun _ => None) demo_url_idempotent demo_facade
    demo_request {| q_common := demo_q; q_partition := "p"; q_target := ToContext "c" |} (2%nat, []) (Ok demo_response)).
  - split; vm_compute; reflexivity.
  - vm_compute. reflexivity.
  - vm_compute. reflexivity.
  - vm_compute. reflexivity.
  - exact demo_deliverable.
Defined.
Lemma session_object_own_witness :
  exists h, h = 1%nat /\ remote_request demo_url (fun _ => true) demo_config (fun _ => None) 1 demo_get demo_facade =
    (set_remote 1 (demo_session_info h (2%nat, [h])) false false
      {| m_id := "2"; m_managed := false; m_info := demo_session_info h (2%nat, []); m_closing := false; m_closed := false;
         m_session := Some h |} (called (2%nat, [h]) demo_facade),
     Ok (plainResponse demo_response)).
Proof.
  destruct (session_object_own demo_url (fun _ => true) demo_config (fun _ => None) demo_url_idempotent (0%nat, []) demo_ops 1
    {| m_id := "2"; m_managed := false; m_info := demo_session_info 1 (2%nat, []); m_closing := false; m_closed := false;
       m_session := Some 1%nat |}) as (h & Hh & Hr).
  - vm_compute. discriminate.
  - split; vm_compute; reflexivity.
  - vm_compute. reflexivity.
  - reflexivity.
  - reflexivity.
  - cbn in Hh. injection Hh as <-. exists 1%nat. split; [reflexivity|].
    refine (proj1 (Hr demo_get demo_q (2%nat, [1%nat]) (Ok demo_response) _ _ _ _ _));
      [vm_compute; reflexivity | vm_compute; reflexivity | vm_compute; reflexivity | exact demo_deliverable
      | vm_compute; reflexivity].
Defined.
