(* ===== verification/Script.v ===== *)
(** * Scripts that talk to services

    A script asks the host and other services for things, one at a time, and goes on with
    the answers.  What it may ask depends on what it has learned: [allowed] says so of a
    history of questions and answers, and [wp] is the weakest precondition of a script that
    asks only what is allowed.  A script may be killed at any time, also while it waits. *)

From S2P Require Import Prelude Js Errors.

Section script.
Context {Q R : Type}.

Inductive script (A : Type) : Type :=
| Done (r : result exn A)
| Ask (q : Q) (k : R -> script A).
Arguments Done {A} r.
Arguments Ask {A} q k.

Fixpoint script_bind {A B : Type} (m : script A) (k : A -> script B) : script B :=
  match m with
  | Done (Ok a) => k a
  | Done (Throw e) => Done (Throw e)
  | Ask q next => Ask q (fun r => script_bind (next r) k)
  end.
(** [try { return m } catch (e) { return h(e) }] *)
Fixpoint script_catch {A : Type} (m : script A) (h : exn -> script A) : script A :=
  match m with
  | Done (Ok a) => Done (Ok a)
  | Done (Throw e) => h e
  | Ask q next => Ask q (fun r => script_catch (next r) h)
  end.
Definition ask (q : Q) : script R := Ask q (fun r => Done (Ok r)).
Definition ret {A : Type} (r : result exn A) : script A := Done r.
(** An assertion. *)
Definition check (b : bool) : script unit := ret (if b then Ok tt else Throw EOther).

(** A question, and the answer if the script has lived to see it. *)
Notation step := (Q * option R)%type.
Inductive trace {A : Type} : script A -> list step -> option (result exn A) -> Prop :=
| trace_killed m : trace m [] None
| trace_waits q k : trace (Ask q k) [(q, None)] None
| trace_done r : trace (Done r) [] (Some r)
| trace_answer q k r l o : trace (k r) l o -> trace (Ask q k) ((q, Some r) :: l) o.

(** The run of a script against a host that is a function of the history. *)
Fixpoint play {A : Type} (host : list step -> Q -> R) (m : script A) (h : list step) : list step * result exn A :=
  match m with
  | Done r => ([], r)
  | Ask q k => let r := host h q in let '(l, o) := play host (k r) (h ++ [(q, Some r)]) in ((q, Some r) :: l, o)
  end.
Lemma play_trace {A : Type} host (m : script A) h : trace m (fst (play host m h)) (Some (snd (play host m h))).
Proof.
  revert h. induction m as [r|q k IH]; intros h; cbn; [constructor|].
  specialize (IH (host h q) (h ++ [(q, Some (host h q))])). destruct (play _ _ _). by constructor.
Qed.

Section wp.
Context (allowed : list step -> Q -> Prop).

Fixpoint wp {A : Type} (m : script A) (post : A -> list step -> Prop) (h : list step) : Prop :=
  match m with
  | Done (Ok a) => post a h
  | Done (Throw _) => True
  | Ask q k => allowed h q /\ forall r, wp (k r) post (h ++ [(q, Some r)])
  end.

Lemma wp_mono {A : Type} (m : script A) (post post' : A -> list step -> Prop) h :
  (forall a h', post a h' -> post' a h') -> wp m post h -> wp m post' h.
Proof.
  intros Hp. revert h. induction m as [[a|e]|q k IH]; intros h; cbn; [apply Hp|done|]. intros [Ha Hk].
  split; [done|]. intros r. by apply IH.
Qed.
Lemma wp_bind {A B : Type} (m : script A) (k : A -> script B) post h :
  wp m (fun a => wp (k a) post) h -> wp (script_bind m k) post h.
Proof.
  revert h. induction m as [[a|e]|q next IH]; intros h; cbn; [done..|]. intros [Ha Hk].
  split; [done|]. intros r. by apply IH.
Qed.
Lemma wp_of {A : Type} (r : result exn A) (post : A -> list step -> Prop) h :
  (forall a, r = Ok a -> post a h) -> wp (Done r) post h.
Proof. intros H. destruct r as [a|e]; [by apply H|done]. Qed.
Lemma wp_ret {A : Type} (r : result exn A) (post : A -> list step -> Prop) h :
  (forall a, r = Ok a -> post a h) -> wp (ret r) post h.
Proof. apply wp_of. Qed.
Lemma wp_check b (post : unit -> list step -> Prop) h : (b = true -> post tt h) -> wp (check b) post h.
Proof. intros H. destruct b; [by apply H|done]. Qed.
Lemma wp_ask q post h : allowed h q -> (forall r, post r (h ++ [(q, Some r)])) -> wp (ask q) post h.
Proof. done. Qed.

(** Whatever happens, a script asks only what is allowed, and one that ends has what it promises. *)
Lemma wp_sound {A : Type} (m : script A) post h l o :
  wp m post h -> trace m l o ->
  (forall before q r after, l = before ++ (q, r) :: after -> allowed (h ++ before) q) /\
  (forall a, o = Some (Ok a) -> post a (h ++ l)).
Proof.
  intros Hw Ht. revert h Hw. induction Ht as [m|q k|r|q k r l o _ IH]; intros h Hw.
  - split; [|done]. by intros [] ? ? ? [=].
  - destruct Hw as [Ha _]. split; [|done]. intros [|? before] q' r' after [=]; [by rewrite app_nil_r; subst|by destruct before].
  - split; [by intros [] ? ? ? [=]|]. intros a [= ->]. by rewrite app_nil_r.
  - destruct Hw as [Ha Hk]. destruct (IH _ (Hk r)) as [H1 H2]. split.
    + intros [|s before] q' r' after E; [injection E as <- <- <-; by rewrite app_nil_r|]. injection E as <- E.
      specialize (H1 before q' r' after E). by rewrite <- app_assoc in H1.
    + intros a Ha'. specialize (H2 a Ha'). by rewrite <- app_assoc in H2.
Qed.
End wp.

(** Without anything forbidden and anything promised. *)
Lemma wp_any {A : Type} (m : script A) h : wp (fun _ _ => True) m (fun _ _ => True) h.
Proof. revert h. induction m as [[a|e]|q k IH]; intros h; [done..|]. split; [done|]. intros r. apply IH. Qed.

(** ** Reading

    Some questions change nothing. *)
Section reading.
Context (reading : Q -> bool).
(** The later history has only read. *)
Definition read_on (h h' : list step) : Prop := exists l, h' = h ++ l /\ Forall (fun s => reading s.1 = true) l.
(** The steps of a history that may have changed something. *)
Definition writes (h : list step) : list step := List.filter (fun s => negb (reading s.1)) h.

Lemma read_on_refl h : read_on h h.
Proof. exists []. by rewrite app_nil_r. Qed.
Lemma read_on_trans h h' h'' : read_on h h' -> read_on h' h'' -> read_on h h''.
Proof. intros (l & -> & Hl) (k & -> & Hk). exists (l ++ k). rewrite app_assoc. split; [done|]. by apply Forall_app. Qed.
Lemma read_on_one h q a : reading q = true -> read_on h (h ++ [(q, a)]).
Proof. intros H. exists [(q, a)]. split; [done|]. by repeat constructor. Qed.
Lemma read_on_subset h h' : read_on h h' -> h ⊆ h'.
Proof. intros (l & -> & _). set_solver. Qed.
Lemma writes_app h h' : writes (h ++ h') = writes h ++ writes h'.
Proof. apply List.filter_app. Qed.
Lemma read_on_writes h h' : read_on h h' -> writes h' = writes h.
Proof.
  intros (l & -> & Hl). rewrite writes_app. replace (writes l) with (@nil step); [apply app_nil_r|].
  induction Hl as [|s l Hs _ IH]; [done|]. unfold writes. cbn [List.filter]. by rewrite Hs.
Qed.
Lemma wp_ask_read allowed q (post : R -> list step -> Prop) h :
  (forall h q, reading q = true -> allowed h q) -> reading q = true ->
  (forall a h', read_on h h' -> (q, Some a) ∈ h' -> post a h') -> wp allowed (ask q) post h.
Proof.
  intros Hr Hq H. apply wp_ask; [by apply Hr|]. intros a. apply H; [by apply read_on_one|set_solver].
Qed.
End reading.
End script.
Arguments script Q R A : clear implicits.
Arguments Done {Q R A} r.
Arguments Ask {Q R A} q k.
Notation "'let$' x ':=' m 'in' k" := (script_bind m (fun x => k))
  (at level 10, x pattern, m at level 100, k at level 200) : ts_scope.
