(* ===== verification/Release.v ===== *)
(** * Planning a release (packages/typescript/scripts/prepare-release.mjs, release-tools.mjs)

    Version numbers and their increments, the files a release changes, and the commit
    that a release is made from.  [git] is the host's and a parameter: its arguments in, its output
    or an exception out.  A failed assertion is an exception. *)

From S2P Require Import Prelude Js Errors Service.

Local Open Scope js_scope.

Definition assert (b : bool) : result exn unit := if b then Ok tt else Throw EOther.

(** ** Strings *)

(** [s + t] and [parts.join('')] *)
Definition append (s t : jsstr) : jsstr := JsStr (units s ++ units t).
Definition text_of (parts : list jsstr) : jsstr := JsStr (concat (map units parts)).
(** [v.key], which throws where [v] is not there. *)
Definition prop (v : jsval) (key : jsstr) : result exn jsval :=
  match v with JUndefined | JNull => Throw ETypeError | _ => Ok (get v key) end.
(** [Object.is], where an object of one answer is never one of another. *)
Definition same_value (a b : jsval) : bool :=
  match a, b with
  | JUndefined, JUndefined | JNull, JNull => true
  | JBool x, JBool y => Bool.eqb x y
  | JNum x, JNum y => bool_decide (x = y)
  | JStr x, JStr y => js_eqb x y
  | _, _ => false
  end.
(** [`${v}`] of the values that occur: texts and the numbers of GitHub's objects. *)
Definition template (v : jsval) : jsstr :=
  match v with
  | JStr s => s
  | JNum (NInt z) => if z <? 0 then append "-" (number_string (- z)) else number_string z
  | JNull => "null"
  | JBool b => if b then "true" else "false"
  | JUndefined => "undefined"
  | _ => "[object Object]"
  end.
(** [s.split(c)] for one code unit. *)
Fixpoint split_on (c : N) (l : list N) : list (list N) :=
  match l with
  | [] => [[]]
  | x :: l =>
      if N.eqb x c then [] :: split_on c l
      else match split_on c l with part :: parts => (x :: part) :: parts | [] => [[x]] end
  end.
(** [parts.join(c)] for one code unit. *)
Fixpoint join_with (c : N) (parts : list (list N)) : list N :=
  match parts with
  | [] => []
  | [part] => part
  | part :: parts => part ++ c :: join_with c parts
  end.
Fixpoint starts_with (prefix l : list N) : bool :=
  match prefix, l with
  | [], _ => true
  | x :: prefix, y :: l => N.eqb x y && starts_with prefix l
  | _ :: _, [] => false
  end.
(** [s.indexOf(t)] *)
Fixpoint index_of (needle l : list N) : option nat :=
  if starts_with needle l then Some O
  else match l with [] => None | _ :: l => S <$> index_of needle l end.
Definition includes_text (s t : jsstr) : bool := match index_of (units t) (units s) with Some _ => true | None => false end.

(** ** Versions *)

(** A component: zero, or digits without a leading zero. *)
Definition component (l : list N) : bool :=
  match l with
  | [] => false
  | [48%N] => true
  | c :: l => between 49 57 c && forallb is_digit l
  end.
Definition dot : N := 46.
(** [stableVersion.test(s)] *)
Definition stableVersion (s : jsstr) : bool :=
  match split_on dot (units s) with
  | [a; b; c] => component a && component b && component c
  | _ => false
  end.
(** [version.split('.').map(Number)] of components that are below 2^53; any other is not a
    safe integer, whatever it is rounded to. *)
Definition version_parts (s : jsstr) : list Z := map (fun l => number_value l 0) (split_on dot (units s)).
Definition print_parts (parts : list Z) : jsstr := JsStr (join_with dot (map (fun z => units (number_string z)) parts)).

Definition bump_index (bump : jsval) : option nat :=
  if is_str bump "major" then Some 0%nat
  else if is_str bump "minor" then Some 1%nat
  else if is_str bump "patch" then Some 2%nat
  else None.
(** The selected part is incremented, and all that follow are reset. *)
Definition increment (index : nat) (parts : list Z) : list Z :=
  take index parts ++ (default 0 (parts !! index) + 1) :: repeat 0 (length parts - index - 1).
Definition bumpVersion (version bump : jsval) : result exn jsstr :=
  match version with
  | JStr v =>
      let? _ := assert (stableVersion v) in
      match bump_index bump with
      | None => Throw EOther
      | Some index =>
          let parts := version_parts v in
          let? _ := assert (forallb (fun z => z <=? MAX_SAFE_INTEGER) parts) in
          let? _ := assert (default 0 (parts !! index) <? MAX_SAFE_INTEGER) in
          Ok (print_parts (increment index parts))
      end
  | _ => Throw EOther
  end.

(** ** Comparing values *)

(** [assert.deepEqual] of strict mode, on plain data. *)
Fixpoint deepEqual (a b : jsval) {struct a} : bool :=
  match a, b with
  | JUndefined, JUndefined | JNull, JNull => true
  | JBool x, JBool y => Bool.eqb x y
  | JNum x, JNum y => bool_decide (x = y)
  | JStr x, JStr y => js_eqb x y
  | JArray l, JArray k =>
      (fix go (l k : list jsval) : bool :=
        match l, k with
        | [], [] => true
        | x :: l, y :: k => deepEqual x y && go l k
        | _, _ => false
        end) l k
  | JObject l, JObject k =>
      Nat.eqb (length l) (length k) &&
      forallb (fun field => match assoc field.1 k with Some y => deepEqual field.2 y | None => false end) l
  | _, _ => false
  end.

(** ** The files of a release *)

(** The repository that every script works on. *)
Definition repository : jsstr := "sellaro-net/ja3proxy".
Definition repositoryUrl : jsstr := "https://github.com/sellaro-net/ja3proxy".
Definition manifestPath : jsstr := "packages/typescript/package.json".
Definition changelogPath : jsstr := "packages/typescript/CHANGELOG.md".
Definition packageName : jsstr := "@sellaro/ja3proxy".
Definition sourcePaths : list jsstr :=
  ["packages/typescript"; "contracts"; "README.md"; "src/contracts.rs"; "src/models.rs"; "src/protocol.rs"; "src/error.rs";
   "src/handlers.rs"; "src/validation.rs"; "src/contexts.rs"; "src/contexts"; "src/auth.rs";
   ":(exclude)packages/typescript/CHANGELOG.md"; ":(exclude)packages/typescript/scripts/*release*.mjs";
   ":(exclude)packages/typescript/test/release.test.mjs"].
Definition newline : jsstr := JsStr [10%N].
Definition quote : jsstr := JsStr [34%N].
(** The regular expression of a commit. *)
Definition is_sha (s : jsstr) : bool := class_test (fun c => is_digit c || between 97 102 c) 40 40 s.
Definition trimmed (s : jsstr) : jsstr := JsStr (trim (units s)).
Definition escapeMarkdown (s : jsstr) : jsstr :=
  let blank c := if N.ltb c 32 || N.eqb c 127 then 32%N else c in
  let special c := bool_decide (c ∈ units "\`*_{}[]()<>!#|") in
  JsStr (concat (map (fun c => if special c then [92%N; c] else [c]) (map blank (units s)))).

(** The first field named version at the start of a line: the text before its value and
    the text after it. *)
Fixpoint span (p : N -> bool) (l : list N) : list N * list N :=
  match l with
  | c :: l' => if p c then let '(a, b) := span p l' in (c :: a, b) else ([], l)
  | [] => ([], [])
  end.
Definition version_field (l : list N) : option (list N * list N) :=
  let '(indent, l) := span space_unit l in
  let name := units (text_of [quote; "version"; quote]) in
  if starts_with name l then
    let '(gap, l) := span space_unit (drop (length name) l) in
    match l with
    | 58%N :: l =>
        let '(gap', l) := span space_unit l in
        match l with
        | 34%N :: l =>
            let '(_, l) := span (fun c => negb (N.eqb c 34)) l in
            match l with
            | 34%N :: l => Some (indent ++ name ++ gap ++ 58%N :: gap', l)
            | _ => None
            end
        | _ => None
        end
    | _ => None
    end
  else None.
Definition line_end (c : N) : bool := bool_decide (c ∈ [10; 13; 8232; 8233]%N).
Fixpoint replace_version (version : list N) (line_start : bool) (l : list N) : list N :=
  match (if line_start then version_field l else None) with
  | Some (prefix, rest) => prefix ++ 34%N :: version ++ 34%N :: rest
  | None => match l with [] => [] | c :: l => c :: replace_version version (line_end c) l end
  end.

Record Plan := {
  ready : bool; previousVersion : jsstr; p_version : jsstr; sourceSha : jsstr; previousTag : jsstr; branch : jsstr;
  notes : jsstr; sourceComparison : jsstr; files : list (jsstr * jsstr) }.

Section git.
Context (git : list jsstr -> result exn jsstr) (parseJson : jsstr -> result exn jsval).

Definition show (sha path : jsstr) : result exn jsstr := git ["show"; text_of [sha; ":"; path]].
(** [git rev-parse --verify name] *)
Definition commit_of (name : jsstr) : result exn jsstr := let? out := git ["rev-parse"; "--verify"; name] in Ok (trimmed out).
(** The changelog entries of [sha\0subject\0...]. *)
Fixpoint changelog_entries (history : list (list N)) : result exn (list jsstr) :=
  match history with
  | sha :: subject :: history =>
      let sha := trimmed (JsStr sha) in
      let? _ := assert (is_sha sha) in
      let? entries := changelog_entries history in
      Ok (text_of ["- "; escapeMarkdown (JsStr subject); " (["; JsStr (take 7 (units sha)); "]("; repositoryUrl; "/commit/"; sha; "))"]
          :: entries)
  | _ => Ok []
  end.
Definition heading (version : jsstr) : jsstr := text_of ["## ["; version; "]("].
(** The end of the text before the first release. *)
Definition release_start : list N := units (text_of [newline; "## ["]).

Definition planRelease (bump expectedVersion sourceSha : jsval) : result exn Plan :=
  match sourceSha with
  | JStr sha =>
      let? _ := assert (is_sha sha) in
      let? found := commit_of (append sha "^{commit}") in
      let? _ := assert (js_eqb found sha) in
      let? manifestText := show sha manifestPath in
      let? manifest := parseJson manifestText in
      let? _ := assert (is_str (get manifest "name") packageName) in
      let? _ := assert (match get manifest "private" with JBool true => true | _ => false end) in
      let? _ := assert (is_str (get manifest "license") "MIT") in
      let? _ := assert (deepEqual (get manifest "version") expectedVersion) in
      let? version := bumpVersion (get manifest "version") bump in
      let old := match get manifest "version" with JStr s => s | _ => "" end in
      let tag := append "sdk-v" old in
      let? previousSha := commit_of (text_of ["refs/tags/"; tag; "^{commit}"]) in
      let? _ := git ["merge-base"; "--is-ancestor"; previousSha; sha] in
      let? previousText := show previousSha manifestPath in
      let? previous := parseJson previousText in
      let? _ := assert (is_str (get previous "name") packageName) in
      let? _ := assert (is_str (get previous "version") old) in
      let result := {| ready := false; previousVersion := old; p_version := version; sourceSha := sha; previousTag := tag;
        branch := append "release/sdk-" version; notes := ""; sourceComparison := ""; files := [] |} in
      let? changed := git (["diff"; "--name-only"; previousSha; sha; "--"] ++ sourcePaths) in
      if Nat.eqb (length (units (trimmed changed))) 0 then Ok result
      else
        let? log := git (["log"; "--first-parent"; "--format=%H%x00%s%x00"; text_of [previousSha; ".."; sha]; "--"] ++ sourcePaths) in
        let? entries := changelog_entries (split_on 0 (units (trimmed log))) in
        let? _ := assert (negb (Nat.eqb (length entries) 0)) in
        let comparison := text_of [repositoryUrl; "/compare/"; tag; "...sdk-v"; version] in
        let sourceComparison := text_of [repositoryUrl; "/compare/"; tag; "..."; sha] in
        let notes := text_of [heading version; comparison; ")"; newline; newline; JsStr (join_with 10 (map units entries)); newline;
                              newline; "[Reviewed source changes]("; sourceComparison; ")"; newline] in
        let? changelog := show sha changelogPath in
        let? _ := assert (starts_with (units (append "# Changelog" newline)) (units changelog)) in
        let? _ := assert (includes_text changelog (heading old)) in
        let? _ := assert (negb (includes_text changelog (heading version))) in
        match index_of release_start (units changelog) with
        | None => Throw EOther
        | Some first =>
            let next := JsStr (replace_version (units version) true (units manifestText)) in
            let? again := parseJson next in
            let? _ := assert (deepEqual again (spread_set manifest "version" (JStr version))) in
            Ok {| ready := true; previousVersion := old; p_version := version; Release.sourceSha := sha; previousTag := tag;
                  branch := append "release/sdk-" version; notes := notes; Release.sourceComparison := sourceComparison;
                  files := [(manifestPath, next);
                            (changelogPath, text_of [JsStr (take first (units changelog)); newline; notes;
                                                     JsStr (drop first (units changelog))])] |}
        end
  | _ => Throw EOther
  end.

(** The files of a checkout, by their paths. *)
Fixpoint unchanged_files (sha : jsstr) (checkout planned : list (jsstr * jsstr)) : result exn unit :=
  match planned with
  | [] => Ok tt
  | (path, _) :: planned =>
      match assoc path checkout with
      | Some text =>
          let? source := show sha path in
          let? _ := assert (js_eqb text source) in unchanged_files sha checkout planned
      | None => Throw EOther
      end
  end.
Definition write_all (checkout planned : list (jsstr * jsstr)) : list (jsstr * jsstr) :=
  foldl (fun files file => assoc_set file.1 file.2 files) checkout planned.
Definition writeRelease (plan : Plan) (checkout : list (jsstr * jsstr)) : result exn (list (jsstr * jsstr)) :=
  if negb (ready plan) then Ok checkout
  else
    let? head := git ["rev-parse"; "HEAD"] in
    let? _ := assert (js_eqb (trimmed head) (sourceSha plan)) in
    let? status := git ["status"; "--porcelain"; "--untracked-files=normal"] in
    let? _ := assert (js_eqb (trimmed status) "") in
    let? _ := unchanged_files (sourceSha plan) checkout (files plan) in
    Ok (write_all checkout (files plan)).
(** The script itself: what it prints, and the checkout it leaves. *)
Definition prepare_release (env : jsstr -> jsval) (arguments : list jsstr) (checkout : list (jsstr * jsstr))
    : result exn (Plan * list (jsstr * jsstr)) :=
  let? _ := assert (forallb (fun argument => js_eqb argument "--write") arguments) in
  let? plan := planRelease (env "SDK_RELEASE_BUMP") (env "SDK_RELEASE_EXPECTED_VERSION") (env "SDK_RELEASE_SOURCE_SHA") in
  let? checkout := if js_includes arguments "--write" then writeRelease plan checkout else Ok checkout in
  Ok (plan, checkout).
End git.

(** ** The commit of a release (release-tools.mjs) *)

Record Identity := { i_version : jsstr; i_tag : jsstr; i_source : jsstr; i_tagged : bool; i_filename : jsstr }.

Section identity.
Context (runGit : list jsstr -> result exn jsstr) (parseJson : jsstr -> result exn jsval).

Definition sourceManifest (sha : jsstr) : result exn jsval :=
  let? _ := assert (is_sha sha) in
  let? text := runGit ["show"; text_of [sha; ":"; manifestPath]] in parseJson text.
(** The loop over the commits that changed the manifest, the latest first. *)
Fixpoint source_walk (version : jsstr) (commits : list jsstr) (source : option jsstr) : result exn (option jsstr) :=
  match commits with
  | [] => Ok source
  | sha :: commits =>
      let? value := sourceManifest sha in
      if is_str (get value "version") version then source_walk version commits (Some sha)
      else match source with Some _ => Ok source | None => source_walk version commits None end
  end.
Definition manifest_commits (eventSha : jsstr) : result exn (list jsstr) :=
  let? log := runGit ["log"; "--first-parent"; "--format=%H"; eventSha; "--"; manifestPath] in
  Ok (map JsStr (List.filter (fun l => negb (Nat.eqb (length l) 0)) (split_on 10 (units log)))).
Definition resolveIdentity (eventSha requestedVersion : jsstr) : result exn Identity :=
  let? current := sourceManifest eventSha in
  match (if Nat.eqb (length (units requestedVersion)) 0 then get current "version" else JStr requestedVersion) with
  | JStr version =>
      let? _ := assert (stableVersion version) in
      let tag := append "sdk-v" version in
      let? listed := runGit ["tag"; "--list"; tag] in
      let tagged := js_eqb listed tag in
      let? source :=
        if tagged then
          let? source := runGit ["rev-parse"; append tag "^{commit}"] in
          let? _ := runGit ["merge-base"; "--is-ancestor"; source; eventSha] in Ok source
        else
          let? commits := manifest_commits eventSha in
          let? source := source_walk version commits None in
          match source with Some source => Ok source | None => Throw EOther end in
      let? value := sourceManifest source in
      let? _ := assert (is_str (get value "name") packageName) in
      let? _ := assert (is_str (get value "version") version) in
      let? _ := assert (match get value "private" with JBool true => true | _ => false end) in
      let? _ := assert (is_str (get value "license") "MIT") in
      Ok {| i_version := version; i_tag := tag; i_source := source; i_tagged := tagged;
            i_filename := text_of ["sellaro-ja3proxy-"; version; ".tgz"] |}
  | _ => Throw EOther
  end.
End identity.

(** ** Versions are read as they are printed *)

Lemma split_join c parts :
  parts <> [] -> Forall (fun l => c ∉ l) parts -> split_on c (join_with c parts) = parts.
Proof.
  intros Hne H. destruct parts as [|part parts]; [done|]. clear Hne. revert part H.
  induction parts as [|part' parts IH]; intros part [Hp H]%Forall_cons; cbn [join_with].
  - clear H. induction part as [|x part IHp]; [done|]. apply not_elem_of_cons in Hp as [Hx Hp]. cbn.
    destruct (N.eqb_spec x c); [by subst|]. by rewrite IHp.
  - specialize (IH part' H). induction part as [|x part IHp]; cbn [app split_on].
    + rewrite N.eqb_refl. by f_equal.
    + apply not_elem_of_cons in Hp as [Hx Hp]. destruct (N.eqb_spec x c); [by subst|].
      by rewrite IHp.
Qed.
Lemma join_split c l : join_with c (split_on c l) = l /\ split_on c l <> [].
Proof.
  induction l as [|x l [IH Hne]]; [done|]. cbn. destruct (N.eqb_spec x c) as [->|].
  - split; [|done]. destruct (split_on c l) as [|p ps]; [done|]. cbn in *. by rewrite IH.
  - destruct (split_on c l) as [|p ps]; [done|]. split; [|done]. cbn in *. destruct ps; cbn in *; by rewrite <- IH.
Qed.
Lemma digit_between z : 0 <= z < 10 -> is_digit (Z.to_N (48 + z)) = true.
Proof. intros Hz. unfold is_digit, between. apply andb_true_intro. split; apply N.leb_le; lia. Qed.
Lemma digits_lead fuel z : (0 < fuel)%nat -> 0 <= z < 10 ^ Z.of_nat fuel ->
  exists c rest, digits fuel z [] = c :: rest /\ forallb is_digit rest = true /\
    ((z = 0 /\ c = 48%N /\ rest = []) \/ (0 < z /\ between 49 57 c = true)).
Proof.
  revert z. induction fuel as [|fuel IH]; intros z Hf Hz; [lia|]. clear Hf. cbn [digits].
  destruct (Z.ltb_spec z 10) as [Hlt|Hge].
  - exists (Z.to_N (48 + z mod 10)), []. rewrite Z.mod_small by lia. split_and!; [done..|].
    destruct (Z.eq_dec z 0) as [->|]; [by left|right]. split; [lia|]. unfold between.
    apply andb_true_intro. split; apply N.leb_le; lia.
  - rewrite Nat2Z.inj_succ, Z.pow_succ_r in Hz by lia.
    assert (0 < z / 10 < 10 ^ Z.of_nat fuel) as Hq
      by (split; [apply Z.div_str_pos; lia|apply Z.div_lt_upper_bound; lia]).
    destruct (IH (z / 10)) as (c & rest & E & Hr & [[? _]|[_ Hc]]); [destruct fuel; [cbn in Hq|]; lia|lia|lia|].
    rewrite digits_app, E. exists c, (rest ++ [Z.to_N (48 + z mod 10)]). split_and!; [done| |right; split; [lia|done]].
    rewrite forallb_app, Hr. cbn. by rewrite digit_between by (apply Z.mod_pos_bound; lia).
Qed.
(** Numbers that are printed without rounding. *)
Definition safe (z : Z) : Prop := 0 <= z <= MAX_SAFE_INTEGER.
Lemma number_component z : safe z ->
  component (units (number_string z)) = true /\ number_value (units (number_string z)) 0 = z /\ dot ∉ units (number_string z).
Proof.
  intros [H0 H1]. assert (0 <= z < 10 ^ Z.of_nat 17) as Hz by (unfold MAX_SAFE_INTEGER in H1; lia).
  unfold number_string. cbn [units]. split_and!; [|by apply digits_value|].
  - destruct (digits_lead 17 z) as (c & rest & -> & Hr & Hc); [lia|done|]. destruct Hc as [(_ & -> & ->)|[_ Hc]]; [done|].
    assert (c <> 48%N) by (intros ->; done). unfold component. rewrite Hc, Hr. cbn [andb]. clear -Hc H. by repeat case_match.
  - destruct (digits_lead 17 z) as (c & rest & -> & Hr & Hc); [lia|done|]. intros [<-|Hin]%elem_of_cons.
    + destruct Hc as [(_ & [=] & _)|[_ [=]]].
    + rewrite forallb_forall in Hr. apply list_elem_of_In, Hr in Hin. done.
Qed.
Lemma print_parts_read parts : parts <> [] -> Forall safe parts ->
  split_on dot (units (print_parts parts)) = map (fun z => units (number_string z)) parts /\
  version_parts (print_parts parts) = parts.
Proof.
  intros Hne Hs. assert (split_on dot (units (print_parts parts)) = map (fun z => units (number_string z)) parts) as E.
  { apply split_join; [by destruct parts|]. apply Forall_map. eapply Forall_impl; [exact Hs|]. intros z Hz. by apply number_component. }
  split; [done|]. unfold version_parts. rewrite E, map_map. clear -Hs.
  induction Hs as [|z parts Hz _ IH]; [done|]. cbn [map].
  destruct (number_component z Hz) as (_ & -> & _). by rewrite IH.
Qed.

(** ** The next version *)

Inductive level := Major | Minor | Patch.
Definition level_string (l : level) : jsstr := match l with Major => "major" | Minor => "minor" | Patch => "patch" end.
Record Version := { major : Z; minor : Z; patch : Z }.
Definition version_list (v : Version) : list Z := [major v; minor v; patch v].
Definition print_version (v : Version) : jsstr := print_parts (version_list v).
Definition safe_version (v : Version) : Prop := safe (major v) /\ safe (minor v) /\ safe (patch v).
Definition version_lt (v w : Version) : Prop :=
  major v < major w \/ (major v = major w /\ (minor v < minor w \/ (minor v = minor w /\ patch v < patch w))).
(** [v] and [w] are of the same release series, which a bump of level [l] leaves. *)
Definition same_series (l : level) (v w : Version) : Prop :=
  match l with
  | Major => major v = major w
  | Minor => major v = major w /\ minor v = minor w
  | Patch => v = w
  end.

(** A component is the text of its number. *)
Lemma component_cases l : component l = true ->
  l = [48%N] \/ exists c rest, l = c :: rest /\ between 49 57 c = true /\ forallb is_digit rest = true.
Proof.
  destruct l as [|c rest]; [done|]. intros H. destruct (decide (c :: rest = [48%N])) as [E|Hne]; [by left|right].
  exists c, rest. split; [done|]. unfold component in H.
  assert (between 49 57 c && forallb is_digit rest = true) as Hb by (repeat case_match; try done; by subst).
  by apply andb_prop.
Qed.
Lemma value_nonneg l acc : forallb is_digit l = true -> 0 <= acc -> acc <= number_value l acc.
Proof.
  revert acc. induction l as [|c l IH]; cbn [forallb number_value]; intros acc H Ha; [lia|].
  apply andb_prop in H as [Hc H]. unfold is_digit, between in Hc. apply andb_prop in Hc as [H1%N.leb_le H2%N.leb_le].
  specialize (IH (10 * acc + (Z.of_N c - 48)) H ltac:(lia)). lia.
Qed.
Lemma component_value fuel l : component l = true -> (0 < fuel)%nat -> number_value l 0 < 10 ^ Z.of_nat fuel ->
  0 <= number_value l 0 /\ digits fuel (number_value l 0) [] = l.
Proof.
  intros H Hf. apply component_cases in H as [->|(c & rest & -> & Hc & Hr)].
  { intros Hv. split; [done|]. destruct fuel; [lia|done]. }
  clear Hf. revert fuel. induction rest as [|x rest IH] using rev_ind; intros fuel Hv.
  - unfold between in Hc. apply andb_prop in Hc as [H1%N.leb_le H2%N.leb_le]. cbn [number_value] in *.
    destruct fuel; [cbn in Hv; lia|]. cbn [digits]. destruct (Z.ltb_spec (10 * 0 + (Z.of_N c - 48)) 10); [|lia].
    split; [lia|]. f_equal. rewrite Z.mod_small; lia.
  - rewrite forallb_app in Hr. apply andb_prop in Hr as [Hr Hx]. cbn in Hx. rewrite andb_true_r in Hx.
    unfold is_digit, between in Hx. apply andb_prop in Hx as [H1%N.leb_le H2%N.leb_le].
    rewrite app_comm_cons, number_value_app in *. set (v := number_value (c :: rest) 0) in *. cbn [number_value] in Hv |- *.
    assert (1 <= v) as Hpos.
    { unfold v. cbn [number_value]. unfold between in Hc. apply andb_prop in Hc as [H3%N.leb_le H4%N.leb_le].
      pose proof (value_nonneg rest (10 * 0 + (Z.of_N c - 48)) Hr ltac:(lia)). lia. }
    clearbody v. destruct fuel as [|fuel]; [cbn in Hv; lia|]. rewrite Nat2Z.inj_succ, Z.pow_succ_r in Hv by lia.
    destruct (IH Hr fuel) as [_ E]; [lia|]. split; [lia|]. cbn [digits].
    destruct (Z.ltb_spec (10 * v + (Z.of_N x - 48)) 10); [lia|].
    assert ((10 * v + (Z.of_N x - 48)) / 10 = v) as -> by (symmetry; apply (Z.div_unique _ _ _ (Z.of_N x - 48)); lia).
    assert ((10 * v + (Z.of_N x - 48)) mod 10 = Z.of_N x - 48) as -> by (symmetry; apply (Z.mod_unique _ _ v); lia).
    rewrite digits_app, E. do 2 f_equal. lia.
Qed.
Lemma component_print l : component l = true -> number_value l 0 <= MAX_SAFE_INTEGER ->
  safe (number_value l 0) /\ units (number_string (number_value l 0)) = l.
Proof.
  intros H Hs. destruct (component_value 17 l H) as [H0 E]; [lia|unfold MAX_SAFE_INTEGER in Hs; lia|]. by split; [split|].
Qed.
Lemma stable_version s : stableVersion s = true -> Forall (fun z => z <= MAX_SAFE_INTEGER) (version_parts s) ->
  exists v, safe_version v /\ version_parts s = version_list v /\ s = print_version v.
Proof.
  unfold stableVersion, version_parts. pose proof (proj1 (join_split dot (units s))) as Hj.
  destruct (split_on dot (units s)) as [|a [|b [|c []]]]; try done. intros [[Ha Hb]%andb_prop Hc]%andb_prop Hs.
  cbn [map] in Hs. apply Forall_cons in Hs as [Hsa Hs]. apply Forall_cons in Hs as [Hsb Hs]. apply Forall_cons in Hs as [Hsc _].
  destruct (component_print a Ha Hsa) as [? Ea], (component_print b Hb Hsb) as [? Eb], (component_print c Hc Hsc) as [? Ec].
  exists {| major := number_value a 0; minor := number_value b 0; patch := number_value c 0 |}. split; [done|]. split; [done|].
  unfold print_version, print_parts, version_list. cbn [major minor patch map]. rewrite Ea, Eb, Ec. destruct s. cbn in Hj. by rewrite <- Hj.
Qed.
Lemma version_safe v : safe_version v -> Forall safe (version_list v).
Proof. intros (? & ? & ?). unfold version_list. by repeat apply Forall_cons_2; [..|apply Forall_nil_2]. Qed.
Lemma print_stable v : safe_version v -> stableVersion (print_version v) = true.
Proof.
  intros Hv. unfold stableVersion, print_version.
  rewrite (proj1 (print_parts_read (version_list v) ltac:(done) (version_safe v Hv))). destruct Hv as (Ha & Hb & Hc). unfold version_list. cbn [map].
  by rewrite (proj1 (number_component _ Ha)), (proj1 (number_component _ Hb)), (proj1 (number_component _ Hc)).
Qed.

Definition bumped (l : level) (v : Version) : Version :=
  match l with
  | Major => {| major := major v + 1; minor := 0; patch := 0 |}
  | Minor => {| major := major v; minor := minor v + 1; patch := 0 |}
  | Patch => {| major := major v; minor := minor v; patch := patch v + 1 |}
  end.
Definition level_part (l : level) (v : Version) : Z := match l with Major => major v | Minor => minor v | Patch => patch v end.
Lemma bump_print l v : safe_version v ->
  bumpVersion (JStr (print_version v)) (JStr (level_string l)) =
    if level_part l v <? MAX_SAFE_INTEGER then Ok (print_version (bumped l v)) else Throw EOther.
Proof.
  intros Hv. unfold bumpVersion. rewrite print_stable by done. cbn [assert result_bind].
  pose proof (version_safe v Hv) as Hs.
  unfold print_version. rewrite (proj2 (print_parts_read (version_list v) ltac:(done) Hs)).
  assert (forallb (fun z => z <=? MAX_SAFE_INTEGER) (version_list v) = true) as ->
    by (apply forallb_forall; intros z Hz%list_elem_of_In; rewrite Forall_forall in Hs; apply Hs in Hz as [_ ?]; by apply Z.leb_le).
  destruct l;
    [change (bump_index _) with (Some 0%nat) | change (bump_index _) with (Some 1%nat) | change (bump_index _) with (Some 2%nat)];
    cbn [result_bind];
    [change (default 0 (version_list v !! 0%nat)) with (major v) | change (default 0 (version_list v !! 1%nat)) with (minor v)
    | change (default 0 (version_list v !! 2%nat)) with (patch v)];
    cbn [level_part]; by destruct (_ <? _).
Qed.
Lemma bumped_next l v : safe_version v -> level_part l v < MAX_SAFE_INTEGER ->
  safe_version (bumped l v) /\ version_lt v (bumped l v) /\ ~ same_series l v (bumped l v) /\
  forall w, safe_version w -> version_lt v w -> ~ same_series l v w -> w = bumped l v \/ version_lt (bumped l v) w.
Proof.
  intros (Ha & Hb & Hc) Hl. unfold safe_version, safe, version_lt in *.
  assert (forall a b : Version, major a = major b -> minor a = minor b -> patch a = patch b -> a = b) as Hext
    by (intros [] []; cbn; congruence).
  destruct l; cbn [level_part same_series bumped major minor patch] in *; split_and!; try lia.
  - intros w Hw Hlt Hn. destruct (decide (major w = major v + 1 /\ minor w = 0 /\ patch w = 0)) as [(? & ? & ?)|Hne];
      [left; by apply Hext|right; lia].
  - intros w Hw Hlt Hn. destruct (decide (major w = major v /\ minor w = minor v + 1 /\ patch w = 0)) as [(? & ? & ?)|Hne];
      [left; by apply Hext|right; lia].
  - intros E. apply (f_equal patch) in E. cbn in E. lia.
  - intros w Hw Hlt Hn. destruct (decide (major w = major v /\ minor w = minor v /\ patch w = patch v + 1)) as [(? & ? & ?)|Hne];
      [left; by apply Hext|right; lia].
Qed.

(** C40: a bump gives the next version of its level.  It accepts exactly the texts of three
    safe numbers whose selected one can grow; the result is such a text again, later
    than the old version and outside its series, and no version outside the series comes
    between the two. *)
Theorem bumpVersion_next version l w :
  bumpVersion version (JStr (level_string l)) = Ok w <->
  exists v, safe_version v /\ version = JStr (print_version v) /\ level_part l v < MAX_SAFE_INTEGER /\
    exists v', w = print_version v' /\ stableVersion w = true /\ safe_version v' /\
      version_lt v v' /\ ~ same_series l v v' /\
      forall z, safe_version z -> version_lt v z -> ~ same_series l v z -> z = v' \/ version_lt v' z.
Proof.
  split.
  - intros H. assert (exists s, version = JStr s /\ stableVersion s = true /\
      Forall (fun z => z <= MAX_SAFE_INTEGER) (version_parts s)) as (s & -> & Hst & Hs).
    { unfold bumpVersion in H. destruct version as [| | | |s| | | |]; try done. exists s. split; [done|].
      destruct (stableVersion s); [|done]. split; [done|]. cbn [assert result_bind] in H.
      destruct (bump_index _); [|done]. destruct (forallb _ _) eqn:E; [|done].
      apply Forall_forall. intros z Hz%list_elem_of_In. rewrite forallb_forall in E. apply E in Hz. by apply Z.leb_le. }
    destruct (stable_version s Hst Hs) as (v & Hv & _ & ->). rewrite bump_print in H by done.
    destruct (Z.ltb_spec (level_part l v) MAX_SAFE_INTEGER) as [Hl|]; [|done]. injection H as <-.
    exists v. split_and!; try done. destruct (bumped_next l v Hv Hl) as (Hb & ? & ? & ?).
    exists (bumped l v). split_and!; try done. by apply print_stable.
  - intros (v & Hv & -> & Hl & v' & -> & _ & Hv' & Hlt & Hn & Hmin). rewrite bump_print by done.
    destruct (Z.ltb_spec (level_part l v) MAX_SAFE_INTEGER) as [_|]; [|lia]. do 2 f_equal.
    destruct (bumped_next l v Hv Hl) as (Hb & Hlt' & Hn' & Hmin').
    destruct (Hmin _ Hb Hlt' Hn') as [|H1]; [done|]. destruct (Hmin' _ Hv' Hlt Hn) as [|H2]; [done|].
    exfalso. unfold version_lt in *. lia.
Qed.
Lemma bumpVersion_next_witness :
  bumpVersion (JStr "1.9.12") (JStr "minor") = Ok "1.10.0"%js /\ bumpVersion (JStr "1.09.2") (JStr "patch") = Throw EOther.
Proof.
  split; [|vm_compute; reflexivity].
  apply (bumpVersion_next (JStr "1.9.12") Minor "1.10.0").
  exists {| major := 1; minor := 9; patch := 12 |}. split_and!; [split_and!; done|reflexivity|done|].
  exists {| major := 1; minor := 10; patch := 0 |}.
  destruct (bumped_next Minor {| major := 1; minor := 9; patch := 12 |}) as (? & ? & ? & ?); [split_and!; done|done|].
  split_and!; try done.
Defined.

(** ** A planned release *)

Lemma assert_Ok b x : assert b = Ok x <-> b = true.
Proof. destruct b; cbn; split; try done. by intros _; destruct x. Qed.
Lemma starts_with_app a b : starts_with a (a ++ b) = true.
Proof. induction a as [|x a IH]; [by destruct b|]. cbn. by rewrite N.eqb_refl. Qed.
Lemma index_of_app needle a b : index_of needle (a ++ needle ++ b) <> None.
Proof.
  induction a as [|x a IH]; cbn [app].
  - pose proof (starts_with_app needle b) as E. destruct (needle ++ b); cbn [index_of]; by rewrite E.
  - cbn [index_of]. destruct (starts_with _ _); [done|]. by destruct (index_of _ _).
Qed.
Lemma index_of_Some needle l i : index_of needle l = Some i ->
  starts_with needle (drop i l) = true /\ forall j, (j < i)%nat -> starts_with needle (drop j l) = false.
Proof.
  revert i. induction l as [|x l IH]; intros i H; cbn [index_of] in H.
  - destruct (starts_with needle []) eqn:E; [|done]. injection H as <-. split; [done|]. lia.
  - destruct (starts_with needle (x :: l)) eqn:E; [injection H as <-; split; [done|lia]|].
    destruct (index_of needle l) as [i'|]; [|done]. injection H as <-. destruct (IH i' eq_refl) as [H1 H2]. split; [done|].
    intros [|j] Hj; [done|]. apply H2. lia.
Qed.

Section plan.
Context (git : list jsstr -> result exn jsstr) (parseJson : jsstr -> result exn jsval).

(** A planned release changes two files.  The version in the manifest is the bump of
    the version there, and nothing else of the manifest changes.  The changelog keeps every
    line; the notes of the new version, which it did not have, are inserted before its
    first release.  A plan without changes touches no file. *)
Theorem planRelease_sound bump expected sha p :
  planRelease git parseJson bump expected sha = Ok p ->
  exists manifestText manifest,
    sha = JStr (sourceSha p) /\ show git (sourceSha p) manifestPath = Ok manifestText /\
    parseJson manifestText = Ok manifest /\ get manifest "version" = JStr (previousVersion p) /\
    bumpVersion (get manifest "version") bump = Ok (p_version p) /\
    (ready p = false -> files p = []) /\
    (ready p = true -> exists next again changelog before after,
       files p = [(manifestPath, next); (changelogPath, text_of [JsStr before; newline; notes p; JsStr after])] /\
       parseJson next = Ok again /\ deepEqual again (spread_set manifest "version" (JStr (p_version p))) = true /\
       show git (sourceSha p) changelogPath = Ok changelog /\ units changelog = before ++ after /\
       starts_with release_start after = true /\
       (forall j, (j < length before)%nat -> starts_with release_start (drop j (units changelog)) = false) /\
       starts_with (units (heading (p_version p))) (units (notes p)) = true /\
       includes_text changelog (heading (previousVersion p)) = true /\
       includes_text changelog (heading (p_version p)) = false /\
       includes_text (text_of [JsStr before; newline; notes p; JsStr after]) (heading (p_version p)) = true).
Proof.
  intros H. unfold planRelease in H. destruct sha as [| | | |sha| | | |]; try done.
  read_apart H. rename a2 into manifestText, a3 into manifest, a8 into version.
  assert (exists old, get manifest "version" = JStr old) as [old Hold]
    by (destruct (get manifest "version"); try done; by eexists).
  rewrite Hold in *. exists manifestText, manifest.
  destruct (Nat.eqb _ 0) in H; [injection H as <-; cbn [sourceSha previousVersion p_version ready files notes]; by rewrite Hold; split_and!|]. read_apart H.
  destruct (index_of release_start _) as [first|] eqn:Ef; [|done]. read_apart H. injection H as <-.
  cbn [sourceSha previousVersion p_version ready files notes]. rewrite Hold. split_and!; try done. intros _.
  destruct (index_of_Some _ _ _ Ef) as [Hs Hfirst].
  repeat match goal with E : assert _ = Ok _ |- _ => apply assert_Ok in E end.
  match goal with E : negb (includes_text ?c _) = true |- _ => apply negb_true_iff in E; rename c into changelog end.
  eexists _, _, changelog, (take first (units changelog)), (drop first (units changelog)). split_and!; try done.
  - by rewrite take_drop.
  - intros j Hj. apply Hfirst. rewrite length_take in Hj. lia.
  - unfold text_of. cbn [map concat units]. apply starts_with_app.
  - unfold includes_text, text_of. cbn [map concat units]. rewrite <- !app_assoc.
    rewrite (app_assoc (take first (units changelog)) (units newline)).
    pose proof (index_of_app (units (heading version)) (take first (units changelog) ++ units newline)) as Hi.
    match goal with |- match ?x with Some _ => _ | None => _ end = _ => destruct x eqn:E' end; [done|].
    exfalso. eapply Hi. exact E'.
Qed.

Lemma unchanged_Ok sha checkout planned x : unchanged_files git sha checkout planned = Ok x ->
  forall path text, (path, text) ∈ planned -> exists source, assoc path checkout = Some source /\ show git sha path = Ok source.
Proof.
  induction planned as [|[path' text'] planned IH]; intros H path text Hin; [by apply not_elem_of_nil in Hin|].
  cbn [unchanged_files] in H. destruct (assoc path' checkout) as [old|] eqn:Eo; [|done]. read_apart H.
  match goal with E : assert _ = Ok _ |- _ => apply assert_Ok, js_eqb_eq in E; subst end.
  apply elem_of_cons in Hin as [[= -> ->]|Hin]; [by eexists|by eapply IH].
Qed.

(** The script that prepares a release in a checkout.  What it leaves in a checkout where it was
    told to write is the plan: the two planned files have the planned texts, and every other
    file is as it was.  It writes only on top of the planned commit, in a clean checkout whose
    files are those of that commit, and not when there is nothing to release or it was not
    told to. *)
Theorem prepare_release_writes env arguments checkout p checkout' :
  prepare_release git parseJson env arguments checkout = Ok (p, checkout') ->
  planRelease git parseJson (env "SDK_RELEASE_BUMP") (env "SDK_RELEASE_EXPECTED_VERSION") (env "SDK_RELEASE_SOURCE_SHA") = Ok p /\
  (checkout' = checkout \/
   ready p = true /\ "--write" ∈ arguments /\
   (exists head status, git ["rev-parse"; "HEAD"] = Ok head /\ trimmed head = sourceSha p /\
      git ["status"; "--porcelain"; "--untracked-files=normal"] = Ok status /\ trimmed status = "") /\
   (forall path text, (path, text) ∈ files p ->
      assoc path checkout' = Some text /\
      exists source, assoc path checkout = Some source /\ show git (sourceSha p) path = Ok source) /\
   (forall path, path <> manifestPath -> path <> changelogPath -> assoc path checkout' = assoc path checkout)).
Proof.
  intros (_ & _ & (plan & Hp & (written & Hw & [= <- <-])%bind_Ok)%bind_Ok)%bind_Ok. split; [done|].
  destruct (js_includes arguments "--write") eqn:Ea; [|left; congruence]. apply bool_decide_eq_true in Ea.
  unfold writeRelease in Hw. destruct (ready plan) eqn:Er; cbn [negb] in Hw; [right|left; congruence].
  destruct (planRelease_sound _ _ _ _ Hp) as (? & ? & _ & _ & _ & _ & _ & _ & Hfiles).
  destruct (Hfiles Er) as (next & again & changelog & before & after & Ef & _). read_apart Hw. injection Hw as <-.
  repeat match goal with E : assert _ = Ok _ |- _ => apply assert_Ok, js_eqb_eq in E end.
  assert (manifestPath <> changelogPath) as Hne by done. split; [done|]. split; [done|]. split; [by eexists _, _|]. split.
  - intros path text Hin. split; [|by eapply unchanged_Ok]. rewrite Ef in Hin |- *. cbn [write_all foldl fst snd].
    rewrite !elem_of_cons in Hin. destruct Hin as [[= -> ->]|[[= -> ->]|[]%not_elem_of_nil]]; unfold write_all; cbn [foldl fst snd].
    + by rewrite assoc_set_ne, assoc_set_eq.
    + by rewrite assoc_set_eq.
  - intros path H1 H2. rewrite Ef. unfold write_all. cbn [foldl fst snd]. by rewrite !assoc_set_ne by congruence.
Qed.
End plan.

Definition demo_sha : jsstr := "0123456789abcdef0123456789abcdef01234567".
Definition demo_manifest_text (version : jsstr) : jsstr :=
  text_of ["{"; newline; "  "; quote; "version"; quote; ": "; quote; version; quote; newline; "}"].
Definition demo_manifest (version : jsstr) : jsval := JObject
  [("name", JStr packageName); ("private", JBool true); ("license", JStr "MIT"); ("version", JStr version)].
Definition demo_parse (s : jsstr) : result exn jsval :=
  if js_eqb s (demo_manifest_text "1.0.9") then Ok (demo_manifest "1.0.9")
  else if js_eqb s (demo_manifest_text "1.0.10") then Ok (demo_manifest "1.0.10")
  else Throw EOther.
Definition demo_changelog : jsstr := text_of ["# Changelog"; newline; newline; "## [1.0.9](x)"; newline].
Definition demo_git (args : list jsstr) : result exn jsstr :=
  match args with
  | ["rev-parse"%js; _; _] => Ok (append demo_sha newline)
  | ["show"%js; path] => Ok (if includes_text path "package.json" then demo_manifest_text "1.0.9" else demo_changelog)
  | "diff"%js :: _ => Ok (append "contracts/x" newline)
  | "log"%js :: _ => Ok (text_of [demo_sha; JsStr [0%N]; "A *fix*"; JsStr [0%N]; newline])
  | _ => Ok ""
  end.
Lemma planRelease_sound_witness :
  exists p, planRelease demo_git demo_parse (JStr "patch") (JStr "1.0.9") (JStr demo_sha) = Ok p /\ ready p = true /\
    p_version p = "1.0.10"%js /\
    exists manifestText manifest, JStr demo_sha = JStr (sourceSha p) /\
      show demo_git (sourceSha p) manifestPath = Ok manifestText /\ demo_parse manifestText = Ok manifest.
Proof.
  eexists. split; [vm_compute; reflexivity|]. split; [reflexivity|]. split; [vm_compute; reflexivity|].
  match goal with |- exists t m, _ = JStr (sourceSha ?p) /\ _ =>
    destruct (planRelease_sound demo_git demo_parse (JStr "patch") (JStr "1.0.9") (JStr demo_sha) p)
      as (t & m & H1 & H2 & H3 & _); [vm_compute; reflexivity|]; by exists t, m end.
Defined.

(** ** The commit of a release *)

Section identity_properties.
Context (runGit : list jsstr -> result exn jsstr) (parseJson : jsstr -> result exn jsval).
Definition has_version (version sha : jsstr) : Prop :=
  exists value, sourceManifest runGit parseJson sha = Ok value /\ is_str (get value "version") version = true.
Definition other_version (version sha : jsstr) : Prop :=
  exists value, sourceManifest runGit parseJson sha = Ok value /\ is_str (get value "version") version = false.

Lemma walk_started version commits sha source :
  source_walk runGit parseJson version commits (Some sha) = Ok (Some source) ->
  exists run post, commits = run ++ post /\ Forall (has_version version) run /\ last (sha :: run) = Some source /\
    (post = [] \/ exists c post', post = c :: post' /\ other_version version c).
Proof.
  revert sha. induction commits as [|c commits IH]; intros sha H; cbn [source_walk] in H.
  - injection H as <-. exists [], []. by split_and!; [..|left].
  - destruct (sourceManifest runGit parseJson c) as [value|e] eqn:Ev; [|done]. cbn [result_bind] in H.
    destruct (is_str _ _) eqn:Es.
    + destruct (IH c H) as (run & post & -> & Hr & Hl & Hp). exists (c :: run), post. split_and!; try done.
      constructor; [by exists value|done].
    + injection H as <-. exists [], (c :: commits). split_and!; try done. right. exists c, commits. split; [done|]. by exists value.
Qed.
Lemma walk_first version commits source :
  source_walk runGit parseJson version commits None = Ok (Some source) ->
  exists pre run post, commits = pre ++ run ++ post /\ Forall (other_version version) pre /\
    Forall (has_version version) run /\ last run = Some source /\
    (post = [] \/ exists c post', post = c :: post' /\ other_version version c).
Proof.
  induction commits as [|c commits IH]; intros H; cbn [source_walk] in H; [done|].
  destruct (sourceManifest runGit parseJson c) as [value|e] eqn:Ev; [|done]. cbn [result_bind] in H.
  destruct (is_str _ _) eqn:Es.
  - apply walk_started in H as (run & post & -> & Hr & Hl & Hp). exists [], (c :: run), post. split_and!; try done.
    constructor; [by exists value|done].
  - destruct (IH H) as (pre & run & post & -> & Hpre & ?). exists (c :: pre), run, post. split; [done|].
    split; [|done]. constructor; [by exists value|done].
Qed.

(** A release is made from the commit that gave the manifest its version.  A tagged
    version comes from the commit of its tag, an ancestor of the event; any other from the
    earliest commit of the latest run of manifest changes on main that carry it: the
    changes after the run have other versions, and so has the one before it.  The manifest
    of the commit is the private MIT package of that stable version. *)
Theorem resolveIdentity_sound eventSha requested i :
  resolveIdentity runGit parseJson eventSha requested = Ok i ->
  stableVersion (i_version i) = true /\ i_tag i = append "sdk-v" (i_version i) /\
  (requested <> "" -> i_version i = requested) /\
  (exists value, sourceManifest runGit parseJson (i_source i) = Ok value /\
     is_str (get value "name") packageName = true /\ is_str (get value "version") (i_version i) = true /\
     get value "private" = JBool true /\ is_str (get value "license") "MIT" = true) /\
  (i_tagged i = true ->
     runGit ["rev-parse"; append (i_tag i) "^{commit}"] = Ok (i_source i) /\
     exists out, runGit ["merge-base"; "--is-ancestor"; i_source i; eventSha] = Ok out) /\
  (i_tagged i = false ->
     exists pre run post, manifest_commits runGit eventSha = Ok (pre ++ run ++ post) /\
       Forall (other_version (i_version i)) pre /\ Forall (has_version (i_version i)) run /\ last run = Some (i_source i) /\
       (post = [] \/ exists c post', post = c :: post' /\ other_version (i_version i) c)).
Proof.
  intros H. unfold resolveIdentity in H. apply bind_Ok in H as (current & _ & H).
  destruct (if Nat.eqb _ 0 then _ else _) as [| | | |version| | | |] eqn:Ev; try done.
  apply bind_Ok in H as (? & Hst%assert_Ok & H). apply bind_Ok in H as (listed & _ & H).
  apply bind_Ok in H as (source & Hs & H). read_apart H. injection H as <-.
  repeat match goal with E : assert _ = Ok _ |- _ => apply assert_Ok in E end.
  cbn [i_version i_tag i_source i_tagged]. split_and!; try done.
  - intros Hr. destruct (Nat.eqb _ 0) eqn:En; [|congruence]. apply Nat.eqb_eq, nil_length_inv in En.
    by destruct requested as [l]; cbn in En; subst.
  - eexists. split_and!; try done. by destruct (get _ "private") as [| |[]| | | | | |].
  - intros Ht. rewrite Ht in Hs. read_apart Hs. injection Hs as <-. eauto.
  - intros Ht. rewrite Ht in Hs. apply bind_Ok in Hs as (commits & Hc & Hs). apply bind_Ok in Hs as ([s|] & Hw & Hs); [|done]. injection Hs as <-.
    apply walk_first in Hw as (pre & run & post & -> & Hw). exists pre, run, post. by split.
Qed.
End identity_properties.

Definition demo_older : jsstr := "fedcba9876543210fedcba9876543210fedcba98".
Definition demo_history (args : list jsstr) : result exn jsstr :=
  match args with
  | "show"%js :: path :: _ => Ok (demo_manifest_text (if includes_text path demo_older then "1.0.9" else "1.0.10"))
  | "log"%js :: _ => Ok (text_of [demo_sha; newline; demo_older])
  | _ => Ok ""
  end.
Lemma resolveIdentity_sound_witness :
  exists i, resolveIdentity demo_history demo_parse demo_sha "" = Ok i /\ i_tagged i = false /\ i_source i = demo_sha /\
    exists pre run post, manifest_commits demo_history demo_sha = Ok (pre ++ run ++ post) /\ last run = Some (i_source i).
Proof.
  eexists. split; [vm_compute; reflexivity|]. split; [reflexivity|]. split; [vm_compute; reflexivity|].
  match goal with |- exists pre run post, _ /\ last run = Some (i_source ?i) =>
    destruct (resolveIdentity_sound demo_history demo_parse demo_sha "" i) as (_ & _ & _ & _ & _ & H); [vm_compute; reflexivity|];
    destruct (H eq_refl) as (pre & run & post & H1 & _ & _ & H2 & _); by exists pre, run, post end.
Defined.
