(* ===== verification/Fixtures.v ===== *)
(** * The wire fixtures (packages/typescript/scripts/generate-contracts.mjs: checkFixtures)

    The check that the generator runs on the validators it has compiled, against the documents in
    contracts/fixtures, which the service's own tests write; what its success means; and its run
    on the validators of Validators.v and those documents.  Of wire.json the six largest documents,
    the capabilities with all their header descriptors, are left out. *)

From S2P Require Import Prelude Js Errors Release Validators.

Local Open Scope js_scope.

(** ** checkFixtures *)

Definition names : list jsstr :=
  ["requestMetadata"; "responseMetadata"; "diagnostics"; "transportError"; "contextInfo"; "cookieRecord"; "cookieSnapshot";
   "capabilities"; "createContext"; "cookieOperation"; "cookieReply"; "requestStatus"].
Definition baseline_name : jsstr := "diagnostics-rust-serialized".
(** What no JSON document can say but a live value can. *)
Definition inexact_counters : list jsval := [JNum NaN; JNum (NInfinity false); JNum (NInfinity true); jint (MAX_SAFE_INTEGER + 1)].

Section check.
Context (validators : jsstr -> jsval -> bool).

Definition fixtures_of (document : jsval) : result exn (list jsval) :=
  match get document "fixtures" with JArray l => Ok l | _ => Throw ETypeError end.
Definition check_fixture (seen : list jsstr) (fixture : jsval) : result exn (list jsstr) :=
  match get fixture "contract", get fixture "name", get fixture "valid" with
  | JStr contract, JStr name, JBool valid =>
      let? _ := assert (js_includes names contract) in
      let? _ := assert (negb (js_includes seen name)) in
      let? _ := assert (is_boolean (get fixture "rustAccepts")) in
      let? _ := assert (Bool.eqb (validators contract (get fixture "value")) valid) in
      Ok (name :: seen)
  | _, _, _ => Throw EOther
  end.
Fixpoint check_all (seen : list jsstr) (fixtures : list jsval) : result exn (list jsstr) :=
  match fixtures with
  | [] => Ok seen
  | fixture :: fixtures => let? seen := check_fixture seen fixture in check_all seen fixtures
  end.
Definition check_semantics (fixture : jsval) : bool :=
  same_value (JBool (validators "requestMetadata" (get fixture "value"))) (get fixture "schemaValid").
Definition checkFixtures (document semantics : jsval) : result exn Z :=
  let? version := prop document "formatVersion" in
  let? _ := assert (is_int version 1) in
  let? fixtures := fixtures_of document in
  let? _ := check_all [] fixtures in
  let? requests := fixtures_of semantics in
  let? _ := assert (forallb check_semantics requests) in
  match List.find (fun fixture => is_str (get fixture "name") baseline_name) fixtures with
  | None => Throw EOther
  | Some baseline =>
      let? _ := assert (forallb (fun n => negb (validators "diagnostics" (spread_set (get baseline "value") "responseBytes" n))) inexact_counters) in
      Ok (zlength fixtures)
  end.

(** What a fixture says. *)
Definition fixture_holds (fixture : jsval) : Prop :=
  exists contract valid, get fixture "contract" = JStr contract /\ get fixture "valid" = JBool valid /\ contract ∈ names /\
    validators contract (get fixture "value") = valid.
Lemma check_fixture_Ok seen fixture seen' : check_fixture seen fixture = Ok seen' ->
  fixture_holds fixture /\ exists name, get fixture "name" = JStr name /\ name ∉ seen /\ seen' = name :: seen.
Proof.
  unfold check_fixture. destruct (get fixture "contract") as [| | | |contract| | | |] eqn:Ec, (get fixture "name") as [| | | |name| | | |],
    (get fixture "valid") as [| |valid| | | | | |] eqn:Ev; try done.
  intros (? & H1%assert_Ok & (? & H2%assert_Ok & (? & _ & (? & H3%assert_Ok & [= <-])%bind_Ok)%bind_Ok)%bind_Ok)%bind_Ok.
  apply bool_decide_eq_true in H1. apply negb_true_iff, bool_decide_eq_false in H2. apply Bool.eqb_prop in H3.
  split; [by exists contract, valid|by exists name].
Qed.
Lemma check_all_Ok fixtures seen seen' : check_all seen fixtures = Ok seen' ->
  Forall fixture_holds fixtures /\ exists ns, map (fun f => get f "name") fixtures = map JStr ns /\ NoDup ns /\ forall n, n ∈ ns -> n ∉ seen.
Proof.
  revert seen. induction fixtures as [|fixture fixtures IH]; intros seen; cbn [check_all].
  - intros _. split; [done|]. exists []. split; [done|]. split; [constructor|]. by intros n ?%not_elem_of_nil.
  - intros (seen1 & Hf & H)%bind_Ok. destruct (check_fixture_Ok _ _ _ Hf) as (Hh & name & Hn & Hs & ->).
    destruct (IH _ H) as (Hall & ns & Hm & Hd & Hns). split; [by constructor|]. exists (name :: ns). cbn [map]. rewrite Hn, Hm.
    split; [done|]. split; [constructor; [|done]; intros Hin; apply (Hns _ Hin); by left|].
    intros n [->|Hin]%elem_of_cons; [done|]. intros Hseen. apply (Hns _ Hin). by right.
Qed.

(** When the check succeeds, every fixture is decided as it says, for a contract that exists; no two
    fixtures have one name; every request is decided as its schema decides it; and
    counters that are not exact are refused. *)
Theorem checkFixtures_sound document semantics n :
  checkFixtures document semantics = Ok n ->
  exists fixtures requests baseline ns, get document "fixtures" = JArray fixtures /\ n = zlength fixtures /\
    Forall fixture_holds fixtures /\ map (fun f => get f "name") fixtures = map JStr ns /\ NoDup ns /\
    get semantics "fixtures" = JArray requests /\
    Forall (fun f => get f "schemaValid" = JBool (validators "requestMetadata" (get f "value"))) requests /\
    baseline ∈ fixtures /\ get baseline "name" = JStr baseline_name /\
    forall c, c ∈ inexact_counters -> validators "diagnostics" (spread_set (get baseline "value") "responseBytes" c) = false.
Proof.
  unfold checkFixtures, fixtures_of. intros H. read_apart H.
  destruct (get document "fixtures") as [| | | | |fixtures| | |]; try done. destruct (get semantics "fixtures") as [| | | | |requests| | |]; try done.
  repeat match goal with E : Ok _ = Ok _ |- _ => injection E as <- end.
  destruct (List.find _ fixtures) as [baseline|] eqn:Ef; [|done]. read_apart H. injection H as <-.
  apply find_some in Ef as [Hb%list_elem_of_In Hn].
  match goal with E : check_all _ _ = Ok _ |- _ => destruct (check_all_Ok _ _ _ E) as (Hall & ns & Hm & Hd & _) end.
  repeat match goal with E : assert _ = Ok _ |- _ => apply assert_Ok in E end.
  exists fixtures, requests, baseline, ns. split_and!; try done.
  - match goal with E : forallb check_semantics _ = true |- _ => rename E into Hs end. apply Forall_forall. intros f Hf.
    pose proof (forallb_elem _ _ _ Hs Hf) as Hv. unfold check_semantics in Hv. destruct (get f "schemaValid"); try done. by apply Bool.eqb_prop in Hv as ->.
  - destruct (get baseline "name"); try done. by apply js_eqb_eq in Hn as ->.
  - intros c Hc. match goal with E : forallb _ inexact_counters = true |- _ => pose proof (forallb_elem _ _ _ E Hc) as Hx end. by apply negb_true_iff in Hx.
Qed.
End check.

(** ** The fixtures *)

Definition wire_fixture_0 : jsval := JObject [("contract", JStr "requestMetadata"); ("name", JStr "requestMetadata-rust-serialized");
  ("reason", JStr "Serialized from the actual service DTO, not a handwritten wire object."); ("rustAccepts", JBool true); ("valid", JBool true);
  ("value", JObject [("attempt", jint 1); ("bodyLength", jint 0); ("connection", JObject [("egress", JObject [("mode", JStr "direct")]);
  ("identity", JObject [("emulateHeaders", JBool false); ("tlsProfile", JStr "chrome_133")])]); ("contextId", JNull); ("hasBody", JBool false);
  ("headers", JArray []); ("maxResponseBytes", jint 1024); ("method", JStr "GET"); ("partition", JStr "contract-partition");
  ("requestId", JStr "contract-request"); ("timeoutMs", jint 5000); ("url", JStr "https://example.com/")])].
Definition wire_fixture_1 : jsval := JObject [("contract", JStr "responseMetadata"); ("name", JStr "responseMetadata-rust-serialized");
  ("reason", JStr "Serialized from the actual service DTO, not a handwritten wire object."); ("rustAccepts", JBool true); ("valid", JBool true);
  ("value", JObject [("cookieRevision", jint 2); ("diagnostics", JObject [("attempt", jint 1); ("bodyMs", jint 3); ("clientReused", JBool false);
  ("contextId", JStr "contract-context"); ("cookieRevision", jint 2); ("delivery", JStr "response_started"); ("headersMs", jint 8);
  ("phase", JStr "complete"); ("queueMs", jint 2); ("requestBytes", jint 0); ("requestId", JStr "contract-request"); ("responseBytes", jint 4);
  ("spanId", JStr "fedcba9876543210"); ("tlsProfile", JStr "chrome_133"); ("totalMs", jint 13); ("traceId", JStr "0123456789abcdef0123456789abcdef")]);
  ("headers", JArray [JArray [JStr "content-type"; JStr "text/plain"]; JArray [JStr "set-cookie"; JStr "a=1; Path=/; Secure"]; JArray [JStr "set-cookie";
  JStr "b=2; Path=/; Secure"]]); ("requestId", JStr "contract-request"); ("status", jint 200)])].
Definition wire_fixture_2 : jsval := JObject [("contract", JStr "diagnostics"); ("name", JStr "diagnostics-rust-serialized");
  ("reason", JStr "Serialized from the actual service DTO, not a handwritten wire object."); ("rustAccepts", JBool true); ("valid", JBool true);
  ("value", JObject [("attempt", jint 1); ("bodyMs", jint 3); ("clientReused", JBool false); ("contextId", JStr "contract-context");
  ("cookieRevision", jint 2); ("delivery", JStr "response_started"); ("headersMs", jint 8); ("phase", JStr "complete"); ("queueMs", jint 2);
  ("requestBytes", jint 0); ("requestId", JStr "contract-request"); ("responseBytes", jint 4); ("spanId", JStr "fedcba9876543210");
  ("tlsProfile", JStr "chrome_133"); ("totalMs", jint 13); ("traceId", JStr "0123456789abcdef0123456789abcdef")])].
Definition wire_fixture_3 : jsval := JObject [("contract", JStr "transportError"); ("name", JStr "transportError-rust-serialized");
  ("reason", JStr "Serialized from the actual service DTO, not a handwritten wire object."); ("rustAccepts", JBool true); ("valid", JBool true);
  ("value", JObject [("code", JStr "CANCELLED"); ("diagnostics", JObject [("attempt", jint 1); ("bodyMs", jint 3); ("clientReused", JBool false);
  ("contextId", JStr "contract-context"); ("cookieRevision", jint 2); ("delivery", JStr "response_started"); ("headersMs", jint 8);
  ("phase", JStr "complete"); ("queueMs", jint 2); ("requestBytes", jint 0); ("requestId", JStr "contract-request"); ("responseBytes", jint 4);
  ("spanId", JStr "fedcba9876543210"); ("tlsProfile", JStr "chrome_133"); ("totalMs", jint 13); ("traceId", JStr "0123456789abcdef0123456789abcdef")]);
  ("message", JStr "Die Anfrage wurde abgebrochen.")])].
Definition wire_fixture_4 : jsval := JObject [("contract", JStr "contextInfo"); ("name", JStr "contextInfo-rust-serialized");
  ("reason", JStr "Serialized from the actual service DTO, not a handwritten wire object."); ("rustAccepts", JBool true); ("valid", JBool true);
  ("value", JObject [("contextId", JStr "contract-context"); ("cookieMode", JStr "managed"); ("expiresAtMs", jint 1800000000000);
  ("identity", JObject [("emulateHeaders", JBool false); ("tlsProfile", JStr "chrome_133")]); ("partition", JStr "contract-partition");
  ("revision", jint 2)])].
Definition wire_fixture_5 : jsval := JObject [("contract", JStr "cookieRecord"); ("name", JStr "cookieRecord-rust-serialized");
  ("reason", JStr "Serialized from the actual service DTO, not a handwritten wire object."); ("rustAccepts", JBool true); ("valid", JBool true);
  ("value", JObject [("domain", JStr "example.com"); ("hostOnly", JBool true); ("httpOnly", JBool true); ("name", JStr "session");
  ("partitioned", JBool false); ("path", JStr "/"); ("sameSite", JStr "Lax"); ("secure", JBool true); ("value", JStr "fixture-value")])].
Definition wire_fixture_6 : jsval := JObject [("contract", JStr "cookieSnapshot"); ("name", JStr "cookieSnapshot-rust-serialized");
  ("reason", JStr "Serialized from the actual service DTO, not a handwritten wire object."); ("rustAccepts", JBool true); ("valid", JBool true);
  ("value", JObject [("cookies", JArray [JObject [("domain", JStr "example.com"); ("hostOnly", JBool true); ("httpOnly", JBool true);
  ("name", JStr "session"); ("partitioned", JBool false); ("path", JStr "/"); ("sameSite", JStr "Lax"); ("secure", JBool true);
  ("value", JStr "fixture-value")]]); ("partitionKey", JStr "https://example.com")])].
Definition wire_fixture_7 : jsval := JObject [("contract", JStr "createContext"); ("name", JStr "createContext-rust-serialized");
  ("reason", JStr "Serialized from the actual service DTO, not a handwritten wire object."); ("rustAccepts", JBool true); ("valid", JBool true);
  ("value", JObject [("allowedOrigins", JArray [JStr "https://example.com"]); ("connection", JObject [("egress", JObject [("mode", JStr "direct")]);
  ("identity", JObject [("emulateHeaders", JBool false); ("tlsProfile", JStr "chrome_133")])]); ("cookieMode", JStr "managed");
  ("partition", JStr "contract-partition"); ("ttlMs", jint 60000)])].
Definition wire_fixture_8 : jsval := JObject [("contract", JStr "cookieOperation"); ("name", JStr "cookieOperation-rust-serialized");
  ("reason", JStr "Serialized from the actual service DTO, not a handwritten wire object."); ("rustAccepts", JBool true); ("valid", JBool true);
  ("value", JObject [("expectedRevision", jint 2); ("operation", JStr "import"); ("partition", JStr "contract-partition");
  ("snapshot", JObject [("cookies", JArray [JObject [("domain", JStr "example.com"); ("hostOnly", JBool true); ("httpOnly", JBool true);
  ("name", JStr "session"); ("partitioned", JBool false); ("path", JStr "/"); ("sameSite", JStr "Lax"); ("secure", JBool true);
  ("value", JStr "fixture-value")]]); ("partitionKey", JStr "https://example.com")])])].
Definition wire_fixture_9 : jsval := JObject [("contract", JStr "cookieReply"); ("name", JStr "cookieReply-rust-serialized");
  ("reason", JStr "Serialized from the actual service DTO, not a handwritten wire object."); ("rustAccepts", JBool true); ("valid", JBool true);
  ("value", JObject [("revision", jint 2); ("snapshot", JObject [("cookies", JArray [JObject [("domain", JStr "example.com"); ("hostOnly", JBool true);
  ("httpOnly", JBool true); ("name", JStr "session"); ("partitioned", JBool false); ("path", JStr "/"); ("sameSite", JStr "Lax"); ("secure", JBool true);
  ("value", JStr "fixture-value")]]); ("partitionKey", JStr "https://example.com")])])].
Definition wire_fixture_10 : jsval := JObject [("contract", JStr "requestStatus"); ("name", JStr "requestStatus-rust-serialized");
  ("reason", JStr "Serialized from the actual service DTO, not a handwritten wire object."); ("rustAccepts", JBool true); ("valid", JBool true);
  ("value", JObject [("diagnostics", JObject [("attempt", jint 1); ("bodyMs", jint 3); ("clientReused", JBool false);
  ("contextId", JStr "contract-context"); ("cookieRevision", jint 2); ("delivery", JStr "response_started"); ("headersMs", jint 8);
  ("phase", JStr "complete"); ("queueMs", jint 2); ("requestBytes", jint 0); ("requestId", JStr "contract-request"); ("responseBytes", jint 4);
  ("spanId", JStr "fedcba9876543210"); ("tlsProfile", JStr "chrome_133"); ("totalMs", jint 13); ("traceId", JStr "0123456789abcdef0123456789abcdef")]);
  ("state", JStr "complete")])].
Definition wire_fixture_11 : jsval := JObject [("contract", JStr "requestMetadata"); ("name", JStr "requestMetadata-max-safe");
  ("reason", JStr "Unsigned counters must remain exact in JavaScript."); ("rustAccepts", JBool true); ("valid", JBool true);
  ("value", JObject [("attempt", jint 9007199254740991); ("bodyLength", jint 0); ("connection", JObject [("egress", JObject [("mode", JStr "direct")]);
  ("identity", JObject [("emulateHeaders", JBool false); ("tlsProfile", JStr "chrome_133")])]); ("contextId", JNull); ("hasBody", JBool false);
  ("headers", JArray []); ("maxResponseBytes", jint 1024); ("method", JStr "GET"); ("partition", JStr "contract-partition");
  ("requestId", JStr "contract-request"); ("timeoutMs", jint 5000); ("url", JStr "https://example.com/")])].
Definition wire_fixture_12 : jsval := JObject [("contract", JStr "requestMetadata"); ("name", JStr "requestMetadata-unsafe");
  ("reason", JStr "Unsigned counters must remain exact in JavaScript."); ("rustAccepts", JBool true); ("valid", JBool false);
  ("value", JObject [("attempt", jint 9007199254740992); ("bodyLength", jint 0); ("connection", JObject [("egress", JObject [("mode", JStr "direct")]);
  ("identity", JObject [("emulateHeaders", JBool false); ("tlsProfile", JStr "chrome_133")])]); ("contextId", JNull); ("hasBody", JBool false);
  ("headers", JArray []); ("maxResponseBytes", jint 1024); ("method", JStr "GET"); ("partition", JStr "contract-partition");
  ("requestId", JStr "contract-request"); ("timeoutMs", jint 5000); ("url", JStr "https://example.com/")])].
Definition wire_fixture_13 : jsval := JObject [("contract", JStr "requestMetadata"); ("name", JStr "requestMetadata-negative");
  ("reason", JStr "Unsigned counters must remain exact in JavaScript."); ("rustAccepts", JBool false); ("valid", JBool false);
  ("value", JObject [("attempt", jint (-1)); ("bodyLength", jint 0); ("connection", JObject [("egress", JObject [("mode", JStr "direct")]);
  ("identity", JObject [("emulateHeaders", JBool false); ("tlsProfile", JStr "chrome_133")])]); ("contextId", JNull); ("hasBody", JBool false);
  ("headers", JArray []); ("maxResponseBytes", jint 1024); ("method", JStr "GET"); ("partition", JStr "contract-partition");
  ("requestId", JStr "contract-request"); ("timeoutMs", jint 5000); ("url", JStr "https://example.com/")])].
Definition wire_fixture_14 : jsval := JObject [("contract", JStr "requestMetadata"); ("name", JStr "requestMetadata-fraction");
  ("reason", JStr "Unsigned counters must remain exact in JavaScript."); ("rustAccepts", JBool false); ("valid", JBool false);
  ("value", JObject [("attempt", JNum (NFrac 0 1)); ("bodyLength", jint 0); ("connection", JObject [("egress", JObject [("mode", JStr "direct")]);
  ("identity", JObject [("emulateHeaders", JBool false); ("tlsProfile", JStr "chrome_133")])]); ("contextId", JNull); ("hasBody", JBool false);
  ("headers", JArray []); ("maxResponseBytes", jint 1024); ("method", JStr "GET"); ("partition", JStr "contract-partition");
  ("requestId", JStr "contract-request"); ("timeoutMs", jint 5000); ("url", JStr "https://example.com/")])].
Definition wire_fixture_15 : jsval := JObject [("contract", JStr "responseMetadata"); ("name", JStr "responseMetadata-max-safe");
  ("reason", JStr "Unsigned counters must remain exact in JavaScript."); ("rustAccepts", JBool true); ("valid", JBool true);
  ("value", JObject [("cookieRevision", jint 9007199254740991); ("diagnostics", JObject [("attempt", jint 1); ("bodyMs", jint 3);
  ("clientReused", JBool false); ("contextId", JStr "contract-context"); ("cookieRevision", jint 2); ("delivery", JStr "response_started");
  ("headersMs", jint 8); ("phase", JStr "complete"); ("queueMs", jint 2); ("requestBytes", jint 0); ("requestId", JStr "contract-request");
  ("responseBytes", jint 4); ("spanId", JStr "fedcba9876543210"); ("tlsProfile", JStr "chrome_133"); ("totalMs", jint 13);
  ("traceId", JStr "0123456789abcdef0123456789abcdef")]); ("headers", JArray [JArray [JStr "content-type"; JStr "text/plain"]; JArray [JStr "set-cookie";
  JStr "a=1; Path=/; Secure"]; JArray [JStr "set-cookie"; JStr "b=2; Path=/; Secure"]]); ("requestId", JStr "contract-request"); ("status", jint 200)])].
Definition wire_fixture_16 : jsval := JObject [("contract", JStr "responseMetadata"); ("name", JStr "responseMetadata-unsafe");
  ("reason", JStr "Unsigned counters must remain exact in JavaScript."); ("rustAccepts", JBool true); ("valid", JBool false);
  ("value", JObject [("cookieRevision", jint 9007199254740992); ("diagnostics", JObject [("attempt", jint 1); ("bodyMs", jint 3);
  ("clientReused", JBool false); ("contextId", JStr "contract-context"); ("cookieRevision", jint 2); ("delivery", JStr "response_started");
  ("headersMs", jint 8); ("phase", JStr "complete"); ("queueMs", jint 2); ("requestBytes", jint 0); ("requestId", JStr "contract-request");
  ("responseBytes", jint 4); ("spanId", JStr "fedcba9876543210"); ("tlsProfile", JStr "chrome_133"); ("totalMs", jint 13);
  ("traceId", JStr "0123456789abcdef0123456789abcdef")]); ("headers", JArray [JArray [JStr "content-type"; JStr "text/plain"]; JArray [JStr "set-cookie";
  JStr "a=1; Path=/; Secure"]; JArray [JStr "set-cookie"; JStr "b=2; Path=/; Secure"]]); ("requestId", JStr "contract-request"); ("status", jint 200)])].
Definition wire_fixture_17 : jsval := JObject [("contract", JStr "responseMetadata"); ("name", JStr "responseMetadata-negative");
  ("reason", JStr "Unsigned counters must remain exact in JavaScript."); ("rustAccepts", JBool false); ("valid", JBool false);
  ("value", JObject [("cookieRevision", jint (-1)); ("diagnostics", JObject [("attempt", jint 1); ("bodyMs", jint 3); ("clientReused", JBool false);
  ("contextId", JStr "contract-context"); ("cookieRevision", jint 2); ("delivery", JStr "response_started"); ("headersMs", jint 8);
  ("phase", JStr "complete"); ("queueMs", jint 2); ("requestBytes", jint 0); ("requestId", JStr "contract-request"); ("responseBytes", jint 4);
  ("spanId", JStr "fedcba9876543210"); ("tlsProfile", JStr "chrome_133"); ("totalMs", jint 13); ("traceId", JStr "0123456789abcdef0123456789abcdef")]);
  ("headers", JArray [JArray [JStr "content-type"; JStr "text/plain"]; JArray [JStr "set-cookie"; JStr "a=1; Path=/; Secure"]; JArray [JStr "set-cookie";
  JStr "b=2; Path=/; Secure"]]); ("requestId", JStr "contract-request"); ("status", jint 200)])].
Definition wire_fixture_18 : jsval := JObject [("contract", JStr "responseMetadata"); ("name", JStr "responseMetadata-fraction");
  ("reason", JStr "Unsigned counters must remain exact in JavaScript."); ("rustAccepts", JBool false); ("valid", JBool false);
  ("value", JObject [("cookieRevision", JNum (NFrac 0 1)); ("diagnostics", JObject [("attempt", jint 1); ("bodyMs", jint 3);
  ("clientReused", JBool false); ("contextId", JStr "contract-context"); ("cookieRevision", jint 2); ("delivery", JStr "response_started");
  ("headersMs", jint 8); ("phase", JStr "complete"); ("queueMs", jint 2); ("requestBytes", jint 0); ("requestId", JStr "contract-request");
  ("responseBytes", jint 4); ("spanId", JStr "fedcba9876543210"); ("tlsProfile", JStr "chrome_133"); ("totalMs", jint 13);
  ("traceId", JStr "0123456789abcdef0123456789abcdef")]); ("headers", JArray [JArray [JStr "content-type"; JStr "text/plain"]; JArray [JStr "set-cookie";
  JStr "a=1; Path=/; Secure"]; JArray [JStr "set-cookie"; JStr "b=2; Path=/; Secure"]]); ("requestId", JStr "contract-request"); ("status", jint 200)])].
Definition wire_fixture_19 : jsval := JObject [("contract", JStr "diagnostics"); ("name", JStr "diagnostics-max-safe");
  ("reason", JStr "Unsigned counters must remain exact in JavaScript."); ("rustAccepts", JBool true); ("valid", JBool true);
  ("value", JObject [("attempt", jint 1); ("bodyMs", jint 3); ("clientReused", JBool false); ("contextId", JStr "contract-context");
  ("cookieRevision", jint 2); ("delivery", JStr "response_started"); ("headersMs", jint 8); ("phase", JStr "complete"); ("queueMs", jint 2);
  ("requestBytes", jint 0); ("requestId", JStr "contract-request"); ("responseBytes", jint 9007199254740991); ("spanId", JStr "fedcba9876543210");
  ("tlsProfile", JStr "chrome_133"); ("totalMs", jint 13); ("traceId", JStr "0123456789abcdef0123456789abcdef")])].
Definition wire_fixture_20 : jsval := JObject [("contract", JStr "diagnostics"); ("name", JStr "diagnostics-unsafe"); ("reason", JStr "Unsigned counters must remain exact in JavaScript.");
  ("rustAccepts", JBool true); ("valid", JBool false); ("value", JObject [("attempt", jint 1); ("bodyMs", jint 3); ("clientReused", JBool false);
  ("contextId", JStr "contract-context"); ("cookieRevision", jint 2); ("delivery", JStr "response_started"); ("headersMs", jint 8);
  ("phase", JStr "complete"); ("queueMs", jint 2); ("requestBytes", jint 0); ("requestId", JStr "contract-request");
  ("responseBytes", jint 9007199254740992); ("spanId", JStr "fedcba9876543210"); ("tlsProfile", JStr "chrome_133"); ("totalMs", jint 13);
  ("traceId", JStr "0123456789abcdef0123456789abcdef")])].
Definition wire_fixture_21 : jsval := JObject [("contract", JStr "diagnostics"); ("name", JStr "diagnostics-negative");
  ("reason", JStr "Unsigned counters must remain exact in JavaScript."); ("rustAccepts", JBool false); ("valid", JBool false);
  ("value", JObject [("attempt", jint 1); ("bodyMs", jint 3); ("clientReused", JBool false); ("contextId", JStr "contract-context");
  ("cookieRevision", jint 2); ("delivery", JStr "response_started"); ("headersMs", jint 8); ("phase", JStr "complete"); ("queueMs", jint 2);
  ("requestBytes", jint 0); ("requestId", JStr "contract-request"); ("responseBytes", jint (-1)); ("spanId", JStr "fedcba9876543210");
  ("tlsProfile", JStr "chrome_133"); ("totalMs", jint 13); ("traceId", JStr "0123456789abcdef0123456789abcdef")])].
Definition wire_fixture_22 : jsval := JObject [("contract", JStr "diagnostics"); ("name", JStr "diagnostics-fraction");
  ("reason", JStr "Unsigned counters must remain exact in JavaScript."); ("rustAccepts", JBool false); ("valid", JBool false);
  ("value", JObject [("attempt", jint 1); ("bodyMs", jint 3); ("clientReused", JBool false); ("contextId", JStr "contract-context");
  ("cookieRevision", jint 2); ("delivery", JStr "response_started"); ("headersMs", jint 8); ("phase", JStr "complete"); ("queueMs", jint 2);
  ("requestBytes", jint 0); ("requestId", JStr "contract-request"); ("responseBytes", JNum (NFrac 0 1)); ("spanId", JStr "fedcba9876543210");
  ("tlsProfile", JStr "chrome_133"); ("totalMs", jint 13); ("traceId", JStr "0123456789abcdef0123456789abcdef")])].
Definition wire_fixture_23 : jsval := JObject [("contract", JStr "contextInfo"); ("name", JStr "contextInfo-max-safe");
  ("reason", JStr "Unsigned counters must remain exact in JavaScript."); ("rustAccepts", JBool true); ("valid", JBool true);
  ("value", JObject [("contextId", JStr "contract-context"); ("cookieMode", JStr "managed"); ("expiresAtMs", jint 1800000000000);
  ("identity", JObject [("emulateHeaders", JBool false); ("tlsProfile", JStr "chrome_133")]); ("partition", JStr "contract-partition");
  ("revision", jint 9007199254740991)])].
Definition wire_fixture_24 : jsval := JObject [("contract", JStr "contextInfo"); ("name", JStr "contextInfo-unsafe"); ("reason", JStr "Unsigned counters must remain exact in JavaScript.");
  ("rustAccepts", JBool true); ("valid", JBool false); ("value", JObject [("contextId", JStr "contract-context"); ("cookieMode", JStr "managed");
  ("expiresAtMs", jint 1800000000000); ("identity", JObject [("emulateHeaders", JBool false); ("tlsProfile", JStr "chrome_133")]);
  ("partition", JStr "contract-partition"); ("revision", jint 9007199254740992)])].
Definition wire_fixture_25 : jsval := JObject [("contract", JStr "contextInfo"); ("name", JStr "contextInfo-negative");
  ("reason", JStr "Unsigned counters must remain exact in JavaScript."); ("rustAccepts", JBool false); ("valid", JBool false);
  ("value", JObject [("contextId", JStr "contract-context"); ("cookieMode", JStr "managed"); ("expiresAtMs", jint 1800000000000);
  ("identity", JObject [("emulateHeaders", JBool false); ("tlsProfile", JStr "chrome_133")]); ("partition", JStr "contract-partition");
  ("revision", jint (-1))])].
Definition wire_fixture_26 : jsval := JObject [("contract", JStr "contextInfo"); ("name", JStr "contextInfo-fraction");
  ("reason", JStr "Unsigned counters must remain exact in JavaScript."); ("rustAccepts", JBool false); ("valid", JBool false);
  ("value", JObject [("contextId", JStr "contract-context"); ("cookieMode", JStr "managed"); ("expiresAtMs", jint 1800000000000);
  ("identity", JObject [("emulateHeaders", JBool false); ("tlsProfile", JStr "chrome_133")]); ("partition", JStr "contract-partition");
  ("revision", JNum (NFrac 0 1))])].
Definition wire_fixture_27 : jsval := JObject [("contract", JStr "cookieOperation"); ("name", JStr "cookieOperation-max-safe");
  ("reason", JStr "Unsigned counters must remain exact in JavaScript."); ("rustAccepts", JBool true); ("valid", JBool true);
  ("value", JObject [("expectedRevision", jint 9007199254740991); ("operation", JStr "import"); ("partition", JStr "contract-partition");
  ("snapshot", JObject [("cookies", JArray [JObject [("domain", JStr "example.com"); ("hostOnly", JBool true); ("httpOnly", JBool true);
  ("name", JStr "session"); ("partitioned", JBool false); ("path", JStr "/"); ("sameSite", JStr "Lax"); ("secure", JBool true);
  ("value", JStr "fixture-value")]]); ("partitionKey", JStr "https://example.com")])])].
Definition wire_fixture_28 : jsval := JObject [("contract", JStr "cookieOperation"); ("name", JStr "cookieOperation-unsafe");
  ("reason", JStr "Unsigned counters must remain exact in JavaScript."); ("rustAccepts", JBool true); ("valid", JBool false);
  ("value", JObject [("expectedRevision", jint 9007199254740992); ("operation", JStr "import"); ("partition", JStr "contract-partition");
  ("snapshot", JObject [("cookies", JArray [JObject [("domain", JStr "example.com"); ("hostOnly", JBool true); ("httpOnly", JBool true);
  ("name", JStr "session"); ("partitioned", JBool false); ("path", JStr "/"); ("sameSite", JStr "Lax"); ("secure", JBool true);
  ("value", JStr "fixture-value")]]); ("partitionKey", JStr "https://example.com")])])].
Definition wire_fixture_29 : jsval := JObject [("contract", JStr "cookieOperation"); ("name", JStr "cookieOperation-negative");
  ("reason", JStr "Unsigned counters must remain exact in JavaScript."); ("rustAccepts", JBool false); ("valid", JBool false);
  ("value", JObject [("expectedRevision", jint (-1)); ("operation", JStr "import"); ("partition", JStr "contract-partition");
  ("snapshot", JObject [("cookies", JArray [JObject [("domain", JStr "example.com"); ("hostOnly", JBool true); ("httpOnly", JBool true);
  ("name", JStr "session"); ("partitioned", JBool false); ("path", JStr "/"); ("sameSite", JStr "Lax"); ("secure", JBool true);
  ("value", JStr "fixture-value")]]); ("partitionKey", JStr "https://example.com")])])].
Definition wire_fixture_30 : jsval := JObject [("contract", JStr "cookieOperation"); ("name", JStr "cookieOperation-fraction");
  ("reason", JStr "Unsigned counters must remain exact in JavaScript."); ("rustAccepts", JBool false); ("valid", JBool false);
  ("value", JObject [("expectedRevision", JNum (NFrac 0 1)); ("operation", JStr "import"); ("partition", JStr "contract-partition");
  ("snapshot", JObject [("cookies", JArray [JObject [("domain", JStr "example.com"); ("hostOnly", JBool true); ("httpOnly", JBool true);
  ("name", JStr "session"); ("partitioned", JBool false); ("path", JStr "/"); ("sameSite", JStr "Lax"); ("secure", JBool true);
  ("value", JStr "fixture-value")]]); ("partitionKey", JStr "https://example.com")])])].
Definition wire_fixture_31 : jsval := JObject [("contract", JStr "cookieReply"); ("name", JStr "cookieReply-max-safe");
  ("reason", JStr "Unsigned counters must remain exact in JavaScript."); ("rustAccepts", JBool true); ("valid", JBool true);
  ("value", JObject [("revision", jint 9007199254740991); ("snapshot", JObject [("cookies", JArray [JObject [("domain", JStr "example.com");
  ("hostOnly", JBool true); ("httpOnly", JBool true); ("name", JStr "session"); ("partitioned", JBool false); ("path", JStr "/");
  ("sameSite", JStr "Lax"); ("secure", JBool true); ("value", JStr "fixture-value")]]); ("partitionKey", JStr "https://example.com")])])].
Definition wire_fixture_32 : jsval := JObject [("contract", JStr "cookieReply"); ("name", JStr "cookieReply-unsafe"); ("reason", JStr "Unsigned counters must remain exact in JavaScript.");
  ("rustAccepts", JBool true); ("valid", JBool false); ("value", JObject [("revision", jint 9007199254740992);
  ("snapshot", JObject [("cookies", JArray [JObject [("domain", JStr "example.com"); ("hostOnly", JBool true); ("httpOnly", JBool true);
  ("name", JStr "session"); ("partitioned", JBool false); ("path", JStr "/"); ("sameSite", JStr "Lax"); ("secure", JBool true);
  ("value", JStr "fixture-value")]]); ("partitionKey", JStr "https://example.com")])])].
Definition wire_fixture_33 : jsval := JObject [("contract", JStr "cookieReply"); ("name", JStr "cookieReply-negative");
  ("reason", JStr "Unsigned counters must remain exact in JavaScript."); ("rustAccepts", JBool false); ("valid", JBool false);
  ("value", JObject [("revision", jint (-1)); ("snapshot", JObject [("cookies", JArray [JObject [("domain", JStr "example.com");
  ("hostOnly", JBool true); ("httpOnly", JBool true); ("name", JStr "session"); ("partitioned", JBool false); ("path", JStr "/");
  ("sameSite", JStr "Lax"); ("secure", JBool true); ("value", JStr "fixture-value")]]); ("partitionKey", JStr "https://example.com")])])].
Definition wire_fixture_34 : jsval := JObject [("contract", JStr "cookieReply"); ("name", JStr "cookieReply-fraction");
  ("reason", JStr "Unsigned counters must remain exact in JavaScript."); ("rustAccepts", JBool false); ("valid", JBool false);
  ("value", JObject [("revision", JNum (NFrac 0 1)); ("snapshot", JObject [("cookies", JArray [JObject [("domain", JStr "example.com");
  ("hostOnly", JBool true); ("httpOnly", JBool true); ("name", JStr "session"); ("partitioned", JBool false); ("path", JStr "/");
  ("sameSite", JStr "Lax"); ("secure", JBool true); ("value", JStr "fixture-value")]]); ("partitionKey", JStr "https://example.com")])])].
Definition wire_fixture_35 : jsval := JObject [("contract", JStr "requestStatus"); ("name", JStr "requestStatus-max-safe");
  ("reason", JStr "Unsigned counters must remain exact in JavaScript."); ("rustAccepts", JBool true); ("valid", JBool true);
  ("value", JObject [("diagnostics", JObject [("attempt", jint 9007199254740991); ("bodyMs", jint 3); ("clientReused", JBool false);
  ("contextId", JStr "contract-context"); ("cookieRevision", jint 2); ("delivery", JStr "response_started"); ("headersMs", jint 8);
  ("phase", JStr "complete"); ("queueMs", jint 2); ("requestBytes", jint 0); ("requestId", JStr "contract-request"); ("responseBytes", jint 4);
  ("spanId", JStr "fedcba9876543210"); ("tlsProfile", JStr "chrome_133"); ("totalMs", jint 13); ("traceId", JStr "0123456789abcdef0123456789abcdef")]);
  ("state", JStr "complete")])].
Definition wire_fixture_36 : jsval := JObject [("contract", JStr "requestStatus"); ("name", JStr "requestStatus-unsafe");
  ("reason", JStr "Unsigned counters must remain exact in JavaScript."); ("rustAccepts", JBool true); ("valid", JBool false);
  ("value", JObject [("diagnostics", JObject [("attempt", jint 9007199254740992); ("bodyMs", jint 3); ("clientReused", JBool false);
  ("contextId", JStr "contract-context"); ("cookieRevision", jint 2); ("delivery", JStr "response_started"); ("headersMs", jint 8);
  ("phase", JStr "complete"); ("queueMs", jint 2); ("requestBytes", jint 0); ("requestId", JStr "contract-request"); ("responseBytes", jint 4);
  ("spanId", JStr "fedcba9876543210"); ("tlsProfile", JStr "chrome_133"); ("totalMs", jint 13); ("traceId", JStr "0123456789abcdef0123456789abcdef")]);
  ("state", JStr "complete")])].
Definition wire_fixture_37 : jsval := JObject [("contract", JStr "requestStatus"); ("name", JStr "requestStatus-negative");
  ("reason", JStr "Unsigned counters must remain exact in JavaScript."); ("rustAccepts", JBool false); ("valid", JBool false);
  ("value", JObject [("diagnostics", JObject [("attempt", jint (-1)); ("bodyMs", jint 3); ("clientReused", JBool false);
  ("contextId", JStr "contract-context"); ("cookieRevision", jint 2); ("delivery", JStr "response_started"); ("headersMs", jint 8);
  ("phase", JStr "complete"); ("queueMs", jint 2); ("requestBytes", jint 0); ("requestId", JStr "contract-request"); ("responseBytes", jint 4);
  ("spanId", JStr "fedcba9876543210"); ("tlsProfile", JStr "chrome_133"); ("totalMs", jint 13); ("traceId", JStr "0123456789abcdef0123456789abcdef")]);
  ("state", JStr "complete")])].
Definition wire_fixture_38 : jsval := JObject [("contract", JStr "requestStatus"); ("name", JStr "requestStatus-fraction");
  ("reason", JStr "Unsigned counters must remain exact in JavaScript."); ("rustAccepts", JBool false); ("valid", JBool false);
  ("value", JObject [("diagnostics", JObject [("attempt", JNum (NFrac 0 1)); ("bodyMs", jint 3); ("clientReused", JBool false);
  ("contextId", JStr "contract-context"); ("cookieRevision", jint 2); ("delivery", JStr "response_started"); ("headersMs", jint 8);
  ("phase", JStr "complete"); ("queueMs", jint 2); ("requestBytes", jint 0); ("requestId", JStr "contract-request"); ("responseBytes", jint 4);
  ("spanId", JStr "fedcba9876543210"); ("tlsProfile", JStr "chrome_133"); ("totalMs", jint 13); ("traceId", JStr "0123456789abcdef0123456789abcdef")]);
  ("state", JStr "complete")])].
Definition wire_fixture_39 : jsval := JObject [("contract", JStr "responseMetadata"); ("name", JStr "responseMetadata-status-overflow");
  ("reason", JStr "Wire discriminants, numeric widths, and tuple arity must agree with serde."); ("rustAccepts", JBool false); ("valid", JBool false);
  ("value", JObject [("cookieRevision", jint 2); ("diagnostics", JObject [("attempt", jint 1); ("bodyMs", jint 3); ("clientReused", JBool false);
  ("contextId", JStr "contract-context"); ("cookieRevision", jint 2); ("delivery", JStr "response_started"); ("headersMs", jint 8);
  ("phase", JStr "complete"); ("queueMs", jint 2); ("requestBytes", jint 0); ("requestId", JStr "contract-request"); ("responseBytes", jint 4);
  ("spanId", JStr "fedcba9876543210"); ("tlsProfile", JStr "chrome_133"); ("totalMs", jint 13); ("traceId", JStr "0123456789abcdef0123456789abcdef")]);
  ("headers", JArray [JArray [JStr "content-type"; JStr "text/plain"]; JArray [JStr "set-cookie"; JStr "a=1; Path=/; Secure"]; JArray [JStr "set-cookie";
  JStr "b=2; Path=/; Secure"]]); ("requestId", JStr "contract-request"); ("status", jint 65536)])].
Definition wire_fixture_40 : jsval := JObject [("contract", JStr "responseMetadata"); ("name", JStr "responseMetadata-header-pair-arity");
  ("reason", JStr "Wire discriminants, numeric widths, and tuple arity must agree with serde."); ("rustAccepts", JBool false); ("valid", JBool false);
  ("value", JObject [("cookieRevision", jint 2); ("diagnostics", JObject [("attempt", jint 1); ("bodyMs", jint 3); ("clientReused", JBool false);
  ("contextId", JStr "contract-context"); ("cookieRevision", jint 2); ("delivery", JStr "response_started"); ("headersMs", jint 8);
  ("phase", JStr "complete"); ("queueMs", jint 2); ("requestBytes", jint 0); ("requestId", JStr "contract-request"); ("responseBytes", jint 4);
  ("spanId", JStr "fedcba9876543210"); ("tlsProfile", JStr "chrome_133"); ("totalMs", jint 13); ("traceId", JStr "0123456789abcdef0123456789abcdef")]);
  ("headers", JArray [JArray [JStr "name"; JStr "value"; JStr "extra"]; JArray [JStr "set-cookie"; JStr "a=1; Path=/; Secure"];
  JArray [JStr "set-cookie"; JStr "b=2; Path=/; Secure"]]); ("requestId", JStr "contract-request"); ("status", jint 200)])].
Definition wire_fixture_41 : jsval := JObject [("contract", JStr "diagnostics"); ("name", JStr "diagnostics-unknown-delivery");
  ("reason", JStr "Wire discriminants, numeric widths, and tuple arity must agree with serde."); ("rustAccepts", JBool false); ("valid", JBool false);
  ("value", JObject [("attempt", jint 1); ("bodyMs", jint 3); ("clientReused", JBool false); ("contextId", JStr "contract-context");
  ("cookieRevision", jint 2); ("delivery", JStr "sent"); ("headersMs", jint 8); ("phase", JStr "complete"); ("queueMs", jint 2);
  ("requestBytes", jint 0); ("requestId", JStr "contract-request"); ("responseBytes", jint 4); ("spanId", JStr "fedcba9876543210");
  ("tlsProfile", JStr "chrome_133"); ("totalMs", jint 13); ("traceId", JStr "0123456789abcdef0123456789abcdef")])].
Definition wire_fixture_42 : jsval := JObject [("contract", JStr "diagnostics"); ("name", JStr "diagnostics-unknown-phase");
  ("reason", JStr "Wire discriminants, numeric widths, and tuple arity must agree with serde."); ("rustAccepts", JBool false); ("valid", JBool false);
  ("value", JObject [("attempt", jint 1); ("bodyMs", jint 3); ("clientReused", JBool false); ("contextId", JStr "contract-context");
  ("cookieRevision", jint 2); ("delivery", JStr "response_started"); ("headersMs", jint 8); ("phase", JStr "done"); ("queueMs", jint 2);
  ("requestBytes", jint 0); ("requestId", JStr "contract-request"); ("responseBytes", jint 4); ("spanId", JStr "fedcba9876543210");
  ("tlsProfile", JStr "chrome_133"); ("totalMs", jint 13); ("traceId", JStr "0123456789abcdef0123456789abcdef")])].
Definition wire_fixture_43 : jsval := JObject [("contract", JStr "transportError"); ("name", JStr "transportError-unknown-error-code");
  ("reason", JStr "Wire discriminants, numeric widths, and tuple arity must agree with serde."); ("rustAccepts", JBool false); ("valid", JBool false);
  ("value", JObject [("code", JStr "RETRY_REQUIRED"); ("diagnostics", JObject [("attempt", jint 1); ("bodyMs", jint 3); ("clientReused", JBool false);
  ("contextId", JStr "contract-context"); ("cookieRevision", jint 2); ("delivery", JStr "response_started"); ("headersMs", jint 8);
  ("phase", JStr "complete"); ("queueMs", jint 2); ("requestBytes", jint 0); ("requestId", JStr "contract-request"); ("responseBytes", jint 4);
  ("spanId", JStr "fedcba9876543210"); ("tlsProfile", JStr "chrome_133"); ("totalMs", jint 13); ("traceId", JStr "0123456789abcdef0123456789abcdef")]);
  ("message", JStr "Die Anfrage wurde abgebrochen.")])].
Definition wire_fixture_44 : jsval := JObject [("contract", JStr "contextInfo"); ("name", JStr "contextInfo-unknown-cookie-mode");
  ("reason", JStr "Wire discriminants, numeric widths, and tuple arity must agree with serde."); ("rustAccepts", JBool false); ("valid", JBool false);
  ("value", JObject [("contextId", JStr "contract-context"); ("cookieMode", JStr "automatic"); ("expiresAtMs", jint 1800000000000);
  ("identity", JObject [("emulateHeaders", JBool false); ("tlsProfile", JStr "chrome_133")]); ("partition", JStr "contract-partition");
  ("revision", jint 2)])].
Definition wire_fixture_45 : jsval := JObject [("contract", JStr "cookieRecord"); ("name", JStr "cookieRecord-same-site-is-case-sensitive");
  ("reason", JStr "Wire discriminants, numeric widths, and tuple arity must agree with serde."); ("rustAccepts", JBool false); ("valid", JBool false);
  ("value", JObject [("domain", JStr "example.com"); ("hostOnly", JBool true); ("httpOnly", JBool true); ("name", JStr "session");
  ("partitioned", JBool false); ("path", JStr "/"); ("sameSite", JStr "lax"); ("secure", JBool true); ("value", JStr "fixture-value")])].
Definition wire_fixture_46 : jsval := JObject [("contract", JStr "cookieSnapshot"); ("name", JStr "cookieSnapshot-snapshot-cookie-shape");
  ("reason", JStr "Wire discriminants, numeric widths, and tuple arity must agree with serde."); ("rustAccepts", JBool false); ("valid", JBool false);
  ("value", JObject [("cookies", JArray [JObject [("name", JStr "incomplete")]]); ("partitionKey", JStr "https://example.com")])].
Definition wire_fixture_47 : jsval := JObject [("contract", JStr "requestStatus"); ("name", JStr "requestStatus-unknown-state");
  ("reason", JStr "Wire discriminants, numeric widths, and tuple arity must agree with serde."); ("rustAccepts", JBool false); ("valid", JBool false);
  ("value", JObject [("diagnostics", JObject [("attempt", jint 1); ("bodyMs", jint 3); ("clientReused", JBool false);
  ("contextId", JStr "contract-context"); ("cookieRevision", jint 2); ("delivery", JStr "response_started"); ("headersMs", jint 8);
  ("phase", JStr "complete"); ("queueMs", jint 2); ("requestBytes", jint 0); ("requestId", JStr "contract-request"); ("responseBytes", jint 4);
  ("spanId", JStr "fedcba9876543210"); ("tlsProfile", JStr "chrome_133"); ("totalMs", jint 13); ("traceId", JStr "0123456789abcdef0123456789abcdef")]);
  ("state", JStr "retrying")])].
Definition wire_fixture_48 : jsval := JObject [("contract", JStr "requestMetadata"); ("name", JStr "requestMetadata-unknown-egress-mode");
  ("reason", JStr "Wire discriminants, numeric widths, and tuple arity must agree with serde."); ("rustAccepts", JBool false); ("valid", JBool false);
  ("value", JObject [("attempt", jint 1); ("bodyLength", jint 0); ("connection", JObject [("egress", JObject [("mode", JStr "automatic")]);
  ("identity", JObject [("emulateHeaders", JBool false); ("tlsProfile", JStr "chrome_133")])]); ("contextId", JNull); ("hasBody", JBool false);
  ("headers", JArray []); ("maxResponseBytes", jint 1024); ("method", JStr "GET"); ("partition", JStr "contract-partition");
  ("requestId", JStr "contract-request"); ("timeoutMs", jint 5000); ("url", JStr "https://example.com/")])].
Definition wire_fixture_49 : jsval := JObject [("contract", JStr "cookieOperation"); ("name", JStr "cookieOperation-unknown-operation");
  ("reason", JStr "Wire discriminants, numeric widths, and tuple arity must agree with serde."); ("rustAccepts", JBool false); ("valid", JBool false);
  ("value", JObject [("expectedRevision", jint 2); ("operation", JStr "merge"); ("partition", JStr "contract-partition");
  ("snapshot", JObject [("cookies", JArray [JObject [("domain", JStr "example.com"); ("hostOnly", JBool true); ("httpOnly", JBool true);
  ("name", JStr "session"); ("partitioned", JBool false); ("path", JStr "/"); ("sameSite", JStr "Lax"); ("secure", JBool true);
  ("value", JStr "fixture-value")]]); ("partitionKey", JStr "https://example.com")])])].
Definition wire_fixture_50 : jsval := JObject [("contract", JStr "requestMetadata"); ("name", JStr "requestMetadata-header-order-browser");
  ("reason", JStr "headerOrder accepts exactly caller and browser."); ("rustAccepts", JBool true); ("valid", JBool true);
  ("value", JObject [("attempt", jint 1); ("bodyLength", jint 0); ("connection", JObject [("egress", JObject [("mode", JStr "direct")]);
  ("identity", JObject [("emulateHeaders", JBool false); ("tlsProfile", JStr "chrome_133")])]); ("contextId", JNull); ("hasBody", JBool false);
  ("headerOrder", JStr "browser"); ("headers", JArray []); ("maxResponseBytes", jint 1024); ("method", JStr "GET");
  ("partition", JStr "contract-partition"); ("requestId", JStr "contract-request"); ("timeoutMs", jint 5000); ("url", JStr "https://example.com/")])].
Definition wire_fixture_51 : jsval := JObject [("contract", JStr "requestMetadata"); ("name", JStr "requestMetadata-header-order-caller");
  ("reason", JStr "headerOrder accepts exactly caller and browser."); ("rustAccepts", JBool true); ("valid", JBool true);
  ("value", JObject [("attempt", jint 1); ("bodyLength", jint 0); ("connection", JObject [("egress", JObject [("mode", JStr "direct")]);
  ("identity", JObject [("emulateHeaders", JBool false); ("tlsProfile", JStr "chrome_133")])]); ("contextId", JNull); ("hasBody", JBool false);
  ("headerOrder", JStr "caller"); ("headers", JArray []); ("maxResponseBytes", jint 1024); ("method", JStr "GET");
  ("partition", JStr "contract-partition"); ("requestId", JStr "contract-request"); ("timeoutMs", jint 5000); ("url", JStr "https://example.com/")])].
Definition wire_fixture_52 : jsval := JObject [("contract", JStr "requestMetadata"); ("name", JStr "requestMetadata-header-order-unknown");
  ("reason", JStr "headerOrder accepts exactly caller and browser."); ("rustAccepts", JBool false); ("valid", JBool false);
  ("value", JObject [("attempt", jint 1); ("bodyLength", jint 0); ("connection", JObject [("egress", JObject [("mode", JStr "direct")]);
  ("identity", JObject [("emulateHeaders", JBool false); ("tlsProfile", JStr "chrome_133")])]); ("contextId", JNull); ("hasBody", JBool false);
  ("headerOrder", JStr "chrome"); ("headers", JArray []); ("maxResponseBytes", jint 1024); ("method", JStr "GET");
  ("partition", JStr "contract-partition"); ("requestId", JStr "contract-request"); ("timeoutMs", jint 5000); ("url", JStr "https://example.com/")])].
Definition wire_fixture_53 : jsval := JObject [("contract", JStr "diagnostics"); ("name", JStr "diagnostics-required-null-times");
  ("reason", JStr "Unavailable timing fields are explicit null; omitted optional fields stay omitted."); ("rustAccepts", JBool true);
  ("valid", JBool true); ("value", JObject [("attempt", jint 1); ("bodyMs", JNull); ("delivery", JStr "not_started"); ("headersMs", JNull);
  ("phase", JStr "queued"); ("queueMs", jint 2); ("requestBytes", jint 0); ("requestId", JStr "contract-request"); ("responseBytes", jint 4);
  ("spanId", JStr "fedcba9876543210"); ("tlsProfile", JStr "chrome_133"); ("totalMs", jint 13); ("traceId", JStr "0123456789abcdef0123456789abcdef")])].
Definition wire_fixture_54 : jsval := JObject [("contract", JStr "diagnostics"); ("name", JStr "diagnostics-missing-serialized-time");
  ("reason", JStr "A response serializer emits null timings even though serde input permits omission."); ("rustAccepts", JBool true);
  ("valid", JBool false); ("value", JObject [("attempt", jint 1); ("bodyMs", JNull); ("delivery", JStr "not_started"); ("phase", JStr "queued");
  ("queueMs", jint 2); ("requestBytes", jint 0); ("requestId", JStr "contract-request"); ("responseBytes", jint 4); ("spanId", JStr "fedcba9876543210");
  ("tlsProfile", JStr "chrome_133"); ("totalMs", jint 13); ("traceId", JStr "0123456789abcdef0123456789abcdef")])].
Definition wire_fixture_55 : jsval := JObject [("contract", JStr "diagnostics"); ("name", JStr "diagnostics-missing-traceId");
  ("reason", JStr "Service diagnostics always carry both correlation IDs."); ("rustAccepts", JBool false); ("valid", JBool false);
  ("value", JObject [("attempt", jint 1); ("bodyMs", JNull); ("delivery", JStr "not_started"); ("headersMs", JNull); ("phase", JStr "queued");
  ("queueMs", jint 2); ("requestBytes", jint 0); ("requestId", JStr "contract-request"); ("responseBytes", jint 4); ("spanId", JStr "fedcba9876543210");
  ("tlsProfile", JStr "chrome_133"); ("totalMs", jint 13)])].
Definition wire_fixture_56 : jsval := JObject [("contract", JStr "diagnostics"); ("name", JStr "diagnostics-missing-spanId");
  ("reason", JStr "Service diagnostics always carry both correlation IDs."); ("rustAccepts", JBool false); ("valid", JBool false);
  ("value", JObject [("attempt", jint 1); ("bodyMs", JNull); ("delivery", JStr "not_started"); ("headersMs", JNull); ("phase", JStr "queued");
  ("queueMs", jint 2); ("requestBytes", jint 0); ("requestId", JStr "contract-request"); ("responseBytes", jint 4); ("tlsProfile", JStr "chrome_133");
  ("totalMs", jint 13); ("traceId", JStr "0123456789abcdef0123456789abcdef")])].
Definition wire_fixture_57 : jsval := JObject [("contract", JStr "requestStatus"); ("name", JStr "requestStatus-Queued");
  ("reason", JStr "Status exposes execution state and safe terminal errors without inventing delivery certainty."); ("rustAccepts", JBool true);
  ("valid", JBool true); ("value", JObject [("diagnostics", JObject [("attempt", jint 1); ("bodyMs", jint 3); ("clientReused", JBool false);
  ("contextId", JStr "contract-context"); ("cookieRevision", jint 2); ("delivery", JStr "not_started"); ("headersMs", jint 8); ("phase", JStr "queued");
  ("queueMs", jint 2); ("requestBytes", jint 0); ("requestId", JStr "contract-request"); ("responseBytes", jint 4); ("spanId", JStr "fedcba9876543210");
  ("tlsProfile", JStr "chrome_133"); ("totalMs", jint 13); ("traceId", JStr "0123456789abcdef0123456789abcdef")]); ("state", JStr "queued")])].
Definition wire_fixture_58 : jsval := JObject [("contract", JStr "requestStatus"); ("name", JStr "requestStatus-Active");
  ("reason", JStr "Status exposes execution state and safe terminal errors without inventing delivery certainty."); ("rustAccepts", JBool true);
  ("valid", JBool true); ("value", JObject [("diagnostics", JObject [("attempt", jint 1); ("bodyMs", jint 3); ("clientReused", JBool false);
  ("contextId", JStr "contract-context"); ("cookieRevision", jint 2); ("delivery", JStr "possibly_sent"); ("headersMs", jint 8);
  ("phase", JStr "upstream"); ("queueMs", jint 2); ("requestBytes", jint 0); ("requestId", JStr "contract-request"); ("responseBytes", jint 4);
  ("spanId", JStr "fedcba9876543210"); ("tlsProfile", JStr "chrome_133"); ("totalMs", jint 13); ("traceId", JStr "0123456789abcdef0123456789abcdef")]);
  ("state", JStr "active")])].
Definition wire_fixture_59 : jsval := JObject [("contract", JStr "requestStatus"); ("name", JStr "requestStatus-Failed");
  ("reason", JStr "Status exposes execution state and safe terminal errors without inventing delivery certainty."); ("rustAccepts", JBool true);
  ("valid", JBool true); ("value", JObject [("diagnostics", JObject [("attempt", jint 1); ("bodyMs", jint 3); ("clientReused", JBool false);
  ("contextId", JStr "contract-context"); ("cookieRevision", jint 2); ("delivery", JStr "response_started"); ("headersMs", jint 8);
  ("phase", JStr "body"); ("queueMs", jint 2); ("requestBytes", jint 0); ("requestId", JStr "contract-request"); ("responseBytes", jint 4);
  ("spanId", JStr "fedcba9876543210"); ("tlsProfile", JStr "chrome_133"); ("totalMs", jint 13); ("traceId", JStr "0123456789abcdef0123456789abcdef")]);
  ("error", JObject [("code", JStr "CANCELLED"); ("diagnostics", JObject [("attempt", jint 1); ("bodyMs", jint 3); ("clientReused", JBool false);
  ("contextId", JStr "contract-context"); ("cookieRevision", jint 2); ("delivery", JStr "response_started"); ("headersMs", jint 8);
  ("phase", JStr "body"); ("queueMs", jint 2); ("requestBytes", jint 0); ("requestId", JStr "contract-request"); ("responseBytes", jint 4);
  ("spanId", JStr "fedcba9876543210"); ("tlsProfile", JStr "chrome_133"); ("totalMs", jint 13); ("traceId", JStr "0123456789abcdef0123456789abcdef")]);
  ("message", JStr "Die Anfrage wurde abgebrochen.")]); ("state", JStr "failed")])].
Definition wire_fixture_60 : jsval := JObject [("contract", JStr "transportError"); ("name", JStr "transportError-Unauthorized");
  ("reason", JStr "Pre-admission control errors omit diagnostics and use safe service messages."); ("rustAccepts", JBool true); ("valid", JBool true);
  ("value", JObject [("code", JStr "UNAUTHORIZED"); ("message", JStr (JsStr [68; 105; 101; 32; 68; 105; 101; 110; 115; 116; 97; 117; 116; 104; 101; 110;
  116; 105; 102; 105; 122; 105; 101; 114; 117; 110; 103; 32; 105; 115; 116; 32; 117; 110; 103; 252; 108; 116; 105; 103; 46]%N))])].
Definition wire_fixture_61 : jsval := JObject [("contract", JStr "transportError"); ("name", JStr "transportError-InvalidRequest");
  ("reason", JStr "Pre-admission control errors omit diagnostics and use safe service messages."); ("rustAccepts", JBool true); ("valid", JBool true);
  ("value", JObject [("code", JStr "INVALID_REQUEST"); ("message", JStr (JsStr [68; 105; 101; 32; 65; 110; 102; 114; 97; 103; 101; 32; 105; 115; 116; 32;
  117; 110; 103; 252; 108; 116; 105; 103; 46]%N))])].
Definition wire_fixture_62 : jsval := JObject [("contract", JStr "transportError"); ("name", JStr "transportError-UnsupportedCapability");
  ("reason", JStr "Pre-admission control errors omit diagnostics and use safe service messages."); ("rustAccepts", JBool true); ("valid", JBool true);
  ("value", JObject [("code", JStr "UNSUPPORTED_CAPABILITY"); ("message", JStr (JsStr [68; 105; 101; 32; 97; 110; 103; 101; 102; 111; 114; 100; 101; 114;
  116; 101; 32; 84; 114; 97; 110; 115; 112; 111; 114; 116; 102; 117; 110; 107; 116; 105; 111; 110; 32; 119; 105; 114; 100; 32; 110; 105; 99; 104; 116;
  32; 117; 110; 116; 101; 114; 115; 116; 252; 116; 122; 116; 46]%N))])].
Definition wire_fixture_63 : jsval := JObject [("contract", JStr "transportError"); ("name", JStr "transportError-InvalidProfile");
  ("reason", JStr "Pre-admission control errors omit diagnostics and use safe service messages."); ("rustAccepts", JBool true); ("valid", JBool true);
  ("value", JObject [("code", JStr "INVALID_PROFILE"); ("message", JStr (JsStr [68; 97; 115; 32; 84; 76; 83; 45; 80; 114; 111; 102; 105; 108; 32; 119;
  105; 114; 100; 32; 110; 105; 99; 104; 116; 32; 117; 110; 116; 101; 114; 115; 116; 252; 116; 122; 116; 46]%N))])].
Definition wire_fixture_64 : jsval := JObject [("contract", JStr "transportError"); ("name", JStr "transportError-EgressRequired");
  ("reason", JStr "Pre-admission control errors omit diagnostics and use safe service messages."); ("rustAccepts", JBool true); ("valid", JBool true);
  ("value", JObject [("code", JStr "EGRESS_REQUIRED"); ("message", JStr "Ein expliziter Verbindungsweg ist erforderlich.")])].
Definition wire_fixture_65 : jsval := JObject [("contract", JStr "transportError"); ("name", JStr "transportError-SsrfBlocked");
  ("reason", JStr "Pre-admission control errors omit diagnostics and use safe service messages."); ("rustAccepts", JBool true); ("valid", JBool true);
  ("value", JObject [("code", JStr "SSRF_BLOCKED"); ("message", JStr "Das Verbindungsziel ist durch die Netzwerkrichtlinie gesperrt.")])].
Definition wire_fixture_66 : jsval := JObject [("contract", JStr "transportError"); ("name", JStr "transportError-BodyTooLarge");
  ("reason", JStr "Pre-admission control errors omit diagnostics and use safe service messages."); ("rustAccepts", JBool true); ("valid", JBool true);
  ("value", JObject [("code", JStr "BODY_TOO_LARGE"); ("message", JStr (JsStr [68; 105; 101; 32; 122; 117; 108; 228; 115; 115; 105; 103; 101; 32; 65;
  110; 122; 97; 104; 108; 32; 97; 110; 32; 78; 117; 116; 122; 100; 97; 116; 101; 110; 98; 121; 116; 101; 115; 32; 119; 117; 114; 100; 101; 32; 252; 98;
  101; 114; 115; 99; 104; 114; 105; 116; 116; 101; 110; 46]%N))])].
Definition wire_fixture_67 : jsval := JObject [("contract", JStr "transportError"); ("name", JStr "transportError-Busy");
  ("reason", JStr "Pre-admission control errors omit diagnostics and use safe service messages."); ("rustAccepts", JBool true); ("valid", JBool true);
  ("value", JObject [("code", JStr "BUSY"); ("message", JStr (JsStr [68; 105; 101; 32; 98; 101; 103; 114; 101; 110; 122; 116; 101; 32; 84; 114; 97; 110;
  115; 112; 111; 114; 116; 107; 97; 112; 97; 122; 105; 116; 228; 116; 32; 105; 115; 116; 32; 97; 117; 115; 103; 101; 108; 97; 115; 116; 101; 116;
  46]%N))])].
Definition wire_fixture_68 : jsval := JObject [("contract", JStr "transportError"); ("name", JStr "transportError-Timeout");
  ("reason", JStr "Pre-admission control errors omit diagnostics and use safe service messages."); ("rustAccepts", JBool true); ("valid", JBool true);
  ("value", JObject [("code", JStr "TIMEOUT"); ("message", JStr (JsStr [68; 97; 115; 32; 103; 101; 115; 97; 109; 116; 101; 32; 90; 101; 105; 116; 98;
  117; 100; 103; 101; 116; 32; 100; 101; 114; 32; 65; 110; 102; 114; 97; 103; 101; 32; 119; 117; 114; 100; 101; 32; 252; 98; 101; 114; 115; 99; 104; 114;
  105; 116; 116; 101; 110; 46]%N))])].
Definition wire_fixture_69 : jsval := JObject [("contract", JStr "transportError"); ("name", JStr "transportError-Cancelled");
  ("reason", JStr "Pre-admission control errors omit diagnostics and use safe service messages."); ("rustAccepts", JBool true); ("valid", JBool true);
  ("value", JObject [("code", JStr "CANCELLED"); ("message", JStr "Die Anfrage wurde abgebrochen.")])].
Definition wire_fixture_70 : jsval := JObject [("contract", JStr "transportError"); ("name", JStr "transportError-DnsError");
  ("reason", JStr "Pre-admission control errors omit diagnostics and use safe service messages."); ("rustAccepts", JBool true); ("valid", JBool true);
  ("value", JObject [("code", JStr "DNS_ERROR"); ("message", JStr (JsStr [68; 105; 101; 32; 78; 97; 109; 101; 110; 115; 97; 117; 102; 108; 246; 115; 117;
  110; 103; 32; 105; 115; 116; 32; 102; 101; 104; 108; 103; 101; 115; 99; 104; 108; 97; 103; 101; 110; 46]%N))])].
Definition wire_fixture_71 : jsval := JObject [("contract", JStr "transportError"); ("name", JStr "transportError-ProxyError");
  ("reason", JStr "Pre-admission control errors omit diagnostics and use safe service messages."); ("rustAccepts", JBool true); ("valid", JBool true);
  ("value", JObject [("code", JStr "PROXY_ERROR"); ("message", JStr "Die Verbindung zum Proxy ist fehlgeschlagen.")])].
Definition wire_fixture_72 : jsval := JObject [("contract", JStr "transportError"); ("name", JStr "transportError-TlsError");
  ("reason", JStr "Pre-admission control errors omit diagnostics and use safe service messages."); ("rustAccepts", JBool true); ("valid", JBool true);
  ("value", JObject [("code", JStr "TLS_ERROR"); ("message", JStr "Die TLS-Verbindung ist fehlgeschlagen.")])].
Definition wire_fixture_73 : jsval := JObject [("contract", JStr "transportError"); ("name", JStr "transportError-ConnectError");
  ("reason", JStr "Pre-admission control errors omit diagnostics and use safe service messages."); ("rustAccepts", JBool true); ("valid", JBool true);
  ("value", JObject [("code", JStr "CONNECT_ERROR"); ("message", JStr "Die Verbindung zum Ziel ist fehlgeschlagen.")])].
Definition wire_fixture_74 : jsval := JObject [("contract", JStr "transportError"); ("name", JStr "transportError-ProtocolError");
  ("reason", JStr "Pre-admission control errors omit diagnostics and use safe service messages."); ("rustAccepts", JBool true); ("valid", JBool true);
  ("value", JObject [("code", JStr "PROTOCOL_ERROR"); ("message", JStr (JsStr [68; 101; 114; 32; 84; 114; 97; 110; 115; 112; 111; 114; 116; 100; 97; 116;
  101; 110; 115; 116; 114; 111; 109; 32; 105; 115; 116; 32; 117; 110; 103; 252; 108; 116; 105; 103; 32; 111; 100; 101; 114; 32; 117; 110; 118; 111; 108;
  108; 115; 116; 228; 110; 100; 105; 103; 46]%N))])].
Definition wire_fixture_75 : jsval := JObject [("contract", JStr "transportError"); ("name", JStr "transportError-ContextNotFound");
  ("reason", JStr "Pre-admission control errors omit diagnostics and use safe service messages."); ("rustAccepts", JBool true); ("valid", JBool true);
  ("value", JObject [("code", JStr "CONTEXT_NOT_FOUND"); ("message", JStr (JsStr [68; 101; 114; 32; 84; 114; 97; 110; 115; 112; 111; 114; 116; 107; 111;
  110; 116; 101; 120; 116; 32; 105; 115; 116; 32; 110; 105; 99; 104; 116; 32; 118; 101; 114; 102; 252; 103; 98; 97; 114; 46]%N))])].
Definition wire_fixture_76 : jsval := JObject [("contract", JStr "transportError"); ("name", JStr "transportError-ContextConflict");
  ("reason", JStr "Pre-admission control errors omit diagnostics and use safe service messages."); ("rustAccepts", JBool true); ("valid", JBool true);
  ("value", JObject [("code", JStr "CONTEXT_CONFLICT"); ("message", JStr "Der Transportkontext oder seine Revision ist unvereinbar.")])].
Definition wire_fixture_77 : jsval := JObject [("contract", JStr "transportError"); ("name", JStr "transportError-ContextLimit");
  ("reason", JStr "Pre-admission control errors omit diagnostics and use safe service messages."); ("rustAccepts", JBool true); ("valid", JBool true);
  ("value", JObject [("code", JStr "CONTEXT_LIMIT"); ("message", JStr (JsStr [68; 105; 101; 32; 122; 117; 108; 228; 115; 115; 105; 103; 101; 32; 65; 110;
  122; 97; 104; 108; 32; 97; 110; 32; 84; 114; 97; 110; 115; 112; 111; 114; 116; 107; 111; 110; 116; 101; 120; 116; 101; 110; 32; 119; 117; 114; 100;
  101; 32; 101; 114; 114; 101; 105; 99; 104; 116; 46]%N))])].
Definition wire_fixture_78 : jsval := JObject [("contract", JStr "transportError"); ("name", JStr "transportError-CookieLimit");
  ("reason", JStr "Pre-admission control errors omit diagnostics and use safe service messages."); ("rustAccepts", JBool true); ("valid", JBool true);
  ("value", JObject [("code", JStr "COOKIE_LIMIT"); ("message", JStr (JsStr [68; 105; 101; 32; 122; 117; 108; 228; 115; 115; 105; 103; 101; 32; 67; 111;
  111; 107; 105; 101; 45; 71; 114; 101; 110; 122; 101; 32; 119; 117; 114; 100; 101; 32; 252; 98; 101; 114; 115; 99; 104; 114; 105; 116; 116; 101; 110;
  46]%N))])].
Definition wire_fixture_79 : jsval := JObject [("contract", JStr "transportError"); ("name", JStr "transportError-DuplicateRequest");
  ("reason", JStr "Pre-admission control errors omit diagnostics and use safe service messages."); ("rustAccepts", JBool true); ("valid", JBool true);
  ("value", JObject [("code", JStr "DUPLICATE_REQUEST"); ("message", JStr "Die Anfragekennung wurde bereits verwendet.")])].
Definition wire_fixture_80 : jsval := JObject [("contract", JStr "transportError"); ("name", JStr "transportError-Unknown");
  ("reason", JStr "Pre-admission control errors omit diagnostics and use safe service messages."); ("rustAccepts", JBool true); ("valid", JBool true);
  ("value", JObject [("code", JStr "UNKNOWN"); ("message", JStr "Ein interner Transportfehler ist aufgetreten.")])].
Definition wire_fixture_81 : jsval := JObject [("contract", JStr "cookieOperation"); ("name", JStr (JsStr [99; 111; 111; 107; 105; 101; 79; 112; 101; 114; 97; 116; 105; 111; 110; 45; 34;
  115; 101; 108; 101; 99; 116; 34]%N)); ("reason", JStr "Only cookie mutations carry expectedRevision for compare-and-swap.");
  ("rustAccepts", JBool true); ("valid", JBool true); ("value", JObject [("operation", JStr "select"); ("partition", JStr "contract-partition");
  ("url", JStr "https://example.com/")])].
Definition wire_fixture_82 : jsval := JObject [("contract", JStr "cookieOperation"); ("name", JStr (JsStr [99; 111; 111; 107; 105; 101; 79; 112; 101; 114; 97; 116; 105; 111; 110; 45; 34;
  115; 101; 116; 34]%N)); ("reason", JStr "Only cookie mutations carry expectedRevision for compare-and-swap."); ("rustAccepts", JBool true);
  ("valid", JBool true); ("value", JObject [("cookies", JArray [JStr "session=new; Path=/; Secure; HttpOnly"]); ("expectedRevision", jint 2);
  ("operation", JStr "set"); ("partition", JStr "contract-partition"); ("url", JStr "https://example.com/")])].
Definition wire_fixture_83 : jsval := JObject [("contract", JStr "cookieOperation"); ("name", JStr (JsStr [99; 111; 111; 107; 105; 101; 79; 112; 101; 114; 97; 116; 105; 111; 110; 45; 34;
  101; 120; 112; 111; 114; 116; 34]%N)); ("reason", JStr "Only cookie mutations carry expectedRevision for compare-and-swap.");
  ("rustAccepts", JBool true); ("valid", JBool true); ("value", JObject [("operation", JStr "export"); ("partition", JStr "contract-partition")])].
Definition wire_fixture_84 : jsval := JObject [("contract", JStr "cookieReply"); ("name", JStr "cookieReply-selection");
  ("reason", JStr "Cookie mutation acknowledgements and selections share revision without fabricated payloads."); ("rustAccepts", JBool true);
  ("valid", JBool true); ("value", JObject [("cookies", JArray [JObject [("domain", JStr "example.com"); ("hostOnly", JBool true);
  ("httpOnly", JBool true); ("name", JStr "session"); ("partitioned", JBool false); ("path", JStr "/"); ("sameSite", JStr "Lax"); ("secure", JBool true);
  ("value", JStr "fixture-value")]]); ("revision", jint 2)])].
Definition wire_fixture_85 : jsval := JObject [("contract", JStr "cookieReply"); ("name", JStr "cookieReply-mutation");
  ("reason", JStr "Cookie mutation acknowledgements and selections share revision without fabricated payloads."); ("rustAccepts", JBool true);
  ("valid", JBool true); ("value", JObject [("revision", jint 3)])].
Definition wire_fixture_86 : jsval := JObject [("contract", JStr "cookieRecord"); ("name", JStr "cookieRecord-max-safe-expiry");
  ("reason", JStr "Cookie expiry must be exactly representable."); ("rustAccepts", JBool true); ("valid", JBool true);
  ("value", JObject [("domain", JStr "example.com"); ("expiresAtMs", jint 9007199254740991); ("hostOnly", JBool true); ("httpOnly", JBool true);
  ("name", JStr "session"); ("partitioned", JBool false); ("path", JStr "/"); ("sameSite", JStr "Lax"); ("secure", JBool true);
  ("value", JStr "fixture-value")])].
Definition wire_fixture_87 : jsval := JObject [("contract", JStr "cookieRecord"); ("name", JStr "cookieRecord-unsafe-expiry");
  ("reason", JStr "Cookie expiry must be exactly representable."); ("rustAccepts", JBool true); ("valid", JBool false);
  ("value", JObject [("domain", JStr "example.com"); ("expiresAtMs", jint 9007199254740992); ("hostOnly", JBool true); ("httpOnly", JBool true);
  ("name", JStr "session"); ("partitioned", JBool false); ("path", JStr "/"); ("sameSite", JStr "Lax"); ("secure", JBool true);
  ("value", JStr "fixture-value")])].
Definition wire_fixture_88 : jsval := JObject [("contract", JStr "cookieOperation"); ("name", JStr "cookieOperation-cas-required");
  ("reason", JStr "Imports cannot bypass compare-and-swap by omitting a revision."); ("rustAccepts", JBool false); ("valid", JBool false);
  ("value", JObject [("operation", JStr "import"); ("partition", JStr "contract-partition");
  ("snapshot", JObject [("cookies", JArray [JObject [("domain", JStr "example.com"); ("hostOnly", JBool true); ("httpOnly", JBool true);
  ("name", JStr "session"); ("partitioned", JBool false); ("path", JStr "/"); ("sameSite", JStr "Lax"); ("secure", JBool true);
  ("value", JStr "fixture-value")]]); ("partitionKey", JStr "https://example.com")])])].
Definition wire_fixture_89 : jsval := JObject [("contract", JStr "createContext"); ("name", JStr "createContext-denies-unknown-fields");
  ("reason", JStr "Context creation fails closed on unsupported input fields."); ("rustAccepts", JBool false); ("valid", JBool false);
  ("value", JObject [("allowedOrigins", JArray [JStr "https://example.com"]); ("automaticProxy", JBool true);
  ("connection", JObject [("egress", JObject [("mode", JStr "direct")]); ("identity", JObject [("emulateHeaders", JBool false);
  ("tlsProfile", JStr "chrome_133")])]); ("cookieMode", JStr "managed"); ("partition", JStr "contract-partition"); ("ttlMs", jint 60000)])].
Definition request_fixture_0 : jsval := JObject [("errorCode", JNull); ("name", JStr "connection-bodyless"); ("schemaValid", JBool true); ("sdkBoundary", JStr "encode");
  ("semanticValid", JBool true); ("value", JObject [("attempt", jint 1); ("bodyLength", jint 0);
  ("connection", JObject [("egress", JObject [("mode", JStr "direct")]); ("identity", JObject [("emulateHeaders", JBool false);
  ("tlsProfile", JStr "chrome_133")])]); ("contextId", JNull); ("hasBody", JBool false); ("headers", JArray []); ("maxResponseBytes", jint 1024);
  ("method", JStr "POST"); ("partition", JStr "semantic-partition"); ("requestId", JStr "semantic-request"); ("timeoutMs", jint 5000);
  ("url", JStr "https://example.com/")])].
Definition request_fixture_1 : jsval := JObject [("errorCode", JNull); ("name", JStr "context-bodyless"); ("schemaValid", JBool true); ("sdkBoundary", JStr "encode");
  ("semanticValid", JBool true); ("value", JObject [("attempt", jint 1); ("bodyLength", jint 0); ("connection", JNull);
  ("contextId", JStr "semantic-context"); ("hasBody", JBool false); ("headers", JArray []); ("maxResponseBytes", jint 1024); ("method", JStr "POST");
  ("partition", JStr "semantic-partition"); ("requestId", JStr "semantic-request"); ("timeoutMs", jint 5000); ("url", JStr "https://example.com/")])].
Definition request_fixture_2 : jsval := JObject [("errorCode", JNull); ("name", JStr "browser-header-order"); ("schemaValid", JBool true); ("sdkBoundary", JStr "encode");
  ("semanticValid", JBool true); ("value", JObject [("attempt", jint 1); ("bodyLength", jint 0);
  ("connection", JObject [("egress", JObject [("mode", JStr "direct")]); ("identity", JObject [("emulateHeaders", JBool false);
  ("tlsProfile", JStr "chrome_133")])]); ("contextId", JNull); ("hasBody", JBool false); ("headerOrder", JStr "browser"); ("headers", JArray []);
  ("maxResponseBytes", jint 1024); ("method", JStr "POST"); ("partition", JStr "semantic-partition"); ("requestId", JStr "semantic-request");
  ("timeoutMs", jint 5000); ("url", JStr "https://example.com/")])].
Definition request_fixture_3 : jsval := JObject [("errorCode", JStr "INVALID_REQUEST"); ("name", JStr "both-connection-and-context"); ("schemaValid", JBool true);
  ("sdkBoundary", JStr "reject"); ("semanticValid", JBool false); ("value", JObject [("attempt", jint 1); ("bodyLength", jint 0);
  ("connection", JObject [("egress", JObject [("mode", JStr "direct")]); ("identity", JObject [("emulateHeaders", JBool false);
  ("tlsProfile", JStr "chrome_133")])]); ("contextId", JStr "semantic-context"); ("hasBody", JBool false); ("headers", JArray []);
  ("maxResponseBytes", jint 1024); ("method", JStr "POST"); ("partition", JStr "semantic-partition"); ("requestId", JStr "semantic-request");
  ("timeoutMs", jint 5000); ("url", JStr "https://example.com/")])].
Definition request_fixture_4 : jsval := JObject [("errorCode", JStr "INVALID_REQUEST"); ("name", JStr "neither-connection-nor-context"); ("schemaValid", JBool true);
  ("sdkBoundary", JStr "reject"); ("semanticValid", JBool false); ("value", JObject [("attempt", jint 1); ("bodyLength", jint 0); ("connection", JNull);
  ("contextId", JNull); ("hasBody", JBool false); ("headers", JArray []); ("maxResponseBytes", jint 1024); ("method", JStr "POST");
  ("partition", JStr "semantic-partition"); ("requestId", JStr "semantic-request"); ("timeoutMs", jint 5000); ("url", JStr "https://example.com/")])].
Definition request_fixture_5 : jsval := JObject [("errorCode", JStr "INVALID_REQUEST"); ("name", JStr "zero-timeout"); ("schemaValid", JBool true); ("sdkBoundary", JStr "reject");
  ("semanticValid", JBool false); ("value", JObject [("attempt", jint 1); ("bodyLength", jint 0);
  ("connection", JObject [("egress", JObject [("mode", JStr "direct")]); ("identity", JObject [("emulateHeaders", JBool false);
  ("tlsProfile", JStr "chrome_133")])]); ("contextId", JNull); ("hasBody", JBool false); ("headers", JArray []); ("maxResponseBytes", jint 1024);
  ("method", JStr "POST"); ("partition", JStr "semantic-partition"); ("requestId", JStr "semantic-request"); ("timeoutMs", jint 0);
  ("url", JStr "https://example.com/")])].
Definition request_fixture_6 : jsval := JObject [("errorCode", JStr "INVALID_REQUEST"); ("name", JStr "zero-response-limit"); ("schemaValid", JBool true); ("sdkBoundary", JStr "reject");
  ("semanticValid", JBool false); ("value", JObject [("attempt", jint 1); ("bodyLength", jint 0);
  ("connection", JObject [("egress", JObject [("mode", JStr "direct")]); ("identity", JObject [("emulateHeaders", JBool false);
  ("tlsProfile", JStr "chrome_133")])]); ("contextId", JNull); ("hasBody", JBool false); ("headers", JArray []); ("maxResponseBytes", jint 0);
  ("method", JStr "POST"); ("partition", JStr "semantic-partition"); ("requestId", JStr "semantic-request"); ("timeoutMs", jint 5000);
  ("url", JStr "https://example.com/")])].
Definition request_fixture_7 : jsval := JObject [("errorCode", JStr "INVALID_REQUEST"); ("name", JStr "bodyless-nonzero-length"); ("schemaValid", JBool true);
  ("sdkBoundary", JStr "derived-body"); ("semanticValid", JBool false); ("value", JObject [("attempt", jint 1); ("bodyLength", jint 4);
  ("connection", JObject [("egress", JObject [("mode", JStr "direct")]); ("identity", JObject [("emulateHeaders", JBool false);
  ("tlsProfile", JStr "chrome_133")])]); ("contextId", JNull); ("hasBody", JBool false); ("headers", JArray []); ("maxResponseBytes", jint 1024);
  ("method", JStr "POST"); ("partition", JStr "semantic-partition"); ("requestId", JStr "semantic-request"); ("timeoutMs", jint 5000);
  ("url", JStr "https://example.com/")])].
Definition request_fixture_8 : jsval := JObject [("errorCode", JNull); ("name", JStr "buffered-body"); ("schemaValid", JBool true); ("sdkBoundary", JStr "encode");
  ("semanticValid", JBool true); ("value", JObject [("attempt", jint 1); ("bodyLength", jint 4);
  ("connection", JObject [("egress", JObject [("mode", JStr "direct")]); ("identity", JObject [("emulateHeaders", JBool false);
  ("tlsProfile", JStr "chrome_133")])]); ("contextId", JNull); ("hasBody", JBool true); ("headers", JArray []); ("maxResponseBytes", jint 1024);
  ("method", JStr "POST"); ("partition", JStr "semantic-partition"); ("requestId", JStr "semantic-request"); ("timeoutMs", jint 5000);
  ("url", JStr "https://example.com/")])].
Definition wire_document : jsval := JObject [("fixtures", JArray [
  wire_fixture_0; wire_fixture_1; wire_fixture_2; wire_fixture_3; wire_fixture_4; wire_fixture_5; wire_fixture_6; wire_fixture_7; wire_fixture_8;
  wire_fixture_9; wire_fixture_10; wire_fixture_11; wire_fixture_12; wire_fixture_13; wire_fixture_14; wire_fixture_15; wire_fixture_16; wire_fixture_17;
  wire_fixture_18; wire_fixture_19; wire_fixture_20; wire_fixture_21; wire_fixture_22; wire_fixture_23; wire_fixture_24; wire_fixture_25;
  wire_fixture_26; wire_fixture_27; wire_fixture_28; wire_fixture_29; wire_fixture_30; wire_fixture_31; wire_fixture_32; wire_fixture_33;
  wire_fixture_34; wire_fixture_35; wire_fixture_36; wire_fixture_37; wire_fixture_38; wire_fixture_39; wire_fixture_40; wire_fixture_41;
  wire_fixture_42; wire_fixture_43; wire_fixture_44; wire_fixture_45; wire_fixture_46; wire_fixture_47; wire_fixture_48; wire_fixture_49;
  wire_fixture_50; wire_fixture_51; wire_fixture_52; wire_fixture_53; wire_fixture_54; wire_fixture_55; wire_fixture_56; wire_fixture_57;
  wire_fixture_58; wire_fixture_59; wire_fixture_60; wire_fixture_61; wire_fixture_62; wire_fixture_63; wire_fixture_64; wire_fixture_65;
  wire_fixture_66; wire_fixture_67; wire_fixture_68; wire_fixture_69; wire_fixture_70; wire_fixture_71; wire_fixture_72; wire_fixture_73;
  wire_fixture_74; wire_fixture_75; wire_fixture_76; wire_fixture_77; wire_fixture_78; wire_fixture_79; wire_fixture_80; wire_fixture_81;
  wire_fixture_82; wire_fixture_83; wire_fixture_84; wire_fixture_85; wire_fixture_86; wire_fixture_87; wire_fixture_88; wire_fixture_89]); ("formatVersion", jint 1)].
Definition semantics_document : jsval := JObject [("fixtures", JArray [request_fixture_0; request_fixture_1; request_fixture_2; request_fixture_3; request_fixture_4; request_fixture_5; request_fixture_6; request_fixture_7;
  request_fixture_8]); ("formatVersion", jint 1)].

(** ** The run *)

Definition wire_names : list (jsstr * WireContractName) := zip names
  [requestMetadata; responseMetadata; diagnostics; transportError; contextInfo; cookieRecord; cookieSnapshot; capabilities;
   createContext; cookieOperation; cookieReply; requestStatus].
(** The exports of compiled-validators.js by name. *)
Definition compiled_validators (contract : jsstr) (value : jsval) : bool :=
  match assoc contract wire_names with Some name => validateWire name value | None => false end.
(** The compiled validators pass. *)
Lemma fixtures_pass : checkFixtures compiled_validators wire_document semantics_document = Ok 90.
Proof. vm_compute. reflexivity. Qed.
Lemma checkFixtures_sound_witness :
  exists fixtures, get wire_document "fixtures" = JArray fixtures /\ Forall (fixture_holds compiled_validators) fixtures.
Proof.
  destruct (checkFixtures_sound compiled_validators wire_document semantics_document 90) as (fixtures & _ & _ & _ & Hf & _ & Hall & _);
    [vm_compute; reflexivity|]. by exists fixtures.
Defined.
