(* ===== verification/Package.v ===== *)
(** * The published package (packages/typescript/scripts: package-tools.mjs, package-check.mjs)

    What the scripts ask of the manifest before anything is packed, the copy of it that is
    packed, and the entries of an archive that they agree to unpack. *)

From S2P Require Import Prelude Js Errors Service Release.

Local Open Scope js_scope.

(** ** The policy of the manifest *)

(** [Object.keys(value ?? {}).length] *)
Definition key_count (v : jsval) : Z :=
  match v with JObject props => zlength props | JArray l => zlength l | JStr s => js_length s | JBytes l => zlength l | _ => 0 end.
Definition dependency_fields : list jsstr := ["dependencies"; "optionalDependencies"; "peerDependencies"; "bundledDependencies"].
Definition lifecycle_hooks : list jsstr := ["preinstall"; "install"; "postinstall"; "prepare"; "prepublish"; "prepublishOnly"].
Definition node_range : jsstr := ">=22.14.0".
(** [assert.deepEqual(Object.keys(exports), ['.', './sync'])] *)
Definition exports_policy (exports : jsval) : result exn unit :=
  match exports with
  | JUndefined | JNull => Throw ETypeError
  | _ => assert (bool_decide (object_keys exports = ["."; "./sync"]))
  end.

Section policy.
Context (manifest : jsval) (env : jsstr -> jsval).

Definition assertPackagePolicy (value : jsval) (release : bool) : result exn unit :=
  let? name := prop value "name" in
  let? _ := assert (is_str name packageName) in
  let? _ := assert (same_value (get value "version") (get manifest "version")) in
  let? _ := assert (is_str (get value "license") "MIT") in
  let? _ := assert (same_value (get value "private") (JBool (negb release))) in
  let? node := prop (get value "engines") "node" in
  let? _ := assert (is_str node node_range) in
  let? _ := assert (forallb (fun field => key_count (get value field) =? 0) dependency_fields) in
  let? _ := assert (forallb (fun hook => is_undefined (get (get value "scripts") hook)) lifecycle_hooks) in
  exports_policy (get value "exports").
Definition workflow_ref : jsstr := "sellaro-net/ja3proxy/.github/workflows/sdk-publish.yml@refs/heads/main".
Definition assertReleaseContext : result exn unit :=
  let? _ := assert (is_str (env "GITHUB_ACTIONS") "true") in
  let? _ := assert (is_str (env "GITHUB_REPOSITORY") repository) in
  let? _ := assert (is_str (env "GITHUB_REF") "refs/heads/main") in
  let? _ := assert (is_str (env "GITHUB_WORKFLOW_REF") workflow_ref) in
  let? _ := assert (match env "SDK_RELEASE_SHA" with JStr sha => is_sha sha | _ => false end) in
  let? _ := assert (same_value (env "SDK_RELEASE_VERSION") (get manifest "version")) in
  let? _ := assertPackagePolicy manifest false in
  assert (is_undefined (if truthy (env "NODE_AUTH_TOKEN") then env "NODE_AUTH_TOKEN" else env "NPM_TOKEN")).

(** [delete value.key] *)
Definition remove_key (v : jsval) (key : jsstr) : jsval :=
  match v with JObject props => JObject (List.filter (fun p => negb (js_eqb key p.1)) props) | _ => v end.
(** The manifest in the copy that is packed. *)
Definition staged (release : bool) : jsval :=
  remove_key (remove_key (spread_set manifest "private" (JBool (negb release))) "scripts") "devDependencies".
(** What is asked of the manifest in a packed archive. *)
Definition packed_manifest (value : jsval) (release : bool) : result exn unit :=
  let? _ := assertPackagePolicy value release in
  let? _ := assert (is_undefined (get value "scripts")) in assert (is_undefined (get value "devDependencies")).
End policy.

(** ** The entries of an archive *)

Inductive entry_type := File | Directory | OtherEntry.
Record entry := { e_type : entry_type; e_path : jsstr }.
Definition slash : N := 47.
(** [[a-zA-Z0-9_-]+] and [[a-zA-Z0-9_.-]+] *)
Definition segment (l : list N) : bool := Nat.ltb 0 (length l) && forallb (fun c => is_alnum c || one_of "_-" c) l.
Definition file_segment (l : list N) : bool := Nat.ltb 0 (length l) && forallb (fun c => is_alnum c || one_of "_.-" c) l.
(** The folders of a path, and what follows the last of them. *)
Fixpoint folders (parts : list (list N)) : list (list N) * list N :=
  match parts with
  | [] => ([], [])
  | [name] => ([], name)
  | part :: parts => let '(above, name) := folders parts in (part :: above, name)
  end.
Definition extensions : list jsstr := [".js"; ".cjs"; ".d.ts"; ".d.cts"].
(** [[a-zA-Z0-9_.-]+\.(?:js|cjs|d\.ts|d\.cts)] *)
Definition code_name (name : list N) : bool :=
  existsb (fun extension =>
    let n := (length name - length (units extension))%nat in
    bool_decide (drop n name = units extension) && file_segment (take n name)) extensions.
Definition root_files : list jsstr := ["package.json"; "README.md"; "LICENSE"].
(** The two patterns of [onReadEntry], of directories and of files. *)
Definition directory_path (path : jsstr) : bool :=
  match split_on slash (units path) with
  | root :: parts =>
      let '(above, name) := folders parts in
      bool_decide (root = units "package") && negb (bool_decide (parts = [])) && forallb segment above && bool_decide (name = [])
  | [] => false
  end.
Definition file_path (path : jsstr) : bool :=
  match split_on slash (units path) with
  | root :: parts =>
      bool_decide (root = units "package") &&
      let '(above, name) := folders parts in
      match above with
      | [] => bool_decide (name ∈ map units root_files)
      | dist :: above => bool_decide (dist = units "dist") && forallb segment above && code_name name
      end
  | [] => false
  end.
Definition onReadEntry (files : list jsstr) (e : entry) : result exn (list jsstr) :=
  match e_type e with
  | Directory => let? _ := assert (directory_path (e_path e)) in Ok files
  | File =>
      let? _ := assert (file_path (e_path e)) in
      let? _ := assert (negb (js_includes files (e_path e))) in Ok (files ++ [e_path e])
  | OtherEntry => Throw EOther
  end.
Fixpoint read_entries (files : list jsstr) (entries : list entry) : result exn (list jsstr) :=
  match entries with
  | [] => Ok files
  | e :: entries => let? files := onReadEntry files e in read_entries files entries
  end.
Definition installed_entries : list jsstr :=
  ["package.json"; "README.md"; "LICENSE"; "dist/index.js"; "dist/index.cjs"; "dist/index.d.ts"; "dist/index.d.cts";
   "dist/sync/index.js"; "dist/sync/index.cjs"; "dist/sync/index.d.ts"; "dist/sync/index.d.cts"; "dist/sync/worker.js"; "dist/sync/worker.cjs"].
(** The files of an archive that may be unpacked. *)
Definition check_archive (entries : list entry) : result exn (list jsstr) :=
  let? files := read_entries [] entries in
  let? _ := assert (forallb (fun file => js_includes files (append "package/" file)) installed_entries) in Ok files.

(** ** Properties *)

(** A segment of a path that neither leaves nor stays where it is, of plain characters. *)
Definition plain (c : N) : bool := is_alnum c || one_of "_.-" c.
Definition safe_part (l : list N) : Prop := l <> [] /\ l <> [46%N] /\ l <> [46%N; 46%N] /\ forallb plain l = true.
(** A path below the folder of the package, which stripping that folder leaves below the target. *)
Definition stays_inside (path : jsstr) (last : list (list N)) : Prop :=
  exists parts, units path = join_with slash (units "package" :: parts ++ last) /\ Forall safe_part parts.

Lemma one_of_incl cs cs' c : units cs ⊆ units cs' -> one_of cs c = true -> one_of cs' c = true.
Proof. unfold one_of. rewrite !bool_decide_eq_true. intros H. apply H. Qed.
Lemma segment_safe l : segment l = true -> safe_part l.
Proof.
  unfold segment. intros [Hl Hc]%andb_prop. repeat split; try by intros ->. apply forallb_forall. intros c Hin.
  apply (proj1 (forallb_forall _ _) Hc) in Hin. unfold plain. apply orb_prop in Hin as [->|H]; [done|].
  apply orb_true_iff. right. revert H. apply one_of_incl. by apply (bool_decide_unpack _).
Qed.
Lemma code_name_safe name : code_name name = true -> safe_part name.
Proof.
  intros (extension & He & [Hd Hf]%andb_prop)%existsb_elem. apply bool_decide_eq_true in Hd.
  rewrite <- (take_drop (length name - length (units extension)) name), Hd.
  apply andb_prop in Hf as [Hl Hc]. apply Nat.ltb_lt in Hl. revert Hl Hc. generalize (take (length name - length (units extension)) name).
  intros l Hl Hc. destruct l as [|c l]; [cbn in Hl; lia|].
  assert (forallb plain (units extension) = true /\ (2 < length (units extension))%nat) as [Hp Hlen].
  { revert extension He Hd. apply (Forall_forall (fun e => drop _ name = units e -> _) extensions). 
    repeat constructor; intros _; by vm_compute. }
  repeat split; try (intros E; apply (f_equal length) in E; cbn in E; rewrite length_app in E; lia).
  rewrite forallb_app. by rewrite Hp, andb_true_r.
Qed.
Lemma folders_app parts above name : parts <> [] -> folders parts = (above, name) -> parts = above ++ [name].
Proof.
  revert above name. induction parts as [|part [|part' parts] IH]; intros above name Hne; [done|by intros [= <- <-]|].
  change (folders (part :: part' :: parts)) with (let '(above, name) := folders (part' :: parts) in (part :: above, name)).
  destruct (folders (part' :: parts)) as [a n]. intros [= <- <-]. cbn [app]. f_equal. by apply IH.
Qed.
Lemma segments_safe l : forallb segment l = true -> Forall safe_part l.
Proof. intros H. apply Forall_forall. intros x Hx. by apply segment_safe, (forallb_elem _ _ _ H). Qed.
Lemma directory_inside path : directory_path path = true -> stays_inside path [[]].
Proof.
  unfold directory_path. destruct (split_on slash (units path)) as [|root parts] eqn:E; [done|].
  destruct (folders parts) as [above name] eqn:Ef. rewrite !andb_true_iff, negb_true_iff, !bool_decide_eq_true, bool_decide_eq_false.
  intros [[[-> Hne] Hs] ->]. exists above. rewrite <- (proj1 (join_split slash (units path))), E.
  split; [|by apply segments_safe]. by rewrite (folders_app _ _ _ Hne Ef).
Qed.
Lemma file_inside path : file_path path = true -> stays_inside path [].
Proof.
  unfold file_path. destruct (split_on slash (units path)) as [|root parts] eqn:E; [done|].
  destruct (folders parts) as [above name] eqn:Ef. intros [->%bool_decide_eq_true H]%andb_prop. exists parts.
  split; [by rewrite app_nil_r, <- E, (proj1 (join_split slash (units path)))|].
  destruct parts as [|part parts]; [injection Ef as <- <-; by vm_compute in H|].
  rewrite (folders_app (part :: parts) _ _ ltac:(done) Ef). destruct above as [|dist above]; cbn [app].
  - apply bool_decide_eq_true in H. constructor; [|done].
    revert name H Ef. intros name H _. cbn in H. rewrite !elem_of_cons in H.
    destruct H as [->|[->|[->|[]%not_elem_of_nil]]]; by repeat split.
  - rewrite !andb_true_iff, bool_decide_eq_true in H. destruct H as [[-> Hs] Hn]. constructor; [by repeat split|].
    apply Forall_app. split; [by apply segments_safe|]. constructor; [by apply code_name_safe|done].
Qed.

Definition is_file (e : entry) : bool := match e_type e with File => true | _ => false end.
Definition entry_inside (e : entry) : Prop :=
  match e_type e with
  | Directory => stays_inside (e_path e) [[]]
  | File => stays_inside (e_path e) []
  | OtherEntry => False
  end.
Lemma onReadEntry_Ok files e files' : onReadEntry files e = Ok files' -> NoDup files ->
  entry_inside e /\ files' = files ++ map e_path (List.filter is_file [e]) /\ NoDup files'.
Proof.
  unfold onReadEntry, entry_inside, is_file. cbn [List.filter]. destruct (e_type e); [| |done]; cbn [map].
  - intros (? & Hp%assert_Ok & (? & Hn%assert_Ok & [= <-])%bind_Ok)%bind_Ok Hd. split; [by apply file_inside|]. split; [done|].
    apply negb_true_iff, bool_decide_eq_false in Hn. apply NoDup_app. split; [done|]. split; [|apply NoDup_singleton].
    intros path Hx ->%list_elem_of_singleton. done.
  - intros (? & Hp%assert_Ok & [= <-])%bind_Ok Hd. split; [by apply directory_inside|]. by rewrite app_nil_r.
Qed.
Lemma read_entries_Ok files entries files' : read_entries files entries = Ok files' -> NoDup files ->
  Forall entry_inside entries /\ files' = files ++ map e_path (List.filter is_file entries) /\ NoDup files'.
Proof.
  revert files. induction entries as [|e entries IH]; intros files; cbn [read_entries].
  - intros [= <-] Hd. by rewrite app_nil_r.
  - intros (files1 & He & H)%bind_Ok Hd. destruct (onReadEntry_Ok _ _ _ He Hd) as (Hi & -> & Hd1). destruct (IH _ H Hd1) as (Hall & -> & Hd2).
    split; [by constructor|]. split; [|done]. cbn [List.filter]. destruct (is_file e); cbn [map]; by rewrite <- ?app_assoc, ?app_nil_r.
Qed.

(** An archive that passes the check can be unpacked below a folder: every entry is a file or a
    directory whose path, without its first segment, leads through named segments only, none of
    which is empty, [.] or [..]; no file occurs twice, and every file that the package promises
    is there. *)
Theorem archive_safe entries files :
  check_archive entries = Ok files ->
  Forall entry_inside entries /\ files = map e_path (List.filter is_file entries) /\ NoDup files /\
  forall file, file ∈ installed_entries -> append "package/" file ∈ files.
Proof.
  intros (fs & Hr & (? & Hi%assert_Ok & [= <-])%bind_Ok)%bind_Ok. destruct (read_entries_Ok _ _ _ Hr ltac:(constructor)) as (Hall & -> & Hd).
  split; [done|]. split; [done|]. split; [done|]. intros file Hf. pose proof (forallb_elem _ _ _ Hi Hf) as H. by apply bool_decide_eq_true in H.
Qed.
Lemma archive_safe_witness :
  let entries := {| e_type := Directory; e_path := "package/dist/" |} ::
    map (fun file => {| e_type := File; e_path := append "package/" file |}) ("dist/a-1.d.ts" :: installed_entries) in
  is_file {| e_type := Directory; e_path := "package/dist/" |} = false /\ Forall entry_inside entries /\
  check_archive ({| e_type := File; e_path := "package/dist/../x.js" |} :: entries) = Throw EOther.
Proof.
  intros entries. split; [done|]. split; [|vm_compute; reflexivity].
  apply (archive_safe entries (map e_path (List.filter is_file entries))). vm_compute. reflexivity.
Defined.

(** ** The copy of the manifest *)

Lemma get_remove_eq v k : get (remove_key v k) k = JUndefined.
Proof.
  destruct v; try done. cbn. induction props as [|[k' w] props IH]; [done|]. cbn [List.filter fst].
  destruct (js_eqb k k') eqn:E; cbn [negb]; [done|]. cbn [assoc]. by rewrite E.
Qed.
Lemma get_remove_ne v k k' : k <> k' -> get (remove_key v k) k' = get v k'.
Proof.
  intros Hne. destruct v; try done. cbn. induction props as [|[k'' w] props IH]; [done|]. cbn [List.filter fst assoc].
  destruct (js_eqb k k'') eqn:E; cbn [negb assoc]; destruct (js_eqb k' k'') eqn:E'; try done.
  by apply js_eqb_eq in E as ->; apply js_eqb_eq in E' as ->.
Qed.
Lemma get_staged manifest release k :
  js_includes ["private"; "scripts"; "devDependencies"] k = false -> get (staged manifest release) k = get manifest k.
Proof.
  intros H%bool_decide_eq_false. rewrite !not_elem_of_cons in H. unfold staged. rewrite !get_remove_ne by naive_solver.
  apply get_spread_ne. naive_solver.
Qed.
Lemma get_staged_scripts manifest release : get (staged manifest release) "scripts" = JUndefined.
Proof. unfold staged. rewrite get_remove_ne by done. apply get_remove_eq. Qed.
Lemma get_staged_private manifest release : get (staged manifest release) "private" = JBool (negb release).
Proof. unfold staged. rewrite !get_remove_ne by done. apply get_spread_eq. Qed.
Lemma prop_Ok v key w : prop v key = Ok w -> w = get v key.
Proof. destruct v; cbn; congruence. Qed.
(** The copy of an acceptable manifest is acceptable for its purpose, public or not, and
    cannot run anything; everything else is as in the source. *)
Theorem staged_policy manifest release :
  assertPackagePolicy manifest manifest false = Ok tt ->
  packed_manifest manifest (staged manifest release) release = Ok tt /\
  get (staged manifest release) "private" = JBool (negb release) /\
  forall k, k ∉ ["private"; "scripts"; "devDependencies"]%js -> get (staged manifest release) k = get manifest k.
Proof.
  intros H. split; [|split; [apply get_staged_private|]].
  - unfold assertPackagePolicy in H. read_apart H.
    repeat match goal with E : prop _ _ = Ok ?w |- _ => is_var w; pose proof (prop_Ok _ _ _ E); subst w | E : assert _ = Ok _ |- _ => apply assert_Ok in E end.
    assert (forall key, prop (staged manifest release) key = Ok (get (staged manifest release) key)) as Hp by (intros; by destruct manifest).
    unfold packed_manifest, assertPackagePolicy. rewrite Hp. cbn [result_bind forallb dependency_fields lifecycle_hooks] in *.
    rewrite get_staged_private, get_staged_scripts.
    rewrite (get_staged _ _ "name"), (get_staged _ _ "version"), (get_staged _ _ "license"), (get_staged _ _ "engines"), (get_staged _ _ "exports"),
      (get_staged _ _ "dependencies"), (get_staged _ _ "optionalDependencies"), (get_staged _ _ "peerDependencies"),
      (get_staged _ _ "bundledDependencies") by done.
    unfold staged at 1. rewrite get_remove_eq, E0, E1, E2, E4. cbn [result_bind]. rewrite E5, E6. destruct release; cbn -[get exports_policy]; rewrite H; reflexivity.
  - intros k Hk. apply get_staged. by apply bool_decide_eq_false.
Qed.
Definition demo_manifest : jsval := JObject
  [("name", JStr packageName); ("version", JStr "1.2.3"); ("license", JStr "MIT"); ("private", JBool true);
   ("engines", JObject [("node", JStr node_range)]); ("scripts", JObject [("build", JStr "b")]);
   ("devDependencies", JObject [("x", JStr "1")]); ("exports", JObject [(".", JStr "a"); ("./sync", JStr "b")])].
Lemma staged_policy_witness :
  packed_manifest demo_manifest (staged demo_manifest true) true = Ok tt /\ packed_manifest demo_manifest demo_manifest false = Throw EOther.
Proof. split; [|vm_compute; reflexivity]. apply (staged_policy demo_manifest true). vm_compute. reflexivity. Defined.
