(* ===== verification/Publish.v ===== *)
(** * Publishing a release (packages/typescript/scripts: release-tools.mjs, resolve-release.mjs,
    publish-release.mjs, complete-release.mjs, and recovery in release-artifact.mjs)

    The scripts of the release workflow, as scripts that ask npm, GitHub and the host.  A
    run may stop anywhere and another one starts over, so what matters is what a script
    has seen before it changes anything.  [URL], the hash functions, the signature check and
    the decoding of a signed statement are the host's and parameters; environment variables
    are a function of their names. *)

From S2P Require Import Prelude Js Errors Service Script Release.

Local Open Scope js_scope.

(** ** Questions and answers *)

Inductive Query :=
| Http (method url : jsstr) (authorized : bool) (body : jsval)
| NpmPublish (filename source : jsstr)         (* npm publish, with GITHUB_SHA set *)
| NpmVersion
| VerifySignature (bundle : jsval) (certificateIssuer certificateIdentityURI : jsstr) (timeout retry : Z)
| Git (args : list jsstr)
| Sleep (ms : Z).
(** [response.json()] and [response.arrayBuffer()] may fail after a status has come. *)
Record Response := { status : Z; document : result exn jsval; content : result exn (list Z); location : jsval }.
Inductive Answer :=
| Replied (r : Response)
| Printed (out : jsstr)
| Raised.                                      (* the call throws *)
Notation task := (script Query Answer).

Definition workflowPath : jsstr := ".github/workflows/sdk-publish.yml".
Definition api (path : jsstr) : jsstr := text_of ["https://api.github.com/repos/"; repository; "/"; path].
(** The publication that precedes signed provenance. *)
Definition initial_version : jsstr := "1.0.0".
Definition initial_source : jsstr := "34c39e02a879255943e931b5cca30107aa36316f".
Definition initial_integrity : jsstr :=
  "sha512-vYpA+28yc8FTREMxrXb+HvAXD4qNAn2nvBHePCSchTFOrlv4OsJ0PKlCqT/4cg4vW6RoJkNYTDcq6PdWn0zI0A==".

(** [encodeURIComponent(s)] of ASCII text. *)
Definition hex_digit (n : N) : N := if N.ltb n 10 then (48 + n)%N else (55 + n)%N.
Definition unreserved (c : N) : bool := is_alnum c || one_of "-_.!~*'()" c.
Definition encodeURIComponent (s : jsstr) : jsstr :=
  JsStr (concat (map (fun c => if unreserved c then [c] else [37%N; hex_digit (c / 16)%N; hex_digit (c mod 16)%N]) (units s))).

(** [new URL(s)]: what the scripts read of it. *)
Record Location := { l_origin : jsstr; l_protocol : jsstr; l_hostname : jsstr; l_credentials : jsstr; l_hash : jsstr; l_href : jsstr }.

(** What the workflow has recorded about the bytes it has validated. *)
Record Artifact := {
  a_version : jsstr; a_tag : jsstr; a_source : jsstr; a_filename : jsstr; a_tagged : jsval;
  a_integrity : jsstr; a_sha256 : jsstr; a_bytes : list Z }.

Section publish.
Context (parse_url : jsstr -> option Location) (sha256 sha512 : list Z -> jsstr).
Context (sha512_hex : jsstr -> jsstr) (statement_of : jsval -> result exn jsval) (utf8 : jsstr -> list Z).
Context (env : jsstr -> jsval).

(** ** release-tools.mjs *)

(** [digests(bytes).integrity], where [sha512] is in base 64. *)
Definition integrity_of (bytes : list Z) : jsstr := append "sha512-" (sha512 bytes).

Definition assertWorkflow : result exn unit :=
  let? _ := assert (is_str (env "GITHUB_ACTIONS") "true") in
  let? _ := assert (is_str (env "GITHUB_REPOSITORY") repository) in
  let? _ := assert (is_str (env "GITHUB_REF") "refs/heads/main") in
  let? _ := assert (is_str (env "GITHUB_WORKFLOW_REF") (text_of [repository; "/"; workflowPath; "@refs/heads/main"])) in
  let? _ := assert (is_str (env "RUNNER_ENVIRONMENT") "github-hosted") in
  assert (is_undefined (if truthy (env "NODE_AUTH_TOKEN") then env "NODE_AUTH_TOKEN" else env "NPM_TOKEN")).

(** The loop of [request]: a 404 is asked again while retries are left. *)
Fixpoint request_loop (method url : jsstr) (body : jsval) (github : bool) (statuses : list Z) (retries : nat) : task Response :=
  Ask (Http method url github body) (fun a =>
    match a with
    | Replied r =>
        match retries with
        | S retries =>
            if status r =? 404 then Ask (Sleep 2000) (fun _ => request_loop method url body github statuses retries)
            else let$ _ := check (bool_decide (status r ∈ statuses)) in ret (Ok r)
        | O => let$ _ := check (bool_decide (status r ∈ statuses)) in ret (Ok r)
        end
    | _ => ret (Throw ETypeError)
    end).
Definition request (method url : jsstr) (body : jsval) (github : bool) (statuses : list Z) (notFoundRetries : nat) : task Response :=
  let$ _ := check (negb github || truthy (env "GITHUB_TOKEN")) in
  let$ _ := check (Nat.leb notFoundRetries 30) in
  let$ _ := check (Nat.eqb notFoundRetries 0 || js_eqb method "GET") in
  request_loop method url body github statuses notFoundRetries.
Definition github (method path : jsstr) (body : jsval) (statuses : list Z) : task jsval :=
  let$ r := request method (api path) body true statuses 0 in
  if (status r =? 404) || (status r =? 204) then ret (Ok JNull) else ret (document r).
(** [github(path)] *)
Definition github_get (path : jsstr) (statuses : list Z) : task jsval := github "GET" path JUndefined statuses.

Definition registry_url (version : jsstr) : jsstr := append "https://registry.npmjs.org/@sellaro%2fja3proxy/" version.
(** [/^sha512-[A-Za-z0-9+/]{86}==$/] *)
Definition is_integrity (v : jsval) : bool :=
  match v with
  | JStr s =>
      let l := units s in
      starts_with (units "sha512-") l && Nat.eqb (length l) 95 &&
      forallb (fun c => is_alnum c || one_of "+/" c) (take 86 (drop 7 l)) && bool_decide (drop 93 l = units "==")
  | _ => false
  end.
Definition integrity (value : jsval) : jsval := get (get value "dist") "integrity".
Definition registryManifest (version : jsstr) (notFoundRetries : nat) : task (option jsval) :=
  let$ _ := check (stableVersion version) in
  let$ r := request "GET" (registry_url version) JUndefined false [200; 404] notFoundRetries in
  if status r =? 404 then ret (Ok None)
  else
    let$ value := ret (document r) in
    let$ _ := check (is_str (get value "name") packageName) in
    let$ _ := check (is_str (get value "version") version) in
    let$ _ := check (is_str (get value "license") "MIT") in
    let$ _ := check (is_integrity (integrity value)) in ret (Ok (Some value)).

Definition repo_url : jsstr := append "https://github.com/" repository.
Definition provenance_type : jsstr := "https://slsa.dev/provenance/v1".
Definition assertProvenance (statement : jsval) (version source integrity : jsstr) : result exn unit :=
  let? _ := assert (is_str (get statement "_type") "https://in-toto.io/Statement/v1") in
  let? _ := assert (is_str (get statement "predicateType") provenance_type) in
  let? _ := assert (deepEqual (get statement "subject")
    (JArray [JObject [("name", JStr (append "pkg:npm/%40sellaro/ja3proxy@" version));
                      ("digest", JObject [("sha512", JStr (sha512_hex integrity))])]])) in
  let build := get (get statement "predicate") "buildDefinition" in
  let? _ := assert (is_str (get build "buildType") "https://slsa-framework.github.io/github-actions-buildtypes/workflow/v1") in
  let? _ := assert (deepEqual (get (get build "externalParameters") "workflow")
    (JObject [("ref", JStr "refs/heads/main"); ("repository", JStr repo_url); ("path", JStr workflowPath)])) in
  let? _ := assert (deepEqual (get build "resolvedDependencies")
    (JArray [JObject [("uri", JStr (text_of ["git+"; repo_url; "@refs/heads/main"]));
                      ("digest", JObject [("gitCommit", JStr source)])]])) in
  assert (is_str (get (get (get (get statement "predicate") "runDetails") "builder") "id")
            "https://github.com/actions/runner/github-hosted").

(** Who must have signed: the issuer of the certificate, and the workflow it was issued to. *)
Definition certificateIssuer : jsstr := "https://token.actions.githubusercontent.com".
Definition certificateIdentityURI : jsstr := text_of [repo_url; "/"; workflowPath; "@refs/heads/main"].
(** [verifyRegistry]; [expected] is the integrity that the workflow has validated, if any. *)
Definition verifyRegistry (value : jsval) (version source : jsstr) (tagged : jsval) (expected : option jsstr)
    (notFoundRetries : nat) : task unit :=
  match integrity value with
  | JStr hash =>
      let$ _ := check (match expected with Some e => negb (truthy (JStr e)) || js_eqb hash e | None => true end) in
      if js_eqb version initial_version then
        let$ _ := check (js_eqb source initial_source) in
        let$ _ := check (is_true tagged) in check (js_eqb hash initial_integrity)
      else
        let attestations := get (get (get value "dist") "attestations") "url" in
        match parse_url (if is_undefined attestations || is_null attestations then "https://invalid.invalid" else template attestations) with
        | None => ret (Throw ETypeError)
        | Some url =>
            let$ _ := check (js_eqb (l_origin url) "https://registry.npmjs.org") in
            let$ _ := check (js_eqb (append (l_credentials url) (l_hash url)) "") in
            let$ r := request "GET" (l_href url) JUndefined false [200] notFoundRetries in
            let$ doc := ret (document r) in
            match get doc "attestations" with
            | JArray items =>
                match List.filter (fun item => is_str (get item "predicateType") provenance_type) items with
                | [item] =>
                    let bundle := get item "bundle" in
                    let$ a := ask (VerifySignature bundle certificateIssuer certificateIdentityURI 15000 0) in
                    match a with
                    | Raised => ret (Throw EOther)
                    | _ =>
                        let$ statement := ret (statement_of bundle) in
                        ret (assertProvenance statement version source hash)
                    end
                | _ => ret (Throw EOther)
                end
            | _ => ret (Throw EOther)
            end
        end
  | _ => ret (Throw EOther)
  end.
(** [downloadRegistry]: the bytes it writes. *)
Definition downloadRegistry (value : jsval) (version : jsstr) : task (list Z) :=
  match get (get value "dist") "tarball" with
  | JStr s =>
      match parse_url s with
      | Some url =>
          let$ _ := check (js_eqb (l_href url) (text_of ["https://registry.npmjs.org/@sellaro/ja3proxy/-/ja3proxy-"; version; ".tgz"])) in
          let$ r := request "GET" (l_href url) JUndefined false [200] 0 in
          let$ bytes := ret (content r) in
          let$ _ := check (is_str (integrity value) (integrity_of bytes)) in ret (Ok bytes)
      | None => ret (Throw ETypeError)
      end
  | _ => ret (Throw ETypeError)
  end.
Definition assertProtection : task unit :=
  let$ branch := github_get "branches/main" [200] in
  let$ _ := check (is_true (get branch "protected")) in
  let$ environment := github_get "environments/npm-production" [200] in
  let$ _ := check (deepEqual (get environment "deployment_branch_policy")
                     (JObject [("protected_branches", JBool false); ("custom_branch_policies", JBool true)])) in
  let rules := get environment "protection_rules" in
  let$ _ := check match (if is_undefined rules || is_null rules then JArray [] else rules) with
                  | JArray l => negb (existsb (fun rule => is_str (get rule "type") "required_reviewers" || is_str (get rule "type") "wait_timer") l)
                  | _ => false
                  end in
  let$ policies := github_get "environments/npm-production/deployment-branch-policies?per_page=100" [200] in
  let$ _ := check (is_int (get policies "total_count") 1) in
  match get policies "branch_policies" with
  | JArray (policy :: _) =>
      let$ _ := check (is_str (get policy "name") "main") in check (is_str (get policy "type") "branch")
  | _ => ret (Throw EOther)
  end.

(** ** The artifact that a later job reads: [readArtifact], with the folder in Artifact.v *)

Definition sum_file (sum filename : jsstr) : jsstr := text_of [sum; "  "; filename; newline].
Definition archive (version : jsstr) : jsstr := text_of ["sellaro-ja3proxy-"; version; ".tgz"].
Definition readArtifact (identity : jsval) (bytes : list Z) (sums : jsstr) : result exn Artifact :=
  match get identity "version", get identity "source" with
  | JStr version, JStr source =>
      let? _ := assert (stableVersion version) in
      let? _ := assert (is_sha source) in
      let? _ := assert (is_str (get identity "tag") (append "sdk-v" version)) in
      let? _ := assert (is_str (get identity "filename") (archive version)) in
      let? _ := assert (is_str (env "SDK_RELEASE_SHA") source) in
      let? _ := assert (is_str (env "SDK_RELEASE_VERSION") version) in
      let sum := sha256 bytes in
      let? _ := assert (is_str (env "SDK_ARTIFACT_SHA256") sum) in
      let? _ := assert (is_str (get identity "sha256") sum) in
      let? _ := assert (is_str (get identity "integrity") (integrity_of bytes)) in
      let? _ := assert (js_eqb sums (sum_file sum (archive version))) in
      Ok {| a_version := version; a_tag := append "sdk-v" version; a_source := source; a_filename := archive version;
            a_tagged := get identity "tagged"; a_integrity := integrity_of bytes; a_sha256 := sum; a_bytes := bytes |}
  | _, _ => Throw EOther
  end.

(** ** publish-release.mjs *)

Definition publish_release (artifact : result exn Artifact) : task unit :=
  let$ _ := ret assertWorkflow in
  let$ _ := assertProtection in
  let$ a := ret artifact in
  let$ existing := registryManifest (a_version a) 0 in
  match existing with
  | Some value => verifyRegistry value (a_version a) (a_source a) (a_tagged a) (Some (a_integrity a)) 0
  | None =>
      let$ _ := check (is_false (a_tagged a)) in
      let$ _ := check (truthy (env "ACTIONS_ID_TOKEN_REQUEST_URL") && truthy (env "ACTIONS_ID_TOKEN_REQUEST_TOKEN")) in
      let$ v := ask NpmVersion in
      match v with
      | Printed out =>
          let$ _ := check (js_eqb (trimmed out) "12.0.2") in
          let$ p := ask (NpmPublish (a_filename a) (a_source a)) in
          match p with
          | Raised => ret (Throw EOther)
          | _ =>
              let$ published := registryManifest (a_version a) 30 in
              match published with
              | None => ret (Throw EOther)
              | Some value => verifyRegistry value (a_version a) (a_source a) (a_tagged a) (Some (a_integrity a)) 30
              end
          end
      | _ => ret (Throw EOther)
      end
  end.

(** ** complete-release.mjs *)

(** [tagSource]: the commit behind at most eight annotated tags. *)
Fixpoint tag_object (depth : nat) (object : jsval) : task jsval :=
  match depth with
  | S depth =>
      if is_str (get object "type") "tag" then
        let$ next := github_get (append "git/tags/" (template (get object "sha"))) [200] in tag_object depth (get next "object")
      else ret (Ok object)
  | O => ret (Ok object)
  end.
Definition tagSource (source : jsstr) (ref : jsval) : task unit :=
  let$ object := tag_object 8 (get ref "object") in
  let$ _ := check (is_str (get object "type") "commit") in check (is_str (get object "sha") source).
Definition release_tag (tag : jsstr) (releases : jsval) : option jsval :=
  match releases with JArray l => List.find (fun item => is_str (get item "tag_name") tag) l | _ => None end.
Definition array_length (v : jsval) : Z := match v with JArray l => zlength l | _ => 0 end.
Definition page_path (page : Z) : jsstr := append "releases?per_page=100&page=" (number_string page).
(** The pages of the list of releases, up to twenty. *)
Fixpoint find_release (tag : jsstr) (pages : nat) (page : Z) : task (option jsval) :=
  match pages with
  | O => ret (Ok None)
  | S pages =>
      let$ releases := github_get (page_path page) [200] in
      let$ _ := check (is_array releases) in
      match release_tag tag releases with
      | Some release => ret (Ok (Some release))
      | None =>
          if array_length releases <? 100 then ret (Ok None)
          else let$ _ := check (page <? 20) in find_release tag pages (page + 1)
      end
  end.
Definition release_body (a : Artifact) : jsval := JObject
  [("tag_name", JStr (a_tag a)); ("target_commitish", JStr (a_source a));
   ("name", JStr (append "TypeScript SDK " (a_version a)));
   ("body", JStr (text_of ["Published [@sellaro/ja3proxy@"; a_version a; "](https://www.npmjs.com/package/@sellaro/ja3proxy/v/";
      a_version a; ")."; newline; newline; "Source: ["; a_source a; "]("; repo_url; "/commit/"; a_source a; ")"; newline; newline;
      "The attached tarball is byte-for-byte identical to npm (SHA-256: `"; a_sha256 a; "`)."]));
   ("draft", JBool true); ("prerelease", JBool false); ("make_latest", JStr "false")].

Definition named (name : jsstr) (assets : list jsval) : list jsval := List.filter (fun asset => is_str (get asset "name") name) assets.
Definition asset_url (asset : jsval) : jsstr := api (append "releases/assets/" (template (get asset "id"))).
(** What is stored under an existing asset. *)
Definition stored_bytes (asset : jsval) : task (list Z) :=
  let$ r := request "GET" (asset_url asset) JUndefined true [200; 302] 0 in
  if status r =? 302 then
    match parse_url (template (location r)) with
    | None => ret (Throw ETypeError)
    | Some url =>
        let$ _ := check (js_eqb (l_protocol url) "https:") in
        let$ _ := check (js_eqb (l_hostname url) "release-assets.githubusercontent.com") in
        let$ _ := check (js_eqb (l_credentials url) "") in
        let$ r := request "GET" (l_href url) JUndefined false [200] 0 in ret (content r)
    end
  else ret (content r).
Definition upload_url (release : jsval) (name : jsstr) : jsstr :=
  text_of ["https://uploads.github.com/repos/"; repository; "/releases/"; template (get release "id"); "/assets?name="; encodeURIComponent name].
Definition digest (bytes : list Z) : jsstr := append "sha256:" (sha256 bytes).
Definition upload (release : jsval) (name : jsstr) (bytes : list Z) : task unit :=
  let$ r := request "POST" (upload_url release name) (JBytes bytes) true [201] 0 in
  let$ uploaded := ret (document r) in
  let$ _ := check (is_str (get uploaded "state") "uploaded") in check (is_str (get uploaded "digest") (digest bytes)).
Definition ensureAsset (release : jsval) (assets : list jsval) (name : jsstr) (bytes : list Z) : task unit :=
  match named name assets with
  | [] => upload release name bytes
  | [asset] =>
      if is_str (get asset "state") "starter" then
        let$ _ := github "DELETE" (append "releases/assets/" (template (get asset "id"))) JUndefined [204] in
        upload release name bytes
      else
        let$ _ := check (is_str (get asset "state") "uploaded") in
        let$ stored := stored_bytes asset in check (js_eqb (sha256 stored) (sha256 bytes))
  | _ => ret (Throw EOther)
  end.

Definition ref_path (tag : jsstr) : jsstr := append "git/ref/tags/" tag.
Definition ref_body (a : Artifact) : jsval := JObject [("ref", JStr (append "refs/tags/" (a_tag a))); ("sha", JStr (a_source a))].
Definition the_tag (a : Artifact) : task jsval :=
  let$ ref := github_get (ref_path (a_tag a)) [200; 404] in
  if truthy ref then ret (Ok ref)
  else
    let$ ref := github "POST" "git/refs" (ref_body a) [201; 422] in
    if truthy (get ref "object") then ret (Ok ref) else github_get (ref_path (a_tag a)) [200].
Definition the_release (a : Artifact) : task jsval :=
  let$ release := github_get (append "releases/tags/" (a_tag a)) [200; 404] in
  let$ release := if truthy release then ret (Ok (Some release)) else find_release (a_tag a) 20 1 in
  match release with
  | Some release => ret (Ok release)
  | None => github "POST" "releases" (release_body a) [201]
  end.
Definition checksum_name (a : Artifact) : jsstr := append (a_filename a) ".sha256".
Definition checksum_bytes (a : Artifact) : list Z := utf8 (sum_file (a_sha256 a) (a_filename a)).
Definition complete_release (artifact : result exn Artifact) : task unit :=
  let$ _ := ret assertWorkflow in
  let$ a := ret artifact in
  let$ g := ask (Git ["merge-base"; "--is-ancestor"; a_source a; "refs/remotes/origin/main"]) in
  let$ _ := match g with Raised => ret (Throw EOther) | _ => ret (Ok tt) end in
  let$ published := registryManifest (a_version a) 0 in
  match published with
  | None => ret (Throw EOther)
  | Some value =>
      let$ _ := verifyRegistry value (a_version a) (a_source a) (a_tagged a) (Some (a_integrity a)) 0 in
      let$ ref := the_tag a in
      let$ _ := tagSource (a_source a) ref in
      let$ release := the_release a in
      let$ _ := check (is_str (get release "tag_name") (a_tag a)) in
      let$ _ := check (is_false (get release "prerelease")) in
      let$ list := github_get (text_of ["releases/"; template (get release "id"); "/assets?per_page=100"]) [200] in
      match list with
      | JArray assets =>
          let$ _ := check (zlength assets <? 100) in
          let$ _ := ensureAsset release assets (a_filename a) (a_bytes a) in
          let$ _ := ensureAsset release assets (checksum_name a) (checksum_bytes a) in
          let$ release :=
            if truthy (get release "draft") then
              github "PATCH" (append "releases/" (template (get release "id")))
                (JObject [("draft", JBool false); ("make_latest", JStr "false")]) [200]
            else ret (Ok release) in
          check (is_false (get release "draft"))
      | _ => ret (Throw EOther)
      end
  end.

(** ** resolve-release.mjs and [recover] of release-artifact.mjs *)

(** What the job goes on with: nothing to publish, or the identity of a release. *)
Definition resolve_release (runGit : list jsstr -> result exn jsstr) (parseJson : jsstr -> result exn jsval)
    (push_before : jsval) : task (option Identity) :=
  let$ _ := ret assertWorkflow in
  match env "GITHUB_SHA" with
  | JStr sha =>
      let$ _ := check (is_sha sha) in
      let$ _ := ret (runGit ["merge-base"; "--is-ancestor"; sha; "refs/remotes/origin/main"]) in
      let is_push := is_str (env "GITHUB_EVENT_NAME") "push" in
      let$ unchanged :=
        match push_before with
        | JStr before =>
            if is_push && negb (js_eqb before (JsStr (repeat 48%N 40))) then
              ret (let? old := sourceManifest runGit parseJson before in
                   let? new := sourceManifest runGit parseJson sha in
                   Ok (negb (typeof_object (get old "version")) && deepEqual (get old "version") (get new "version")))
            else ret (Ok false)
        | _ => if is_push then ret (Throw EOther) else ret (Ok false)
        end in
      if unchanged then ret (Ok None)
      else
        let is_dispatch := is_str (env "GITHUB_EVENT_NAME") "workflow_dispatch" in
        let$ _ := check (is_push || is_dispatch) in
        let requested := if is_dispatch then match env "SDK_RETRY_VERSION" with JStr s => trimmed s | _ => "" end else "" in
        let$ i := ret (resolveIdentity runGit parseJson sha requested) in
        let$ _ := assertProtection in
        let$ registered := registryManifest (i_version i) 0 in
        let$ _ := check (negb (i_tagged i) || match registered with Some _ => true | None => false end) in
        ret (Ok (Some i))
  | _ => ret (Throw EOther)
  end.
(** The bytes of an existing publication, which are not built again. *)
Definition recover (version source : jsstr) (tagged : jsval) : task (option (list Z)) :=
  let$ value := registryManifest version 0 in
  match value with
  | Some value =>
      let$ _ := verifyRegistry value version source tagged None 0 in
      let$ bytes := downloadRegistry value version in ret (Ok (Some bytes))
  | None => let$ _ := check (is_false tagged) in ret (Ok None)
  end.
End publish.

(** ** What a script has seen *)

Notation step := (Query * option Answer)%type.
Definition asked (method url : jsstr) (authorized : bool) (body : jsval) (r : Response) : step :=
  (Http method url authorized body, Some (Replied r)).
(** A question that changes nothing. *)
Definition reading (q : Query) : bool :=
  match q with Http method _ _ _ => js_eqb method "GET" | NpmPublish _ _ => false | _ => true end.
Notation read_on := (Script.read_on reading).

Section wp.
Context (env : jsstr -> jsval) (allowed : list step -> Query -> Prop).
Context (may_read : forall h q, reading q = true -> allowed h q).
Notation wp := (wp allowed).

(** One request that is not repeated. *)
Lemma wp_request method url body gh statuses (post : Response -> list step -> Prop) h :
  allowed h (Http method url gh body) ->
  (forall r, status r ∈ statuses -> post r (h ++ [asked method url gh body r])) ->
  wp (request env method url body gh statuses 0) post h.
Proof.
  intros Ha H. unfold request. do 3 (apply wp_bind, wp_check; intros _). split; [done|]. intros [r| |]; [|done..].
  apply wp_bind, wp_check. intros Hs%bool_decide_eq_true. by apply H.
Qed.
Lemma wp_request_get url gh statuses n (post : Response -> list step -> Prop) h :
  (forall r h', read_on h h' -> asked "GET" url gh JUndefined r ∈ h' -> status r ∈ statuses -> post r h') ->
  wp (request env "GET" url JUndefined gh statuses n) post h.
Proof.
  intros H. unfold request. do 3 (apply wp_bind, wp_check; intros _).
  enough (forall h0, read_on h h0 -> wp (request_loop "GET" url JUndefined gh statuses n) post h0) as Hloop
    by (apply Hloop, read_on_refl).
  induction n as [|n IH]; intros h0 Hr.
  - split; [by apply may_read|]. intros [r| |]; [|done..]. apply wp_bind, wp_check. intros Hs%bool_decide_eq_true.
    apply H; [|set_solver|done]. eapply read_on_trans; [exact Hr|by apply read_on_one].
  - split; [by apply may_read|]. intros [r| |]; [|done..].
    assert (read_on h (h0 ++ [asked "GET" url gh JUndefined r])) as Hr' by (eapply read_on_trans; [exact Hr|by apply read_on_one]).
    destruct (status r =? 404).
    + split; [by apply may_read|]. intros a. apply IH. eapply read_on_trans; [exact Hr'|by apply read_on_one].
    + apply wp_bind, wp_check. intros Hs%bool_decide_eq_true. apply H; [done|set_solver|done].
Qed.

(** A document of GitHub: [null] where there is none. *)
Definition document_of (r : Response) (v : jsval) : Prop :=
  if (status r =? 404) || (status r =? 204) then v = JNull else document r = Ok v.
Definition answered (h : list step) (method path : jsstr) (body v : jsval) : Prop :=
  exists r, asked method (api path) true body r ∈ h /\ document_of r v.
Lemma wp_document r (post : jsval -> list step -> Prop) h :
  (forall v, document_of r v -> post v h) ->
  wp (if (status r =? 404) || (status r =? 204) then ret (Ok JNull) else ret (document r)) post h.
Proof. unfold document_of. intros H. destruct (_ || _); apply wp_ret; intros v Hv; apply H; congruence. Qed.
Lemma wp_github method path body statuses (post : jsval -> list step -> Prop) h :
  allowed h (Http method (api path) true body) ->
  (forall r v, status r ∈ statuses -> document_of r v -> post v (h ++ [asked method (api path) true body r])) ->
  wp (github env method path body statuses) post h.
Proof.
  intros Ha H. apply wp_bind, wp_request; [done|]. intros r Hs. apply wp_document. intros v Hv. by apply H.
Qed.
Lemma wp_github_get path statuses (post : jsval -> list step -> Prop) h :
  (forall v h', read_on h h' -> answered h' "GET" path JUndefined v -> post v h') -> wp (github_get env path statuses) post h.
Proof.
  intros H. apply wp_bind, wp_request_get. intros r h' Hr Ha _. apply wp_document. intros v Hv. apply H; [done|]. by exists r.
Qed.

(** What the registry has about a version. *)
Definition registered (h : list step) (version : jsstr) (value : jsval) : Prop :=
  exists r, asked "GET" (registry_url version) false JUndefined r ∈ h /\ status r = 200 /\ document r = Ok value /\
    is_str (get value "name") packageName = true /\ is_str (get value "version") version = true.
Definition unregistered (h : list step) (version : jsstr) : Prop :=
  exists r, asked "GET" (registry_url version) false JUndefined r ∈ h /\ status r = 404.
Lemma wp_registryManifest version n (post : option jsval -> list step -> Prop) h :
  (forall h', read_on h h' -> unregistered h' version -> post None h') ->
  (forall value h', read_on h h' -> registered h' version value -> post (Some value) h') ->
  wp (registryManifest env version n) post h.
Proof.
  intros Hnone Hsome. apply wp_bind, wp_check. intros _. apply wp_bind, wp_request_get. intros r h' Hr Ha Hs.
  destruct (Z.eqb_spec (status r) 404) as [E|E]; [apply Hnone; [done|]; by exists r|].
  apply wp_bind, wp_ret. intros value Hv. apply wp_bind, wp_check. intros Hn. apply wp_bind, wp_check. intros Hver.
  do 2 (apply wp_bind, wp_check; intros _). apply Hsome; [done|]. exists r. split_and!; try done. clear -Hs E. set_solver.
Qed.
Lemma wp_assertProtection (post : unit -> list step -> Prop) h :
  (forall h', read_on h h' -> post tt h') -> wp (assertProtection env) post h.
Proof.
  intros H. apply wp_bind, wp_github_get. intros branch h1 H1 _. apply wp_bind, wp_check. intros _.
  apply wp_bind, wp_github_get. intros environment h2 H2 _. do 2 (apply wp_bind, wp_check; intros _).
  apply wp_bind, wp_github_get. intros policies h3 H3 _. apply wp_bind, wp_check. intros _.
  destruct (get policies "branch_policies") as [| | | | |[|policy l]| | |]; try done. apply wp_bind, wp_check. intros _.
  apply wp_check. intros _. apply H. eapply read_on_trans; [exact H1|]. by eapply read_on_trans.
Qed.

Context (parse_url : jsstr -> option Location) (sha512_hex : jsstr -> jsstr) (statement_of : jsval -> result exn jsval).
(** It is signed for a source. *)
Definition signed (h : list step) (value : jsval) (version source : jsstr) (tagged : jsval) (hash : jsstr) : Prop :=
  integrity value = JStr hash /\
  ((version = initial_version /\ source = initial_source /\ tagged = JBool true /\ hash = initial_integrity) \/
   exists bundle a statement, (VerifySignature bundle certificateIssuer certificateIdentityURI 15000 0, Some a) ∈ h /\
     a <> Raised /\ statement_of bundle = Ok statement /\
     assertProvenance sha512_hex statement version source hash = Ok tt).
Lemma wp_verifyRegistry value version source tagged expected n (post : unit -> list step -> Prop) h :
  (forall hash h', read_on h h' -> signed h' value version source tagged hash ->
     (forall e, expected = Some e -> e <> "" -> hash = e) -> post tt h') ->
  wp (verifyRegistry parse_url sha512_hex statement_of env value version source tagged expected n) post h.
Proof.
  intros H. unfold verifyRegistry. destruct (integrity value) as [| | | |hash| | | |] eqn:Eh; try done.
  apply wp_bind, wp_check. intros Hexp.
  assert (forall e, expected = Some e -> e <> "" -> hash = e) as He.
  { intros e -> Hne. apply orb_prop in Hexp as [Hexp|Hexp]; [|by apply js_eqb_eq].
    exfalso. apply Hne. destruct e as [[|]]; [done|]. by cbn in Hexp. }
  destruct (js_eqb version initial_version) eqn:Ev.
  - apply wp_bind, wp_check. intros Hs. apply wp_bind, wp_check. intros Ht. apply wp_check. intros Hi.
    apply (H hash); [apply read_on_refl| |done]. split; [done|]. left. repeat split; [by apply js_eqb_eq..| |by apply js_eqb_eq].
    by destruct tagged as [| |[]| | | | | |].
  - destruct (parse_url _) as [url|]; [|done]. do 2 (apply wp_bind, wp_check; intros _).
    apply wp_bind, wp_request_get. intros r h1 Hr _ _. apply wp_bind, wp_ret. intros doc _.
    destruct (get doc "attestations") as [| | | | |items| | |]; try done.
    destruct (List.filter _ items) as [|item []]; try done. apply wp_bind, (wp_ask_read reading); [done..|]. intros a h2 Hr2 Ha.
    assert (a <> Raised -> wp (let$ statement := ret (statement_of (get item "bundle")) in
      ret (assertProvenance sha512_hex statement version source hash)) post h2) as Hgo.
    { intros Hne. apply wp_bind, wp_ret. intros st Hst. apply wp_ret. intros [] Hp. apply (H hash); [by eapply read_on_trans| |done].
      split; [done|]. right. by exists (get item "bundle"), a, st. }
    destruct a; [by apply Hgo|by apply Hgo|done].
Qed.
End wp.

(** ** Publication *)

Section publication.
Context (env : jsstr -> jsval) (parse_url : jsstr -> option Location) (sha512_hex : jsstr -> jsstr).
Context (statement_of : jsval -> result exn jsval).
Notation signed := (signed sha512_hex statement_of).

(** What publish-release.mjs may ask: it publishes a version that was never tagged and that
    the registry has just denied to have, and it does so once. *)
Definition may_publish (a : Artifact) (h : list step) (q : Query) : Prop :=
  reading q = true \/
  (q = NpmPublish (a_filename a) (a_source a) /\ a_tagged a = JBool false /\ unregistered h (a_version a) /\
   forall s, s ∈ h -> reading s.1 = true).

(** The published version is the artifact, with its provenance. *)
Definition published (a : Artifact) (h : list step) : Prop :=
  exists value, registered h (a_version a) value /\ signed h value (a_version a) (a_source a) (a_tagged a) (a_integrity a).
Lemma registered_later h h' version value : h ⊆ h' -> registered h version value -> registered h' version value.
Proof. intros Hs (r & Hr & ?). exists r. split; [by apply Hs|done]. Qed.
Lemma verify_published allowed a n value (post : unit -> list step -> Prop) h :
  (forall h q, reading q = true -> allowed h q) -> a_integrity a <> "" -> registered h (a_version a) value ->
  (forall h', read_on h h' -> published a h' -> post tt h') ->
  wp allowed (verifyRegistry parse_url sha512_hex statement_of env value (a_version a) (a_source a) (a_tagged a)
    (Some (a_integrity a)) n) post h.
Proof.
  intros Hread Hi Hreg H. apply wp_verifyRegistry; [done|]. intros hash h' Hr Hs He.
  apply H; [done|]. exists value. split; [eapply registered_later; [by eapply read_on_subset|done]|].
  by rewrite (He (a_integrity a)) in Hs.
Qed.

Lemma publish_wp a h : a_integrity a <> "" -> (forall s, s ∈ h -> reading s.1 = true) ->
  wp (may_publish a) (publish_release parse_url sha512_hex statement_of env (Ok a)) (fun _ => published a) h.
Proof.
  intros Hi Hh. assert (forall h q, reading q = true -> may_publish a h q) as Hread by (by left).
  apply wp_bind, wp_ret. intros _ _. apply wp_bind, wp_assertProtection; [done|]. intros h1 H1.
  apply wp_bind. cbn [wp ret]. apply wp_bind, wp_registryManifest; [done| |].
  - intros h2 H2 Hun. apply wp_bind, wp_check. intros Ht. apply wp_bind, wp_check. intros _.
    apply wp_bind, (wp_ask_read reading); [done..|]. intros v h3 H3 _. destruct v as [|out|]; try done.
    apply wp_bind, wp_check. intros _. apply wp_bind, wp_ask.
    + right. split; [done|]. split; [unfold is_false in Ht; by repeat case_match|].
      split; [destruct Hun as (r & Hr & ?); exists r; split; [by eapply read_on_subset|done]|].
      intros s Hs. destruct H1 as (l1 & -> & Hl1), H2 as (l2 & -> & Hl2), H3 as (l3 & -> & Hl3). rewrite Forall_forall in Hl1, Hl2, Hl3.
      rewrite !elem_of_app in Hs. naive_solver.
    + intros p. destruct p as [r|out'|]; [| |done]; (apply wp_bind, wp_registryManifest; [done|done|]);
        intros value h4 _ Hreg; by apply verify_published.
  - intros value h2 _ Hreg. by apply verify_published.
Qed.

Context (sha256 sha512 : list Z -> jsstr).
Notation readArtifact := (readArtifact sha256 sha512 env).
Lemma artifact_hash identity bytes sums a : readArtifact identity bytes sums = Ok a ->
  a_bytes a = bytes /\ a_integrity a = integrity_of sha512 bytes /\ a_integrity a <> "".
Proof.
  intros H. unfold Publish.readArtifact in H. destruct (get identity "version"), (get identity "source"); try done.
  read_apart H. by injection H as <-.
Qed.

(** C37: nothing is published twice or unseen.  A run of publish-release.mjs, also one that is
    killed or fails anywhere, has asked to publish only after the registry denied to have
    the version, for a version without a tag, from the source of the artifact, and only once.  A run that succeeds has seen the registry answer with the
    hash of the very bytes that were validated, and with a signed provenance for their source, be it
    its own publication or an earlier one. *)
Theorem publish_once identity bytes sums a l o :
  readArtifact identity bytes sums = Ok a ->
  trace (publish_release parse_url sha512_hex statement_of env (Ok a)) l o ->
  (forall before q r after, l = before ++ (q, r) :: after -> reading q = false ->
     q = NpmPublish (a_filename a) (a_source a) /\ a_tagged a = JBool false /\ unregistered before (a_version a) /\
     forall s, s ∈ before -> reading s.1 = true) /\
  (o = Some (Ok tt) -> exists value, registered l (a_version a) value /\
     signed l value (a_version a) (a_source a) (a_tagged a) (integrity_of sha512 bytes)).
Proof.
  intros Ha Ht. destruct (artifact_hash _ _ _ _ Ha) as (_ & Hi & Hne).
  destruct (wp_sound _ _ _ [] l o (publish_wp a [] Hne ltac:(intros s Hs; by apply not_elem_of_nil in Hs)) Ht) as [H1 H2]. split.
  - intros before q r after El Hq. destruct (H1 before q r after El) as [?|?]; [congruence|done].
  - intros Ho. rewrite <- Hi. by apply (H2 tt).
Qed.
End publication.

(** ** Completion *)

Section completion.
Context (env : jsstr -> jsval) (parse_url : jsstr -> option Location) (sha512_hex : jsstr -> jsstr).
Context (statement_of : jsval -> result exn jsval) (sha256 : list Z -> jsstr) (utf8 : jsstr -> list Z).
Notation published := (published sha512_hex statement_of).
Notation checksum_bytes := (checksum_bytes utf8).

(** What GitHub has said that a tag points at, through annotated tags. *)
Inductive points_at (h : list step) (a : Artifact) : jsval -> Prop :=
| points_ref method path body v :
    (method, path) ∈ [("GET"%js, ref_path (a_tag a)); ("POST"%js, "git/refs"%js)] ->
    answered h method path body v -> points_at h a (get v "object")
| points_tag object v :
    points_at h a object -> is_str (get object "type") "tag" = true ->
    answered h "GET" (append "git/tags/" (template (get object "sha"))) JUndefined v -> points_at h a (get v "object").
Definition tag_checked (h : list step) (a : Artifact) : Prop :=
  exists object, points_at h a object /\ is_str (get object "type") "commit" = true /\ is_str (get object "sha") (a_source a) = true.
(** GitHub has said that there is nothing at a path. *)
Definition missing (h : list step) (path : jsstr) : Prop :=
  exists v, answered h "GET" path JUndefined v /\ truthy v = false.
(** The assets of a release, as GitHub has listed them. *)
Definition listed (h : list step) (release : jsval) (assets : list jsval) : Prop :=
  answered h "GET" (text_of ["releases/"; template (get release "id"); "/assets?per_page=100"]) JUndefined (JArray assets).
Definition stored (h : list step) (asset : jsval) (bytes : list Z) : Prop :=
  exists r, asked "GET" (asset_url asset) true JUndefined r ∈ h /\
    (content r = Ok bytes \/
     exists url r', parse_url (template (location r)) = Some url /\ l_hostname url = "release-assets.githubusercontent.com" /\
       asked "GET" (l_href url) false JUndefined r' ∈ h /\ content r' = Ok bytes).
(** The release holds these bytes under a name: they were compared, or GitHub has
    acknowledged them. *)
Definition holds (h : list step) (release : jsval) (name : jsstr) (bytes : list Z) : Prop :=
  (exists assets asset found, listed h release assets /\ asset ∈ assets /\ is_str (get asset "name") name = true /\
     stored h asset found /\ sha256 found = sha256 bytes) \/
  (exists r doc, asked "POST" (upload_url release name) true (JBytes bytes) r ∈ h /\ document r = Ok doc /\
     is_str (get doc "state") "uploaded" = true /\ is_str (get doc "digest") (digest sha256 bytes) = true).
(** A release that GitHub has answered with: for the tag, in a page of the list, or as the
    one that was created. *)
Definition told (h : list step) (a : Artifact) (release : jsval) : Prop :=
  answered h "GET" (append "releases/tags/" (a_tag a)) JUndefined release \/
  (exists page releases, answered h "GET" (page_path page) JUndefined (JArray releases) /\ release ∈ releases) \/
  answered h "POST" "releases" (release_body a) release.
(** That release is the one of the tag, and not a prerelease. *)
Definition ours (h : list step) (a : Artifact) (release : jsval) : Prop :=
  told h a release /\ is_str (get release "tag_name") (a_tag a) = true /\ is_false (get release "prerelease") = true.
(** Pages of the list of releases, from the first, without one of the tag. *)
Definition without (h : list step) (a : Artifact) (pages : list (list jsval)) : Prop :=
  forall i l, pages !! i = Some l -> answered h "GET" (page_path (Z.of_nat i + 1)) JUndefined (JArray l) /\
    Forall (fun release => is_str (get release "tag_name") (a_tag a) = false) l.
(** The whole list has none: the last page is not full. *)
Definition unlisted (h : list step) (a : Artifact) : Prop :=
  exists pages l, without h a (pages ++ [l]) /\ zlength l < 100.
Definition asset_files (a : Artifact) : list (jsstr * list Z) := [(a_filename a, a_bytes a); (checksum_name a, checksum_bytes a)].
Definition publish_body : jsval := JObject [("draft", JBool false); ("make_latest", JStr "false")].

(** What complete-release.mjs may ask besides reading. *)
Inductive may_change (a : Artifact) (h : list step) : Query -> Prop :=
| creates_tag :
    published a h -> missing h (ref_path (a_tag a)) -> may_change a h (Http "POST" (api "git/refs") true (ref_body a))
| creates_draft :
    published a h -> tag_checked h a -> missing h (append "releases/tags/" (a_tag a)) -> unlisted h a ->
    may_change a h (Http "POST" (api "releases") true (release_body a))
| deletes_starter release assets asset :
    published a h -> tag_checked h a -> ours h a release -> listed h release assets -> asset ∈ assets ->
    is_str (get asset "state") "starter" = true ->
    may_change a h (Http "DELETE" (asset_url asset) true JUndefined)
| uploads release assets name bytes :
    published a h -> tag_checked h a -> ours h a release -> (name, bytes) ∈ asset_files a -> listed h release assets ->
    Forall (fun asset => is_str (get asset "state") "starter" = true) (named name assets) ->
    may_change a h (Http "POST" (upload_url release name) true (JBytes bytes))
| publishes_draft release :
    published a h -> tag_checked h a -> ours h a release -> truthy (get release "draft") = true ->
    (forall name bytes, (name, bytes) ∈ asset_files a -> holds h release name bytes) ->
    may_change a h (Http "PATCH" (api (append "releases/" (template (get release "id")))) true publish_body).
Definition may_complete (a : Artifact) (h : list step) (q : Query) : Prop := reading q = true \/ may_change a h q.

(** What has been seen stays seen. *)
Lemma answered_later h h' method path body v : h ⊆ h' -> answered h method path body v -> answered h' method path body v.
Proof. intros Hs (r & Hr & Hd). exists r. split; [by apply Hs|done]. Qed.
Lemma published_later a h h' : h ⊆ h' -> published a h -> published a h'.
Proof.
  intros Hs (value & Hreg & Hi & Hsig). exists value. split; [by eapply registered_later|]. split; [done|].
  destruct Hsig as [?|(bundle & x & st & Hx & ?)]; [by left|right]. exists bundle, x, st. split; [by apply Hs|done].
Qed.
Lemma points_later a h h' object : h ⊆ h' -> points_at h a object -> points_at h' a object.
Proof.
  intros Hs. induction 1 as [method path body v Hin Ha|object v _ IH Ht Ha]; [eapply points_ref|eapply points_tag]; try done;
    by eapply answered_later.
Qed.
Lemma tag_later a h h' : h ⊆ h' -> tag_checked h a -> tag_checked h' a.
Proof. intros Hs (object & Hp & ?). exists object. split; [by eapply points_later|done]. Qed.
Lemma stored_later h h' asset bytes : h ⊆ h' -> stored h asset bytes -> stored h' asset bytes.
Proof.
  intros Hs (r & Hr & Hc). exists r. split; [by apply Hs|]. destruct Hc as [?|(url & r' & Hu & Hh & Hr' & ?)]; [by left|right].
  exists url, r'. split_and!; try done. by apply Hs.
Qed.
Lemma holds_later h h' release name bytes : h ⊆ h' -> holds h release name bytes -> holds h' release name bytes.
Proof.
  intros Hs [(assets & asset & found & Hl & Hin & Hn & Hst & He)|(r & doc & Hr & ?)]; [left|right].
  - exists assets, asset, found. split; [by eapply answered_later|]. split_and!; try done. by eapply stored_later.
  - exists r, doc. split; [by apply Hs|done].
Qed.
Lemma ours_later a h h' release : h ⊆ h' -> ours h a release -> ours h' a release.
Proof.
  intros Hs [Ht ?]. split; [|done]. destruct Ht as [?|[(page & l & ? & ?)|?]].
  - left. by eapply answered_later.
  - right; left. exists page, l. split; [by eapply answered_later|done].
  - right; right. by eapply answered_later.
Qed.
Lemma without_later a h h' pages : h ⊆ h' -> without h a pages -> without h' a pages.
Proof. intros Hs H i l Hi. destruct (H i l Hi). split; [by eapply answered_later|done]. Qed.

Context (a : Artifact).
Notation wp := (wp (may_complete a)).
Lemma complete_reads h q : reading q = true -> may_complete a h q.
Proof. by left. Qed.
Lemma subset_asked (h h' : list step) s : h ⊆ h' -> h ⊆ h' ++ [s].
Proof. intros H x Hx. apply elem_of_app. left. by apply H. Qed.
Lemma in_asked (h : list step) s : s ∈ h ++ [s].
Proof. apply elem_of_app. right. by apply list_elem_of_singleton. Qed.
Lemma wp_get path statuses (post : jsval -> list step -> Prop) h :
  (forall v h', h ⊆ h' -> answered h' "GET" path JUndefined v -> post v h') -> wp (github_get env path statuses) post h.
Proof. intros H. apply wp_github_get; [apply complete_reads|]. intros v h' Hr. by apply H, (read_on_subset reading). Qed.
Lemma wp_change method path body statuses (post : jsval -> list step -> Prop) h :
  may_change a h (Http method (api path) true body) ->
  (forall v h', h ⊆ h' -> answered h' method path body v -> post v h') -> wp (github env method path body statuses) post h.
Proof.
  intros Hc H. apply wp_github; [by right|]. intros r v _ Hd. apply H; [by apply subset_asked|]. exists r.
  split; [apply in_asked|done].
Qed.

Lemma wp_tag_object depth object (post : jsval -> list step -> Prop) h :
  points_at h a object -> (forall o h', h ⊆ h' -> points_at h' a o -> post o h') -> wp (tag_object env depth object) post h.
Proof.
  revert object h. induction depth as [|depth IH]; intros object h Hp H; cbn [tag_object]; [by apply H|].
  destruct (is_str (get object "type") "tag") eqn:Et; [|by apply H]. apply wp_bind, wp_get. intros v h' Hs Hv.
  apply IH; [eapply points_tag; [by eapply points_later|done..]|]. intros o h'' Hs'. apply H. by etrans.
Qed.
Lemma wp_tagSource ref (post : unit -> list step -> Prop) h :
  points_at h a (get ref "object") -> (forall h', h ⊆ h' -> tag_checked h' a -> post tt h') ->
  wp (tagSource env (a_source a) ref) post h.
Proof.
  intros Hp H. apply wp_bind, wp_tag_object; [done|]. intros o h' Hs Ho. apply wp_bind, wp_check. intros Ht.
  apply wp_check. intros Hsha. apply H; [done|]. by exists o.
Qed.
Lemma wp_the_tag (post : jsval -> list step -> Prop) h :
  published a h -> (forall ref h', h ⊆ h' -> points_at h' a (get ref "object") -> post ref h') -> wp (the_tag env a) post h.
Proof.
  intros Hp H. apply wp_bind, wp_get. intros v h1 H1 Hv. destruct (truthy v) eqn:Et.
  - apply wp_ret. intros ? [= <-]. apply H; [done|]. eapply points_ref; [|done]. set_solver.
  - apply wp_bind, wp_change; [apply creates_tag; [by eapply published_later|by exists v]|].
    intros ref h2 H2 Hr. destruct (truthy (get ref "object")).
    + apply wp_ret. intros ? [= <-]. apply H; [by etrans|]. eapply points_ref; [|done]. set_solver.
    + apply wp_get. intros ref' h3 H3 Hr'. apply H; [by do 2 (etrans; [done|])|]. eapply points_ref; [|done]. set_solver.
Qed.
Lemma wp_find_release pages page seen (post : option jsval -> list step -> Prop) h :
  page = zlength seen + 1 -> page + Z.of_nat pages = 21 -> page <= 20 -> without h a seen ->
  (forall o h', h ⊆ h' ->
     match o with
     | Some release => told h' a release
     | None => unlisted h' a
     end -> post o h') ->
  wp (find_release env (a_tag a) pages page) post h.
Proof.
  revert page seen h. induction pages as [|pages IH]; intros page seen h Ep Ers Hle Hseen H; [lia|]. cbn [find_release].
  apply wp_bind, wp_get. intros v h' Hs Hv. apply wp_bind, wp_check. intros Harr. destruct v as [| | | | |l| | |]; try done.
  destruct (release_tag _ _) as [release|] eqn:Et.
  { apply wp_ret. intros ? [= <-]. apply H; [done|]. right; left. exists page, l. split; [done|].
    apply list_elem_of_In. by apply List.find_some in Et as [? _]. }
  assert (without h' a (seen ++ [l])) as Hseen'.
  { intros i l' [Hi|[Hi Hx]]%lookup_app_Some; [by eapply without_later|].
    destruct (i - length seen)%nat as [|n] eqn:Ei; [|done]. injection Hx as <-. split.
    - replace (Z.of_nat i + 1) with page by (unfold zlength in Ep; lia). done.
    - apply List.Forall_forall. intros x Hx. by apply (List.find_none _ _ Et). }
  cbn [array_length]. destruct (Z.ltb_spec (zlength l) 100).
  - apply wp_ret. intros ? [= <-]. apply H; [done|]. by exists seen, l.
  - apply wp_bind, wp_check. intros Hp%Z.ltb_lt. apply (IH (page + 1) (seen ++ [l])); [|lia|lia|done|].
    + subst page. zlen.
    + intros o h'' Hs'. apply H. by etrans.
Qed.
Lemma wp_the_release (post : jsval -> list step -> Prop) h :
  published a h -> tag_checked h a -> (forall release h', h ⊆ h' -> told h' a release -> post release h') ->
  wp (the_release env a) post h.
Proof.
  intros Hp Ht H. apply wp_bind, wp_get. intros v h1 H1 Hv. apply wp_bind.
  assert (forall o h2, h1 ⊆ h2 ->
    match o with Some release => told h2 a release | None => missing h2 (append "releases/tags/" (a_tag a)) /\ unlisted h2 a end ->
    wp match o with Some release => ret (Ok release) | None => github env "POST" "releases" (release_body a) [201] end post h2) as Hgo.
  { intros [release|] h2 H2 Ho.
    - apply wp_ret. intros ? [= <-]. apply H; [by etrans|done].
    - destruct Ho. apply wp_change.
      + apply creates_draft; [eapply published_later; [|exact Hp]; by etrans|eapply tag_later; [|exact Ht]; by etrans|done|done].
      + intros release h3 Hs Hr. apply H; [by do 2 (etrans; [done|])|]. by right; right. }
  destruct (truthy v) eqn:Ev.
  - apply wp_ret. intros ? [= <-]. apply (Hgo (Some v)); [done|by left].
  - apply (wp_find_release 20 1 []); [done..|]. intros o h2 H2 Ho. apply Hgo; [done|]. destruct o; [done|]. split; [|done].
    exists v. split; [by eapply answered_later|done].
Qed.

Lemma wp_upload release assets name bytes (post : unit -> list step -> Prop) h :
  published a h -> tag_checked h a -> ours h a release -> (name, bytes) ∈ asset_files a -> listed h release assets ->
  Forall (fun asset => is_str (get asset "state") "starter" = true) (named name assets) ->
  (forall h', h ⊆ h' -> holds h' release name bytes -> post tt h') -> wp (upload sha256 env release name bytes) post h.
Proof.
  intros Hp Ht Ho Hf Hl Hst H. apply wp_bind, wp_request; [right; by eapply uploads|]. intros r _. apply wp_bind, wp_ret. intros doc Hd.
  apply wp_bind, wp_check. intros H1. apply wp_check. intros H2. apply H; [by apply subset_asked|].
  right. exists r, doc. split_and!; try done. apply in_asked.
Qed.
Lemma wp_stored_bytes asset (post : list Z -> list step -> Prop) h :
  (forall bytes h', h ⊆ h' -> stored h' asset bytes -> post bytes h') -> wp (stored_bytes parse_url env asset) post h.
Proof.
  intros H. apply wp_bind, wp_request_get; [apply complete_reads|]. intros r h1 H1%read_on_subset Hr _.
  destruct (status r =? 302).
  - destruct (parse_url _) as [url|] eqn:Eu; [|done]. apply wp_bind, wp_check. intros _. apply wp_bind, wp_check. intros Hh%js_eqb_eq.
    apply wp_bind, wp_check. intros _. apply wp_bind, wp_request_get; [apply complete_reads|]. intros r' h2 H2%read_on_subset Hr' _.
    apply wp_ret. intros bytes Hb. apply H; [by etrans|]. exists r. split; [by apply H2|]. right. by exists url, r'.
  - apply wp_ret. intros bytes Hb. apply H; [done|]. exists r. split; [done|by left].
Qed.
Lemma wp_ensureAsset release assets name bytes (post : unit -> list step -> Prop) h :
  published a h -> tag_checked h a -> ours h a release -> (name, bytes) ∈ asset_files a -> listed h release assets ->
  (forall h', h ⊆ h' -> holds h' release name bytes -> post tt h') ->
  wp (ensureAsset parse_url sha256 env release assets name bytes) post h.
Proof.
  intros Hp Ht Ho Hf Hl H. unfold ensureAsset. destruct (named name assets) as [|asset []] eqn:En; [| |done].
  - eapply wp_upload; try done. by rewrite En.
  - assert (asset ∈ assets /\ is_str (get asset "name") name = true) as [Hin Hname].
    { assert (asset ∈ named name assets) as Hx by (rewrite En; by apply list_elem_of_singleton).
      apply list_elem_of_In, filter_In in Hx as [Hx ?]. by rewrite <- list_elem_of_In in Hx. }
    destruct (is_str (get asset "state") "starter") eqn:Es.
    + apply wp_bind, wp_change; [by eapply deletes_starter|]. intros _ h1 H1 _. eapply wp_upload; try done.
      * by eapply published_later.
      * by eapply tag_later.
      * by eapply ours_later.
      * by eapply answered_later.
      * rewrite En. by constructor.
      * intros h2 H2. apply H. by etrans.
    + apply wp_bind, wp_check. intros _. apply wp_bind, wp_stored_bytes. intros found h1 H1 Hst. apply wp_check. intros He%js_eqb_eq.
      apply H; [done|]. left. exists assets, asset, found. split_and!; try done. by eapply answered_later.
Qed.

(** npm, the tag and the public release agree. *)
Record complete (h : list step) : Prop := {
  c_published : published a h;
  c_tag : tag_checked h a;
  c_release : exists release,
    ours h a release /\
    (forall name bytes, (name, bytes) ∈ asset_files a -> holds h release name bytes) /\
    (is_false (get release "draft") = true \/
     truthy (get release "draft") = true /\
     exists v, answered h "PATCH" (append "releases/" (template (get release "id"))) publish_body v /\
       is_false (get v "draft") = true) }.
Lemma complete_wp h : a_integrity a <> "" ->
  wp (complete_release parse_url sha256 sha512_hex statement_of utf8 env (Ok a)) (fun _ => complete) h.
Proof.
  intros Hi. apply wp_bind, wp_ret. intros _ _. apply wp_bind. cbn [Script.wp ret].
  apply wp_bind, (wp_ask_read reading); [apply complete_reads|done|]. intros g h1 H1 _. apply wp_bind.
  match goal with |- wp ?m ?post h1 => enough (post tt h1) as Hgo by (destruct g; [exact Hgo|exact Hgo|exact I]) end.
  apply wp_bind, wp_registryManifest; [apply complete_reads|done|]. intros value h2 _ Hreg.
  apply wp_bind, verify_published; [apply complete_reads|done|done|]. intros h3 _ Hp. clear dependent h1 h2 value g.
  apply wp_bind, wp_the_tag; [done|]. intros ref h4 H4 Hpoint. apply wp_bind, wp_tagSource; [done|]. intros h5 H5 Ht.
  assert (published a h5) as Hp5 by (eapply published_later; [|exact Hp]; by etrans).
  apply wp_bind, wp_the_release; [done|done|]. intros release h6 H6 Htold. apply wp_bind, wp_check. intros Htag.
  apply wp_bind, wp_check. intros Hpre. apply wp_bind, wp_get. intros assets h7 H7 Hl.
  assert (published a h7 /\ tag_checked h7 a) as [Hp7 Ht7]
    by (assert (h5 ⊆ h7) by (by etrans); split; [by eapply published_later|by eapply tag_later]).
  assert (ours h7 a release) as Ho7 by by eapply (ours_later a h6).
  destruct assets as [| | | | |assets| | |]; try done. clear dependent h3 h4 h5 h6 ref.
  apply wp_bind, wp_check. intros _.
  apply wp_bind. eapply wp_ensureAsset; [done|done|done|by left|done|]. intros h8 H8 Hfile1.
  apply wp_bind. eapply wp_ensureAsset; [by eapply published_later|by eapply tag_later|by eapply ours_later|
    right; by left|by eapply answered_later|].
  intros h9 H9 Hfile2.
  assert (published a h9 /\ tag_checked h9 a /\ ours h9 a release) as (Hp9 & Ht9 & Ho9)
    by (assert (h7 ⊆ h9) by (by etrans); split_and!; [by eapply published_later|by eapply tag_later|by eapply ours_later]).
  assert (forall name bytes, (name, bytes) ∈ asset_files a -> holds h9 release name bytes) as Hfiles.
  { intros name bytes [E|[E|Hn]%elem_of_cons]%elem_of_cons; [injection E as -> ->; by eapply holds_later|by injection E as -> ->|].
    by apply not_elem_of_nil in Hn. }
  apply wp_bind. destruct (truthy (get release "draft")) eqn:Edraft.
  - apply wp_change; [by apply publishes_draft|]. intros v h10 H10 Hv. apply wp_check. intros Hd.
    split; [by eapply published_later|by eapply tag_later|]. exists release. split; [by eapply ours_later|]. split.
    + intros name bytes Hn. eapply holds_later; [done|by apply Hfiles].
    + right. split; [done|]. by exists v.
  - apply wp_ret. intros ? [= <-]. apply wp_check. intros Hd. split; [done..|]. exists release. split; [done|]. split; [done|by left].
Qed.

(** C38: the completion of a release changes nothing that it has not checked.  A run of
    complete-release.mjs that is killed or fails anywhere has created the tag only where there
    was none, after the registry has shown the validated bytes with their provenance; it has
    created a draft only where neither the tag nor the whole list of releases gave one,
    deleted only assets that GitHub has listed as never finished, uploaded only the validated
    files under names that no finished asset has, and made public only a draft that GitHub
    has answered with, of this tag and not a prerelease, when both files are known to be in it,
    by their hashes, and the tag to point at the source.  A run that succeeds has seen npm, the
    tag, the files and the release that GitHub answered with agree, and GitHub has said that
    this release is not a draft, or no longer one. *)
Theorem complete_release_safe sha512 identity bytes sums l o :
  readArtifact sha256 sha512 env identity bytes sums = Ok a ->
  trace (complete_release parse_url sha256 sha512_hex statement_of utf8 env (Ok a)) l o ->
  (forall before q r after, l = before ++ (q, r) :: after -> reading q = false -> may_change a before q) /\
  (o = Some (Ok tt) -> complete l).
Proof.
  intros Ha Ht. destruct (artifact_hash _ _ _ _ _ _ _ Ha) as (_ & _ & Hne).
  destruct (wp_sound _ _ _ [] l o (complete_wp [] Hne) Ht) as [H1 H2]. split.
  - intros before q r after El Hq. destruct (H1 before q r after El) as [?|?]; [congruence|done].
  - intros Ho. by apply (H2 tt).
Qed.
End completion.

(** ** A demonstration release *)

Definition demo_env (name : jsstr) : jsval :=
  default JUndefined (assoc name
    [("GITHUB_ACTIONS", JStr "true"); ("GITHUB_REPOSITORY", JStr repository); ("GITHUB_REF", JStr "refs/heads/main");
     ("GITHUB_WORKFLOW_REF", JStr (text_of [repository; "/"; workflowPath; "@refs/heads/main"]));
     ("RUNNER_ENVIRONMENT", JStr "github-hosted"); ("GITHUB_TOKEN", JStr "t"); ("SDK_RELEASE_SHA", JStr initial_source);
     ("SDK_RELEASE_VERSION", JStr initial_version); ("SDK_ARTIFACT_SHA256", JStr "h1")]).
Definition demo_sha256 (bytes : list Z) : jsstr := append "h" (number_string (zlength bytes)).
Definition demo_sha512 (_ : list Z) : jsstr := JsStr (drop 7 (units initial_integrity)).
Definition demo_url (s : jsstr) : option Location := None.
Definition demo_statement (_ : jsval) : result exn jsval := Throw EOther.
Definition demo_utf8 (s : jsstr) : list Z := map Z.of_N (units s).
Definition demo_identity : jsval := JObject
  [("version", JStr initial_version); ("source", JStr initial_source); ("tag", JStr "sdk-v1.0.0");
   ("filename", JStr (archive initial_version)); ("tagged", JBool true); ("sha256", JStr "h1");
   ("integrity", JStr initial_integrity)].
Definition demo_sums : jsstr := sum_file "h1" (archive initial_version).
Definition demo_artifact : Artifact := {|
  a_version := initial_version; a_tag := "sdk-v1.0.0"; a_source := initial_source; a_filename := archive initial_version;
  a_tagged := JBool true; a_integrity := initial_integrity; a_sha256 := "h1"; a_bytes := [5] |}.
Definition reply (s : Z) (v : jsval) : Answer :=
  Replied {| status := s; document := Ok v; content := Throw EOther; location := JNull |}.
(** A GitHub without the release, and an npm that has the version. *)
Definition demo_host (_ : list step) (q : Query) : Answer :=
  match q with
  | Http method url _ body =>
      if js_eqb url (registry_url initial_version) then
        reply 200 (JObject [("name", JStr packageName); ("version", JStr initial_version); ("license", JStr "MIT");
                            ("dist", JObject [("integrity", JStr initial_integrity)])])
      else if js_eqb url (api (ref_path "sdk-v1.0.0")) then
        reply 200 (JObject [("object", JObject [("type", JStr "commit"); ("sha", JStr initial_source)])])
      else if js_eqb method "PATCH" then reply 200 (JObject [("draft", JBool false)])
      else if js_eqb url (api "releases/7/assets?per_page=100") || js_eqb url (api "releases?per_page=100&page=1") then reply 200 (JArray [])
      else if js_eqb url (api "releases") then
        reply 201 (JObject [("id", jint 7); ("tag_name", JStr "sdk-v1.0.0"); ("prerelease", JBool false); ("draft", JBool true)])
      else
        match body with
        | JBytes bytes => reply 201 (JObject [("state", JStr "uploaded"); ("digest", JStr (digest demo_sha256 bytes))])
        | _ => reply 404 JNull
        end
  | _ => Printed ""
  end.
Definition demo_completion : task unit :=
  complete_release demo_url demo_sha256 id demo_statement demo_utf8 demo_env (Ok demo_artifact).
Lemma complete_release_safe_witness :
  snd (play demo_host demo_completion []) = Ok tt /\ length (fst (play demo_host demo_completion [])) = 10%nat /\
  complete demo_url id demo_statement demo_sha256 demo_utf8 demo_artifact (fst (play demo_host demo_completion [])).
Proof.
  split; [vm_compute; reflexivity|]. split; [vm_compute; reflexivity|].
  refine (proj2 (complete_release_safe demo_env demo_url id demo_statement demo_sha256 demo_utf8 demo_artifact demo_sha512
    demo_identity [5] demo_sums _ (Some (snd (play demo_host demo_completion []))) _ (play_trace demo_host demo_completion [])) _).
  - vm_compute. reflexivity.
  - vm_compute. reflexivity.
Defined.

(** The same version, before it was published: there is nothing to verify it against. *)
Definition demo_new_identity : jsval := JObject
  [("version", JStr "2.0.0"); ("source", JStr initial_source); ("tag", JStr "sdk-v2.0.0"); ("filename", JStr (archive "2.0.0"));
   ("tagged", JBool false); ("sha256", JStr "h1"); ("integrity", JStr initial_integrity)].
Definition demo_new_env (name : jsstr) : jsval :=
  if js_eqb name "SDK_RELEASE_VERSION" then JStr "2.0.0"
  else if includes_text name "ACTIONS_ID_TOKEN" then JStr "x" else demo_env name.
Definition demo_new_artifact : Artifact := {|
  a_version := "2.0.0"; a_tag := "sdk-v2.0.0"; a_source := initial_source; a_filename := archive "2.0.0";
  a_tagged := JBool false; a_integrity := initial_integrity; a_sha256 := "h1"; a_bytes := [5] |}.
(** A protected repository and a registry that never shows the version. *)
Definition demo_registry (_ : list step) (q : Query) : Answer :=
  match q with
  | Http _ url _ _ =>
      if js_eqb url (api "branches/main") then reply 200 (JObject [("protected", JBool true)])
      else if js_eqb url (api "environments/npm-production") then
        reply 200 (JObject [("deployment_branch_policy",
                             JObject [("protected_branches", JBool false); ("custom_branch_policies", JBool true)])])
      else if includes_text url "deployment-branch-policies" then
        reply 200 (JObject [("total_count", jint 1);
                            ("branch_policies", JArray [JObject [("name", JStr "main"); ("type", JStr "branch")]])])
      else reply 404 JNull
  | NpmVersion => Printed "12.0.2"
  | _ => Printed ""
  end.
Definition demo_publication : task unit := publish_release demo_url id demo_statement demo_new_env (Ok demo_new_artifact).
Lemma publish_once_witness :
  let l := fst (play demo_registry demo_publication []) in
  length l = 67%nat /\ snd (play demo_registry demo_publication []) = Throw EOther /\
  exists before r after, l = before ++ (NpmPublish (archive "2.0.0") initial_source, r) :: after /\ unregistered before "2.0.0".
Proof.
  intros l. split; [vm_compute; reflexivity|]. split; [vm_compute; reflexivity|].
  exists (take 5 l). eexists _, _. assert (l = take 5 l ++ (NpmPublish (archive "2.0.0") initial_source, Some (Printed "")) :: drop 6 l) as E
    by (vm_compute; reflexivity).
  split; [exact E|].
  apply (proj1 (publish_once demo_new_env demo_url id demo_statement demo_sha256 demo_sha512 demo_new_identity [5]
    (sum_file "h1" (archive "2.0.0")) demo_new_artifact l (Some (snd (play demo_registry demo_publication [])))
    ltac:(vm_compute; reflexivity) (play_trace demo_registry demo_publication [])) _ _ _ _ E). reflexivity.
Defined.
