(* ===== verification/Artifact.v ===== *)
(** * The artifact between the jobs (packages/typescript/scripts/release-artifact.mjs)

    The jobs of the release workflow hand their results on as files: the archive, its
    checksum, and release.json, which says what they are.  release-artifact.mjs writes them,
    [readArtifact] of release-tools.mjs reads them in later jobs.  A folder of files is an
    association list; [JSON.stringify], [JSON.parse] and the coding of texts are parameters. *)

From S2P Require Import Prelude Js Errors Service Script Release Package Publish.

Local Open Scope js_scope.

Notation folder := (list (jsstr * list Z)).
(** [readFile], which throws where there is no file, and [writeFile]. *)
Definition readFile (files : folder) (name : jsstr) : result exn (list Z) :=
  match assoc name files with Some bytes => Ok bytes | None => Throw EOther end.
Definition writeFile (files : folder) (name : jsstr) (bytes : list Z) : folder := assoc_set name bytes files.
Definition metadata_name : jsstr := "release.json".
Definition sum_name (filename : jsstr) : jsstr := append filename ".sha256".

(** The folder after a run, and what it has appended to the outputs of its job. *)
Record Job := { folder_ : folder; output : jsstr }.

Section artifact.
Context (sha256 sha512 : list Z -> jsstr) (stringify : jsval -> jsstr) (parseJson : jsstr -> result exn jsval).
Context (utf8 : jsstr -> list Z) (decode : list Z -> jsstr).

Section job.
Context (env : jsstr -> jsval).

(** [outputs(values)] *)
Definition outputs (values : list (jsstr * jsval)) : result exn jsstr :=
  let? _ := assert (truthy (env "GITHUB_OUTPUT")) in
  Ok (text_of (map (fun p => text_of [p.1; "="; template p.2; newline]) values)).
Definition metadata_text (identity : jsval) : jsstr := append (stringify identity) newline.

(** The identity of the release that the job works on. *)
Definition artifact_identity (git : list jsstr -> result exn jsstr) (manifest : jsval) : result exn jsval :=
  let? _ := assertWorkflow env in
  let? _ := assertReleaseContext manifest env in
  let? head := git ["rev-parse"; "HEAD"] in
  let? _ := assert (is_str (env "SDK_RELEASE_SHA") head) in
  let? identity := match env "SDK_RELEASE_IDENTITY" with JStr s => parseJson s | _ => Throw EOther end in
  let? version := prop identity "version" in
  let? _ := assert (same_value version (env "SDK_RELEASE_VERSION")) in
  let? _ := assert (same_value (get identity "source") (env "SDK_RELEASE_SHA")) in
  let? _ := assert (is_str (get identity "filename") (archive (template version))) in
  Ok identity.
Definition filename_of (identity : jsval) : jsstr := template (get identity "filename").

(** [{ ...identity, ...hashes }] *)
Definition with_hashes (identity : jsval) (bytes : list Z) : jsval :=
  spread_set (spread_set identity "sha256" (JStr (sha256 bytes))) "integrity" (JStr (integrity_of sha512 bytes)).
(** The run [record]. *)
Definition record_job (git : list jsstr -> result exn jsstr) (manifest : jsval) (files : folder) : result exn Job :=
  let? identity := artifact_identity git manifest in
  let filename := filename_of identity in
  let? bytes := readFile files filename in
  let? sums := readFile files (sum_name filename) in
  let? _ := assert (js_eqb (decode sums) (sum_file (sha256 bytes) filename)) in
  let files := writeFile files metadata_name (utf8 (metadata_text (with_hashes identity bytes))) in
  let? out := outputs [("sha256", JStr (sha256 bytes))] in
  Ok {| folder_ := files; output := out |}.

(** The run [recover]. *)
Definition recovered_files (files : folder) (filename : jsstr) (bytes : list Z) : folder :=
  writeFile (writeFile files filename bytes) (sum_name filename) (utf8 (sum_file (sha256 bytes) filename)).
Definition recover_job (parse_url : jsstr -> option Location) (sha512_hex : jsstr -> jsstr) (statement_of : jsval -> result exn jsval)
    (git : list jsstr -> result exn jsstr) (manifest : jsval) (files : folder) : task Job :=
  let$ identity := ret (artifact_identity git manifest) in
  match get identity "version", get identity "source" with
  | JStr version, JStr source =>
      let$ found := recover parse_url sha512 sha512_hex statement_of env version source (get identity "tagged") in
      let files := match found with Some bytes => recovered_files files (filename_of identity) bytes | None => files end in
      let files := writeFile files metadata_name (utf8 (metadata_text identity)) in
      let$ out := ret (outputs [("recovered", JBool (match found with Some _ => true | None => false end))]) in
      ret (Ok {| folder_ := files; output := out |})
  | _, _ => ret (Throw EOther)
  end.

(** [readArtifact] on the files of a later job. *)
Definition read_folder (files : folder) : result exn Artifact :=
  let? text := readFile files metadata_name in
  let? identity := parseJson (decode text) in
  let filename := filename_of identity in
  let? bytes := readFile files filename in
  let? sums := readFile files (sum_name filename) in
  readArtifact sha256 sha512 env identity bytes (decode sums).
End job.

(** The identity that resolve-release.mjs hands to the jobs. *)
Definition identity_json (i : Identity) : jsval := JObject
  [("version", JStr (i_version i)); ("tag", JStr (i_tag i)); ("source", JStr (i_source i)); ("tagged", JBool (i_tagged i));
   ("filename", JStr (i_filename i))].

(** What resolve-release.mjs announces; [serialize] is [JSON.stringify]. *)
Definition resolve_outputs (env : jsstr -> jsval) (serialize : jsval -> jsstr) (resolved : option Identity) : result exn jsstr :=
  outputs env
    match resolved with
    | None => [("release", JBool false)]
    | Some i => [("release", JBool true); ("source", JStr (i_source i)); ("version", JStr (i_version i));
                 ("identity", JStr (serialize (identity_json i)))]
    end.

(** ** Properties *)

Lemma assert_inv b x : assert b = Ok x -> b = true.
Proof. by destruct b. Qed.
Lemma artifact_identity_inv env git manifest identity : artifact_identity env git manifest = Ok identity ->
  exists sha, env "SDK_RELEASE_SHA" = JStr sha /\ is_sha sha = true /\ get identity "source" = JStr sha /\
    same_value (get identity "version") (env "SDK_RELEASE_VERSION") = true /\
    get identity "filename" = JStr (archive (template (get identity "version"))).
Proof.
  unfold artifact_identity, assertReleaseContext. intros H. read_apart H. injection H as <-.
  match goal with E : result_bind (assert (is_str (env "GITHUB_ACTIONS") _)) _ = Ok _ |- _ => rename E into Hc end. read_apart Hc.
  repeat match goal with E : prop _ _ = Ok ?w |- _ => is_var w; apply prop_Ok in E; subst w | E : assert _ = Ok _ |- _ => apply assert_inv in E end.
  destruct (env "SDK_RELEASE_SHA") as [| | | |sha| | | |] eqn:Es; try done. exists sha. split_and!; try done.
  - match goal with E : same_value (get _ "source") _ = true |- _ => rename E into Hs end.
    destruct (get _ "source") as [| | | |s| | | |]; try done. by apply js_eqb_eq in Hs as ->.
  - match goal with E : is_str (get _ "filename") _ = true |- _ => rename E into Hf end.
    destruct (get _ "filename") as [| | | |s| | | |]; try done. by apply js_eqb_eq in Hf as ->.
Qed.

(** The names of the three files are different. *)
Lemma archive_names version : archive version <> metadata_name /\ sum_name (archive version) <> metadata_name /\
  archive version <> sum_name (archive version).
Proof.
  split_and!; [by intros [=]..|]. intros E. apply (f_equal (fun s => length (units s))) in E. cbn in E. rewrite !length_app in E. cbn in E. lia.
Qed.
Lemma get_with_hashes identity bytes k : k <> "sha256"%js -> k <> "integrity"%js ->
  get (with_hashes identity bytes) k = get identity k.
Proof. intros H1 H2. unfold with_hashes. by rewrite !get_spread_ne. Qed.

Lemma with_hashes_sha256 identity bytes : get (with_hashes identity bytes) "sha256" = JStr (sha256 bytes).
Proof. unfold with_hashes. rewrite get_spread_ne by done. apply get_spread_eq. Qed.
Lemma with_hashes_integrity identity bytes : get (with_hashes identity bytes) "integrity" = JStr (integrity_of sha512 bytes).
Proof. apply get_spread_eq. Qed.

Lemma get_identity i :
  get (identity_json i) "version" = JStr (i_version i) /\ get (identity_json i) "source" = JStr (i_source i) /\
  get (identity_json i) "tag" = JStr (i_tag i) /\ get (identity_json i) "filename" = JStr (i_filename i) /\
  get (identity_json i) "tagged" = JBool (i_tagged i).
Proof. done. Qed.

(** What a later job accepts: the archive has the announced hash, and release.json and the
    checksum are those of the archive. *)
Lemma read_folder_inv env files a : read_folder env files = Ok a ->
  env "SDK_RELEASE_SHA" = JStr (a_source a) /\ env "SDK_RELEASE_VERSION" = JStr (a_version a) /\
  env "SDK_ARTIFACT_SHA256" = JStr (sha256 (a_bytes a)) /\ readFile files (a_filename a) = Ok (a_bytes a) /\
  a_integrity a = integrity_of sha512 (a_bytes a).
Proof.
  unfold read_folder, readArtifact, filename_of. intros H. read_apart H.
  rename a1 into identity. destruct (get identity "version") as [| | | |version| | | |], (get identity "source") as [| | | |source| | | |]; try done.
  read_apart H. injection H as <-.
  repeat match goal with E : assert _ = Ok _ |- _ => apply assert_inv in E end. cbn [a_source a_version a_bytes a_filename a_integrity].
  repeat match goal with E : is_str ?v _ = true |- _ => destruct v as [| | | |?s| | | |] eqn:?; try discriminate E; apply js_eqb_eq in E; subst end.
  by split_and!.
Qed.

Section handover.
Context (runGit : list jsstr -> result exn jsstr) (eventSha requested : jsstr) (i : Identity).
Context (Hi : resolveIdentity runGit parseJson eventSha requested = Ok i).
Context (git : list jsstr -> result exn jsstr) (manifest : jsval) (env env' : jsstr -> jsval).
Context (Henv : artifact_identity env git manifest = Ok (identity_json i)).
Context (Hsha : env' "SDK_RELEASE_SHA" = env "SDK_RELEASE_SHA") (Hversion : env' "SDK_RELEASE_VERSION" = env "SDK_RELEASE_VERSION").

(** The artifact of a recorded release reaches the later jobs.  When [record] succeeds, the output it
    announces is the hash of the archive in the folder, and a job that gets the
    folder and the output accepts it as the artifact of the resolved release, with the hashes of
    those bytes.  Whatever else a later job may be given as a folder, if it accepts it
    then the archive has the announced hash, and the commit and the version are those of the release. *)
Theorem artifact_handover files job :
  record_job env git manifest files = Ok job ->
  exists bytes, readFile files (archive (i_version i)) = Ok bytes /\ readFile (folder_ job) (archive (i_version i)) = Ok bytes /\
    output job = text_of ["sha256="; sha256 bytes; newline] /\
    let recorded := with_hashes (identity_json i) bytes in
    env' "SDK_ARTIFACT_SHA256" = JStr (sha256 bytes) ->
    (parseJson (decode (utf8 (metadata_text recorded))) = Ok recorded ->
     read_folder env' (folder_ job) = Ok
       {| a_version := i_version i; a_tag := i_tag i; a_source := i_source i; a_filename := archive (i_version i);
          a_tagged := JBool (i_tagged i); a_integrity := integrity_of sha512 bytes; a_sha256 := sha256 bytes; a_bytes := bytes |}) /\
    (forall files' a, read_folder env' files' = Ok a ->
       sha256 (a_bytes a) = sha256 bytes /\ a_source a = i_source i /\ a_version a = i_version i).
Proof.
  intros H. destruct (resolveIdentity_sound _ _ _ _ _ Hi) as (Hst & Htag & _).
  destruct (artifact_identity_inv _ _ _ _ Henv) as (sha & Es & Hhex & Hsrc & Hver & Hfile).
  cbn in Hsrc, Hfile. injection Hsrc as Hsrc. injection Hfile as Hfile. subst sha.
  assert (env "SDK_RELEASE_VERSION" = JStr (i_version i)) as Ev
    by (cbn in Hver; destruct (env "SDK_RELEASE_VERSION"); try done; by apply js_eqb_eq in Hver as ->).
  destruct (archive_names (i_version i)) as (Hn1 & Hn2 & _).
  unfold record_job in H. rewrite Henv in H. cbn [result_bind] in H.
  assert (filename_of (identity_json i) = archive (i_version i)) as Ef by (unfold filename_of; cbn; by rewrite Hfile).
  rewrite Ef in H. read_apart H. injection H as <-. rename a into bytes, a0 into sums. cbn [folder_ output].
  assert (forall name b, name <> metadata_name -> readFile (writeFile files metadata_name b) name = readFile files name) as Hother
    by (intros name b Hne; unfold readFile, writeFile; rewrite assoc_set_ne; congruence).
  exists bytes. split_and!; [done|by rewrite Hother| |].
  - unfold outputs in *. match goal with E : result_bind (assert _) _ = Ok _ |- _ => rename E into Ho end. read_apart Ho. injection Ho as <-.
    unfold text_of. cbn [map concat units template fst snd]. by rewrite app_nil_r.
  - intros Ha. set (recorded := with_hashes (identity_json i) bytes). split.
    + intros Hparse. unfold read_folder. unfold readFile at 1, writeFile at 1. rewrite assoc_set_eq. cbn [result_bind].
      rewrite Hparse. cbn [result_bind]. assert (filename_of recorded = archive (i_version i)) as -> by (unfold filename_of, recorded; rewrite get_with_hashes by done; exact Ef).
      rewrite !Hother by done. rewrite E, E0. cbn [result_bind]. unfold readArtifact, recorded.
      rewrite with_hashes_sha256, with_hashes_integrity, !get_with_hashes by done. destruct (get_identity i) as (-> & -> & -> & -> & ->).
      apply assert_inv in E1. rewrite Hst, Hhex, Htag, Hfile, Hsha, Es, Hversion, Ev, Ha. cbn [is_str assert result_bind].
      rewrite !js_eqb_refl. cbn [assert result_bind]. by rewrite E1.
    + intros files' a Hr. destruct (read_folder_inv _ _ _ Hr) as (H1 & H2 & H3 & _). split_and!; congruence.
Qed.
End handover.

(** Bytes that were recovered from the registry pass [record]: the folder that a successful
    [recover] leaves either has no archive of its making or one that [record] accepts. *)
Definition recordable (env : jsstr -> jsval) (git : list jsstr -> result exn jsstr) (manifest : jsval) (files : folder) (job : Job) : Prop :=
  exists identity, artifact_identity env git manifest = Ok identity /\
    (folder_ job = writeFile files metadata_name (utf8 (metadata_text identity)) \/
     exists bytes job', readFile (folder_ job) (filename_of identity) = Ok bytes /\ record_job env git manifest (folder_ job) = Ok job').
Theorem recovered_is_recorded parse_url sha512_hex statement_of git manifest env files l job :
  (forall bytes version, decode (utf8 (sum_file (sha256 bytes) (archive version))) = sum_file (sha256 bytes) (archive version)) ->
  trace (recover_job env parse_url sha512_hex statement_of git manifest files) l (Some (Ok job)) ->
  recordable env git manifest files job.
Proof.
  intros Hutf Ht.
  enough (wp (fun _ _ => True) (recover_job env parse_url sha512_hex statement_of git manifest files)
    (fun job _ => recordable env git manifest files job) []) as Hw by (by eapply (proj2 (wp_sound _ _ _ _ _ _ Hw Ht))).
  apply wp_bind, wp_ret. intros identity Hid. destruct (artifact_identity_inv _ _ _ _ Hid) as (sha & _ & _ & _ & _ & Hfile).
  destruct (get identity "version") as [| | | |version| | | |] eqn:Ev; try done.
  destruct (get identity "source") as [| | | |source| | | |]; try done. apply wp_bind. eapply wp_mono, wp_any. intros found h _.
  apply wp_bind, wp_ret. intros out Hout. exists identity. split; [done|]. cbn [folder_]. destruct found as [bytes|]; [right|by left].
  assert (filename_of identity = archive version) as Ef by (unfold filename_of; by rewrite Hfile).
  destruct (archive_names version) as (Hn1 & Hn2 & Hn3). rewrite Ef. exists bytes.
  unfold record_job, recovered_files, readFile, writeFile. rewrite Hid. cbn [result_bind]. rewrite Ef.
  rewrite !(assoc_set_ne metadata_name), assoc_set_eq, assoc_set_ne, assoc_set_eq by done. cbn [result_bind].
  rewrite Hutf, js_eqb_refl. cbn [assert result_bind]. unfold outputs in *. read_apart Hout. rewrite E. cbn [result_bind]. by eexists.
Qed.
End artifact.

Definition demo_release : Identity :=
  {| i_version := "1.0.10"; i_tag := "sdk-v1.0.10"; i_source := demo_sha; i_tagged := false; i_filename := archive "1.0.10" |}.
Definition demo_hash (bytes : list Z) : jsstr := append "h" (number_string (zlength bytes)).
Definition demo_recorded : jsval := with_hashes demo_hash demo_hash (identity_json demo_release) [5; 6].
Definition demo_json (s : jsstr) : result exn jsval :=
  if js_eqb s "identity" then Ok (identity_json demo_release)
  else if js_eqb s (append "recorded" newline) then Ok demo_recorded
  else demo_parse s.
Definition demo_bytes (s : jsstr) : list Z := map Z.of_N (units s).
Definition demo_text (bytes : list Z) : jsstr := JsStr (map Z.to_N bytes).
Definition demo_job_env (name : jsstr) : jsval :=
  if js_eqb name "GITHUB_ACTIONS" then JStr "true"
  else if js_eqb name "GITHUB_REPOSITORY" then JStr repository
  else if js_eqb name "GITHUB_REF" then JStr "refs/heads/main"
  else if js_eqb name "GITHUB_WORKFLOW_REF" then JStr workflow_ref
  else if js_eqb name "RUNNER_ENVIRONMENT" then JStr "github-hosted"
  else if js_eqb name "SDK_RELEASE_SHA" then JStr demo_sha
  else if js_eqb name "SDK_RELEASE_VERSION" then JStr "1.0.10"
  else if js_eqb name "SDK_RELEASE_IDENTITY" then JStr "identity"
  else if js_eqb name "GITHUB_OUTPUT" then JStr "out" else JUndefined.
Definition demo_later_env (name : jsstr) : jsval := if js_eqb name "SDK_ARTIFACT_SHA256" then JStr "h2" else demo_job_env name.
Definition demo_head (_ : list jsstr) : result exn jsstr := Ok demo_sha.
Definition demo_package : jsval := spread_set Package.demo_manifest "version" (JStr "1.0.10").
Definition demo_folder : folder :=
  [(archive "1.0.10", [5; 6]); (sum_name (archive "1.0.10"), demo_bytes (sum_file "h2" (archive "1.0.10")))].
Lemma artifact_handover_witness :
  exists job, record_job demo_hash demo_hash (fun _ => "recorded"%js) demo_json demo_bytes demo_text demo_job_env demo_head demo_package
    demo_folder = Ok job /\
  exists a, read_folder demo_hash demo_hash demo_json demo_text demo_later_env (folder_ job) = Ok a /\ a_bytes a = [5; 6].
Proof.
  eexists. split; [vm_compute; reflexivity|].
  match goal with |- exists a, read_folder _ _ _ _ _ (folder_ ?j) = _ /\ _ =>
    destruct (artifact_handover demo_hash demo_hash (fun _ => "recorded"%js) demo_json demo_bytes demo_text demo_history demo_sha "" demo_release
      ltac:(vm_compute; reflexivity) demo_head demo_package demo_job_env demo_later_env ltac:(vm_compute; reflexivity) eq_refl eq_refl
      demo_folder j ltac:(vm_compute; reflexivity)) as (bytes & Hb & _ & _ & Ha) end.
  injection Hb as <-. destruct (Ha eq_refl) as [Hr _]. eexists. split; [apply Hr; vm_compute; reflexivity|reflexivity].
Defined.
