(* ===== verification/Prepare.v ===== *)
(** * Opening the pull request of a release (packages/typescript/scripts/prepare-release-pr.mjs)

    The script that turns the plan of a release into a branch and a pull request.  It asks
    GitHub, through its client Octokit, and npm; all calls of Octokit name the repository,
    which is left out of their parameters here, and [octokit] paginates where the script
    does.  The decoding of file contents from base 64 is a parameter, and so are git and
    [JSON.parse], as in Release.v. *)

From S2P Require Import Prelude Js Errors Service Script Release.

Local Open Scope js_scope.

(** ** Questions and answers *)

Inductive Query :=
| Octokit (operation : jsstr) (params : list (jsstr * jsval))
| FetchJson (url : jsstr)                      (* without redirects, within 30 seconds *)
| Announce (message : jsstr) (url : jsval).    (* a notice and the summary of the job *)
(** What a fetch has brought, with the outcomes of [body.cancel()] and [json()]. *)
Record Fetched := { status : Z; cancelled : result exn unit; document : result exn jsval }.
Inductive Answer :=
| Data (v : jsval)
| Response_ (r : Fetched)
| Failed (status : jsval).                     (* the call throws an error with this status *)
Notation task := (script Query Answer).
Notation step := (Query * option Answer)%type.
Definition octokit (operation : jsstr) (params : list (jsstr * jsval)) : task jsval :=
  Ask (Octokit operation params) (fun a => match a with Data v => ret (Ok v) | _ => ret (Throw EOther) end).

(** [context] of the workflow. *)
Record Context_ := { owner : jsstr; repo : jsstr; eventName : jsstr; x_ref : jsstr; x_sha : jsstr }.

Definition elements (v : jsval) : result exn (list jsval) := match v with JArray l => Ok l | _ => Throw ETypeError end.
(** [list.sort()] of texts: by their code units. *)
Fixpoint units_le (a b : list N) : bool :=
  match a, b with
  | [], _ => true
  | _ :: _, [] => false
  | x :: a, y :: b => N.ltb x y || (N.eqb x y && units_le a b)
  end.
Fixpoint insert_sorted (s : jsstr) (l : list jsstr) : list jsstr :=
  match l with
  | [] => [s]
  | t :: l => if units_le (units s) (units t) then s :: t :: l else t :: insert_sorted s l
  end.
Definition sorted (l : list jsstr) : list jsstr := fold_right insert_sorted [] l.

(** ** prepareReleasePr *)

Section prepare.
Context (decode : jsstr -> jsstr) (git : list jsstr -> result exn jsstr) (parseJson : jsstr -> result exn jsval).

(** [data.object.sha] *)
Definition sha_of (data : jsval) : result exn jsval := let? object := prop data "object" in prop object "sha".
Definition branch_params (name : jsstr) : list (jsstr * jsval) := [("ref", JStr (append "heads/" name))].
Definition mainSha : task jsval := let$ data := octokit "git.getRef" (branch_params "main") in ret (sha_of data).
Definition content_params (path : jsstr) (ref : jsval) : list (jsstr * jsval) := [("path", JStr path); ("ref", ref)].
Definition file_text (data : jsval) : result exn jsstr :=
  let? type := prop data "type" in
  let? _ := assert (is_str type "file") in
  let? _ := assert (is_str (get data "encoding") "base64") in
  match get data "content" with JStr s => Ok (decode s) | _ => Throw ETypeError end.
Definition contentAt (path : jsstr) (ref : jsval) : task jsstr :=
  let$ data := octokit "repos.getContent" (content_params path ref) in ret (file_text data).
Definition registry_url (version : jsstr) : jsstr := append "https://registry.npmjs.org/@sellaro%2Fja3proxy/" version.
Definition published_version (r : Fetched) (version : jsstr) : result exn unit :=
  let? _ := assert (status r =? 200) in
  let? metadata := document r in
  let? name := prop metadata "name" in
  let? _ := assert (is_str name packageName) in
  let? _ := assert (is_str (get metadata "version") version) in
  assert (truthy (get (get metadata "dist") "integrity") && truthy (get (get metadata "dist") "tarball")).
Definition isPublished (version : jsstr) : task bool :=
  Ask (FetchJson (registry_url version)) (fun a =>
    match a with
    | Response_ r =>
        if status r =? 404 then ret (let? _ := cancelled r in Ok false)
        else ret (let? _ := published_version r version in Ok true)
    | _ => ret (Throw ETypeError)
    end).
Definition announce (message : jsstr) (url : jsval) : task unit :=
  Ask (Announce message url) (fun a => match a with Failed _ => ret (Throw EOther) | _ => ret (Ok tt) end).

(** The version of the manifest that a release starts from, and the version that it gets. *)
Definition source_manifest (text : jsstr) (bump : jsval) : result exn (jsstr * jsstr) :=
  let? manifest := parseJson text in
  let? name := prop manifest "name" in
  let? _ := assert (is_str name packageName) in
  let? _ := assert (match get manifest "private" with JBool true => true | _ => false end) in
  let? _ := assert (is_str (get manifest "license") "MIT") in
  let? version := bumpVersion (get manifest "version") bump in
  match get manifest "version" with JStr current => Ok (current, version) | _ => Throw EOther end.

(** Which of the open pull requests are releases. *)
Definition is_release_pr (pr : jsval) : result exn bool :=
  let? head := prop pr "head" in
  let? repository' := prop head "repo" in
  if is_str (get repository' "full_name") repository then
    match get head "ref" with JStr s => Ok (starts_with (units "release/sdk-") (units s)) | _ => Throw ETypeError end
  else Ok false.
Fixpoint release_prs (open : list jsval) : result exn (list jsval) :=
  match open with
  | [] => Ok []
  | pr :: open =>
      let? mine := is_release_pr pr in
      let? rest := release_prs open in Ok (if mine then pr :: rest else rest)
  end.
Definition of_branch (branch : jsstr) (pr : jsval) : bool := is_str (get (get pr "head") "ref") branch.
Definition open_params : list (jsstr * jsval) := [("state", JStr "open"); ("base", JStr "main"); ("per_page", jint 100)].
Definition prior_params (owner branch : jsstr) : list (jsstr * jsval) :=
  [("state", JStr "closed"); ("base", JStr "main"); ("head", JStr (text_of [owner; ":"; branch])); ("per_page", jint 100)].
(** The commit of a branch; [undefined] if GitHub does not know the branch. *)
Definition branch_sha (branch : jsstr) : task jsval :=
  Ask (Octokit "git.getRef" (branch_params branch)) (fun a =>
    match a with
    | Data v => ret (sha_of v)
    | Failed status => if is_int status 404 then ret (Ok JUndefined) else ret (Throw EOther)
    | _ => ret (Throw EOther)
    end).
(** The blob of a planned file in the tree of a branch. *)
Definition regular_file (tree : list jsval) (path : jsstr) : result exn unit :=
  match List.find (fun entry => is_str (get entry "path") path) tree with
  | Some entry => let? _ := assert (is_str (get entry "type") "blob") in assert (is_str (get entry "mode") "100644")
  | None => Throw EOther
  end.
Fixpoint check_files (tree : list jsval) (branchSha : jsval) (files : list (jsstr * jsstr)) : task unit :=
  match files with
  | [] => ret (Ok tt)
  | (path, text) :: files =>
      let$ _ := ret (regular_file tree path) in
      let$ stored := contentAt path branchSha in
      let$ _ := check (js_eqb stored text) in check_files tree branchSha files
  end.
Definition file_names (changes : jsval) : option (list jsstr) :=
  match get changes "files" with JArray l => mapM (fun f => match get f "filename" with JStr s => Some s | _ => None end) l | _ => None end.
Definition changes_only (changes : jsval) (plan : Plan) : bool :=
  match file_names changes with Some l => bool_decide (sorted l = sorted (files plan).*1) | None => false end.
Definition commit_query (sha : jsval) : list (jsstr * jsval) := [("commit_sha", sha)].
Definition compare_params (base head : jsval) : list (jsstr * jsval) :=
  [("basehead", JStr (text_of [template base; "..."; template head]))].
Definition only_parent (commit : jsval) : result exn jsval :=
  let? parents := prop commit "parents" in
  let? parents := elements parents in
  match parents with [parent] => prop parent "sha" | _ => Throw EOther end.
Definition tree_query (tree : jsval) : list (jsstr * jsval) := [("tree_sha", tree); ("recursive", JStr "true")].
Definition tree_of (commit : jsval) : result exn jsval := let? tree := prop commit "tree" in prop tree "sha".
Definition whole_tree (tree : jsval) : result exn (list jsval) :=
  let? truncated := prop tree "truncated" in
  let? _ := assert (match truncated with JBool false => true | _ => false end) in elements (get tree "tree").
(** The branch that an earlier run has left: its plan, if the branch is exactly that. *)
Definition resume (bump version : jsval) (sourceSha branchSha : jsval) : task Plan :=
  let$ commit := octokit "git.getCommit" (commit_query branchSha) in
  let$ parentSha := ret (only_parent commit) in
  let$ ancestry := octokit "repos.compareCommitsWithBasehead" (compare_params parentSha sourceSha) in
  let$ status := ret (prop ancestry "status") in
  let$ _ := check (is_str status "ahead" || is_str status "identical") in
  let$ plan := ret (planRelease git parseJson bump version parentSha) in
  let$ _ := check (ready plan) in
  let$ changes := octokit "repos.compareCommitsWithBasehead" (compare_params parentSha branchSha) in
  let$ _ := check (changes_only changes plan) in
  let$ tree_sha := ret (tree_of commit) in
  let$ tree := octokit "git.getTree" (tree_query tree_sha) in
  let$ entries := ret (whole_tree tree) in
  let$ _ := check_files entries branchSha (files plan) in ret (Ok plan).

Definition tree_entry (file : jsstr * jsstr) : jsval :=
  JObject [("path", JStr file.1); ("mode", JStr "100644"); ("type", JStr "blob"); ("content", JStr file.2)].
Definition tree_params (base_tree : jsval) (plan : Plan) : list (jsstr * jsval) :=
  [("base_tree", base_tree); ("tree", JArray (map tree_entry (files plan)))].
Definition title (version : jsstr) : jsstr := append "chore(sdk): release v" version.
Definition commit_params (version sourceSha : jsstr) (tree : jsval) : list (jsstr * jsval) :=
  [("message", JStr (title version)); ("tree", tree); ("parents", JArray [JStr sourceSha])].
Definition ref_params (branch : jsstr) (commit : jsval) : list (jsstr * jsval) :=
  [("ref", JStr (append "refs/heads/" branch)); ("sha", commit)].
(** A new branch with one commit on top of main, whose sha is the result; nothing where
    there is nothing to release. *)
Definition create (bump version : jsval) (next sourceSha branch : jsstr) : task (option (Plan * jsval)) :=
  let$ plan := ret (planRelease git parseJson bump version (JStr sourceSha)) in
  if negb (ready plan) then
    let$ _ := announce (text_of ["No SDK or shared wire-contract changes since "; previousTag plan; "; no version, branch, or PR was created."])
                JUndefined in
    ret (Ok None)
  else
    let$ main := mainSha in
    let$ _ := check (is_str main sourceSha) in
    let$ base := octokit "git.getCommit" (commit_query (JStr sourceSha)) in
    let$ base_tree := ret (tree_of base) in
    let$ tree := octokit "git.createTree" (tree_params base_tree plan) in
    let$ tree_sha := ret (prop tree "sha") in
    let$ commit := octokit "git.createCommit" (commit_params next sourceSha tree_sha) in
    let$ commit_sha := ret (prop commit "sha") in
    let$ _ := octokit "git.createRef" (ref_params branch commit_sha) in
    ret (Ok (Some (plan, commit_sha))).

Definition pr_body (version current : jsstr) (plan : Plan) : jsstr :=
  JsStr (join_with 10 (map units
    [text_of ["Prepare **@sellaro/ja3proxy "; version; "** from the already-public **"; current; "**."]; "";
     "**Merging this PR is the only release approval.** Normal required SDK checks must pass; merge manually under main branch protection. The merge automatically starts npm OIDC publication through sdk-publish.yml. This workflow never merges, approves, tags, or publishes."; "";
     text_of ["Source remains `private: true`; only the version and SDK changelog change. Release source: ["; Release.sourceSha plan;
              "](https://github.com/"; repository; "/commit/"; Release.sourceSha plan; ")."]; "";
     "Review the generated commit summaries and edit the changelog if user-facing release notes need clarification. Choose a different bump only after explicitly closing this PR; preparation never replaces its branch."; "";
     notes plan])).
Definition pull_params (version current branch : jsstr) (plan : Plan) : list (jsstr * jsval) :=
  [("base", JStr "main"); ("head", JStr branch); ("title", JStr (title version));
   ("body", JStr (pr_body version current plan)); ("draft", JBool false); ("maintainer_can_modify", JBool true)].
(** The pull request, if main and the branch are still what they were. *)
Definition open_pull (version current sourceSha branch : jsstr) (plan : Plan) (branchSha : jsval) : task unit :=
  let$ main := mainSha in
  let$ _ := check (is_str main sourceSha) in
  let$ data := octokit "git.getRef" (branch_params branch) in
  let$ sha := ret (sha_of data) in
  let$ _ := check (same_value sha branchSha) in
  let$ pr := octokit "pulls.create" (pull_params version current branch plan) in
  let$ url := ret (prop pr "html_url") in
  announce (text_of ["Prepared "; version; ". Review and merge the PR manually; no package was published by preparation."]) url.

Definition release_branch (version : jsstr) : jsstr := append "release/sdk-" version.
Definition prepareReleasePr (x : Context_) (bump : jsval) : task unit :=
  let$ _ := check (js_eqb (text_of [owner x; "/"; repo x]) repository) in
  let$ _ := check (js_eqb (eventName x) "workflow_dispatch") in
  let$ _ := check (js_eqb (x_ref x) "refs/heads/main") in
  let sourceSha := x_sha x in
  let$ main := mainSha in
  let$ _ := check (is_str main sourceSha) in
  let$ text := contentAt manifestPath (JStr sourceSha) in
  let$ versions := ret (source_manifest text bump) in
  let current := versions.1 in
  let version := versions.2 in
  let branch := release_branch version in
  let$ is_public := isPublished current in
  let$ _ := check is_public in
  let$ open := octokit "pulls.list" open_params in
  let$ open := ret (elements open) in
  let$ releases := ret (release_prs open) in
  let$ _ := check (forallb (of_branch branch) releases) in
  match releases with
  | existing :: _ =>
      announce (text_of ["Release "; version; " already has an open PR; its branch and review are unchanged."]) (get existing "html_url")
  | [] =>
      let$ prior := octokit "pulls.list" (prior_params (owner x) branch) in
      let$ prior := ret (elements prior) in
      let$ _ := check (Nat.eqb (length prior) 0) in
      let$ is_public := isPublished version in
      let$ _ := check (negb is_public) in
      let$ branchSha := branch_sha branch in
      if truthy branchSha then
        let$ plan := resume bump (JStr current) (JStr sourceSha) branchSha in
        open_pull version current sourceSha branch plan branchSha
      else
        let$ created := create bump (JStr current) version sourceSha branch in
        match created with
        | None => ret (Ok tt)
        | Some (plan, sha) => open_pull version current sourceSha branch plan sha
        end
  end.
End prepare.

(** ** What the script has seen *)

Definition read_operations : list jsstr :=
  ["git.getRef"; "git.getCommit"; "git.getTree"; "repos.getContent"; "repos.compareCommitsWithBasehead"; "pulls.list"].
(** A question that changes nothing in the repository. *)
Definition reading (q : Query) : bool := match q with Octokit operation _ => js_includes read_operations operation | _ => true end.
Notation read_on := (Script.read_on reading).
Notation writes := (Script.writes reading).
Definition answered (h : list step) (operation : jsstr) (params : list (jsstr * jsval)) (v : jsval) : Prop :=
  (Octokit operation params, Some (Data v)) ∈ h.

Section safety.
Context (decode : jsstr -> jsstr) (git : list jsstr -> result exn jsstr) (parseJson : jsstr -> result exn jsval).
Context (x : Context_) (bump : jsval).
Notation planRelease := (planRelease git parseJson bump).

(** The registry's answer about a version. *)
Definition seen_public (h : list step) (version : jsstr) : Prop :=
  exists r, (FetchJson (registry_url version), Some (Response_ r)) ∈ h /\ status r = 200 /\ published_version r version = Ok tt.
Definition seen_unknown (h : list step) (version : jsstr) : Prop :=
  exists r, (FetchJson (registry_url version), Some (Response_ r)) ∈ h /\ status r = 404.
(** The text of a file at a commit. *)
Definition has_text (h : list step) (path : jsstr) (sha : jsval) (text : jsstr) : Prop :=
  exists data, answered h "repos.getContent" (content_params path sha) data /\ file_text decode data = Ok text.
(** Nothing stands against the release of a version after the current one: main's
    manifest has the current version, which npm has; npm does not have the new one; and no
    pull request, open or closed, has been made for it, nor for any other unfinished release. *)
Definition cleared (h : list step) (current version : jsstr) : Prop :=
  text_of [owner x; "/"; repo x] = repository /\ eventName x = "workflow_dispatch" /\ x_ref x = "refs/heads/main" /\
  (exists text, has_text h manifestPath (JStr (x_sha x)) text /\ source_manifest parseJson text bump = Ok (current, version)) /\
  seen_public h current /\ seen_unknown h version /\
  (exists open, answered h "pulls.list" open_params (JArray open) /\ release_prs open = Ok []) /\
  answered h "pulls.list" (prior_params (owner x) (release_branch version)) (JArray []).
(** GitHub does not know the branch. *)
Definition no_branch (h : list step) (branch : jsstr) : Prop :=
  exists a, (Octokit "git.getRef" (branch_params branch), Some a) ∈ h /\
    (a = Failed (jint 404) \/ exists v sha, a = Data v /\ sha_of v = Ok sha /\ truthy sha = false).
(** The commit of a branch is the plan of a release from its only parent, which main
    contains: it changes the planned files only, and they are what the plan says. *)
Definition verified (h : list step) (current : jsstr) (sha : jsval) (plan : Plan) : Prop :=
  exists commit parent ancestry changes tree_sha tree entries,
    answered h "git.getCommit" (commit_query sha) commit /\ only_parent commit = Ok parent /\
    answered h "repos.compareCommitsWithBasehead" (compare_params parent (JStr (x_sha x))) ancestry /\
    (is_str (get ancestry "status") "ahead" || is_str (get ancestry "status") "identical") = true /\
    planRelease (JStr current) parent = Ok plan /\ ready plan = true /\
    answered h "repos.compareCommitsWithBasehead" (compare_params parent sha) changes /\ changes_only changes plan = true /\
    tree_of commit = Ok tree_sha /\ answered h "git.getTree" (tree_query tree_sha) tree /\ whole_tree tree = Ok entries /\
    Forall (fun file => regular_file entries file.1 = Ok tt /\ has_text h file.1 sha file.2) (files plan).
(** The script has just seen main at the commit that it was started for, and then the
    branch at a commit. *)
Definition just_seen (h : list step) (branch : jsstr) (sha : jsval) : Prop :=
  exists h0 main data found,
    h = h0 ++ [(Octokit "git.getRef" (branch_params "main"), Some (Data main));
               (Octokit "git.getRef" (branch_params branch), Some (Data data))] /\
    sha_of main = Ok (JStr (x_sha x)) /\ sha_of data = Ok found /\ same_value found sha = true.

(** A new branch: GitHub does not know it, and there is a plan on top of main. *)
Definition new_branch (h : list step) (current version : jsstr) (plan : Plan) (base_tree : jsval) : Prop :=
  cleared h current version /\ no_branch h (release_branch version) /\
  planRelease (JStr current) (JStr (x_sha x)) = Ok plan /\ ready plan = true /\
  exists base, answered h "git.getCommit" (commit_query (JStr (x_sha x))) base /\ tree_of base = Ok base_tree.
Definition done (operation : jsstr) (params : list (jsstr * jsval)) (v : jsval) : step := (Octokit operation params, Some (Data v)).
(** What making the branch writes, from the answers of GitHub. *)
Definition branch_writes (version : jsstr) (plan : Plan) (base_tree tree tree_sha commit commit_sha ref : jsval) : list step :=
  [done "git.createTree" (tree_params base_tree plan) tree;
   done "git.createCommit" (commit_params version (x_sha x) tree_sha) commit;
   done "git.createRef" (ref_params (release_branch version) commit_sha) ref].

(** What the script may ask besides reading. *)
Inductive may_change (h : list step) : Query -> Prop :=
| creates_tree current version plan base_tree :
    new_branch h current version plan base_tree -> writes h = [] ->
    may_change h (Octokit "git.createTree" (tree_params base_tree plan))
| creates_commit current version plan base_tree tree tree_sha :
    new_branch h current version plan base_tree -> prop tree "sha" = Ok tree_sha ->
    writes h = [done "git.createTree" (tree_params base_tree plan) tree] ->
    may_change h (Octokit "git.createCommit" (commit_params version (x_sha x) tree_sha))
| creates_ref current version plan base_tree tree tree_sha commit commit_sha :
    new_branch h current version plan base_tree -> prop tree "sha" = Ok tree_sha -> prop commit "sha" = Ok commit_sha ->
    writes h = [done "git.createTree" (tree_params base_tree plan) tree;
                done "git.createCommit" (commit_params version (x_sha x) tree_sha) commit] ->
    may_change h (Octokit "git.createRef" (ref_params (release_branch version) commit_sha))
| opens_resumed current version plan sha :
    cleared h current version -> verified h current sha plan -> writes h = [] -> just_seen h (release_branch version) sha ->
    may_change h (Octokit "pulls.create" (pull_params version current (release_branch version) plan))
| opens_created current version plan base_tree tree tree_sha commit sha ref :
    new_branch h current version plan base_tree -> prop tree "sha" = Ok tree_sha -> prop commit "sha" = Ok sha ->
    writes h = branch_writes version plan base_tree tree tree_sha commit sha ref -> just_seen h (release_branch version) sha ->
    may_change h (Octokit "pulls.create" (pull_params version current (release_branch version) plan)).
Definition may_prepare (h : list step) (q : Query) : Prop := reading q = true \/ may_change h q.

(** What has been seen stays seen. *)
Lemma answer_later h h' operation params v : h ⊆ h' -> answered h operation params v -> answered h' operation params v.
Proof. intros Hs. apply Hs. Qed.
Lemma has_text_later h h' path sha text : h ⊆ h' -> has_text h path sha text -> has_text h' path sha text.
Proof. intros Hs (data & Hd & ?). exists data. split; [by apply Hs|done]. Qed.
Lemma cleared_later h h' current version : h ⊆ h' -> cleared h current version -> cleared h' current version.
Proof.
  intros Hs (? & ? & ? & (text & ? & ?) & (r & Hr & ?) & (r' & Hr' & ?) & (open & Ho & ?) & Hp). split_and!; try done.
  - exists text. split; [by eapply has_text_later|done].
  - exists r. split; [by apply Hs|done].
  - exists r'. split; [by apply Hs|done].
  - exists open. split; [by apply Hs|done].
  - by apply Hs.
Qed.
Lemma no_branch_later h h' branch : h ⊆ h' -> no_branch h branch -> no_branch h' branch.
Proof. intros Hs (a & Ha & ?). exists a. split; [by apply Hs|done]. Qed.
Lemma verified_later h h' current sha plan : h ⊆ h' -> verified h current sha plan -> verified h' current sha plan.
Proof.
  intros Hs (commit & parent & ancestry & changes & tree_sha & tree & entries & ? & ? & ? & ? & ? & ? & ? & ? & ? & ? & ? & Hf).
  exists commit, parent, ancestry, changes, tree_sha, tree, entries. split_and!; try done; [by apply Hs..|].
  eapply Forall_impl; [exact Hf|]. intros file [? ?]. split; [done|]. by eapply has_text_later.
Qed.
Lemma new_branch_later h h' current version plan base_tree :
  h ⊆ h' -> new_branch h current version plan base_tree -> new_branch h' current version plan base_tree.
Proof.
  intros Hs (? & ? & ? & ? & base & ? & ?). split_and!; try done; [by eapply cleared_later|by eapply no_branch_later|].
  exists base. split; [by apply Hs|done].
Qed.
Lemma one_more (h : list step) s : h ⊆ h ++ [s].
Proof. intros y Hy. apply elem_of_app. by left. Qed.

(** ** The parts of the script *)

Notation wp := (wp may_prepare).
Lemma may_read h q : reading q = true -> may_prepare h q.
Proof. by left. Qed.
Lemma wp_octokit operation params (post : jsval -> list step -> Prop) h :
  may_prepare h (Octokit operation params) -> (forall v, post v (h ++ [done operation params v])) -> wp (octokit operation params) post h.
Proof. intros Ha H. split; [done|]. intros [v| |]; [apply H|done..]. Qed.
Lemma wp_look operation params (post : jsval -> list step -> Prop) h :
  js_includes read_operations operation = true ->
  (forall v h', read_on h h' -> answered h' operation params v -> post v h') -> wp (octokit operation params) post h.
Proof.
  intros Hr H. apply wp_octokit; [by left|]. intros v. apply H; [by apply read_on_one|].
  apply elem_of_app. right. by apply list_elem_of_singleton.
Qed.
Lemma wp_mainSha (post : jsval -> list step -> Prop) h :
  (forall sha h', read_on h h' -> post sha h') -> wp mainSha post h.
Proof. intros H. apply wp_bind, wp_look; [done|]. intros data h1 H1 _. apply wp_ret. intros sha _. by apply H. Qed.
Lemma wp_contentAt path ref (post : jsstr -> list step -> Prop) h :
  (forall text h', read_on h h' -> has_text h' path ref text -> post text h') -> wp (contentAt decode path ref) post h.
Proof. intros H. apply wp_bind, wp_look; [done|]. intros data h1 H1 Hd. apply wp_ret. intros text Ht. apply H; [done|]. by exists data. Qed.
Lemma wp_isPublished version (post : bool -> list step -> Prop) h :
  (forall h', read_on h h' -> seen_public h' version -> post true h') ->
  (forall h', read_on h h' -> seen_unknown h' version -> post false h') -> wp (isPublished version) post h.
Proof.
  intros Hyes Hno. split; [by left|]. intros [|r|]; [done| |done].
  assert (forall q a, read_on h (h ++ [(FetchJson q, a)])) as Hr by (intros; by apply read_on_one).
  assert (forall s : step, s ∈ h ++ [s]) as Hin by (intros; apply elem_of_app; right; by apply list_elem_of_singleton).
  destruct (Z.eqb_spec (status r) 404) as [E|E]; apply wp_ret.
  - intros b (? & _ & [= <-])%bind_Ok. apply Hno; [done|]. by exists r.
  - intros b ([] & Hp & [= <-])%bind_Ok. apply Hyes; [done|]. exists r. split; [done|]. split; [|done].
    unfold published_version in Hp. apply bind_Ok in Hp as (? & Hs & _). destruct (Z.eqb_spec (status r) 200); [done|discriminate Hs].
Qed.
Lemma wp_announce message url (post : unit -> list step -> Prop) h :
  (forall h', read_on h h' -> post tt h') -> wp (announce message url) post h.
Proof. intros H. split; [by left|]. intros [| |]; [apply H; by apply read_on_one..|done]. Qed.
Lemma wp_branch_sha branch (post : jsval -> list step -> Prop) h :
  (forall sha h', read_on h h' -> (truthy sha = false -> no_branch h' branch) -> post sha h') -> wp (branch_sha branch) post h.
Proof.
  intros H. split; [by left|]. set (q := Octokit "git.getRef" (branch_params branch)).
  assert (forall a, (q, Some a) ∈ h ++ [(q, Some a)]) as Hin by (intros; apply elem_of_app; right; by apply list_elem_of_singleton).
  intros [v| |status]; [|done|].
  - apply wp_ret. intros sha Hs. apply H; [by apply read_on_one|]. intros Hf. exists (Data v). split; [apply Hin|]. right. by exists v, sha.
  - destruct (is_int status 404) eqn:E; [|done]. apply H; [by apply read_on_one|]. intros _. exists (Failed status).
    split; [apply Hin|]. left. destruct status as [| | |[]| | | | |]; try done. by apply Z.eqb_eq in E as ->.
Qed.

Lemma wp_check_files tree sha files (post : unit -> list step -> Prop) h :
  (forall h', read_on h h' -> Forall (fun file => regular_file tree file.1 = Ok tt /\ has_text h' file.1 sha file.2) files -> post tt h') ->
  wp (check_files decode tree sha files) post h.
Proof.
  revert h. induction files as [|[path text] files IH]; intros h H; [apply H; [apply read_on_refl|constructor]|].
  apply wp_bind, wp_ret. intros [] Hf. apply wp_bind, wp_contentAt. intros stored h1 H1 Hs. apply wp_bind, wp_check. intros ->%js_eqb_eq.
  apply IH. intros h2 H2 Hr. apply H; [by eapply read_on_trans|]. constructor; [|done]. split; [done|].
  eapply has_text_later; [by eapply read_on_subset|done].
Qed.

(** Carries a fact along the history since it was seen. *)
Ltac carried later := first [eassumption | eapply later; [eapply (read_on_subset reading); eassumption|carried later]].
Lemma wp_resume current branchSha (post : Plan -> list step -> Prop) h :
  (forall plan h', read_on h h' -> verified h' current branchSha plan -> post plan h') ->
  wp (resume decode git parseJson bump (JStr current) (JStr (x_sha x)) branchSha) post h.
Proof.
  intros H. apply wp_bind, wp_look; [done|]. intros commit h1 H1 Hc. apply wp_bind, wp_ret. intros parent Hp.
  apply wp_bind, wp_look; [done|]. intros ancestry h2 H2 Ha. apply wp_bind, wp_ret. intros status Hs.
  apply wp_bind, wp_check. intros Hst. apply wp_bind, wp_ret. intros plan Hplan. apply wp_bind, wp_check. intros Hready.
  apply wp_bind, wp_look; [done|]. intros changes h3 H3 Hch. apply wp_bind, wp_check. intros Honly. apply wp_bind, wp_ret. intros tree_sha Ht.
  apply wp_bind, wp_look; [done|]. intros tree h4 H4 Htr. apply wp_bind, wp_ret. intros entries He.
  apply wp_bind, wp_check_files. intros h5 H5 Hf. apply H.
  - do 4 (eapply read_on_trans; [eassumption|]). done.
  - assert (get ancestry "status" = status) as <- by (unfold prop in Hs; destruct ancestry; congruence).
    exists commit, parent, ancestry, changes, tree_sha, tree, entries. split_and!; try done; carried answer_later.
Qed.

(** The end: what was asked is known, and it is the last thing. *)
Definition opened (h : list step) : Prop :=
  writes h = [] \/ exists current version plan pr before,
    writes h = before ++ [done "pulls.create" (pull_params version current (release_branch version) plan) pr] /\
    (before = [] \/ length before = 3%nat).
Lemma wp_open_pull current version plan sha h :
  (forall h', read_on h h' -> just_seen h' (release_branch version) sha ->
     may_prepare h' (Octokit "pulls.create" (pull_params version current (release_branch version) plan))) ->
  (writes h = [] \/ length (writes h) = 3%nat) ->
  wp (open_pull version current (x_sha x) (release_branch version) plan sha) (fun _ => opened) h.
Proof.
  intros H Hw. apply wp_bind. apply wp_bind, wp_octokit; [by left|]. intros main. apply wp_ret. intros main_sha Hm.
  apply wp_bind, wp_check. intros Hmain. apply wp_bind, wp_octokit; [by left|]. intros data. apply wp_bind, wp_ret. intros found Hf.
  apply wp_bind, wp_check. intros Hsame. rewrite <- app_assoc. cbn [app].
  assert (read_on h (h ++ [done "git.getRef" (branch_params "main") main; done "git.getRef" (branch_params (release_branch version)) data])) as Hr.
  { eexists. split; [done|]. by repeat constructor. }
  apply wp_bind, wp_octokit.
  - apply H; [done|]. exists h, main, data, found. split_and!; try done. rewrite Hm. f_equal.
    destruct main_sha; try done. by apply js_eqb_eq in Hmain as ->.
  - intros pr. apply wp_bind, wp_ret. intros url _. apply wp_announce. intros h' Hr'. right.
    exists current, version, plan, pr, (writes h). split; [|done].
    rewrite (read_on_writes reading _ _ Hr'), writes_app, (read_on_writes reading _ _ Hr). done.
Qed.

Lemma wp_create current version (post : option (Plan * jsval) -> list step -> Prop) h :
  cleared h current version -> no_branch h (release_branch version) -> writes h = [] ->
  (forall h', writes h' = [] -> post None h') ->
  (forall plan base_tree tree tree_sha commit sha ref h', new_branch h' current version plan base_tree ->
     prop tree "sha" = Ok tree_sha -> prop commit "sha" = Ok sha ->
     writes h' = branch_writes version plan base_tree tree tree_sha commit sha ref -> post (Some (plan, sha)) h') ->
  wp (create git parseJson bump (JStr current) version (x_sha x) (release_branch version)) post h.
Proof.
  intros Hc Hb Hw Hnone Hsome. apply wp_bind, wp_ret. intros plan Hplan. destruct (ready plan) eqn:Hready; cbn [negb].
  - apply wp_bind, wp_mainSha. intros main h1 H1. apply wp_bind, wp_check. intros _. apply wp_bind, wp_look; [done|]. intros base h2 H2 Hbase.
    apply wp_bind, wp_ret. intros base_tree Hbt.
    assert (new_branch h2 current version plan base_tree) as Hn.
    { split; [carried cleared_later|]. split; [carried no_branch_later|]. do 2 (split; [done|]). by exists base. }
    assert (writes h2 = []) as Hw2 by (by rewrite (read_on_writes reading _ _ H2), (read_on_writes reading _ _ H1)).
    apply wp_bind, wp_octokit; [right; by eapply creates_tree|]. intros tree. set (h3 := h2 ++ _).
    assert (new_branch h3 current version plan base_tree) as Hn3 by (eapply new_branch_later, Hn; apply one_more).
    assert (writes h3 = [done "git.createTree" (tree_params base_tree plan) tree]) as Hw3 by (unfold h3; by rewrite writes_app, Hw2).
    clearbody h3. apply wp_bind, wp_ret. intros tree_sha Ht. apply wp_bind, wp_octokit; [right; by eapply creates_commit|]. intros commit. set (h4 := h3 ++ _).
    assert (new_branch h4 current version plan base_tree) as Hn4 by (eapply new_branch_later, Hn3; apply one_more).
    assert (writes h4 = [done "git.createTree" (tree_params base_tree plan) tree;
       done "git.createCommit" (commit_params version (x_sha x) tree_sha) commit]) as Hw4 by (unfold h4; by rewrite writes_app, Hw3).
    clearbody h4. apply wp_bind, wp_ret. intros sha Hsha. apply wp_bind, wp_octokit; [right; by eapply (creates_ref _ _ _ _ _ tree)|]. intros ref.
    apply (Hsome plan base_tree tree tree_sha commit sha ref); [eapply new_branch_later, Hn4; apply one_more|done..|]. by rewrite writes_app, Hw4.
  - apply wp_bind, wp_announce. intros h1 H1. apply Hnone. by rewrite (read_on_writes reading _ _ H1).
Qed.

Lemma prepare_wp : wp (prepareReleasePr decode git parseJson x bump) (fun _ => opened) [].
Proof.
  apply wp_bind, wp_check. intros Howner%js_eqb_eq. apply wp_bind, wp_check. intros Hevent%js_eqb_eq.
  apply wp_bind, wp_check. intros Href%js_eqb_eq. apply wp_bind, wp_mainSha. intros main h1 H1. apply wp_bind, wp_check. intros _.
  apply wp_bind, wp_contentAt. intros text h2 H2 Htext. apply wp_bind, wp_ret. intros [current version] Hv. cbn [fst snd].
  apply wp_bind, wp_isPublished; [|intros; by apply wp_bind, wp_check]. intros h3 H3 Hpub. apply wp_bind, wp_check. intros _.
  apply wp_bind, wp_look; [done|]. intros open h4 H4 Hopen. apply wp_bind, wp_ret. intros prs Hprs. apply wp_bind, wp_ret. intros releases Hrel.
  apply wp_bind, wp_check. intros _.
  assert (writes h4 = []) as Hw by (by rewrite (read_on_writes reading _ _ H4), (read_on_writes reading _ _ H3),
    (read_on_writes reading _ _ H2), (read_on_writes reading _ _ H1)).
  destruct releases as [|existing releases].
  - apply wp_bind, wp_look; [done|]. intros prior h5 H5 Hprior. apply wp_bind, wp_ret. intros ps Hps. apply wp_bind, wp_check. intros Hno.
    apply wp_bind, wp_isPublished; [intros; by apply wp_bind, wp_check|]. intros h6 H6 Hun. apply wp_bind, wp_check. intros _.
    assert (cleared h6 current version) as Hc.
    { split_and!; try done.
      - exists text. split; [carried has_text_later|done].
      - destruct Hpub as (r & Hr & ?). exists r. split; [|done]. do 3 (eapply (read_on_subset reading); [eassumption|]). done.
      - exists prs. split; [|done]. unfold elements in Hprs. destruct open; try done. injection Hprs as ->. carried answer_later.
      - unfold elements in Hps. destruct prior; try done. injection Hps as ->. destruct ps; [|done]. carried answer_later. }
    assert (writes h6 = []) as Hw6 by (by rewrite (read_on_writes reading _ _ H6), (read_on_writes reading _ _ H5)).
    clear - Hc Hw6. apply wp_bind, wp_branch_sha. intros sha h7 H7 Hb.
    assert (writes h7 = []) as Hw7 by (by rewrite (read_on_writes reading _ _ H7)).
    assert (cleared h7 current version) as Hc7 by carried cleared_later. destruct (truthy sha).
    + apply wp_bind, wp_resume. intros plan h8 H8 Hver. assert (writes h8 = []) as Hw8 by (by rewrite (read_on_writes reading _ _ H8)).
      apply wp_open_pull; [|by left]. intros h9 H9 Hj. right. eapply opens_resumed; [carried cleared_later|carried verified_later| |done].
      by rewrite (read_on_writes reading _ _ H9).
    + apply wp_bind. apply wp_create; [done|by apply Hb|done| |].
      * intros h8 Hw8. by left.
      * intros plan base_tree tree tree_sha commit commit_sha ref h8 Hn Ht Hs Hw8. apply wp_open_pull; [|right; by rewrite Hw8].
        intros h9 H9 Hj. right. eapply (opens_created _ _ _ _ _ tree tree_sha commit commit_sha ref); [carried new_branch_later|done..| |done].
        by rewrite (read_on_writes reading _ _ H9).
  - apply wp_announce. intros h5 H5. left. by rewrite (read_on_writes reading _ _ H5).
Qed.

(** C39: preparing a release is safe, at whatever point a run is killed or fails.  The only things that
    it writes are one tree, one commit, one new branch and one pull request, in this order.  It starts
    to write only when main's manifest, which names the current version, has been read at the commit of
    the run, npm has that version and not the next one, and no pull request stands against it.  The
    tree holds the planned files on top of main, the commit has main as its parent, and the
    branch, which GitHub did not know, is made at that commit.  A branch that exists is
    never changed: its pull request is opened only if its commit is file by file the plan from its
    parent, which main contains.  Right before the pull request main and the branch
    were still where they should be.  A run that succeeds has either written nothing or opened
    the pull request last. *)
Theorem prepare_safe l o :
  trace (prepareReleasePr decode git parseJson x bump) l o ->
  (forall before q r after, l = before ++ (q, r) :: after -> reading q = false -> may_change before q) /\
  (o = Some (Ok tt) -> opened l).
Proof.
  intros Ht. destruct (wp_sound _ _ _ [] l o prepare_wp Ht) as [H1 H2]. split; [|intros Ho; by apply (H2 tt)].
  intros before q r after El Hq. destruct (H1 before q r after El) as [?|?]; [congruence|done].
Qed.
End safety.

Definition demo_context : Context_ :=
  {| owner := "sellaro-net"; repo := "ja3proxy"; eventName := "workflow_dispatch"; x_ref := "refs/heads/main"; x_sha := demo_sha |}.
Definition demo_object (sha : jsstr) : jsval := JObject [("object", JObject [("sha", JStr sha)])].
Definition demo_created (h : list step) : bool :=
  existsb (fun s => match s.1 with Octokit operation _ => js_eqb operation "git.createRef" | _ => false end) h.
(** A repository whose version 1.0.9 is published, and a registry that knows nothing else. *)
Definition demo_github (h : list step) (q : Query) : Answer :=
  match q with
  | Octokit operation params =>
      if js_eqb operation "git.getRef" then
        if deepEqual (JObject params) (JObject (branch_params "main")) then Data (demo_object demo_sha)
        else if demo_created h then Data (demo_object demo_older) else Failed (jint 404)
      else if js_eqb operation "repos.getContent" then
        Data (JObject [("type", JStr "file"); ("encoding", JStr "base64"); ("content", JStr (demo_manifest_text "1.0.9"))])
      else if js_eqb operation "pulls.list" then Data (JArray [])
      else Data (JObject [("sha", JStr demo_older); ("tree", JObject [("sha", JStr "t")]); ("html_url", JStr "u")])
  | FetchJson url =>
      let found := js_eqb url (registry_url "1.0.9") in
      Response_ {| status := if found then 200 else 404; cancelled := Ok tt;
        document := Ok (JObject [("name", JStr packageName); ("version", JStr "1.0.9");
                                 ("dist", JObject [("integrity", JStr "i"); ("tarball", JStr "t")])]) |}
  | Announce _ _ => Data JUndefined
  end.
Definition demo_preparation : task unit := prepareReleasePr id demo_git demo_parse demo_context (JStr "patch").
Lemma prepare_safe_witness :
  let l := fst (play demo_github demo_preparation []) in
  map (fun s => match s.1 with Octokit operation _ => operation | _ => ""%js end) (writes l) =
    ["git.createTree"; "git.createCommit"; "git.createRef"; "pulls.create"]%js /\
  snd (play demo_github demo_preparation []) = Ok tt /\ opened l.
Proof.
  intros l. split; [vm_compute; reflexivity|]. split; [vm_compute; reflexivity|].
  refine (proj2 (prepare_safe id demo_git demo_parse demo_context (JStr "patch") l (Some (snd (play demo_github demo_preparation [])))
    (play_trace demo_github demo_preparation [])) _).
  vm_compute. reflexivity.
Defined.
